(** * cesium-sensors: sensor volumes, boundary sampling and entity visualizers

    A shallow embedding of the sensor code of the repository (the bundled
    library source) together with the properties its specification states.

    Numbers.  JavaScript numbers are IEEE 754 doubles.  The boundary sampler
    [computeDirections] only adds, subtracts and compares, so it is written
    once over an arithmetic interface ([Number]) and read in two ways: over
    Rocq's primitive binary64 floats, which is what the program executes, and
    over the real numbers.  The geometry ([computePositions],
    [updateDirections], the shadow test of the shader) uses the transcendental
    functions of [Math], which ECMAScript leaves implementation-approximated;
    it is modelled over the reals.  A real quotient has no value at a zero
    divisor, and there the model says what the program does: the half angle
    between opposite directions stays below a quarter turn because
    [Math.atan2] ends at the double [Math.PI]
    ([Cartesian3_angleBetween]), and a rectangular sensor with a half angle
    of zero is computed with the infinities, NaN and signed zeros of
    IEEE 754 ([IEEE.updateDirections]). *)

From Stdlib Require Import Floats Uint63.
From stdpp Require Import gmap strings list.
From Stdlib Require Import Reals Machin Lra Lia ZArith.

(** ** Numbers *)

(** The operations of a JavaScript number that the sampler uses. *)
Class Number (num : Type) := {
  of_Z : Z -> num;                  (* an integer literal *)
  Math_PI : num;                    (* Math.PI *)
  add : num -> num -> num;
  sub : num -> num -> num;
  mul : num -> num -> num;
  div : num -> num -> num;
  lt : num -> num -> bool;          (* a < b *)
  strict_eq : num -> num -> bool;   (* a === b *)
  to_boolean : num -> bool          (* the truth value of  if (a)  *)
}.

Module CesiumMath.
Section Constants.
Context {num : Type} `{Number num}.

(** [CesiumMath.TWO_PI = 2.0 * Math.PI]. *)
Definition TWO_PI : num := mul (of_Z 2) Math_PI.

(** [CesiumMath.PI_OVER_TWO = Math.PI * 0.5]. *)
Definition PI_OVER_TWO : num := mul Math_PI (div (of_Z 1) (of_Z 2)).

(** [CesiumMath.RADIANS_PER_DEGREE = Math.PI / 180.0]. *)
Definition RADIANS_PER_DEGREE : num := div Math_PI (of_Z 180).

(** [CesiumMath.toRadians(degrees) = degrees * RADIANS_PER_DEGREE]. *)
Definition toRadians (degrees : num) : num := mul degrees RADIANS_PER_DEGREE.
End Constants.
End CesiumMath.

(** IEEE 754 binary64, the numbers of the running program. *)
Definition float_of_Z (z : Z) : float :=
  match z with
  | Zneg p => PrimFloat.opp (PrimFloat.of_uint63 (Uint63.of_Z (Zpos p)))
  | _ => PrimFloat.of_uint63 (Uint63.of_Z z)
  end.

#[export] Instance float_Number : Number float := {|
  of_Z := float_of_Z;
  Math_PI := 0x1.921fb54442d18p+1%float;
  add := PrimFloat.add;
  sub := PrimFloat.sub;
  mul := PrimFloat.mul;
  div := PrimFloat.div;
  lt := PrimFloat.ltb;
  strict_eq := PrimFloat.eqb;
  (* +0, -0 and NaN are falsy *)
  to_boolean := fun x => PrimFloat.eqb x x && negb (PrimFloat.eqb x 0%float)
|}.

(** The real numbers: the same operations without rounding, infinities or
    NaN. *)
Definition Rltb (a b : R) : bool := if Rlt_dec a b then true else false.
Definition Reqb (a b : R) : bool := if Req_dec_T a b then true else false.

#[export] Instance R_Number : Number R := {|
  of_Z := IZR;
  Math_PI := PI;
  add := Rplus;
  sub := Rminus;
  mul := Rmult;
  div := Rdiv;
  lt := Rltb;
  strict_eq := Reqb;
  to_boolean := fun x => negb (Reqb x 0%R)
|}.

(** ** Directions *)

(** Cesium's [Spherical]: clock (azimuth), cone (elevation from +z) and
    magnitude. *)
Record Spherical (num : Type) := mkSpherical {
  clock : num;
  cone : num;
  magnitude : num
}.
Arguments mkSpherical {num} _ _ _.
Arguments clock {num} _.
Arguments cone {num} _.
Arguments magnitude {num} _.

Section Sampler.
Context {num : Type} `{Number num}.

(** [assignSpherical(index, array, clock, cone)].  The slot [array[index]] is
    reused when it holds an object and filled with a new [Spherical]
    otherwise; either way it ends up holding [(clock, cone, 1.0)].  The
    callers count [index] up from 0, so [index <= array.length] and an
    undefined slot is the one just past the end. *)
Definition assignSpherical (index : nat) (array : list (Spherical num))
    (clock cone : num) : list (Spherical num) :=
  match array !! index with
  | Some _ => <[index := mkSpherical clock cone (of_Z 1)]> array
  | None => array ++ [mkSpherical clock cone (of_Z 1)]
  end.

(** [for (angle = ...; angle < limit; angle += angleStep)
       assignSpherical(i++, directions, angle, cone);]
    The loop of the source has no bound of its own: [fuel] counts the
    iterations that may still run and [None] says that they ran out. *)
Fixpoint sweepUp (fuel : nat) (angleStep angle limit cone : num)
    (i : nat) (directions : list (Spherical num))
    : option (nat * list (Spherical num)) :=
  if lt angle limit then
    match fuel with
    | O => None
    | S fuel' =>
        sweepUp fuel' angleStep (add angle angleStep) limit cone (S i)
                (assignSpherical i directions angle cone)
    end
  else Some (i, directions).

(** [for (angle = ...; angle > limit; angle -= angleStep)
       assignSpherical(i++, directions, angle, cone);] *)
Fixpoint sweepDown (fuel : nat) (angleStep angle limit cone : num)
    (i : nat) (directions : list (Spherical num))
    : option (nat * list (Spherical num)) :=
  if lt limit angle then
    match fuel with
    | O => None
    | S fuel' =>
        sweepDown fuel' angleStep (sub angle angleStep) limit cone (S i)
                  (assignSpherical i directions angle cone)
    end
  else Some (i, directions).

(** [computeDirections(primitive, minimumClockAngle, maximumClockAngle,
    innerHalfAngle, outerHalfAngle)], as a function from the array held by
    [primitive.directions] to the array assigned back to it
    ([directions.length = i] cuts it to the [i] slots written). *)
Definition computeDirections (fuel : nat) (directions : list (Spherical num))
    (minimumClockAngle maximumClockAngle innerHalfAngle outerHalfAngle : num)
    : option (list (Spherical num)) :=
  let angleStep := CesiumMath.toRadians (of_Z 2) in
  if strict_eq minimumClockAngle (of_Z 0)
     && strict_eq maximumClockAngle CesiumMath.TWO_PI then
    (* No clock angle limits, so this is just a circle. *)
    match sweepUp fuel angleStep (of_Z 0) CesiumMath.TWO_PI outerHalfAngle
                  0 directions with
    | None => None
    | Some (i, directions) => Some (take i directions)
    end
  else
    (* There are clock angle limits. *)
    match sweepUp fuel angleStep minimumClockAngle maximumClockAngle
                  outerHalfAngle 0 directions with
    | None => None
    | Some (i, directions) =>
        let directions :=
          assignSpherical i directions maximumClockAngle outerHalfAngle in
        let i := S i in
        if to_boolean innerHalfAngle then
          match sweepDown fuel angleStep maximumClockAngle minimumClockAngle
                          innerHalfAngle i directions with
          | None => None
          | Some (i, directions) =>
              let directions :=
                assignSpherical i directions minimumClockAngle
                                innerHalfAngle in
              Some (take (S i) directions)
          end
        else
          let directions :=
            assignSpherical i directions maximumClockAngle (of_Z 0) in
          Some (take (S i) directions)
    end.

(** The values a loop variable takes: [n] values from [a], each the [next]
    of the one before. *)
Fixpoint steps (next : num -> num) (n : nat) (a : num) : list num :=
  match n with
  | O => []
  | S n' => a :: steps next n' (next a)
  end.

(** A loop [for (x = a; continue(x); x = next(x))] runs its body exactly [n]
    times: the test holds at the first [n] values and fails at the one
    after. *)
Definition runs (continue : num -> bool) (next : num -> num) (n : nat)
    (a : num) : bool :=
  forallb continue (steps next n a) && negb (continue (Nat.iter n next a)).

(** The samples written for a list of clock angles at one cone angle. *)
Definition samples (cone : num) (clocks : list num) : list (Spherical num) :=
  map (fun clock => mkSpherical clock cone (of_Z 1)) clocks.
End Sampler.


(** ** Completions *)

(** What a call ends with: a value, or a thrown error. *)
Inductive Error :=
| DeveloperError (message : string)
| TypeError.

Inductive Completion (A : Type) :=
| Normal (value : A)
| Throw (error : Error).
Arguments Normal {A} _.
Arguments Throw {A} _.

Definition bind {A B : Type} (c : Completion A) (f : A -> Completion B)
    : Completion B :=
  match c with
  | Normal a => f a
  | Throw e => Throw e
  end.

Declare Scope completion_scope.
Delimit Scope completion_scope with completion.
Notation "'let!' x ':=' c 'in' k" :=
  (bind c (fun x => k))
  (at level 10, x pattern, c at level 100, k at level 200)
  : completion_scope.

(** A JavaScript number that may be infinite or not a number, as a sensor's
    radius may (its default is [Number.POSITIVE_INFINITY]); the finite values
    are real numbers. *)
Inductive number :=
| Num (value : R)
| Infinity
| NegativeInfinity
| NaN.

(** [isFinite(a)]. *)
Definition isFinite (a : number) : bool :=
  match a with
  | Num _ => true
  | _ => false
  end.

(** [a < 0.0]. *)
Definition lessThanZero (a : number) : bool :=
  match a with
  | Num value => Rltb value 0
  | NegativeInfinity => true
  | Infinity | NaN => false
  end.

(** ** Geometry over the reals *)

Section Geometry.
Open Scope R_scope.

(** [array[index]]: [undefined] (here [None]) outside the array. *)
Definition element {A : Type} (array : list A) (index : Z) : option A :=
  if (index <? 0)%Z then None else array !! Z.to_nat index.

(** [typedArray[index] = value]: a store outside a typed array is ignored. *)
Definition store (typedArray : list R) (index : Z) (value : R) : list R :=
  if (index <? 0)%Z then typedArray
  else <[Z.to_nat index := value]> typedArray.

(** Cesium's [Cartesian3] (the library the sensors are built on). *)
Record Cartesian3 := mkCartesian3 { x : R; y : R; z : R }.

Definition Cartesian3_ZERO : Cartesian3 := mkCartesian3 0 0 0.

(** [Cartesian3.fromSpherical]: clock is the angle in the x-y plane from +x,
    cone the angle from +z. *)
Definition Cartesian3_fromSpherical (spherical : Spherical R) : Cartesian3 :=
  let radial := magnitude spherical * sin (cone spherical) in
  mkCartesian3 (radial * cos (clock spherical))
               (radial * sin (clock spherical))
               (magnitude spherical * cos (cone spherical)).

Definition Cartesian3_magnitudeSquared (cartesian : Cartesian3) : R :=
  x cartesian * x cartesian + y cartesian * y cartesian
  + z cartesian * z cartesian.

Definition Cartesian3_magnitude (cartesian : Cartesian3) : R :=
  sqrt (Cartesian3_magnitudeSquared cartesian).

Definition Cartesian3_multiplyByScalar (cartesian : Cartesian3) (scalar : R)
    : Cartesian3 :=
  mkCartesian3 (x cartesian * scalar) (y cartesian * scalar)
               (z cartesian * scalar).

Definition Cartesian3_normalize (cartesian : Cartesian3) : Cartesian3 :=
  let magnitude := Cartesian3_magnitude cartesian in
  mkCartesian3 (x cartesian / magnitude) (y cartesian / magnitude)
               (z cartesian / magnitude).

Definition Cartesian3_dot (left right : Cartesian3) : R :=
  x left * x right + y left * y right + z left * z right.

Definition Cartesian3_cross (left right : Cartesian3) : Cartesian3 :=
  mkCartesian3 (y left * z right - z left * y right)
               (z left * x right - x left * z right)
               (x left * y right - y left * x right).

(** [Math.atan2(y, x)]: the angle of the point [(x, y)], in [(-PI, PI]].
    The reals have one zero: where the program tells -0 from +0 (a zero [y]
    left of the origin, both arguments zero) the value is that of +0. *)
Definition Math_atan2 (y x : R) : R :=
  if Rlt_dec 0 x then atan (y / x)
  else if Rlt_dec x 0 then
    if Rle_dec 0 y then atan (y / x) + PI else atan (y / x) - PI
  else if Rlt_dec 0 y then PI / 2
  else if Rlt_dec y 0 then - (PI / 2)
  else 0.

(** The double [Math.PI], 3.141592653589793: the binary64 number nearest to
    the real PI, and below it. *)
Definition Math_PI_double : R := 884279719003555 / 281474976710656.

(** [Cartesian3.angleBetween]: the angle between the two vectors, from the
    sine and cosine of their normalised copies.  What [Math.atan2] returns is
    a double, and the doubles of its range end at [Math.PI]: for vectors that
    are opposite, or so nearly that the angle lies above that double, the
    result is [Math.PI] and not the real PI.  This one rounding is kept,
    because [computePositions] divides by the cosine of half the angle, which
    so is never zero in the program; all else is exact. *)
Definition Cartesian3_angleBetween (left right : Cartesian3) : R :=
  let left := Cartesian3_normalize left in
  let right := Cartesian3_normalize right in
  let cosine := Cartesian3_dot left right in
  let sine := Cartesian3_magnitude (Cartesian3_cross left right) in
  Rmin (Math_atan2 sine cosine) Math_PI_double.

(** [const FAR = 5906376272000.0;  // distance from the Sun to Pluto in
    meters.] *)
Definition FAR : R := 5906376272000.

(** The radius the mesh is built for:
    [isFinite(customSensorVolume.radius) ? customSensorVolume.radius : FAR]. *)
Definition meshRadius (radius : number) : R :=
  match radius with
  | Num r => r
  | _ => FAR
  end.

(** The loop of [computePositions],
    [for (i = length - 2, j = length - 1, k = 0; k < length; i = j++, j = k++)],
    from the state [(i, j, k)]: after the body the new [i] is the old [j],
    the new [j] the old [k], and [k] is one more.  [remaining] is
    [length - k], the number of iterations still to run.  Reading a
    direction outside the array makes [fromSpherical] fail on [undefined].
    [positions] is a [Float32Array]; over the reals a store keeps the value
    as it is. *)
Fixpoint computePositions_loop (remaining : nat)
    (directions : list (Spherical R)) (r : R) (i j k : Z)
    (positions : list R) (boundingVolumePositions : list Cartesian3)
    : Completion (list R * list Cartesian3) :=
  match remaining with
  | O => Normal (positions, boundingVolumePositions)
  | S remaining' =>
      match element directions i, element directions j,
            element directions k with
      | Some di, Some dj, Some dk =>
          let n0 := Cartesian3_fromSpherical di in
          let n1 := Cartesian3_fromSpherical dj in
          let n2 := Cartesian3_fromSpherical dk in
          (* Extend position so the volume encompasses the sensor's
             radius. *)
          let theta := Rmax (Cartesian3_angleBetween n0 n1)
                            (Cartesian3_angleBetween n1 n2) in
          let distance := r / cos (theta * 0.5) in
          let p := Cartesian3_multiplyByScalar n1 distance in
          let positions := store positions (j * 3) (x p) in
          let positions := store positions (j * 3 + 1) (y p) in
          let positions := store positions (j * 3 + 2) (z p) in
          computePositions_loop remaining' directions r j k (k + 1)
            positions (boundingVolumePositions ++ [p])
      | _, _, _ => Throw TypeError
      end
  end.

(** [computePositions(customSensorVolume)]: the positions array and the
    points handed to [BoundingSphere.fromPoints]. *)
Definition computePositions (directions : list (Spherical R))
    (radius : number) : Completion (list R * list Cartesian3) :=
  let length := length directions in
  let positions := repeat 0 (3 * length) in
  let r := meshRadius radius in
  computePositions_loop length directions r
    (Z.of_nat length - 2) (Z.of_nat length - 1) 0
    positions [Cartesian3_ZERO].

(** The three numbers at [positions[index * 3 ..]] as a point. *)
Definition positionAt (positions : list R) (index : nat) : Cartesian3 :=
  mkCartesian3 (default 0 (positions !! (index * 3)%nat))
               (default 0 (positions !! (index * 3 + 1)%nat))
               (default 0 (positions !! (index * 3 + 2)%nat)).

(** The loop of [createVertexArray],
    [for (i = length - 1, j = 0; j < length; i = j++)]: one triangle per
    edge, the sensor vertex, [p1] and [p0], each followed by the face
    normal. *)
Fixpoint createVertexArray_loop (remaining : nat) (positions : list R)
    (i j : nat) (vertices : list R) : list R :=
  match remaining with
  | O => vertices
  | S remaining' =>
      let p0 := positionAt positions i in
      let p1 := positionAt positions j in
      (* Per-face normals *)
      let n := Cartesian3_normalize (Cartesian3_cross p1 p0) in
      createVertexArray_loop remaining' positions j (S j)
        (vertices ++ [0; 0; 0; x n; y n; z n;
                      x p1; y p1; z p1; x n; y n; z n;
                      x p0; y p0; z p0; x n; y n; z n])
  end.

(** The vertex data [createVertexArray] hands to the vertex buffer. *)
Definition meshVertices (directions : list (Spherical R))
    (positions : list R) : list R :=
  let length := length directions in
  createVertexArray_loop length positions (length - 1) 0 [].

(** [updateDirections(rectangularSensor)], as a function from the two
    half-angles and the array held by [_customSensor.directions] to the
    array assigned back to it.  This is the function where both tangents are
    finite and not zero; [IEEE.updateDirections] below is the function on all
    numbers, a half angle of zero included, whose quotient is an infinity or
    NaN. *)
Definition updateDirections (xHalfAngle yHalfAngle : R)
    (directions : list (Spherical R)) : list (Spherical R) :=
  (* At 90 degrees the sensor is completely open, and tan() goes to
     infinity. *)
  let tanX := tan (Rmin xHalfAngle (CesiumMath.toRadians 89)) in
  let tanY := tan (Rmin yHalfAngle (CesiumMath.toRadians 89)) in
  let theta := atan (tanX / tanY) in
  let cone := atan (sqrt (tanX * tanX + tanY * tanY)) in
  let directions := assignSpherical 0 directions theta cone in
  let directions :=
    assignSpherical 1 directions (CesiumMath.toRadians 180 - theta) cone in
  let directions :=
    assignSpherical 2 directions (CesiumMath.toRadians 180 + theta) cone in
  let directions := assignSpherical 3 directions (- theta) cone in
  take 4 directions.

(** The shader function
    [bool inSensorShadow(vec3 coneVertexWC, vec3 pointWC)]; [D] is the
    uniform [czm_ellipsoidInverseRadii] and [D * v] the componentwise
    product. *)
Definition vec3_scale (D v : Cartesian3) : Cartesian3 :=
  mkCartesian3 (x D * x v) (y D * y v) (z D * z v).

Definition vec3_minus (u v : Cartesian3) : Cartesian3 :=
  mkCartesian3 (x u - x v) (y u - y v) (z u - z v).

(** [return (d < -test) && ((d / length(temp)) < -sqrt(test));]  The shading
    language evaluates the right operand of [&&] only when the left one is
    true, leaves [sqrt] of a negative number undefined and the quotient by
    zero unspecified: [None] is a result the language does not define. *)
Definition inSensorShadow (D coneVertexWC pointWC : Cartesian3)
    : option bool :=
  let q := vec3_scale D coneVertexWC in
  let qMagnitudeSquared := Cartesian3_dot q q in
  let test := qMagnitudeSquared - 1 in
  let temp := vec3_minus (vec3_scale D pointWC) q in
  let d := Cartesian3_dot temp q in
  if Rltb d (- test) then
    if Rltb test 0 || Reqb (Cartesian3_magnitude temp) 0 then None
    else Some (Rltb (d / Cartesian3_magnitude temp) (- sqrt test))
  else Some false.
End Geometry.

(** ** Numbers with the special values of IEEE 754

    [updateDirections] divides one tangent by the other, and a half angle of
    zero is a value its setters accept: the quotient is then an infinity or
    NaN, and the sign of the zero decides which infinity.  [IEEE.t] is the
    arithmetic of JavaScript numbers with these values and without rounding:
    a finite number is a real, [Finite 0] is +0 and [NegativeZero] is -0. *)
Module IEEE.
Inductive t :=
| Finite (value : R)
| NegativeZero
| PlusInfinity
| MinusInfinity
| NotANumber.

Section Arithmetic.
Open Scope R_scope.

Definition zero (negative : bool) : t :=
  if negative then NegativeZero else Finite 0.

Definition infinity (negative : bool) : t :=
  if negative then MinusInfinity else PlusInfinity.

(** The sign bit of a number that is not NaN. *)
Definition signbit (a : t) : bool :=
  match a with
  | Finite value => Rltb value 0
  | NegativeZero | MinusInfinity => true
  | PlusInfinity | NotANumber => false
  end.

Definition isZero (a : t) : bool :=
  match a with
  | Finite value => Reqb value 0
  | NegativeZero => true
  | _ => false
  end.

Definition isInfinite (a : t) : bool :=
  match a with
  | PlusInfinity | MinusInfinity => true
  | _ => false
  end.

(** The real number a finite value stands for. *)
Definition toReal (a : t) : R :=
  match a with
  | Finite value => value
  | _ => 0
  end.

(** [-a]. *)
Definition negate (a : t) : t :=
  match a with
  | Finite value => if Reqb value 0 then NegativeZero else Finite (- value)
  | NegativeZero => Finite 0
  | PlusInfinity => MinusInfinity
  | MinusInfinity => PlusInfinity
  | NotANumber => NotANumber
  end.

(** [a + b]: the infinities of opposite sign have no sum; a sum that is zero
    is +0, unless both terms are -0. *)
Definition plus (a b : t) : t :=
  match a, b with
  | NotANumber, _ | _, NotANumber => NotANumber
  | PlusInfinity, MinusInfinity | MinusInfinity, PlusInfinity => NotANumber
  | PlusInfinity, _ | _, PlusInfinity => PlusInfinity
  | MinusInfinity, _ | _, MinusInfinity => MinusInfinity
  | NegativeZero, NegativeZero => NegativeZero
  | _, _ => Finite (toReal a + toReal b)
  end.

(** [a - b]. *)
Definition minus (a b : t) : t := plus a (negate b).

(** [a * b]: the sign is the product of the signs; an infinity times a zero
    is NaN. *)
Definition times (a b : t) : t :=
  match a, b with
  | NotANumber, _ | _, NotANumber => NotANumber
  | _, _ =>
      let negative := xorb (signbit a) (signbit b) in
      if isInfinite a || isInfinite b then
        if isZero a || isZero b then NotANumber else infinity negative
      else if isZero a || isZero b then zero negative
      else Finite (toReal a * toReal b)
  end.

(** [a / b]: a number that is not zero over a zero is an infinity, a zero
    over a zero and an infinity over an infinity are NaN; the sign is the
    product of the signs. *)
Definition divide (a b : t) : t :=
  match a, b with
  | NotANumber, _ | _, NotANumber => NotANumber
  | _, _ =>
      let negative := xorb (signbit a) (signbit b) in
      if isInfinite a then
        if isInfinite b then NotANumber else infinity negative
      else if isInfinite b then zero negative
      else if isZero b then
        if isZero a then NotANumber else infinity negative
      else if isZero a then zero negative
      else Finite (toReal a / toReal b)
  end.

(** [a < b]: false when either is NaN; -0 and +0 are equal. *)
Definition lessThan (a b : t) : bool :=
  match a, b with
  | NotANumber, _ | _, NotANumber => false
  | MinusInfinity, MinusInfinity => false
  | MinusInfinity, _ => true
  | _, MinusInfinity => false
  | PlusInfinity, _ => false
  | _, PlusInfinity => true
  | _, _ => Rltb (toReal a) (toReal b)
  end.

(** [a === b]. *)
Definition strictEquals (a b : t) : bool :=
  match a, b with
  | NotANumber, _ | _, NotANumber => false
  | PlusInfinity, PlusInfinity | MinusInfinity, MinusInfinity => true
  | PlusInfinity, _ | _, PlusInfinity => false
  | MinusInfinity, _ | _, MinusInfinity => false
  | _, _ => Reqb (toReal a) (toReal b)
  end.

(** The truth value of [if (a)]: zeros and NaN are falsy. *)
Definition toBoolean (a : t) : bool :=
  match a with
  | NotANumber => false
  | _ => negb (isZero a)
  end.

(** [Math.min(a, b)]: NaN when either is NaN; -0 is the smaller zero. *)
Definition Math_min (a b : t) : t :=
  match a, b with
  | NotANumber, _ | _, NotANumber => NotANumber
  | _, _ =>
      if lessThan a b then a
      else if lessThan b a then b
      else if signbit a then a else b
  end.

(** [Math.tan(a)]: a zero gives itself, an infinity NaN.  (No double is an
    odd multiple of the real [PI / 2], where the tangent has no value.) *)
Definition Math_tan (a : t) : t :=
  match a with
  | Finite value => Finite (tan value)
  | NegativeZero => NegativeZero
  | _ => NotANumber
  end.

(** [Math.sqrt(a)]: NaN for a negative number, a zero gives itself. *)
Definition Math_sqrt (a : t) : t :=
  match a with
  | Finite value => if Rltb value 0 then NotANumber else Finite (sqrt value)
  | NegativeZero => NegativeZero
  | PlusInfinity => PlusInfinity
  | MinusInfinity | NotANumber => NotANumber
  end.

(** [Math.atan(a)]: a zero gives itself, the infinities give a quarter turn
    either way. *)
Definition Math_atan (a : t) : t :=
  match a with
  | Finite value => Finite (atan value)
  | NegativeZero => NegativeZero
  | PlusInfinity => Finite (PI / 2)
  | MinusInfinity => Finite (- (PI / 2))
  | NotANumber => NotANumber
  end.

End Arithmetic.

#[global] Instance IEEE_Number : Number t := {|
  of_Z := fun z => Finite (IZR z);
  Math_PI := Finite PI;
  add := plus;
  sub := minus;
  mul := times;
  div := divide;
  lt := lessThan;
  strict_eq := strictEquals;
  to_boolean := toBoolean
|}.

(** [updateDirections(rectangularSensor)] on these numbers, as a function
    from the two half angles and the array held by
    [_customSensor.directions] to the array assigned back to it.  The
    function of the same name on the reals is this one where every value is
    finite and no tangent is zero. *)
Definition updateDirections (xHalfAngle yHalfAngle : t)
    (directions : list (Spherical t)) : list (Spherical t) :=
  (* At 90 degrees the sensor is completely open, and tan() goes to
     infinity. *)
  let tanX :=
    Math_tan (Math_min xHalfAngle (CesiumMath.toRadians (of_Z 89))) in
  let tanY :=
    Math_tan (Math_min yHalfAngle (CesiumMath.toRadians (of_Z 89))) in
  let theta := Math_atan (div tanX tanY) in
  let cone := Math_atan (Math_sqrt (add (mul tanX tanX) (mul tanY tanY))) in
  let directions := assignSpherical 0 directions theta cone in
  let directions :=
    assignSpherical 1 directions
      (sub (CesiumMath.toRadians (of_Z 180)) theta) cone in
  let directions :=
    assignSpherical 2 directions
      (add (CesiumMath.toRadians (of_Z 180)) theta) cone in
  let directions := assignSpherical 3 directions (negate theta) cone in
  take 4 directions.

(** A direction of real numbers as a direction of these. *)
Definition ofSpherical (spherical : Spherical R) : Spherical t :=
  mkSpherical (Finite (clock spherical)) (Finite (cone spherical))
              (Finite (magnitude spherical)).
End IEEE.

(** The cyclic neighbours of index [j] in a polygon of [N] directions. *)
Definition prevIndex (N j : nat) : nat := if Nat.eqb j 0 then N - 1 else j - 1.
Definition nextIndex (N j : nat) : nat := if Nat.eqb (S j) N then 0 else S j.

(** The point at which the mesher puts the vertex of direction [curr], whose
    neighbours on the polygon are [prev] and [next]. *)
Definition extendedPosition (r : R) (prev curr next : Spherical R)
    : Cartesian3 :=
  let n0 := Cartesian3_fromSpherical prev in
  let n1 := Cartesian3_fromSpherical curr in
  let n2 := Cartesian3_fromSpherical next in
  let theta := Rmax (Cartesian3_angleBetween n0 n1)
                    (Cartesian3_angleBetween n1 n2) in
  Cartesian3_multiplyByScalar n1 (r / cos (theta * 0.5))%R.

Definition sensorVertex (directions : list (Spherical R)) (r : R) (j : nat)
    : option Cartesian3 :=
  let N := length directions in
  match directions !! prevIndex N j, directions !! j,
        directions !! nextIndex N j with
  | Some prev, Some curr, Some next => Some (extendedPosition r prev curr next)
  | _, _, _ => None
  end.

(** ** The rendering library *)

(** The objects of Cesium that the sensors pass around without looking
    inside them, with the operations used on them. *)
Class Cesium := {
  JulianDate : Type;
  Quaternion : Type;
  Quaternion_equals : Quaternion -> Quaternion -> bool;
  Matrix4 : Type;
  Matrix4_new : Matrix4;
  Matrix4_IDENTITY : Matrix4;
  Matrix4_equals : Matrix4 -> Matrix4 -> bool;
  (* Matrix4.fromRotationTranslation(Matrix3.fromQuaternion(orientation),
     position) *)
  Matrix4_fromRotationTranslation : Quaternion -> Cartesian3 -> Matrix4;
  Color : Type;
  Color_WHITE : Color;
  Material : Type;
  (* Material.fromType(Material.ColorType) *)
  Material_ColorType : Material;
  Material_isTranslucent : Material -> bool;
  (* a === b on two materials: the same object *)
  Material_is : Material -> Material -> bool;
  MaterialProperty : Type;
  MaterialProperty_getValue :
    JulianDate -> option MaterialProperty -> option Material -> Material
}.

Inductive SceneMode := MORPHING | COLUMBUS_VIEW | SCENE2D | SCENE3D.

Definition SceneMode_is (a b : SceneMode) : bool :=
  match a, b with
  | MORPHING, MORPHING | COLUMBUS_VIEW, COLUMBUS_VIEW
  | SCENE2D, SCENE2D | SCENE3D, SCENE3D => true
  | _, _ => false
  end.

Inductive Pass := OPAQUE | TRANSLUCENT.
Inductive CullFace := FRONT | BACK.

(** The options given to [RenderState.fromCache]. *)
Record RenderState := {
  depthTest_enabled : bool;
  depthMask : bool;
  blending_ALPHA_BLEND : bool;
  cull_face : option CullFace
}.

(** Resources of the graphics context, each known by a handle. *)
Record VertexArray := { VertexArray_handle : nat; vertices : list R }.
Record PickId := { PickId_handle : nat }.

Inductive ContextEvent :=
| VertexArray_created (handle : nat)
| VertexArray_destroyed (handle : nat)
| ShaderProgram_replaced (old : option nat) (new : nat)
| ShaderProgram_destroyed (handle : nat)
| PickId_created (handle : nat)
| PickId_destroyed (handle : nat)
| Material_updated.

(** The graphics context: the next free handle and what was done so far. *)
Record Context := { nextHandle : nat; events : list ContextEvent }.

Definition Context_emit (event : ContextEvent) (context : Context) : Context :=
  {| nextHandle := nextHandle context; events := events context ++ [event] |}.

Definition Context_allocate (context : Context) : nat * Context :=
  (nextHandle context,
   {| nextHandle := S (nextHandle context); events := events context |}).

(** [resource = resource && resource.destroy()] for a vertex array. *)
Definition VertexArray_destroy (resource : option VertexArray)
    (context : Context) : Context :=
  match resource with
  | Some va => Context_emit (VertexArray_destroyed (VertexArray_handle va)) context
  | None => context
  end.

Definition PickId_destroy (resource : option PickId) (context : Context)
    : Context :=
  match resource with
  | Some pickId => Context_emit (PickId_destroyed (PickId_handle pickId)) context
  | None => context
  end.

Section Rendering.
Context `{Cesium}.

(** A bounding sphere, kept as the way it was computed. *)
Inductive BoundingSphere :=
| BoundingSphere_new
| BoundingSphere_fromPoints (positions : list Cartesian3)
| BoundingSphere_transform (sphere : BoundingSphere) (transform : Matrix4).

(** A shader program made by [ShaderProgram.replaceCache] from the sources
    [SensorVolume], the material's shader source and [CustomSensorVolumeFS]. *)
Record ShaderProgram := {
  ShaderProgram_handle : nat;
  ShaderProgram_material : Material;
  pickColorQualifier : bool
}.

(** A uniform map [combine(this._uniforms, material._uniforms)], with the
    value [u_normalDirection] returns and whether [czm_pickColor] was added. *)
Record UniformMap := {
  uniforms_material : Material;
  u_normalDirection : R;
  czm_pickColor : bool
}.

Definition ShaderProgram_destroy (resource : option ShaderProgram)
    (context : Context) : Context :=
  match resource with
  | Some program =>
      Context_emit (ShaderProgram_destroyed (ShaderProgram_handle program))
                   context
  | None => context
  end.
End Rendering.

Module DrawCommand.
Section Def.
Context `{Cesium}.

(** The fields of a [DrawCommand] that the sensor writes after construction
    ([primitiveType], [boundingVolume] and [owner] are set once by the
    constructor). *)
Record t := mk {
  vertexArray : option VertexArray;
  renderState : option RenderState;
  pass : option Pass;
  shaderProgram : option ShaderProgram;
  uniformMap : option UniformMap;
  modelMatrix : option Matrix4
}.

Definition new : t :=
  {| vertexArray := None; renderState := None; pass := None;
     shaderProgram := None; uniformMap := None; modelMatrix := None |}.

Definition set_vertexArray (value : option VertexArray) (this : t) : t :=
  {| vertexArray := value; renderState := renderState this; pass := pass
     this; shaderProgram := shaderProgram this; uniformMap := uniformMap
     this; modelMatrix := modelMatrix this |}.

Definition set_renderState (value : option RenderState) (this : t) : t :=
  {| vertexArray := vertexArray this; renderState := value; pass := pass
     this; shaderProgram := shaderProgram this; uniformMap := uniformMap
     this; modelMatrix := modelMatrix this |}.

Definition set_pass (value : option Pass) (this : t) : t :=
  {| vertexArray := vertexArray this; renderState := renderState this; pass
     := value; shaderProgram := shaderProgram this; uniformMap := uniformMap
     this; modelMatrix := modelMatrix this |}.

Definition set_shaderProgram (value : option ShaderProgram) (this : t) : t :=
  {| vertexArray := vertexArray this; renderState := renderState this; pass
     := pass this; shaderProgram := value; uniformMap := uniformMap this;
     modelMatrix := modelMatrix this |}.

Definition set_uniformMap (value : option UniformMap) (this : t) : t :=
  {| vertexArray := vertexArray this; renderState := renderState this; pass
     := pass this; shaderProgram := shaderProgram this; uniformMap := value;
     modelMatrix := modelMatrix this |}.

Definition set_modelMatrix (value : option Matrix4) (this : t) : t :=
  {| vertexArray := vertexArray this; renderState := renderState this; pass
     := pass this; shaderProgram := shaderProgram this; uniformMap :=
     uniformMap this; modelMatrix := value |}.

End Def.
End DrawCommand.

(** The part of [frameState] a primitive reads and writes. *)
Module FrameState.
Section Def.
Context `{Cesium}.

Record t := mk {
  mode : SceneMode;
  passes_render : bool;
  passes_pick : bool;
  context : Context;
  commandList : list DrawCommand.t
}.

Definition set_context (value : Context) (this : t) : t :=
  {| mode := mode this; passes_render := passes_render this;
     passes_pick := passes_pick this; context := value;
     commandList := commandList this |}.

(** [commandList.push(...)]. *)
Definition push (commands : list DrawCommand.t) (this : t) : t :=
  {| mode := mode this; passes_render := passes_render this;
     passes_pick := passes_pick this; context := context this;
     commandList := commandList this ++ commands |}.
End Def.
End FrameState.

(** ** The volume primitive *)

Module CustomSensorVolume.
Section Def.
Context `{Cesium}.
Open Scope completion_scope.

Record t := mk {
  show : bool;
  showIntersection : bool;
  showThroughEllipsoid : bool;
  modelMatrix : Matrix4;
  radius : number;
  lateralSurfaceMaterial : option Material;
  intersectionColor : Color;
  intersectionWidth : number;
  id : option string;
  _pickId : option PickId;
  _frontFaceColorCommand : DrawCommand.t;
  _backFaceColorCommand : DrawCommand.t;
  _pickCommand : DrawCommand.t;
  _boundingSphere : BoundingSphere;
  _boundingSphereWC : BoundingSphere;
  _showThroughEllipsoid : bool;
  _modelMatrix : Matrix4;
  _directions : list (Spherical R);
  _directionsDirty : bool;
  _lateralSurfaceMaterial : option Material;
  _translucent : option bool;
  _id : option string;
  _mode : SceneMode;
  _va : option VertexArray;
  isDestroyed : bool
}.

Definition set_show (value : bool) (this : t) : t :=
  {| show := value; showIntersection := showIntersection this;
     showThroughEllipsoid := showThroughEllipsoid this; modelMatrix :=
     modelMatrix this; radius := radius this; lateralSurfaceMaterial :=
     lateralSurfaceMaterial this; intersectionColor := intersectionColor
     this; intersectionWidth := intersectionWidth this; id := id this;
     _pickId := _pickId this; _frontFaceColorCommand :=
     _frontFaceColorCommand this; _backFaceColorCommand :=
     _backFaceColorCommand this; _pickCommand := _pickCommand this;
     _boundingSphere := _boundingSphere this; _boundingSphereWC :=
     _boundingSphereWC this; _showThroughEllipsoid := _showThroughEllipsoid
     this; _modelMatrix := _modelMatrix this; _directions := _directions
     this; _directionsDirty := _directionsDirty this;
     _lateralSurfaceMaterial := _lateralSurfaceMaterial this; _translucent
     := _translucent this; _id := _id this; _mode := _mode this; _va := _va
     this; isDestroyed := isDestroyed this |}.

Definition set_showIntersection (value : bool) (this : t) : t :=
  {| show := show this; showIntersection := value; showThroughEllipsoid :=
     showThroughEllipsoid this; modelMatrix := modelMatrix this; radius :=
     radius this; lateralSurfaceMaterial := lateralSurfaceMaterial this;
     intersectionColor := intersectionColor this; intersectionWidth :=
     intersectionWidth this; id := id this; _pickId := _pickId this;
     _frontFaceColorCommand := _frontFaceColorCommand this;
     _backFaceColorCommand := _backFaceColorCommand this; _pickCommand :=
     _pickCommand this; _boundingSphere := _boundingSphere this;
     _boundingSphereWC := _boundingSphereWC this; _showThroughEllipsoid :=
     _showThroughEllipsoid this; _modelMatrix := _modelMatrix this;
     _directions := _directions this; _directionsDirty := _directionsDirty
     this; _lateralSurfaceMaterial := _lateralSurfaceMaterial this;
     _translucent := _translucent this; _id := _id this; _mode := _mode
     this; _va := _va this; isDestroyed := isDestroyed this |}.

Definition set_showThroughEllipsoid (value : bool) (this : t) : t :=
  {| show := show this; showIntersection := showIntersection this;
     showThroughEllipsoid := value; modelMatrix := modelMatrix this; radius
     := radius this; lateralSurfaceMaterial := lateralSurfaceMaterial this;
     intersectionColor := intersectionColor this; intersectionWidth :=
     intersectionWidth this; id := id this; _pickId := _pickId this;
     _frontFaceColorCommand := _frontFaceColorCommand this;
     _backFaceColorCommand := _backFaceColorCommand this; _pickCommand :=
     _pickCommand this; _boundingSphere := _boundingSphere this;
     _boundingSphereWC := _boundingSphereWC this; _showThroughEllipsoid :=
     _showThroughEllipsoid this; _modelMatrix := _modelMatrix this;
     _directions := _directions this; _directionsDirty := _directionsDirty
     this; _lateralSurfaceMaterial := _lateralSurfaceMaterial this;
     _translucent := _translucent this; _id := _id this; _mode := _mode
     this; _va := _va this; isDestroyed := isDestroyed this |}.

Definition set_modelMatrix (value : Matrix4) (this : t) : t :=
  {| show := show this; showIntersection := showIntersection this;
     showThroughEllipsoid := showThroughEllipsoid this; modelMatrix :=
     value; radius := radius this; lateralSurfaceMaterial :=
     lateralSurfaceMaterial this; intersectionColor := intersectionColor
     this; intersectionWidth := intersectionWidth this; id := id this;
     _pickId := _pickId this; _frontFaceColorCommand :=
     _frontFaceColorCommand this; _backFaceColorCommand :=
     _backFaceColorCommand this; _pickCommand := _pickCommand this;
     _boundingSphere := _boundingSphere this; _boundingSphereWC :=
     _boundingSphereWC this; _showThroughEllipsoid := _showThroughEllipsoid
     this; _modelMatrix := _modelMatrix this; _directions := _directions
     this; _directionsDirty := _directionsDirty this;
     _lateralSurfaceMaterial := _lateralSurfaceMaterial this; _translucent
     := _translucent this; _id := _id this; _mode := _mode this; _va := _va
     this; isDestroyed := isDestroyed this |}.

Definition set_radius (value : number) (this : t) : t :=
  {| show := show this; showIntersection := showIntersection this;
     showThroughEllipsoid := showThroughEllipsoid this; modelMatrix :=
     modelMatrix this; radius := value; lateralSurfaceMaterial :=
     lateralSurfaceMaterial this; intersectionColor := intersectionColor
     this; intersectionWidth := intersectionWidth this; id := id this;
     _pickId := _pickId this; _frontFaceColorCommand :=
     _frontFaceColorCommand this; _backFaceColorCommand :=
     _backFaceColorCommand this; _pickCommand := _pickCommand this;
     _boundingSphere := _boundingSphere this; _boundingSphereWC :=
     _boundingSphereWC this; _showThroughEllipsoid := _showThroughEllipsoid
     this; _modelMatrix := _modelMatrix this; _directions := _directions
     this; _directionsDirty := _directionsDirty this;
     _lateralSurfaceMaterial := _lateralSurfaceMaterial this; _translucent
     := _translucent this; _id := _id this; _mode := _mode this; _va := _va
     this; isDestroyed := isDestroyed this |}.

Definition set_lateralSurfaceMaterial (value : option Material) (this : t) : t :=
  {| show := show this; showIntersection := showIntersection this;
     showThroughEllipsoid := showThroughEllipsoid this; modelMatrix :=
     modelMatrix this; radius := radius this; lateralSurfaceMaterial :=
     value; intersectionColor := intersectionColor this; intersectionWidth
     := intersectionWidth this; id := id this; _pickId := _pickId this;
     _frontFaceColorCommand := _frontFaceColorCommand this;
     _backFaceColorCommand := _backFaceColorCommand this; _pickCommand :=
     _pickCommand this; _boundingSphere := _boundingSphere this;
     _boundingSphereWC := _boundingSphereWC this; _showThroughEllipsoid :=
     _showThroughEllipsoid this; _modelMatrix := _modelMatrix this;
     _directions := _directions this; _directionsDirty := _directionsDirty
     this; _lateralSurfaceMaterial := _lateralSurfaceMaterial this;
     _translucent := _translucent this; _id := _id this; _mode := _mode
     this; _va := _va this; isDestroyed := isDestroyed this |}.

Definition set_intersectionColor (value : Color) (this : t) : t :=
  {| show := show this; showIntersection := showIntersection this;
     showThroughEllipsoid := showThroughEllipsoid this; modelMatrix :=
     modelMatrix this; radius := radius this; lateralSurfaceMaterial :=
     lateralSurfaceMaterial this; intersectionColor := value;
     intersectionWidth := intersectionWidth this; id := id this; _pickId :=
     _pickId this; _frontFaceColorCommand := _frontFaceColorCommand this;
     _backFaceColorCommand := _backFaceColorCommand this; _pickCommand :=
     _pickCommand this; _boundingSphere := _boundingSphere this;
     _boundingSphereWC := _boundingSphereWC this; _showThroughEllipsoid :=
     _showThroughEllipsoid this; _modelMatrix := _modelMatrix this;
     _directions := _directions this; _directionsDirty := _directionsDirty
     this; _lateralSurfaceMaterial := _lateralSurfaceMaterial this;
     _translucent := _translucent this; _id := _id this; _mode := _mode
     this; _va := _va this; isDestroyed := isDestroyed this |}.

Definition set_intersectionWidth (value : number) (this : t) : t :=
  {| show := show this; showIntersection := showIntersection this;
     showThroughEllipsoid := showThroughEllipsoid this; modelMatrix :=
     modelMatrix this; radius := radius this; lateralSurfaceMaterial :=
     lateralSurfaceMaterial this; intersectionColor := intersectionColor
     this; intersectionWidth := value; id := id this; _pickId := _pickId
     this; _frontFaceColorCommand := _frontFaceColorCommand this;
     _backFaceColorCommand := _backFaceColorCommand this; _pickCommand :=
     _pickCommand this; _boundingSphere := _boundingSphere this;
     _boundingSphereWC := _boundingSphereWC this; _showThroughEllipsoid :=
     _showThroughEllipsoid this; _modelMatrix := _modelMatrix this;
     _directions := _directions this; _directionsDirty := _directionsDirty
     this; _lateralSurfaceMaterial := _lateralSurfaceMaterial this;
     _translucent := _translucent this; _id := _id this; _mode := _mode
     this; _va := _va this; isDestroyed := isDestroyed this |}.

Definition set_id (value : option string) (this : t) : t :=
  {| show := show this; showIntersection := showIntersection this;
     showThroughEllipsoid := showThroughEllipsoid this; modelMatrix :=
     modelMatrix this; radius := radius this; lateralSurfaceMaterial :=
     lateralSurfaceMaterial this; intersectionColor := intersectionColor
     this; intersectionWidth := intersectionWidth this; id := value; _pickId
     := _pickId this; _frontFaceColorCommand := _frontFaceColorCommand this;
     _backFaceColorCommand := _backFaceColorCommand this; _pickCommand :=
     _pickCommand this; _boundingSphere := _boundingSphere this;
     _boundingSphereWC := _boundingSphereWC this; _showThroughEllipsoid :=
     _showThroughEllipsoid this; _modelMatrix := _modelMatrix this;
     _directions := _directions this; _directionsDirty := _directionsDirty
     this; _lateralSurfaceMaterial := _lateralSurfaceMaterial this;
     _translucent := _translucent this; _id := _id this; _mode := _mode
     this; _va := _va this; isDestroyed := isDestroyed this |}.

Definition set__pickId (value : option PickId) (this : t) : t :=
  {| show := show this; showIntersection := showIntersection this;
     showThroughEllipsoid := showThroughEllipsoid this; modelMatrix :=
     modelMatrix this; radius := radius this; lateralSurfaceMaterial :=
     lateralSurfaceMaterial this; intersectionColor := intersectionColor
     this; intersectionWidth := intersectionWidth this; id := id this;
     _pickId := value; _frontFaceColorCommand := _frontFaceColorCommand
     this; _backFaceColorCommand := _backFaceColorCommand this; _pickCommand
     := _pickCommand this; _boundingSphere := _boundingSphere this;
     _boundingSphereWC := _boundingSphereWC this; _showThroughEllipsoid :=
     _showThroughEllipsoid this; _modelMatrix := _modelMatrix this;
     _directions := _directions this; _directionsDirty := _directionsDirty
     this; _lateralSurfaceMaterial := _lateralSurfaceMaterial this;
     _translucent := _translucent this; _id := _id this; _mode := _mode
     this; _va := _va this; isDestroyed := isDestroyed this |}.

Definition set__frontFaceColorCommand (value : DrawCommand.t) (this : t) : t :=
  {| show := show this; showIntersection := showIntersection this;
     showThroughEllipsoid := showThroughEllipsoid this; modelMatrix :=
     modelMatrix this; radius := radius this; lateralSurfaceMaterial :=
     lateralSurfaceMaterial this; intersectionColor := intersectionColor
     this; intersectionWidth := intersectionWidth this; id := id this;
     _pickId := _pickId this; _frontFaceColorCommand := value;
     _backFaceColorCommand := _backFaceColorCommand this; _pickCommand :=
     _pickCommand this; _boundingSphere := _boundingSphere this;
     _boundingSphereWC := _boundingSphereWC this; _showThroughEllipsoid :=
     _showThroughEllipsoid this; _modelMatrix := _modelMatrix this;
     _directions := _directions this; _directionsDirty := _directionsDirty
     this; _lateralSurfaceMaterial := _lateralSurfaceMaterial this;
     _translucent := _translucent this; _id := _id this; _mode := _mode
     this; _va := _va this; isDestroyed := isDestroyed this |}.

Definition set__backFaceColorCommand (value : DrawCommand.t) (this : t) : t :=
  {| show := show this; showIntersection := showIntersection this;
     showThroughEllipsoid := showThroughEllipsoid this; modelMatrix :=
     modelMatrix this; radius := radius this; lateralSurfaceMaterial :=
     lateralSurfaceMaterial this; intersectionColor := intersectionColor
     this; intersectionWidth := intersectionWidth this; id := id this;
     _pickId := _pickId this; _frontFaceColorCommand :=
     _frontFaceColorCommand this; _backFaceColorCommand := value;
     _pickCommand := _pickCommand this; _boundingSphere := _boundingSphere
     this; _boundingSphereWC := _boundingSphereWC this;
     _showThroughEllipsoid := _showThroughEllipsoid this; _modelMatrix :=
     _modelMatrix this; _directions := _directions this; _directionsDirty :=
     _directionsDirty this; _lateralSurfaceMaterial :=
     _lateralSurfaceMaterial this; _translucent := _translucent this; _id :=
     _id this; _mode := _mode this; _va := _va this; isDestroyed :=
     isDestroyed this |}.

Definition set__pickCommand (value : DrawCommand.t) (this : t) : t :=
  {| show := show this; showIntersection := showIntersection this;
     showThroughEllipsoid := showThroughEllipsoid this; modelMatrix :=
     modelMatrix this; radius := radius this; lateralSurfaceMaterial :=
     lateralSurfaceMaterial this; intersectionColor := intersectionColor
     this; intersectionWidth := intersectionWidth this; id := id this;
     _pickId := _pickId this; _frontFaceColorCommand :=
     _frontFaceColorCommand this; _backFaceColorCommand :=
     _backFaceColorCommand this; _pickCommand := value; _boundingSphere :=
     _boundingSphere this; _boundingSphereWC := _boundingSphereWC this;
     _showThroughEllipsoid := _showThroughEllipsoid this; _modelMatrix :=
     _modelMatrix this; _directions := _directions this; _directionsDirty :=
     _directionsDirty this; _lateralSurfaceMaterial :=
     _lateralSurfaceMaterial this; _translucent := _translucent this; _id :=
     _id this; _mode := _mode this; _va := _va this; isDestroyed :=
     isDestroyed this |}.

Definition set__boundingSphere (value : BoundingSphere) (this : t) : t :=
  {| show := show this; showIntersection := showIntersection this;
     showThroughEllipsoid := showThroughEllipsoid this; modelMatrix :=
     modelMatrix this; radius := radius this; lateralSurfaceMaterial :=
     lateralSurfaceMaterial this; intersectionColor := intersectionColor
     this; intersectionWidth := intersectionWidth this; id := id this;
     _pickId := _pickId this; _frontFaceColorCommand :=
     _frontFaceColorCommand this; _backFaceColorCommand :=
     _backFaceColorCommand this; _pickCommand := _pickCommand this;
     _boundingSphere := value; _boundingSphereWC := _boundingSphereWC this;
     _showThroughEllipsoid := _showThroughEllipsoid this; _modelMatrix :=
     _modelMatrix this; _directions := _directions this; _directionsDirty :=
     _directionsDirty this; _lateralSurfaceMaterial :=
     _lateralSurfaceMaterial this; _translucent := _translucent this; _id :=
     _id this; _mode := _mode this; _va := _va this; isDestroyed :=
     isDestroyed this |}.

Definition set__boundingSphereWC (value : BoundingSphere) (this : t) : t :=
  {| show := show this; showIntersection := showIntersection this;
     showThroughEllipsoid := showThroughEllipsoid this; modelMatrix :=
     modelMatrix this; radius := radius this; lateralSurfaceMaterial :=
     lateralSurfaceMaterial this; intersectionColor := intersectionColor
     this; intersectionWidth := intersectionWidth this; id := id this;
     _pickId := _pickId this; _frontFaceColorCommand :=
     _frontFaceColorCommand this; _backFaceColorCommand :=
     _backFaceColorCommand this; _pickCommand := _pickCommand this;
     _boundingSphere := _boundingSphere this; _boundingSphereWC := value;
     _showThroughEllipsoid := _showThroughEllipsoid this; _modelMatrix :=
     _modelMatrix this; _directions := _directions this; _directionsDirty :=
     _directionsDirty this; _lateralSurfaceMaterial :=
     _lateralSurfaceMaterial this; _translucent := _translucent this; _id :=
     _id this; _mode := _mode this; _va := _va this; isDestroyed :=
     isDestroyed this |}.

Definition set__showThroughEllipsoid (value : bool) (this : t) : t :=
  {| show := show this; showIntersection := showIntersection this;
     showThroughEllipsoid := showThroughEllipsoid this; modelMatrix :=
     modelMatrix this; radius := radius this; lateralSurfaceMaterial :=
     lateralSurfaceMaterial this; intersectionColor := intersectionColor
     this; intersectionWidth := intersectionWidth this; id := id this;
     _pickId := _pickId this; _frontFaceColorCommand :=
     _frontFaceColorCommand this; _backFaceColorCommand :=
     _backFaceColorCommand this; _pickCommand := _pickCommand this;
     _boundingSphere := _boundingSphere this; _boundingSphereWC :=
     _boundingSphereWC this; _showThroughEllipsoid := value; _modelMatrix :=
     _modelMatrix this; _directions := _directions this; _directionsDirty :=
     _directionsDirty this; _lateralSurfaceMaterial :=
     _lateralSurfaceMaterial this; _translucent := _translucent this; _id :=
     _id this; _mode := _mode this; _va := _va this; isDestroyed :=
     isDestroyed this |}.

Definition set__modelMatrix (value : Matrix4) (this : t) : t :=
  {| show := show this; showIntersection := showIntersection this;
     showThroughEllipsoid := showThroughEllipsoid this; modelMatrix :=
     modelMatrix this; radius := radius this; lateralSurfaceMaterial :=
     lateralSurfaceMaterial this; intersectionColor := intersectionColor
     this; intersectionWidth := intersectionWidth this; id := id this;
     _pickId := _pickId this; _frontFaceColorCommand :=
     _frontFaceColorCommand this; _backFaceColorCommand :=
     _backFaceColorCommand this; _pickCommand := _pickCommand this;
     _boundingSphere := _boundingSphere this; _boundingSphereWC :=
     _boundingSphereWC this; _showThroughEllipsoid := _showThroughEllipsoid
     this; _modelMatrix := value; _directions := _directions this;
     _directionsDirty := _directionsDirty this; _lateralSurfaceMaterial :=
     _lateralSurfaceMaterial this; _translucent := _translucent this; _id :=
     _id this; _mode := _mode this; _va := _va this; isDestroyed :=
     isDestroyed this |}.

Definition set__directions (value : list (Spherical R)) (this : t) : t :=
  {| show := show this; showIntersection := showIntersection this;
     showThroughEllipsoid := showThroughEllipsoid this; modelMatrix :=
     modelMatrix this; radius := radius this; lateralSurfaceMaterial :=
     lateralSurfaceMaterial this; intersectionColor := intersectionColor
     this; intersectionWidth := intersectionWidth this; id := id this;
     _pickId := _pickId this; _frontFaceColorCommand :=
     _frontFaceColorCommand this; _backFaceColorCommand :=
     _backFaceColorCommand this; _pickCommand := _pickCommand this;
     _boundingSphere := _boundingSphere this; _boundingSphereWC :=
     _boundingSphereWC this; _showThroughEllipsoid := _showThroughEllipsoid
     this; _modelMatrix := _modelMatrix this; _directions := value;
     _directionsDirty := _directionsDirty this; _lateralSurfaceMaterial :=
     _lateralSurfaceMaterial this; _translucent := _translucent this; _id :=
     _id this; _mode := _mode this; _va := _va this; isDestroyed :=
     isDestroyed this |}.

Definition set__directionsDirty (value : bool) (this : t) : t :=
  {| show := show this; showIntersection := showIntersection this;
     showThroughEllipsoid := showThroughEllipsoid this; modelMatrix :=
     modelMatrix this; radius := radius this; lateralSurfaceMaterial :=
     lateralSurfaceMaterial this; intersectionColor := intersectionColor
     this; intersectionWidth := intersectionWidth this; id := id this;
     _pickId := _pickId this; _frontFaceColorCommand :=
     _frontFaceColorCommand this; _backFaceColorCommand :=
     _backFaceColorCommand this; _pickCommand := _pickCommand this;
     _boundingSphere := _boundingSphere this; _boundingSphereWC :=
     _boundingSphereWC this; _showThroughEllipsoid := _showThroughEllipsoid
     this; _modelMatrix := _modelMatrix this; _directions := _directions
     this; _directionsDirty := value; _lateralSurfaceMaterial :=
     _lateralSurfaceMaterial this; _translucent := _translucent this; _id :=
     _id this; _mode := _mode this; _va := _va this; isDestroyed :=
     isDestroyed this |}.

Definition set__lateralSurfaceMaterial (value : option Material) (this : t) : t :=
  {| show := show this; showIntersection := showIntersection this;
     showThroughEllipsoid := showThroughEllipsoid this; modelMatrix :=
     modelMatrix this; radius := radius this; lateralSurfaceMaterial :=
     lateralSurfaceMaterial this; intersectionColor := intersectionColor
     this; intersectionWidth := intersectionWidth this; id := id this;
     _pickId := _pickId this; _frontFaceColorCommand :=
     _frontFaceColorCommand this; _backFaceColorCommand :=
     _backFaceColorCommand this; _pickCommand := _pickCommand this;
     _boundingSphere := _boundingSphere this; _boundingSphereWC :=
     _boundingSphereWC this; _showThroughEllipsoid := _showThroughEllipsoid
     this; _modelMatrix := _modelMatrix this; _directions := _directions
     this; _directionsDirty := _directionsDirty this;
     _lateralSurfaceMaterial := value; _translucent := _translucent this;
     _id := _id this; _mode := _mode this; _va := _va this; isDestroyed :=
     isDestroyed this |}.

Definition set__translucent (value : option bool) (this : t) : t :=
  {| show := show this; showIntersection := showIntersection this;
     showThroughEllipsoid := showThroughEllipsoid this; modelMatrix :=
     modelMatrix this; radius := radius this; lateralSurfaceMaterial :=
     lateralSurfaceMaterial this; intersectionColor := intersectionColor
     this; intersectionWidth := intersectionWidth this; id := id this;
     _pickId := _pickId this; _frontFaceColorCommand :=
     _frontFaceColorCommand this; _backFaceColorCommand :=
     _backFaceColorCommand this; _pickCommand := _pickCommand this;
     _boundingSphere := _boundingSphere this; _boundingSphereWC :=
     _boundingSphereWC this; _showThroughEllipsoid := _showThroughEllipsoid
     this; _modelMatrix := _modelMatrix this; _directions := _directions
     this; _directionsDirty := _directionsDirty this;
     _lateralSurfaceMaterial := _lateralSurfaceMaterial this; _translucent
     := value; _id := _id this; _mode := _mode this; _va := _va this;
     isDestroyed := isDestroyed this |}.

Definition set__id (value : option string) (this : t) : t :=
  {| show := show this; showIntersection := showIntersection this;
     showThroughEllipsoid := showThroughEllipsoid this; modelMatrix :=
     modelMatrix this; radius := radius this; lateralSurfaceMaterial :=
     lateralSurfaceMaterial this; intersectionColor := intersectionColor
     this; intersectionWidth := intersectionWidth this; id := id this;
     _pickId := _pickId this; _frontFaceColorCommand :=
     _frontFaceColorCommand this; _backFaceColorCommand :=
     _backFaceColorCommand this; _pickCommand := _pickCommand this;
     _boundingSphere := _boundingSphere this; _boundingSphereWC :=
     _boundingSphereWC this; _showThroughEllipsoid := _showThroughEllipsoid
     this; _modelMatrix := _modelMatrix this; _directions := _directions
     this; _directionsDirty := _directionsDirty this;
     _lateralSurfaceMaterial := _lateralSurfaceMaterial this; _translucent
     := _translucent this; _id := value; _mode := _mode this; _va := _va
     this; isDestroyed := isDestroyed this |}.

Definition set__mode (value : SceneMode) (this : t) : t :=
  {| show := show this; showIntersection := showIntersection this;
     showThroughEllipsoid := showThroughEllipsoid this; modelMatrix :=
     modelMatrix this; radius := radius this; lateralSurfaceMaterial :=
     lateralSurfaceMaterial this; intersectionColor := intersectionColor
     this; intersectionWidth := intersectionWidth this; id := id this;
     _pickId := _pickId this; _frontFaceColorCommand :=
     _frontFaceColorCommand this; _backFaceColorCommand :=
     _backFaceColorCommand this; _pickCommand := _pickCommand this;
     _boundingSphere := _boundingSphere this; _boundingSphereWC :=
     _boundingSphereWC this; _showThroughEllipsoid := _showThroughEllipsoid
     this; _modelMatrix := _modelMatrix this; _directions := _directions
     this; _directionsDirty := _directionsDirty this;
     _lateralSurfaceMaterial := _lateralSurfaceMaterial this; _translucent
     := _translucent this; _id := _id this; _mode := value; _va := _va this;
     isDestroyed := isDestroyed this |}.

Definition set__va (value : option VertexArray) (this : t) : t :=
  {| show := show this; showIntersection := showIntersection this;
     showThroughEllipsoid := showThroughEllipsoid this; modelMatrix :=
     modelMatrix this; radius := radius this; lateralSurfaceMaterial :=
     lateralSurfaceMaterial this; intersectionColor := intersectionColor
     this; intersectionWidth := intersectionWidth this; id := id this;
     _pickId := _pickId this; _frontFaceColorCommand :=
     _frontFaceColorCommand this; _backFaceColorCommand :=
     _backFaceColorCommand this; _pickCommand := _pickCommand this;
     _boundingSphere := _boundingSphere this; _boundingSphereWC :=
     _boundingSphereWC this; _showThroughEllipsoid := _showThroughEllipsoid
     this; _modelMatrix := _modelMatrix this; _directions := _directions
     this; _directionsDirty := _directionsDirty this;
     _lateralSurfaceMaterial := _lateralSurfaceMaterial this; _translucent
     := _translucent this; _id := _id this; _mode := _mode this; _va :=
     value; isDestroyed := isDestroyed this |}.

Definition set_isDestroyed (value : bool) (this : t) : t :=
  {| show := show this; showIntersection := showIntersection this;
     showThroughEllipsoid := showThroughEllipsoid this; modelMatrix :=
     modelMatrix this; radius := radius this; lateralSurfaceMaterial :=
     lateralSurfaceMaterial this; intersectionColor := intersectionColor
     this; intersectionWidth := intersectionWidth this; id := id this;
     _pickId := _pickId this; _frontFaceColorCommand :=
     _frontFaceColorCommand this; _backFaceColorCommand :=
     _backFaceColorCommand this; _pickCommand := _pickCommand this;
     _boundingSphere := _boundingSphere this; _boundingSphereWC :=
     _boundingSphereWC this; _showThroughEllipsoid := _showThroughEllipsoid
     this; _modelMatrix := _modelMatrix this; _directions := _directions
     this; _directionsDirty := _directionsDirty this;
     _lateralSurfaceMaterial := _lateralSurfaceMaterial this; _translucent
     := _translucent this; _id := _id this; _mode := _mode this; _va := _va
     this; isDestroyed := value |}.

(** The [directions] accessor: [get] returns [_directions]; [set] stores the
    value and marks the directions dirty. *)
Definition directions (this : t) : list (Spherical R) := _directions this.

Definition set_directions (value : list (Spherical R)) (this : t) : t :=
  let this := set__directions value this in
  set__directionsDirty true this.

(** [new CustomSensorVolume()], without options. *)
Definition new : t :=
  let this :=
    {| _pickId := None;
       _frontFaceColorCommand := DrawCommand.new;
       _backFaceColorCommand := DrawCommand.new;
       _pickCommand := DrawCommand.new;
       _boundingSphere := BoundingSphere_new;
       _boundingSphereWC := BoundingSphere_new;
       show := true;
       showIntersection := true;
       showThroughEllipsoid := false;
       _showThroughEllipsoid := false;
       modelMatrix := Matrix4_IDENTITY;
       _modelMatrix := Matrix4_new;
       radius := Infinity;
       _directions := [];
       _directionsDirty := false;
       lateralSurfaceMaterial := Some Material_ColorType;
       _lateralSurfaceMaterial := None;
       _translucent := None;
       intersectionColor := Color_WHITE;
       intersectionWidth := Num 5;
       id := None;
       _id := None;
       _mode := SCENE3D;
       _va := None;
       isDestroyed := false |} in
  (* this.directions = defined(options.directions) ? options.directions : [] *)
  set_directions [] this.

(** [createVertexArray(customSensorVolume, context)]: the positions (which
    also fixes [_boundingSphere]), the triangles, and a vertex array made
    from them in the context. *)
Definition createVertexArray (this : t) (context : Context)
    : Completion (VertexArray * t * Context) :=
  let! (positions, boundingVolumePositions) :=
    computePositions (_directions this) (radius this) in
  let this :=
    set__boundingSphere (BoundingSphere_fromPoints boundingVolumePositions)
                        this in
  let vertices := meshVertices (_directions this) positions in
  let (handle, context) := Context_allocate context in
  let context := Context_emit (VertexArray_created handle) context in
  Normal ({| VertexArray_handle := handle; vertices := vertices |},
          this, context).

(** Initial render state creation. *)
Definition createRenderStates (translucent : bool) (this : t) : t :=
  if negb (eqb (_showThroughEllipsoid this) (showThroughEllipsoid this))
     || negb (bool_decide
                (is_Some (DrawCommand.renderState (_frontFaceColorCommand this))))
     || negb (bool_decide (_translucent this = Some translucent))
  then
    let this := set__showThroughEllipsoid (showThroughEllipsoid this) this in
    let this := set__translucent (Some translucent) this in
    if translucent then
      let rs :=
        {| depthTest_enabled := negb (showThroughEllipsoid this);
           depthMask := false; blending_ALPHA_BLEND := true;
           cull_face := Some BACK |} in
      let this :=
        set__frontFaceColorCommand
          (DrawCommand.set_pass (Some TRANSLUCENT)
             (DrawCommand.set_renderState (Some rs)
                (_frontFaceColorCommand this))) this in
      let rs :=
        {| depthTest_enabled := negb (showThroughEllipsoid this);
           depthMask := false; blending_ALPHA_BLEND := true;
           cull_face := Some FRONT |} in
      let this :=
        set__backFaceColorCommand
          (DrawCommand.set_pass (Some TRANSLUCENT)
             (DrawCommand.set_renderState (Some rs)
                (_backFaceColorCommand this))) this in
      let rs :=
        {| depthTest_enabled := negb (showThroughEllipsoid this);
           depthMask := false; blending_ALPHA_BLEND := true;
           cull_face := None |} in
      set__pickCommand
        (DrawCommand.set_renderState (Some rs) (_pickCommand this)) this
    else
      let rs :=
        {| depthTest_enabled := true; depthMask := true;
           blending_ALPHA_BLEND := false; cull_face := None |} in
      let this :=
        set__frontFaceColorCommand
          (DrawCommand.set_pass (Some OPAQUE)
             (DrawCommand.set_renderState (Some rs)
                (_frontFaceColorCommand this))) this in
      set__pickCommand
        (DrawCommand.set_renderState (Some rs) (_pickCommand this)) this
  else this.

(** Recreate vertex buffer when directions change. *)
Definition recreateVertexArray (this : t) (context : Context)
    : Completion (t * Context) :=
  if _directionsDirty this then
    let this := set__directionsDirty false this in
    (* this._va = this._va && this._va.destroy(); *)
    let context := VertexArray_destroy (_va this) context in
    let this := set__va None this in
    let directions := _directions this in
    if 3 <=? length directions then
      let! (va, this, context) := createVertexArray this context in
      let this :=
        set__frontFaceColorCommand
          (DrawCommand.set_vertexArray (Some va) (_frontFaceColorCommand this))
          this in
      let this :=
        set__backFaceColorCommand
          (DrawCommand.set_vertexArray
             (DrawCommand.vertexArray (_frontFaceColorCommand this))
             (_backFaceColorCommand this)) this in
      let this :=
        set__pickCommand
          (DrawCommand.set_vertexArray
             (DrawCommand.vertexArray (_frontFaceColorCommand this))
             (_pickCommand this)) this in
      Normal (this, context)
    else Normal (this, context)
  else Normal (this, context).

(** [a !== b] on two optional materials. *)
Definition Material_differs (a b : option Material) : bool :=
  match a, b with
  | Some a, Some b => negb (Material_is a b)
  | None, None => false
  | _, _ => true
  end.

(** [ShaderProgram.replaceCache({ shaderProgram : old, ... })]. *)
Definition replaceCache (old : option ShaderProgram) (material : Material)
    (pick : bool) (context : Context) : ShaderProgram * Context :=
  let (handle, context) := Context_allocate context in
  ({| ShaderProgram_handle := handle; ShaderProgram_material := material;
      pickColorQualifier := pick |},
   Context_emit
     (ShaderProgram_replaced (ShaderProgram_handle <$> old) handle) context).

(** The block [if (pass.render) { ... }]. *)
Definition renderPass (translucent materialChanged : bool)
    (material : Material) (this : t) (frameState : FrameState.t)
    : t * FrameState.t :=
  let (this, frameState) :=
    (* Recompile shader when material changes *)
    if materialChanged
       || negb (bool_decide
                  (is_Some (DrawCommand.shaderProgram
                              (_frontFaceColorCommand this))))
    then
      let (program, context) :=
        replaceCache (DrawCommand.shaderProgram (_frontFaceColorCommand this))
                     material false (FrameState.context frameState) in
      let front :=
        DrawCommand.set_uniformMap
          (Some {| uniforms_material := material; u_normalDirection := 1;
                   czm_pickColor := false |})
          (DrawCommand.set_shaderProgram (Some program)
             (_frontFaceColorCommand this)) in
      let back :=
        DrawCommand.set_uniformMap
          (Some {| uniforms_material := material; u_normalDirection := -1;
                   czm_pickColor := false |})
          (DrawCommand.set_shaderProgram (Some program)
             (_backFaceColorCommand this)) in
      (set__backFaceColorCommand back (set__frontFaceColorCommand front this),
       FrameState.set_context context frameState)
    else (this, frameState) in
  if translucent then
    (this, FrameState.push [_backFaceColorCommand this;
                            _frontFaceColorCommand this] frameState)
  else (this, FrameState.push [_frontFaceColorCommand this] frameState).

(** The block [if (pass.pick) { ... }]. *)
Definition pickPass (translucent materialChanged : bool)
    (material : Material) (this : t) (frameState : FrameState.t)
    : t * FrameState.t :=
  let (this, frameState) :=
    if negb (bool_decide (is_Some (_pickId this)))
       || negb (bool_decide (_id this = id this))
    then
      let this := set__id (id this) this in
      let context :=
        PickId_destroy (_pickId this) (FrameState.context frameState) in
      let (handle, context) := Context_allocate context in
      let context := Context_emit (PickId_created handle) context in
      (set__pickId (Some {| PickId_handle := handle |}) this,
       FrameState.set_context context frameState)
    else (this, frameState) in
  let (this, frameState) :=
    (* Recompile shader when material changes *)
    if materialChanged
       || negb (bool_decide
                  (is_Some (DrawCommand.shaderProgram (_pickCommand this))))
    then
      let (program, context) :=
        replaceCache (DrawCommand.shaderProgram (_pickCommand this))
                     material true (FrameState.context frameState) in
      let pick :=
        DrawCommand.set_uniformMap
          (Some {| uniforms_material := material; u_normalDirection := 1;
                   czm_pickColor := true |})
          (DrawCommand.set_shaderProgram (Some program) (_pickCommand this)) in
      (set__pickCommand pick this, FrameState.set_context context frameState)
    else (this, frameState) in
  let this :=
    set__pickCommand
      (DrawCommand.set_pass
         (Some (if translucent then TRANSLUCENT else OPAQUE))
         (_pickCommand this)) this in
  (this, FrameState.push [_pickCommand this] frameState).

(** The model matrix in [update]: [_modelMatrix] follows [modelMatrix] when
    the two differ, the world bounding sphere is recomputed when the
    directions or the matrix changed, and the commands are given the
    matrix. *)
Definition applyModelMatrix (directionsChanged : bool) (this : t) : t :=
  let modelMatrixChanged :=
    negb (Matrix4_equals (modelMatrix this) (_modelMatrix this)) in
  let this :=
    if modelMatrixChanged then set__modelMatrix (modelMatrix this) this
    else this in
  let this :=
    if directionsChanged || modelMatrixChanged then
      set__boundingSphereWC
        (BoundingSphere_transform (_boundingSphere this) (modelMatrix this))
        this
    else this in
  let this :=
    set__frontFaceColorCommand
      (DrawCommand.set_modelMatrix (Some (modelMatrix this))
         (_frontFaceColorCommand this)) this in
  let this :=
    set__backFaceColorCommand
      (DrawCommand.set_modelMatrix (Some (modelMatrix this))
         (_backFaceColorCommand this)) this in
  set__pickCommand
    (DrawCommand.set_modelMatrix (Some (modelMatrix this))
       (_pickCommand this)) this.

(** The rest of [update], from [var pass = frameState.passes;] on: reached
    when the front face command has a vertex array. *)
Definition emitCommands (translucent directionsChanged : bool)
    (material : Material) (this : t) (frameState : FrameState.t)
    : t * FrameState.t :=
  let this := applyModelMatrix directionsChanged this in
  let materialChanged :=
    Material_differs (_lateralSurfaceMaterial this)
                     (lateralSurfaceMaterial this) in
  let this :=
    set__lateralSurfaceMaterial (lateralSurfaceMaterial this) this in
  (* this._lateralSurfaceMaterial.update(context); *)
  let frameState :=
    FrameState.set_context
      (Context_emit Material_updated (FrameState.context frameState))
      frameState in
  let (this, frameState) :=
    if FrameState.passes_render frameState then
      renderPass translucent materialChanged material this frameState
    else (this, frameState) in
  if FrameState.passes_pick frameState then
    pickPass translucent materialChanged material this frameState
  else (this, frameState).

(** [CustomSensorVolume.prototype.update = function(frameState)]. *)
Definition update (this : t) (frameState : FrameState.t)
    : Completion (t * FrameState.t) :=
  let this := set__mode (FrameState.mode frameState) this in
  if negb (show this) || negb (SceneMode_is (_mode this) SCENE3D) then
    Normal (this, frameState)
  else if lessThanZero (radius this) then
    Throw (DeveloperError
             "this.radius must be greater than or equal to zero.")
  else
    match lateralSurfaceMaterial this with
    | None =>
        Throw (DeveloperError "this.lateralSurfaceMaterial must be defined.")
    | Some material =>
        let translucent := Material_isTranslucent material in
        let this := createRenderStates translucent this in
        let directionsChanged := _directionsDirty this in
        let! (this, context) :=
          recreateVertexArray this (FrameState.context frameState) in
        let frameState := FrameState.set_context context frameState in
        if negb (bool_decide
                   (is_Some (DrawCommand.vertexArray
                               (_frontFaceColorCommand this))))
        then Normal (this, frameState)
        else
          Normal (emitCommands translucent directionsChanged material this
                               frameState)
    end.

(** [CustomSensorVolume.prototype.destroy]; [destroyObject(this)] makes
    [isDestroyed()] answer true from then on. *)
Definition destroy (this : t) (context : Context) : t * Context :=
  let context :=
    VertexArray_destroy (DrawCommand.vertexArray (_frontFaceColorCommand this))
                        context in
  let this :=
    set__frontFaceColorCommand
      (DrawCommand.set_vertexArray None (_frontFaceColorCommand this)) this in
  let context :=
    ShaderProgram_destroy
      (DrawCommand.shaderProgram (_frontFaceColorCommand this)) context in
  let this :=
    set__frontFaceColorCommand
      (DrawCommand.set_shaderProgram None (_frontFaceColorCommand this))
      this in
  let context :=
    ShaderProgram_destroy (DrawCommand.shaderProgram (_pickCommand this))
                          context in
  let this :=
    set__pickCommand
      (DrawCommand.set_shaderProgram None (_pickCommand this)) this in
  let context := PickId_destroy (_pickId this) context in
  let this := set__pickId None this in
  (set_isDestroyed true this, context).
End Def.
End CustomSensorVolume.

(** An instance of the library interface for the closed examples: materials
    are numbered objects, none translucent; a material property resolves to
    the material it is handed, or to material 0. *)
Definition example_Cesium : Cesium := {|
  JulianDate := nat;
  Quaternion := unit;
  Quaternion_equals := fun _ _ => true;
  Matrix4 := unit;
  Matrix4_new := tt;
  Matrix4_IDENTITY := tt;
  Matrix4_equals := fun _ _ => true;
  Matrix4_fromRotationTranslation := fun _ _ => tt;
  Color := unit;
  Color_WHITE := tt;
  Material := nat;
  Material_ColorType := 0;
  Material_isTranslucent := fun _ => false;
  Material_is := Nat.eqb;
  MaterialProperty := unit;
  MaterialProperty_getValue := fun _ _ material => default 0 material
|}.

(** The handles of the vertex arrays created, and of those destroyed, in a
    context so far: a geometry rebuild is a vertex array created. *)
Definition vertexArraysCreated (context : Context) : list nat :=
  omap (fun event =>
          match event with
          | VertexArray_created handle => Some handle
          | _ => None
          end) (events context).

Definition vertexArraysDestroyed (context : Context) : list nat :=
  omap (fun event =>
          match event with
          | VertexArray_destroyed handle => Some handle
          | _ => None
          end) (events context).

Section PrimitiveVocabulary.
Context `{Cesium}.

(** [this'] has the parameters and the mesh of [this]: the two differ at most
    in render states, shaders, uniforms, pick id and the cached matrix,
    material and mode. *)
Definition sameGeometry (this this' : CustomSensorVolume.t) : Prop :=
  CustomSensorVolume.show this' = CustomSensorVolume.show this
  /\ CustomSensorVolume.radius this' = CustomSensorVolume.radius this
  /\ CustomSensorVolume.lateralSurfaceMaterial this'
     = CustomSensorVolume.lateralSurfaceMaterial this
  /\ CustomSensorVolume.modelMatrix this' = CustomSensorVolume.modelMatrix this
  /\ CustomSensorVolume._directions this' = CustomSensorVolume._directions this
  /\ CustomSensorVolume._directionsDirty this'
     = CustomSensorVolume._directionsDirty this
  /\ CustomSensorVolume._va this' = CustomSensorVolume._va this
  /\ CustomSensorVolume.isDestroyed this' = CustomSensorVolume.isDestroyed this
  /\ DrawCommand.vertexArray (CustomSensorVolume._frontFaceColorCommand this')
     = DrawCommand.vertexArray (CustomSensorVolume._frontFaceColorCommand this).

(** From [context] to [context'] no vertex array was created or destroyed
    (and no handle was handed out twice). *)
Definition sameVertexArrays (context context' : Context) : Prop :=
  vertexArraysCreated context' = vertexArraysCreated context
  /\ vertexArraysDestroyed context' = vertexArraysDestroyed context
  /\ nextHandle context <= nextHandle context'.
End PrimitiveVocabulary.

(** ** The rectangular pyramid sensor *)

Module RectangularPyramidSensorVolume.
Section Def.
Context `{Cesium}.
Open Scope R_scope.

Record t := mk {
  _customSensor : CustomSensorVolume.t;
  _xHalfAngle : R;
  _yHalfAngle : R;
  isDestroyed : bool
}.

Definition set__customSensor (value : CustomSensorVolume.t) (this : t) : t :=
  {| _customSensor := value; _xHalfAngle := _xHalfAngle this; _yHalfAngle :=
     _yHalfAngle this; isDestroyed := isDestroyed this |}.

Definition set__xHalfAngle (value : R) (this : t) : t :=
  {| _customSensor := _customSensor this; _xHalfAngle := value; _yHalfAngle
     := _yHalfAngle this; isDestroyed := isDestroyed this |}.

Definition set__yHalfAngle (value : R) (this : t) : t :=
  {| _customSensor := _customSensor this; _xHalfAngle := _xHalfAngle this;
     _yHalfAngle := value; isDestroyed := isDestroyed this |}.

Definition set_isDestroyed (value : bool) (this : t) : t :=
  {| _customSensor := _customSensor this; _xHalfAngle := _xHalfAngle this;
     _yHalfAngle := _yHalfAngle this; isDestroyed := value |}.

(** [updateDirections(rectangularSensor)] on the object: the array of
    [_customSensor.directions] is rewritten and assigned back through the
    [directions] setter. *)
Definition updateDirections (rectangularSensor : t) : t :=
  let directions :=
    CustomSensorVolume.directions (_customSensor rectangularSensor) in
  let directions :=
    updateDirections (_xHalfAngle rectangularSensor)
      (_yHalfAngle rectangularSensor) directions in
  set__customSensor
    (CustomSensorVolume.set_directions directions
       (_customSensor rectangularSensor))
    rectangularSensor.

(** [new RectangularPyramidSensorVolume()], without options. *)
Definition new : t :=
  updateDirections
    {| _customSensor := CustomSensorVolume.new;
       _xHalfAngle := CesiumMath.PI_OVER_TWO;
       _yHalfAngle := CesiumMath.PI_OVER_TWO;
       isDestroyed := false |}.

(** The [xHalfAngle] setter. *)
Definition set_xHalfAngle (value : R) (this : t) : Completion t :=
  if Rltb CesiumMath.PI_OVER_TWO value then
    Throw (DeveloperError
             "xHalfAngle must be less than or equal to 90 degrees.")
  else if negb (Reqb (_xHalfAngle this) value) then
    Normal (updateDirections (set__xHalfAngle value this))
  else Normal this.

(** The [yHalfAngle] setter. *)
Definition set_yHalfAngle (value : R) (this : t) : Completion t :=
  if Rltb CesiumMath.PI_OVER_TWO value then
    Throw (DeveloperError
             "yHalfAngle must be less than or equal to 90 degrees.")
  else if negb (Reqb (_yHalfAngle this) value) then
    Normal (updateDirections (set__yHalfAngle value this))
  else Normal this.

(** [RectangularPyramidSensorVolume.prototype.update]. *)
Definition update (this : t) (frameState : FrameState.t)
    : Completion (t * FrameState.t) :=
  match CustomSensorVolume.update (_customSensor this) frameState with
  | Normal (customSensor, frameState) =>
      Normal (set__customSensor customSensor this, frameState)
  | Throw error => Throw error
  end.

(** [RectangularPyramidSensorVolume.prototype.destroy]. *)
Definition destroy (this : t) (context : Context) : t * Context :=
  let (customSensor, context) :=
    CustomSensorVolume.destroy (_customSensor this) context in
  (set_isDestroyed true (set__customSensor customSensor this), context).
End Def.
End RectangularPyramidSensorVolume.

(** ** Entities and their properties *)

Section Properties.
Context `{Cesium}.

(** A time-sampled property: its value at a time, or undefined. *)
Definition Property (A : Type) : Type := JulianDate -> option A.

(** [Property.getValueOrDefault(property, time, valueDefault)]; also
    [getValueOrClonedDefault], which differs in copying the default. *)
Definition Property_getValueOrDefault {A : Type}
    (property : option (Property A)) (time : JulianDate) (valueDefault : A)
    : A :=
  match property with
  | Some property => default valueDefault (property time)
  | None => valueDefault
  end.

(** [Property.getValueOrUndefined(property, time)]. *)
Definition Property_getValueOrUndefined {A : Type}
    (property : option (Property A)) (time : JulianDate) : option A :=
  match property with
  | Some property => property time
  | None => None
  end.
End Properties.

(** The fields of the three graphics objects that the visualizers read. *)
Module ConicSensorGraphics.
Section Def.
Context `{Cesium}.
Record t := mk {
  _show : option (Property bool);
  _minimumClockAngle : option (Property R);
  _maximumClockAngle : option (Property R);
  _innerHalfAngle : option (Property R);
  _outerHalfAngle : option (Property R);
  _radius : option (Property number);
  _lateralSurfaceMaterial : option MaterialProperty;
  _intersectionColor : option (Property Color);
  _intersectionWidth : option (Property number)
}.
End Def.
End ConicSensorGraphics.

Module CustomPatternSensorGraphics.
Section Def.
Context `{Cesium}.
Record t := mk {
  _show : option (Property bool);
  _directions : option (Property (list (Spherical R)));
  _radius : option (Property number);
  _lateralSurfaceMaterial : option MaterialProperty;
  _intersectionColor : option (Property Color);
  _intersectionWidth : option (Property number)
}.
End Def.
End CustomPatternSensorGraphics.

Module RectangularSensorGraphics.
Section Def.
Context `{Cesium}.
Record t := mk {
  _show : option (Property bool);
  _xHalfAngle : option (Property R);
  _yHalfAngle : option (Property R);
  _radius : option (Property number);
  _lateralSurfaceMaterial : option MaterialProperty;
  _intersectionColor : option (Property Color);
  _intersectionWidth : option (Property number)
}.
End Def.
End RectangularSensorGraphics.

Module Entity.
Section Def.
Context `{Cesium}.
Record t := mk {
  id : string;
  isShowing : bool;
  isAvailable : JulianDate -> bool;
  _position : option (Property Cartesian3);
  _orientation : option (Property Quaternion);
  _conicSensor : option ConicSensorGraphics.t;
  _customPatternSensor : option CustomPatternSensorGraphics.t;
  _rectangularSensor : option RectangularSensorGraphics.t
}.
End Def.
End Entity.

(** Cesium's [AssociativeArray]: values by key, and in the order in which
    their keys were first set.  An entity is one object for as long as it is
    in the collection, so setting a key again keeps its place and shows the
    entity as it is now. *)
Module AssociativeArray.
Section Def.
Context {V : Type}.

Definition t : Type := list (string * V).

Definition contains (key : string) (array : t) : bool :=
  bool_decide (key ∈ array.*1).

Definition set (key : string) (value : V) (array : t) : t :=
  if contains key array then
    (fun entry : string * V =>
       if bool_decide (entry.1 = key) then (key, value) else entry) <$> array
  else array ++ [(key, value)].

Definition remove (key : string) (array : t) : t :=
  filter (fun entry : string * V => entry.1 <> key) array.

Definition values (array : t) : list V := array.*2.
End Def.
Arguments t : clear implicits.
End AssociativeArray.

(** ** The visualizers *)

(** What a visualizer needs of the primitives it creates: the custom sensor
    in which the parameters live (the primitive itself, or the custom sensor
    a rectangular sensor delegates to), and destruction. *)
Class SensorPrimitive `{Cesium} (P : Type) := {
  customSensor : P -> CustomSensorVolume.t;
  set_customSensor : CustomSensorVolume.t -> P -> P;
  Primitive_isDestroyed : P -> bool;
  Primitive_destroy : P -> Context -> P * Context;
  (* destroyObject: a destroyed object says so *)
  Primitive_destroy_isDestroyed :
    forall (primitive : P) (context : Context),
      Primitive_isDestroyed (Primitive_destroy primitive context).1 = true
}.

#[export] Instance CustomSensorVolume_SensorPrimitive `{Cesium}
    : SensorPrimitive CustomSensorVolume.t := {|
  customSensor := fun this => this;
  set_customSensor := fun value _ => value;
  Primitive_isDestroyed := CustomSensorVolume.isDestroyed;
  Primitive_destroy := CustomSensorVolume.destroy;
  Primitive_destroy_isDestroyed := fun _ _ => eq_refl
|}.

#[export] Instance RectangularPyramidSensorVolume_SensorPrimitive `{Cesium}
    : SensorPrimitive RectangularPyramidSensorVolume.t := {|
  customSensor := RectangularPyramidSensorVolume._customSensor;
  set_customSensor := RectangularPyramidSensorVolume.set__customSensor;
  Primitive_isDestroyed := RectangularPyramidSensorVolume.isDestroyed;
  Primitive_destroy := RectangularPyramidSensorVolume.destroy;
  Primitive_destroy_isDestroyed := fun _ _ => eq_refl
|}.

(** The record a visualizer keeps per entity in [_hash]: the primitive (by
    its handle) and the values last applied.  The clock and half angles are
    kept by the conic visualizer only. *)
Module Data.
Section Def.
Context `{Cesium}.
Record t := mk {
  primitive : nat;
  position : option Cartesian3;
  orientation : option Quaternion;
  minimumClockAngle : option R;
  maximumClockAngle : option R;
  innerHalfAngle : option R;
  outerHalfAngle : option R
}.

Definition set_primitive (value : nat) (this : t) : t :=
  {| primitive := value; position := position this; orientation :=
     orientation this; minimumClockAngle := minimumClockAngle this;
     maximumClockAngle := maximumClockAngle this; innerHalfAngle :=
     innerHalfAngle this; outerHalfAngle := outerHalfAngle this |}.

Definition set_position (value : option Cartesian3) (this : t) : t :=
  {| primitive := primitive this; position := value; orientation :=
     orientation this; minimumClockAngle := minimumClockAngle this;
     maximumClockAngle := maximumClockAngle this; innerHalfAngle :=
     innerHalfAngle this; outerHalfAngle := outerHalfAngle this |}.

Definition set_orientation (value : option Quaternion) (this : t) : t :=
  {| primitive := primitive this; position := position this; orientation :=
     value; minimumClockAngle := minimumClockAngle this; maximumClockAngle
     := maximumClockAngle this; innerHalfAngle := innerHalfAngle this;
     outerHalfAngle := outerHalfAngle this |}.

Definition set_minimumClockAngle (value : option R) (this : t) : t :=
  {| primitive := primitive this; position := position this; orientation :=
     orientation this; minimumClockAngle := value; maximumClockAngle :=
     maximumClockAngle this; innerHalfAngle := innerHalfAngle this;
     outerHalfAngle := outerHalfAngle this |}.

Definition set_maximumClockAngle (value : option R) (this : t) : t :=
  {| primitive := primitive this; position := position this; orientation :=
     orientation this; minimumClockAngle := minimumClockAngle this;
     maximumClockAngle := value; innerHalfAngle := innerHalfAngle this;
     outerHalfAngle := outerHalfAngle this |}.

Definition set_innerHalfAngle (value : option R) (this : t) : t :=
  {| primitive := primitive this; position := position this; orientation :=
     orientation this; minimumClockAngle := minimumClockAngle this;
     maximumClockAngle := maximumClockAngle this; innerHalfAngle := value;
     outerHalfAngle := outerHalfAngle this |}.

Definition set_outerHalfAngle (value : option R) (this : t) : t :=
  {| primitive := primitive this; position := position this; orientation :=
     orientation this; minimumClockAngle := minimumClockAngle this;
     maximumClockAngle := maximumClockAngle this; innerHalfAngle :=
     innerHalfAngle this; outerHalfAngle := value |}.

End Def.
End Data.

(** The scene as a visualizer sees it: the primitive collection
    [scene.primitives] (handles, and whether it destroys what is removed from
    it), the primitive objects by handle, the graphics context, and the
    handles on which [destroy()] was called, in order. *)
Module World.
Section Def.
Context `{Cesium} {P : Type} `{!SensorPrimitive P}.

Record t := mk {
  primitives : list nat;
  destroyPrimitives : bool;
  objects : gmap nat P;
  nextObject : nat;
  context : Context;
  destroyCalls : list nat
}.

Definition set_primitives (value : list nat) (this : t) : t :=
  {| primitives := value; destroyPrimitives := destroyPrimitives this;
     objects := objects this; nextObject := nextObject this; context :=
     context this; destroyCalls := destroyCalls this |}.

Definition set_destroyPrimitives (value : bool) (this : t) : t :=
  {| primitives := primitives this; destroyPrimitives := value; objects :=
     objects this; nextObject := nextObject this; context := context this;
     destroyCalls := destroyCalls this |}.

Definition set_objects (value : gmap nat P) (this : t) : t :=
  {| primitives := primitives this; destroyPrimitives := destroyPrimitives
     this; objects := value; nextObject := nextObject this; context :=
     context this; destroyCalls := destroyCalls this |}.

Definition set_nextObject (value : nat) (this : t) : t :=
  {| primitives := primitives this; destroyPrimitives := destroyPrimitives
     this; objects := objects this; nextObject := value; context := context
     this; destroyCalls := destroyCalls this |}.

Definition set_context (value : Context) (this : t) : t :=
  {| primitives := primitives this; destroyPrimitives := destroyPrimitives
     this; objects := objects this; nextObject := nextObject this; context
     := value; destroyCalls := destroyCalls this |}.

Definition set_destroyCalls (value : list nat) (this : t) : t :=
  {| primitives := primitives this; destroyPrimitives := destroyPrimitives
     this; objects := objects this; nextObject := nextObject this; context
     := context this; destroyCalls := value |}.

(** [primitive.destroy()] on the object behind a handle. *)
Definition destroy (handle : nat) (this : t) : t :=
  match objects this !! handle with
  | Some primitive =>
      let (primitive, context) := Primitive_destroy primitive (context this) in
      let this := set_objects (<[handle := primitive]> (objects this)) this in
      let this := set_context context this in
      set_destroyCalls (destroyCalls this ++ [handle]) this
  | None => this
  end.

(** [primitive.isDestroyed()]. *)
Definition isDestroyed (handle : nat) (this : t) : bool :=
  match objects this !! handle with
  | Some primitive => Primitive_isDestroyed primitive
  | None => false
  end.

(** [primitives.add(primitive)] for a new object. *)
Definition add (primitive : P) (this : t) : nat * t :=
  let handle := nextObject this in
  let this := set_nextObject (S handle) this in
  let this := set_objects (<[handle := primitive]> (objects this)) this in
  (handle, set_primitives (primitives this ++ [handle]) this).

(** [primitives.remove(primitive)]: a primitive of the collection is taken
    out of it, and destroyed when the collection destroys its primitives. *)
Definition remove (handle : nat) (this : t) : t :=
  if bool_decide (handle ∈ primitives this) then
    let this :=
      set_primitives (filter (fun h => h <> handle) (primitives this)) this in
    if destroyPrimitives this then destroy handle this else this
  else this.

(** An assignment to a parameter of the primitive behind a handle. *)
Definition assign (handle : nat)
    (setter : CustomSensorVolume.t -> CustomSensorVolume.t) (this : t) : t :=
  match objects this !! handle with
  | Some primitive =>
      set_objects
        (<[handle := set_customSensor (setter (customSensor primitive))
                                      primitive]> (objects this)) this
  | None => this
  end.
End Def.
Arguments t : clear implicits.
End World.

Module Visualizer.
Section Def.
Context `{Cesium}.
Record t := mk {
  _hash : gmap string Data.t;
  _entitiesToVisualize : AssociativeArray.t Entity.t
}.

Definition set__hash (value : gmap string Data.t) (this : t) : t :=
  {| _hash := value; _entitiesToVisualize := _entitiesToVisualize this |}.

Definition set__entitiesToVisualize (value : AssociativeArray.t Entity.t) (this : t) : t :=
  {| _hash := _hash this; _entitiesToVisualize := value |}.

Definition new : t := {| _hash := ∅; _entitiesToVisualize := [] |}.
End Def.
End Visualizer.

Section Visualizers.
Context `{Cesium}.
Open Scope completion_scope.

Section AnyPrimitive.
Context {P : Type} `{!SensorPrimitive P}.

(** [removePrimitive(entity, hash, primitives)]. *)
Definition removePrimitive (entity : Entity.t) (hash : gmap string Data.t)
    (world : World.t P) : gmap string Data.t * World.t P :=
  match hash !! Entity.id entity with
  | Some data =>
      let primitive := Data.primitive data in
      let world := World.remove primitive world in
      let world :=
        if negb (World.isDestroyed primitive world)
        then World.destroy primitive world else world in
      (delete (Entity.id entity) hash, world)
  | None => (hash, world)
  end.

(** One step of each of the three loops of [_onCollectionChanged];
    [complete entity] is the test
    [defined(entity._conicSensor) && defined(entity._position) &&
     defined(entity._orientation)] of the visualizer at hand. *)
Definition onAdded (complete : Entity.t -> bool)
    (state : Visualizer.t * World.t P) (entity : Entity.t)
    : Visualizer.t * World.t P :=
  let (this, world) := state in
  if complete entity then
    (Visualizer.set__entitiesToVisualize
       (AssociativeArray.set (Entity.id entity) entity
          (Visualizer._entitiesToVisualize this)) this, world)
  else (this, world).

Definition onRemoved (state : Visualizer.t * World.t P) (entity : Entity.t)
    : Visualizer.t * World.t P :=
  let (this, world) := state in
  let (hash, world) := removePrimitive entity (Visualizer._hash this) world in
  let this := Visualizer.set__hash hash this in
  (Visualizer.set__entitiesToVisualize
     (AssociativeArray.remove (Entity.id entity)
        (Visualizer._entitiesToVisualize this)) this, world).

Definition onChanged (complete : Entity.t -> bool)
    (state : Visualizer.t * World.t P) (entity : Entity.t)
    : Visualizer.t * World.t P :=
  if complete entity then onAdded complete state entity
  else onRemoved state entity.

(** [_onCollectionChanged(entityCollection, added, removed, changed)]: the
    three lists are walked from their last element to their first, [added]
    first, then [changed], then [removed]. *)
Definition onCollectionChanged (complete : Entity.t -> bool)
    (added removed changed : list Entity.t)
    (state : Visualizer.t * World.t P) : Visualizer.t * World.t P :=
  let state := foldl (onAdded complete) state (reverse added) in
  let state := foldl (onChanged complete) state (reverse changed) in
  foldl onRemoved state (reverse removed).

(** [destroy()] of a visualizer: [removePrimitive] for every tracked entity,
    last to first. *)
Definition Visualizer_destroy (state : Visualizer.t * World.t P)
    : Visualizer.t * World.t P :=
  foldl (fun '(this, world) entity =>
           let (hash, world) :=
             removePrimitive entity (Visualizer._hash this) world in
           (Visualizer.set__hash hash this, world))
        state
        (reverse (AssociativeArray.values
                    (Visualizer._entitiesToVisualize (fst state)))).

(** The branch [if (!show)] of [update]: [data.primitive.show = false] when
    there is data. *)
Definition hide (data : option Data.t) (world : World.t P) : World.t P :=
  match data with
  | Some data =>
      World.assign (Data.primitive data) (CustomSensorVolume.set_show false)
                   world
  | None => world
  end.

(** The primitive of an entity, made if there is no data yet:
    [new ...()], [primitive.id = entity], [primitives.add(primitive)] and
    [hash[entity.id] = data] with nothing applied so far. *)
Definition obtain (create : P) (entity : Entity.t) (data : option Data.t)
    (state : Visualizer.t * World.t P)
    : Data.t * (Visualizer.t * World.t P) :=
  match data with
  | Some data => (data, state)
  | None =>
      let (this, world) := state in
      let primitive :=
        set_customSensor
          (CustomSensorVolume.set_id (Some (Entity.id entity))
             (customSensor create)) create in
      let (handle, world) := World.add primitive world in
      let data :=
        {| Data.primitive := handle; Data.position := None;
           Data.orientation := None; Data.minimumClockAngle := None;
           Data.maximumClockAngle := None; Data.innerHalfAngle := None;
           Data.outerHalfAngle := None |} in
      (data,
       (Visualizer.set__hash (<[Entity.id entity := data]>
                                (Visualizer._hash this)) this, world))
  end.
End AnyPrimitive.

(** [Cartesian3.equals(left, right)] with a right side that may be
    undefined. *)
Definition Cartesian3_equals (left : Cartesian3) (right : option Cartesian3)
    : bool :=
  match right with
  | Some other =>
      Reqb (x left) (x other) && Reqb (y left) (y other)
      && Reqb (z left) (z other)
  | None => false
  end.

Definition Quaternion_equals_defined (left : Quaternion)
    (right : option Quaternion) : bool :=
  match right with
  | Some other => Quaternion_equals left other
  | None => false
  end.

(** [value !== data.field] for a number and a field that may be undefined. *)
Definition differs (value : R) (field : option R) : bool :=
  match field with
  | Some field => negb (Reqb value field)
  | None => true
  end.

(** The model matrix follows the position and the orientation when either
    differs from the one last applied. *)
Definition applyPose (position : Cartesian3) (orientation : Quaternion)
    (data : Data.t) (primitive : CustomSensorVolume.t)
    : Data.t * CustomSensorVolume.t :=
  if negb (Cartesian3_equals position (Data.position data))
     || negb (Quaternion_equals_defined orientation (Data.orientation data))
  then
    (Data.set_orientation (Some orientation)
       (Data.set_position (Some position) data),
     CustomSensorVolume.set_modelMatrix
       (Matrix4_fromRotationTranslation orientation position) primitive)
  else (data, primitive).

(** The four assignments that end the loop body of every [update]. *)
Definition applyAppearance (time : JulianDate)
    (radius : option (Property number))
    (lateralSurfaceMaterial : option MaterialProperty)
    (intersectionColor : option (Property Color))
    (intersectionWidth : option (Property number))
    (primitive : CustomSensorVolume.t) : CustomSensorVolume.t :=
  let primitive :=
    CustomSensorVolume.set_radius
      (Property_getValueOrDefault radius time Infinity) primitive in
  let primitive :=
    CustomSensorVolume.set_lateralSurfaceMaterial
      (Some (MaterialProperty_getValue time lateralSurfaceMaterial
               (CustomSensorVolume.lateralSurfaceMaterial primitive)))
      primitive in
  let primitive :=
    CustomSensorVolume.set_intersectionColor
      (Property_getValueOrDefault intersectionColor time Color_WHITE)
      primitive in
  CustomSensorVolume.set_intersectionWidth
    (Property_getValueOrDefault intersectionWidth time (Num 1)) primitive.

(** Position and orientation of an entity that is to be shown at [time]:
    [entity.isShowing && entity.isAvailable(time) && show], and both
    defined. *)
Definition resolvePose (time : JulianDate) (entity : Entity.t)
    (show : option (Property bool)) : option (Cartesian3 * Quaternion) :=
  if Entity.isShowing entity && Entity.isAvailable entity time
     && Property_getValueOrDefault show time true
  then
    match Property_getValueOrUndefined (Entity._position entity) time,
          Property_getValueOrUndefined (Entity._orientation entity) time with
    | Some position, Some orientation => Some (position, orientation)
    | _, _ => None
    end
  else None.

(** Over the reals the loops of [computeDirections] end within this many
    iterations (180 for the full circle, the length of the interval in steps
    otherwise): the array held before is never the answer. *)
Definition computeDirections_fuel (minimumClockAngle maximumClockAngle : R)
    : nat :=
  180 + Z.to_nat (up ((maximumClockAngle - minimumClockAngle)
                      / CesiumMath.toRadians (of_Z 2))%R).

(** [computeDirections(primitive, ...)] on the primitive: the array of
    [primitive.directions] is rewritten and assigned back through the
    setter. *)
Definition ConicSensorVisualizer_computeDirections
    (primitive : CustomSensorVolume.t)
    (minimumClockAngle maximumClockAngle innerHalfAngle outerHalfAngle : R)
    : CustomSensorVolume.t :=
  let directions := CustomSensorVolume.directions primitive in
  let directions :=
    default directions
      (computeDirections
         (computeDirections_fuel minimumClockAngle maximumClockAngle)
         directions minimumClockAngle maximumClockAngle innerHalfAngle
         outerHalfAngle) in
  CustomSensorVolume.set_directions directions primitive.

(** The loop body of [ConicSensorVisualizer.prototype.update] on the data and
    the primitive of an entity that is shown. *)
Definition ConicSensorVisualizer_apply (time : JulianDate)
    (conicSensorGraphics : ConicSensorGraphics.t)
    (position : Cartesian3) (orientation : Quaternion)
    (data : Data.t) (primitive : CustomSensorVolume.t)
    : Data.t * CustomSensorVolume.t :=
  let (data, primitive) := applyPose position orientation data primitive in
  let primitive := CustomSensorVolume.set_show true primitive in
  let minimumClockAngle :=
    Property_getValueOrDefault
      (ConicSensorGraphics._minimumClockAngle conicSensorGraphics) time 0%R in
  let maximumClockAngle :=
    Property_getValueOrDefault
      (ConicSensorGraphics._maximumClockAngle conicSensorGraphics) time
      CesiumMath.TWO_PI in
  let innerHalfAngle :=
    Property_getValueOrDefault
      (ConicSensorGraphics._innerHalfAngle conicSensorGraphics) time 0%R in
  let outerHalfAngle :=
    Property_getValueOrDefault
      (ConicSensorGraphics._outerHalfAngle conicSensorGraphics) time PI in
  let (data, primitive) :=
    if differs minimumClockAngle (Data.minimumClockAngle data)
       || differs maximumClockAngle (Data.maximumClockAngle data)
       || differs innerHalfAngle (Data.innerHalfAngle data)
       || differs outerHalfAngle (Data.outerHalfAngle data)
    then
      (Data.set_minimumClockAngle (Some minimumClockAngle)
         (Data.set_outerHalfAngle (Some outerHalfAngle)
            (Data.set_maximumClockAngle (Some maximumClockAngle)
               (Data.set_innerHalfAngle (Some innerHalfAngle) data))),
       ConicSensorVisualizer_computeDirections primitive minimumClockAngle
         maximumClockAngle innerHalfAngle outerHalfAngle)
    else (data, primitive) in
  (data,
   applyAppearance time
     (ConicSensorGraphics._radius conicSensorGraphics)
     (ConicSensorGraphics._lateralSurfaceMaterial conicSensorGraphics)
     (ConicSensorGraphics._intersectionColor conicSensorGraphics)
     (ConicSensorGraphics._intersectionWidth conicSensorGraphics)
     primitive).

(** The loop body of [CustomPatternSensorVisualizer.prototype.update] on the
    data and the primitive of an entity that is shown. *)
Definition CustomPatternSensorVisualizer_apply (time : JulianDate)
    (customPatternSensorGraphics : CustomPatternSensorGraphics.t)
    (position : Cartesian3) (orientation : Quaternion)
    (directions : list (Spherical R))
    (data : Data.t) (primitive : CustomSensorVolume.t)
    : Data.t * CustomSensorVolume.t :=
  let (data, primitive) := applyPose position orientation data primitive in
  let primitive := CustomSensorVolume.set_show true primitive in
  let primitive := CustomSensorVolume.set_directions directions primitive in
  (data,
   applyAppearance time
     (CustomPatternSensorGraphics._radius customPatternSensorGraphics)
     (CustomPatternSensorGraphics._lateralSurfaceMaterial
        customPatternSensorGraphics)
     (CustomPatternSensorGraphics._intersectionColor
        customPatternSensorGraphics)
     (CustomPatternSensorGraphics._intersectionWidth
        customPatternSensorGraphics)
     primitive).

(** The loop body of [RectangularSensorVisualizer.prototype.update] on the
    data and the primitive of an entity that is shown; the two half-angle
    setters may throw. *)
Definition RectangularSensorVisualizer_apply (time : JulianDate)
    (rectangularSensorGraphics : RectangularSensorGraphics.t)
    (position : Cartesian3) (orientation : Quaternion)
    (data : Data.t) (primitive : RectangularPyramidSensorVolume.t)
    : Completion (Data.t * RectangularPyramidSensorVolume.t) :=
  let (data, customSensor) :=
    applyPose position orientation data
      (RectangularPyramidSensorVolume._customSensor primitive) in
  let customSensor := CustomSensorVolume.set_show true customSensor in
  let primitive :=
    RectangularPyramidSensorVolume.set__customSensor customSensor primitive in
  let! primitive :=
    RectangularPyramidSensorVolume.set_xHalfAngle
      (Property_getValueOrDefault
         (RectangularSensorGraphics._xHalfAngle rectangularSensorGraphics)
         time CesiumMath.PI_OVER_TWO) primitive in
  let! primitive :=
    RectangularPyramidSensorVolume.set_yHalfAngle
      (Property_getValueOrDefault
         (RectangularSensorGraphics._yHalfAngle rectangularSensorGraphics)
         time CesiumMath.PI_OVER_TWO) primitive in
  Normal
    (data,
     RectangularPyramidSensorVolume.set__customSensor
       (applyAppearance time
          (RectangularSensorGraphics._radius rectangularSensorGraphics)
          (RectangularSensorGraphics._lateralSurfaceMaterial
             rectangularSensorGraphics)
          (RectangularSensorGraphics._intersectionColor
             rectangularSensorGraphics)
          (RectangularSensorGraphics._intersectionWidth
             rectangularSensorGraphics)
          (RectangularPyramidSensorVolume._customSensor primitive))
       primitive).

Section AnyPrimitiveUpdate.
Context {P : Type} `{!SensorPrimitive P}.

(** The data and the primitive after the loop body are written back:
    [data] is the object in [hash], the primitive the one behind its
    handle. *)
Definition commit (entity : Entity.t) (data : Data.t) (primitive : P)
    (state : Visualizer.t * World.t P) : Visualizer.t * World.t P :=
  let (this, world) := state in
  (Visualizer.set__hash (<[Entity.id entity := data]> (Visualizer._hash this))
                        this,
   World.set_objects (<[Data.primitive data := primitive]>
                        (World.objects world)) world).

(** The loop body of an [update] for one tracked entity: [pose] is the
    position and orientation when the entity is to be shown, [create] the
    primitive a new entity gets, [apply] the rest of the body.  A handle
    without an object behind it cannot be assigned to. *)
Definition updateEntity (create : P)
    (apply : Data.t -> P -> Completion (Data.t * P))
    (pose : bool) (entity : Entity.t) (state : Visualizer.t * World.t P)
    : Completion (Visualizer.t * World.t P) :=
  let data := Visualizer._hash (fst state) !! Entity.id entity in
  if pose then
    let (data, state) := obtain create entity data state in
    match World.objects (snd state) !! Data.primitive data with
    | Some primitive =>
        let! (data, primitive) := apply data primitive in
        Normal (commit entity data primitive state)
    | None => Throw TypeError
    end
  else
    (* don't bother creating or updating anything else *)
    Normal (fst state, hide data (snd state)).

(** The [for] loop of an [update] over the tracked entities. *)
Fixpoint updateEntities
    (body : Entity.t -> Visualizer.t * World.t P
            -> Completion (Visualizer.t * World.t P))
    (entities : list Entity.t) (state : Visualizer.t * World.t P)
    : Completion (Visualizer.t * World.t P) :=
  match entities with
  | [] => Normal state
  | entity :: entities =>
      let! state := body entity state in
      updateEntities body entities state
  end.
End AnyPrimitiveUpdate.

(** [ConicSensorVisualizer.prototype.update = function(time)]. *)
Definition ConicSensorVisualizer_update (time : JulianDate)
    (state : Visualizer.t * World.t CustomSensorVolume.t)
    : Completion (Visualizer.t * World.t CustomSensorVolume.t) :=
  updateEntities
    (fun entity state =>
       match Entity._conicSensor entity with
       | Some conicSensorGraphics =>
           match resolvePose time entity
                   (ConicSensorGraphics._show conicSensorGraphics) with
           | Some (position, orientation) =>
               updateEntity CustomSensorVolume.new
                 (fun data primitive =>
                    Normal (ConicSensorVisualizer_apply time
                              conicSensorGraphics position orientation
                              data primitive))
                 true entity state
           | None =>
               updateEntity CustomSensorVolume.new
                 (fun data primitive => Normal (data, primitive))
                 false entity state
           end
       | None => Throw TypeError
       end)
    (AssociativeArray.values (Visualizer._entitiesToVisualize (fst state)))
    state.

(** [CustomPatternSensorVisualizer.prototype.update = function(time)]: an
    entity is shown only when its directions are defined as well. *)
Definition CustomPatternSensorVisualizer_update (time : JulianDate)
    (state : Visualizer.t * World.t CustomSensorVolume.t)
    : Completion (Visualizer.t * World.t CustomSensorVolume.t) :=
  updateEntities
    (fun entity state =>
       match Entity._customPatternSensor entity with
       | Some customPatternSensorGraphics =>
           match resolvePose time entity
                   (CustomPatternSensorGraphics._show
                      customPatternSensorGraphics),
                 Property_getValueOrUndefined
                   (CustomPatternSensorGraphics._directions
                      customPatternSensorGraphics) time with
           | Some (position, orientation), Some directions =>
               updateEntity CustomSensorVolume.new
                 (fun data primitive =>
                    Normal (CustomPatternSensorVisualizer_apply time
                              customPatternSensorGraphics position
                              orientation directions data primitive))
                 true entity state
           | _, _ =>
               updateEntity CustomSensorVolume.new
                 (fun data primitive => Normal (data, primitive))
                 false entity state
           end
       | None => Throw TypeError
       end)
    (AssociativeArray.values (Visualizer._entitiesToVisualize (fst state)))
    state.

(** [RectangularSensorVisualizer.prototype.update = function(time)]. *)
Definition RectangularSensorVisualizer_update (time : JulianDate)
    (state : Visualizer.t * World.t RectangularPyramidSensorVolume.t)
    : Completion (Visualizer.t * World.t RectangularPyramidSensorVolume.t) :=
  updateEntities
    (fun entity state =>
       match Entity._rectangularSensor entity with
       | Some rectangularSensorGraphics =>
           match resolvePose time entity
                   (RectangularSensorGraphics._show
                      rectangularSensorGraphics) with
           | Some (position, orientation) =>
               updateEntity RectangularPyramidSensorVolume.new
                 (RectangularSensorVisualizer_apply time
                    rectangularSensorGraphics position orientation)
                 true entity state
           | None =>
               updateEntity RectangularPyramidSensorVolume.new
                 (fun data primitive => Normal (data, primitive))
                 false entity state
           end
       | None => Throw TypeError
       end)
    (AssociativeArray.values (Visualizer._entitiesToVisualize (fst state)))
    state.

(** The completeness tests of the three [_onCollectionChanged]. *)
Definition ConicSensorVisualizer_complete (entity : Entity.t) : bool :=
  bool_decide (is_Some (Entity._conicSensor entity))
  && bool_decide (is_Some (Entity._position entity))
  && bool_decide (is_Some (Entity._orientation entity)).

Definition CustomPatternSensorVisualizer_complete (entity : Entity.t)
    : bool :=
  bool_decide (is_Some (Entity._customPatternSensor entity))
  && bool_decide (is_Some (Entity._position entity))
  && bool_decide (is_Some (Entity._orientation entity)).

Definition RectangularSensorVisualizer_complete (entity : Entity.t) : bool :=
  bool_decide (is_Some (Entity._rectangularSensor entity))
  && bool_decide (is_Some (Entity._position entity))
  && bool_decide (is_Some (Entity._orientation entity)).
End Visualizers.

(** A polygon of three unit directions and a first frame (3D, render pass
    only, fresh context) for the closed examples. *)
Definition exampleDirections : list (Spherical R) :=
  [mkSpherical 0%R 1%R 1%R; mkSpherical 2%R 1%R 1%R; mkSpherical 4%R 1%R 1%R].

Definition exampleFrame (context : Context)
    : FrameState.t (H := example_Cesium) :=
  FrameState.mk SCENE3D true false context [].

Definition freshContext : Context := {| nextHandle := 0; events := [] |}.

(** An entity with a conic sensor, and a scene without primitives. *)
Definition exampleEntity : Entity.t (H := example_Cesium) :=
  {| Entity.id := "E";
     Entity.isShowing := true;
     Entity.isAvailable := fun _ => true;
     Entity._position := Some (fun _ => Some Cartesian3_ZERO);
     Entity._orientation :=
       Some (fun _ => Some (tt : Quaternion (Cesium := example_Cesium)));
     Entity._conicSensor :=
       Some {| ConicSensorGraphics._show := None;
               ConicSensorGraphics._minimumClockAngle := None;
               ConicSensorGraphics._maximumClockAngle := None;
               ConicSensorGraphics._innerHalfAngle := None;
               ConicSensorGraphics._outerHalfAngle := None;
               ConicSensorGraphics._radius := None;
               ConicSensorGraphics._lateralSurfaceMaterial := None;
               ConicSensorGraphics._intersectionColor := None;
               ConicSensorGraphics._intersectionWidth := None |};
     Entity._customPatternSensor := None;
     Entity._rectangularSensor := None |}.

Definition emptyWorld : World.t (CustomSensorVolume.t (H := example_Cesium)) :=
  {| World.primitives := []; World.destroyPrimitives := true;
     World.objects := ∅; World.nextObject := 0;
     World.context := freshContext; World.destroyCalls := [] |}.

(** A visualizer that has given [exampleEntity] a primitive, with handle 0. *)
Definition exampleData : Data.t (H := example_Cesium) :=
  {| Data.primitive := 0; Data.position := None; Data.orientation := None;
     Data.minimumClockAngle := None; Data.maximumClockAngle := None;
     Data.innerHalfAngle := None; Data.outerHalfAngle := None |}.

Definition exampleTracking
    : Visualizer.t (H := example_Cesium)
      * World.t (CustomSensorVolume.t (H := example_Cesium)) :=
  ({| Visualizer._hash := {["E" := exampleData]};
      Visualizer._entitiesToVisualize := [("E", exampleEntity)] |},
   {| World.primitives := [0]; World.destroyPrimitives := true;
      World.objects := {[0 := CustomSensorVolume.new]}; World.nextObject := 1;
      World.context := freshContext; World.destroyCalls := [] |}).

(** ** Runs of a visualizer *)

Section VisualizerVocabulary.
Context `{Cesium}.

(** What happens to a visualizer: the collection reports changes, or the
    scene asks for an update at a time. *)
Inductive Action :=
| CollectionChanged (added removed changed : list Entity.t)
| Update (time : JulianDate).

(** A run of the conic visualizer; it stops at the first update that
    throws. *)
Fixpoint ConicSensorVisualizer_run (actions : list Action)
    (state : Visualizer.t * World.t CustomSensorVolume.t)
    : Completion (Visualizer.t * World.t CustomSensorVolume.t) :=
  match actions with
  | [] => Normal state
  | CollectionChanged added removed changed :: actions =>
      ConicSensorVisualizer_run actions
        (onCollectionChanged ConicSensorVisualizer_complete
           added removed changed state)
  | Update time :: actions =>
      bind (ConicSensorVisualizer_update time state)
           (ConicSensorVisualizer_run actions)
  end.

(** The entity with this id is in the tracked set. *)
Definition tracked (id : string) (this : Visualizer.t) : Prop :=
  id ∈ (Visualizer._entitiesToVisualize this).*1.

(** Every tracked entity is filed under its own id. *)
Definition filedById (this : Visualizer.t) : Prop :=
  Forall (fun entry : string * Entity.t => entry.1 = Entity.id entry.2)
         (Visualizer._entitiesToVisualize this).

(** No two entries of the hash share a primitive. *)
Definition primitivesDistinct (hash : gmap string Data.t) : Prop :=
  forall (id1 id2 : string) (data1 data2 : Data.t),
    hash !! id1 = Some data1 -> hash !! id2 = Some data2 ->
    Data.primitive data1 = Data.primitive data2 -> id1 = id2.

(** The number of [destroy()] calls made on a handle. *)
Definition destroyCount {P : Type} (handle : nat) (world : World.t P) : nat :=
  length (filter (fun h => h = handle) (World.destroyCalls world)).

(** A handle that an operation on the world leaves alone: it is in the scene
    as before, with the object and the number of [destroy()] calls it had. *)
Definition untouched {P : Type} (h : nat) (world world' : World.t P) : Prop :=
  (h ∈ World.primitives world' <-> h ∈ World.primitives world)
  /\ World.objects world' !! h = World.objects world !! h
  /\ destroyCount h world' = destroyCount h world.

(** An entity has an entry whose primitive (handle [h]) is in use, with [n]
    [destroy()] calls so far ... *)
Definition awaiting {P : Type} `{!SensorPrimitive P} (id : string) (h n : nat)
    (state : Visualizer.t * World.t P) : Prop :=
  exists (data : Data.t) (primitive : P),
    Visualizer._hash state.1 !! id = Some data
    /\ Data.primitive data = h
    /\ primitivesDistinct (Visualizer._hash state.1)
    /\ World.objects state.2 !! h = Some primitive
    /\ Primitive_isDestroyed primitive = false
    /\ destroyCount h state.2 = n.

(** ... and the entry is gone: no entry names the primitive, the scene does
    not hold it, and [destroy()] was called on it once more. *)
Definition retired {P : Type} (id : string) (h n : nat)
    (state : Visualizer.t * World.t P) : Prop :=
  Visualizer._hash state.1 !! id = None
  /\ (forall id' data', Visualizer._hash state.1 !! id' = Some data' ->
                        Data.primitive data' <> h)
  /\ (h ∉ World.primitives state.2)
  /\ destroyCount h state.2 = S n.

(** An action that brings no entity with this id among the added or the
    changed ones. *)
Definition bringsNot (id : string) (action : Action) : Prop :=
  match action with
  | CollectionChanged added removed changed =>
      Forall (fun entity => Entity.id entity <> id) added
      /\ Forall (fun entity => Entity.id entity <> id) changed
  | Update _ => True
  end.

(** The handles of the primitives made for the entity with this id. *)
Definition primitiveOf (id : string) (world : World.t CustomSensorVolume.t)
    (handle : nat) : Prop :=
  exists primitive,
    World.objects world !! handle = Some primitive
    /\ CustomSensorVolume.id primitive = Some id.
End VisualizerVocabulary.

(** ** Vocabulary of the ticks *)

Section TickVocabulary.
Context `{Cesium}.

(** The four angles a conic tick resolves at [time]. *)
Definition conicAngles (time : JulianDate)
    (conicSensorGraphics : ConicSensorGraphics.t) : R * R * R * R :=
  (Property_getValueOrDefault
     (ConicSensorGraphics._minimumClockAngle conicSensorGraphics) time 0%R,
   Property_getValueOrDefault
     (ConicSensorGraphics._maximumClockAngle conicSensorGraphics) time
     CesiumMath.TWO_PI,
   Property_getValueOrDefault
     (ConicSensorGraphics._innerHalfAngle conicSensorGraphics) time 0%R,
   Property_getValueOrDefault
     (ConicSensorGraphics._outerHalfAngle conicSensorGraphics) time PI).

(** [data] holds these four angles as the ones last applied. *)
Definition recorded (angles : R * R * R * R) (data : Data.t) : Prop :=
  Data.minimumClockAngle data = Some angles.1.1.1
  /\ Data.maximumClockAngle data = Some angles.1.1.2
  /\ Data.innerHalfAngle data = Some angles.1.2
  /\ Data.outerHalfAngle data = Some angles.2.

(** The two half angles a rectangular tick resolves at [time]. *)
Definition rectangularAngles (time : JulianDate)
    (rectangularSensorGraphics : RectangularSensorGraphics.t) : R * R :=
  (Property_getValueOrDefault
     (RectangularSensorGraphics._xHalfAngle rectangularSensorGraphics) time
     CesiumMath.PI_OVER_TWO,
   Property_getValueOrDefault
     (RectangularSensorGraphics._yHalfAngle rectangularSensorGraphics) time
     CesiumMath.PI_OVER_TWO).
End TickVocabulary.

(** Graphics with no property defined: every value resolves to its
    default. *)
Definition exampleConicGraphics : ConicSensorGraphics.t (H := example_Cesium) :=
  {| ConicSensorGraphics._show := None;
     ConicSensorGraphics._minimumClockAngle := None;
     ConicSensorGraphics._maximumClockAngle := None;
     ConicSensorGraphics._innerHalfAngle := None;
     ConicSensorGraphics._outerHalfAngle := None;
     ConicSensorGraphics._radius := None;
     ConicSensorGraphics._lateralSurfaceMaterial := None;
     ConicSensorGraphics._intersectionColor := None;
     ConicSensorGraphics._intersectionWidth := None |}.

Definition exampleRectangularGraphics
    : RectangularSensorGraphics.t (H := example_Cesium) :=
  {| RectangularSensorGraphics._show := None;
     RectangularSensorGraphics._xHalfAngle := None;
     RectangularSensorGraphics._yHalfAngle := None;
     RectangularSensorGraphics._radius := None;
     RectangularSensorGraphics._lateralSurfaceMaterial := None;
     RectangularSensorGraphics._intersectionColor := None;
     RectangularSensorGraphics._intersectionWidth := None |}.

(** Graphics of a custom pattern whose directions are [exampleDirections] at
    every time. *)
Definition exampleCustomPatternGraphics
    : CustomPatternSensorGraphics.t (H := example_Cesium) :=
  {| CustomPatternSensorGraphics._show := None;
     CustomPatternSensorGraphics._directions :=
       Some (fun _ => Some exampleDirections);
     CustomPatternSensorGraphics._radius := None;
     CustomPatternSensorGraphics._lateralSurfaceMaterial := None;
     CustomPatternSensorGraphics._intersectionColor := None;
     CustomPatternSensorGraphics._intersectionWidth := None |}.

(** Two times of consecutive ticks, and an orientation. *)
Definition exampleTime : JulianDate (Cesium := example_Cesium) :=
  (0%nat : JulianDate (Cesium := example_Cesium)).

Definition laterTime : JulianDate (Cesium := example_Cesium) :=
  (1%nat : JulianDate (Cesium := example_Cesium)).

Definition exampleOrientation : Quaternion (Cesium := example_Cesium) :=
  (tt : Quaternion (Cesium := example_Cesium)).

(** A primitive as a frame update leaves it: the directions clean. *)
Definition cleanPrimitive : CustomSensorVolume.t (H := example_Cesium) :=
  CustomSensorVolume.set__directionsDirty false CustomSensorVolume.new.

(** A rectangular sensor as constructed, both half angles 90 degrees. *)
Definition exampleRectangular
    : RectangularPyramidSensorVolume.t (H := example_Cesium) :=
  RectangularPyramidSensorVolume.new.

(** ** Vocabulary of the further properties *)

(** Two arrays of directions agree on their first [i] slots, which both
    have. *)
Definition agree {num : Type} (i : nat)
    (directions1 directions2 : list (Spherical num)) : Prop :=
  i <= length directions1 /\ i <= length directions2
  /\ take i directions1 = take i directions2.

Section FurtherVocabulary.
Context `{Cesium}.

(** [this'] has the public parameters of [this]. *)
Definition sameParameters (this this' : CustomSensorVolume.t) : Prop :=
  CustomSensorVolume.show this' = CustomSensorVolume.show this
  /\ CustomSensorVolume.showIntersection this'
     = CustomSensorVolume.showIntersection this
  /\ CustomSensorVolume.showThroughEllipsoid this'
     = CustomSensorVolume.showThroughEllipsoid this
  /\ CustomSensorVolume.modelMatrix this' = CustomSensorVolume.modelMatrix this
  /\ CustomSensorVolume.radius this' = CustomSensorVolume.radius this
  /\ CustomSensorVolume.lateralSurfaceMaterial this'
     = CustomSensorVolume.lateralSurfaceMaterial this
  /\ CustomSensorVolume.intersectionColor this'
     = CustomSensorVolume.intersectionColor this
  /\ CustomSensorVolume.intersectionWidth this'
     = CustomSensorVolume.intersectionWidth this
  /\ CustomSensorVolume.id this' = CustomSensorVolume.id this
  /\ CustomSensorVolume.directions this' = CustomSensorVolume.directions this.
End FurtherVocabulary.

(** The triangle [createVertexArray] writes for the edge from the boundary
    vertex [i] to the boundary vertex [j]: the sensor vertex, vertex [j] and
    vertex [i], each followed by the normal of the face. *)
Definition faceNormal (positions : list R) (i j : nat) : Cartesian3 :=
  Cartesian3_normalize
    (Cartesian3_cross (positionAt positions j) (positionAt positions i)).

Definition face (positions : list R) (i j : nat) : list R :=
  let p0 := positionAt positions i in
  let p1 := positionAt positions j in
  let n := faceNormal positions i j in
  [0; 0; 0; x n; y n; z n;
   x p1; y p1; z p1; x n; y n; z n;
   x p0; y p0; z p0; x n; y n; z n]%R.

Section LifecycleVocabulary.
Context `{Cesium}.

(** The books of a visualizer balance.  [foreign] are the primitives the
    scene held before the visualizer was made, all with handles below
    [first]: they are in the collection as they were, every other primitive
    of the collection is the primitive of an entry of the hash, and every
    entry belongs to a tracked entity. *)
Definition accounted (first : nat) (foreign : list nat)
    (state : Visualizer.t * World.t CustomSensorVolume.t) : Prop :=
  filedById state.1
  /\ (forall id, is_Some (Visualizer._hash state.1 !! id) ->
                 tracked id state.1)
  /\ filter (fun h => h < first) (World.primitives state.2) = foreign
  /\ (forall h, h ∈ World.primitives state.2 -> first <= h ->
        exists id data,
          Visualizer._hash state.1 !! id = Some data
          /\ Data.primitive data = h)
  /\ (forall id data, Visualizer._hash state.1 !! id = Some data ->
        first <= Data.primitive data)
  /\ first <= World.nextObject state.2.
End LifecycleVocabulary.

(** ** CZML: the directions of a custom pattern sensor *)

Section Czml.
Open Scope R_scope.

(** [new Spherical(clock, cone, magnitude)] of Cesium: an argument that is
    undefined takes its default, 0.0 for the angles and 1.0 for the
    magnitude. *)
Definition Spherical_new (clock cone magnitude : option R) : Spherical R :=
  mkSpherical (default 0 clock) (default 0 cone) (default 1 magnitude).

(** [new Cartesian3(x, y, z)] of Cesium, with the defaults 0.0. *)
Definition Cartesian3_new (x y z : option R) : Cartesian3 :=
  mkCartesian3 (default 0 x) (default 0 y) (default 0 z).

(** [Spherical.fromCartesian3] and [Spherical.normalize] of Cesium. *)
Definition Spherical_fromCartesian3 (cartesian3 : Cartesian3) : Spherical R :=
  let radialSquared :=
    x cartesian3 * x cartesian3 + y cartesian3 * y cartesian3 in
  mkSpherical (Math_atan2 (y cartesian3) (x cartesian3))
              (Math_atan2 (sqrt radialSquared) (z cartesian3))
              (sqrt (radialSquared + z cartesian3 * z cartesian3)).

Definition Spherical_normalize (spherical : Spherical R) : Spherical R :=
  mkSpherical (clock spherical) (cone spherical) 1.

(** The [directions] object of a packet: the four forms a list of directions
    may come in, and the [array] that [processDirectionData] adds. *)
Record DirectionsPacket := {
  unitSpherical : option (list R);
  spherical : option (list R);
  unitCartesian : option (list R);
  cartesian : option (list R);
  array : option (list (Spherical R))
}.

Definition set_array (value : list (Spherical R)) (directions : DirectionsPacket)
    : DirectionsPacket :=
  {| unitSpherical := unitSpherical directions;
     spherical := spherical directions;
     unitCartesian := unitCartesian directions;
     cartesian := cartesian directions;
     array := Some value |}.

(** [for (i = 0, len = numbers.length; i < len; i += step)
       values.push(make(numbers[i], numbers[i + 1], numbers[i + 2]));]
    A read past the end of the array gives [undefined].  The loop runs at
    most [len] times: [remaining] counts the iterations still allowed. *)
Fixpoint processDirectionData_loop (remaining : nat) (step : nat)
    (make : option R -> option R -> option R -> Spherical R)
    (numbers : list R) (i : nat) (values : list (Spherical R))
    : list (Spherical R) :=
  match remaining with
  | O => values
  | S remaining' =>
      if (i <? length numbers)%nat then
        processDirectionData_loop remaining' step make numbers (i + step)%nat
          (values ++ [make (numbers !! i) (numbers !! (i + 1)%nat)
                           (numbers !! (i + 2)%nat)])
      else values
  end.

(** [processDirectionData], up to the call of [processPacketData]: the
    packet with its [array]. *)
Definition processDirectionData (directions : DirectionsPacket)
    : DirectionsPacket :=
  match unitSpherical directions, spherical directions,
        unitCartesian directions, cartesian directions with
  | Some unitSphericals, _, _, _ =>
      set_array
        (processDirectionData_loop (length unitSphericals) 2
           (fun clock cone _ => Spherical_new clock cone None)
           unitSphericals 0 [])
        directions
  | None, Some sphericals, _, _ =>
      set_array
        (processDirectionData_loop (length sphericals) 3
           (fun clock cone magnitude => Spherical_new clock cone magnitude)
           sphericals 0 [])
        directions
  | None, None, Some unitCartesians, _ =>
      set_array
        (processDirectionData_loop (length unitCartesians) 3
           (fun x y z =>
              let tmp := Spherical_fromCartesian3 (Cartesian3_new x y z) in
              Spherical_normalize tmp)
           unitCartesians 0 [])
        directions
  | None, None, None, Some cartesians =>
      set_array
        (processDirectionData_loop (length cartesians) 3
           (fun x y z => Spherical_fromCartesian3 (Cartesian3_new x y z))
           cartesians 0 [])
        directions
  | None, None, None, None => directions
  end.

(** The numbers of a list of directions, as a packet lists them. *)
Definition unitSphericalNumbers (directions : list (Spherical R)) : list R :=
  concat (map (fun d => [clock d; cone d]) directions).

Definition sphericalNumbers (directions : list (Spherical R)) : list R :=
  concat (map (fun d => [clock d; cone d; magnitude d]) directions).

Definition cartesianNumbers (points : list Cartesian3) : list R :=
  concat (map (fun p => [x p; y p; z p]) points).
End Czml.

(** A scene that holds one primitive of somebody else. *)
Definition foreignWorld : World.t (CustomSensorVolume.t (H := example_Cesium)) :=
  {| World.primitives := [0]; World.destroyPrimitives := true;
     World.objects := ∅; World.nextObject := 1;
     World.context := freshContext; World.destroyCalls := [] |}.

Section TickVocabulary2.
Context `{Cesium}.

(** What every tick leaves on the custom sensor of an entity that is
    shown: [show] is true; radius, material, intersection colour and width
    are the values resolved at [time], with the defaults of the visualizers
    (an infinite radius, white, width 1) for the properties that are
    undefined; [showIntersection], [showThroughEllipsoid] and [id] are as
    the tick found them. *)
Definition appearanceApplied (time : JulianDate)
    (radius : option (Property number))
    (lateralSurfaceMaterial : option MaterialProperty)
    (intersectionColor : option (Property Color))
    (intersectionWidth : option (Property number))
    (before after : CustomSensorVolume.t) : Prop :=
  CustomSensorVolume.show after = true
  /\ CustomSensorVolume.radius after
     = Property_getValueOrDefault radius time Infinity
  /\ CustomSensorVolume.lateralSurfaceMaterial after
     = Some (MaterialProperty_getValue time lateralSurfaceMaterial
               (CustomSensorVolume.lateralSurfaceMaterial before))
  /\ CustomSensorVolume.intersectionColor after
     = Property_getValueOrDefault intersectionColor time Color_WHITE
  /\ CustomSensorVolume.intersectionWidth after
     = Property_getValueOrDefault intersectionWidth time (Num 1)
  /\ CustomSensorVolume.showIntersection after
     = CustomSensorVolume.showIntersection before
  /\ CustomSensorVolume.showThroughEllipsoid after
     = CustomSensorVolume.showThroughEllipsoid before
  /\ CustomSensorVolume.id after = CustomSensorVolume.id before.
End TickVocabulary2.

Section HiddenVocabulary.
Context `{Cesium}.

(** From [world] to [world'] nothing happened but primitives being hidden:
    the collection, the counter, the context and the log of [destroy()] calls
    are the same, and every object is the one it was, or that one with
    [show] false. *)
Definition onlyHidden (world world' : World.t CustomSensorVolume.t) : Prop :=
  World.primitives world' = World.primitives world
  /\ World.nextObject world' = World.nextObject world
  /\ World.context world' = World.context world
  /\ World.destroyCalls world' = World.destroyCalls world
  /\ forall h,
       World.objects world' !! h = World.objects world !! h
       \/ exists p, World.objects world !! h = Some p
                    /\ World.objects world' !! h
                       = Some (CustomSensorVolume.set_show false p).
End HiddenVocabulary.

(** An entity with a conic sensor that is not showing, and a visualizer that
    tracks it and has given it the primitive with handle 0. *)
Definition hiddenEntity : Entity.t (H := example_Cesium) :=
  {| Entity.id := "H";
     Entity.isShowing := false;
     Entity.isAvailable := fun _ => true;
     Entity._position := Some (fun _ => Some Cartesian3_ZERO);
     Entity._orientation := Some (fun _ => Some exampleOrientation);
     Entity._conicSensor := Some exampleConicGraphics;
     Entity._customPatternSensor := None;
     Entity._rectangularSensor := None |}.

Definition hiddenTracking
    : Visualizer.t (H := example_Cesium)
      * World.t (CustomSensorVolume.t (H := example_Cesium)) :=
  ({| Visualizer._hash := {["H" := exampleData]};
      Visualizer._entitiesToVisualize := [("H", hiddenEntity)] |},
   {| World.primitives := [0]; World.destroyPrimitives := true;
      World.objects := {[0 := CustomSensorVolume.new]};
      World.nextObject := 1;
      World.context := freshContext; World.destroyCalls := [] |}).

(** ** The shader functions of [SensorVolume] *)

Section Shader.
Open Scope R_scope.

(** GLSL's [floor]. *)
Definition floor (v : R) : R := IZR (Int_part v).

(** [vec2 sensor2dTextureCoordinates(float sensorRadius, vec3 pointMC)]:
    [atan(y, x)] is the angle of the point [(x, y)], [czm_twoPi] is
    [2 * PI]. *)
Definition sensor2dTextureCoordinates (sensorRadius : R) (pointMC : Cartesian3)
    : R * R :=
  let t := z pointMC / sensorRadius in
  let s := 1 + Math_atan2 (y pointMC) (x pointMC) / (2 * PI) in
  let s := s - floor s in
  (s, t).
End Shader.

(** ** The graphics objects: [merge] and [clone] *)

(** [defaultValue(a, b)] of Cesium: [a] unless it is undefined. *)
Definition defaultValue {A : Type} (a b : option A) : option A :=
  match a with
  | Some _ => a
  | None => b
  end.

(** The properties of a [ConicSensorGraphics]: the ones the visualizer
    reads, and [showIntersection].  An assignment through a property
    descriptor is taken as the assignment to the field behind it. *)
Module ConicSensorGraphicsObject.
Section Def.
Context `{Cesium}.

Record t := mk {
  properties : ConicSensorGraphics.t;
  _showIntersection : option (Property bool)
}.

(** An object with every property undefined: a new object before anything
    is assigned, and a source that defines nothing. *)
Definition empty : t :=
  {| properties :=
       {|
         ConicSensorGraphics._show :=
           None;
         ConicSensorGraphics._innerHalfAngle :=
           None;
         ConicSensorGraphics._outerHalfAngle :=
           None;
         ConicSensorGraphics._minimumClockAngle :=
           None;
         ConicSensorGraphics._maximumClockAngle :=
           None;
         ConicSensorGraphics._radius :=
           None;
         ConicSensorGraphics._intersectionColor :=
           None;
         ConicSensorGraphics._intersectionWidth :=
           None;
         ConicSensorGraphics._lateralSurfaceMaterial :=
           None
       |};
     _showIntersection := None |}.

(** [ConicSensorGraphics.prototype.merge = function(source)]. *)
Definition merge (source : option t) (this : t) : Completion t :=
  match source with
  | None => Throw (DeveloperError "source is required.")
  | Some source =>
      Normal
        {| properties :=
             {|
               ConicSensorGraphics._show :=
                 defaultValue
                   (ConicSensorGraphics._show (properties this))
                   (ConicSensorGraphics._show (properties source));
               ConicSensorGraphics._innerHalfAngle :=
                 defaultValue
                   (ConicSensorGraphics._innerHalfAngle (properties this))
                   (ConicSensorGraphics._innerHalfAngle (properties source));
               ConicSensorGraphics._outerHalfAngle :=
                 defaultValue
                   (ConicSensorGraphics._outerHalfAngle (properties this))
                   (ConicSensorGraphics._outerHalfAngle (properties source));
               ConicSensorGraphics._minimumClockAngle :=
                 defaultValue
                   (ConicSensorGraphics._minimumClockAngle (properties this))
                   (ConicSensorGraphics._minimumClockAngle (properties source));
               ConicSensorGraphics._maximumClockAngle :=
                 defaultValue
                   (ConicSensorGraphics._maximumClockAngle (properties this))
                   (ConicSensorGraphics._maximumClockAngle (properties source));
               ConicSensorGraphics._radius :=
                 defaultValue
                   (ConicSensorGraphics._radius (properties this))
                   (ConicSensorGraphics._radius (properties source));
               ConicSensorGraphics._intersectionColor :=
                 defaultValue
                   (ConicSensorGraphics._intersectionColor (properties this))
                   (ConicSensorGraphics._intersectionColor (properties source));
               ConicSensorGraphics._intersectionWidth :=
                 defaultValue
                   (ConicSensorGraphics._intersectionWidth (properties this))
                   (ConicSensorGraphics._intersectionWidth (properties source));
               ConicSensorGraphics._lateralSurfaceMaterial :=
                 defaultValue
                   (ConicSensorGraphics._lateralSurfaceMaterial (properties this))
                   (ConicSensorGraphics._lateralSurfaceMaterial (properties source))
             |};
           _showIntersection :=
             defaultValue (_showIntersection this)
                          (_showIntersection source) |}
  end.

(** [ConicSensorGraphics.prototype.clone = function(result)]: every
    property of [result] (a new object when [result] is undefined) is
    assigned that of [this]. *)
Definition clone (result : option t) (this : t) : t :=
  let result := default empty result in
  {| properties :=
       {|
         ConicSensorGraphics._show :=
           ConicSensorGraphics._show (properties this);
         ConicSensorGraphics._innerHalfAngle :=
           ConicSensorGraphics._innerHalfAngle (properties this);
         ConicSensorGraphics._outerHalfAngle :=
           ConicSensorGraphics._outerHalfAngle (properties this);
         ConicSensorGraphics._minimumClockAngle :=
           ConicSensorGraphics._minimumClockAngle (properties this);
         ConicSensorGraphics._maximumClockAngle :=
           ConicSensorGraphics._maximumClockAngle (properties this);
         ConicSensorGraphics._radius :=
           ConicSensorGraphics._radius (properties this);
         ConicSensorGraphics._intersectionColor :=
           ConicSensorGraphics._intersectionColor (properties this);
         ConicSensorGraphics._intersectionWidth :=
           ConicSensorGraphics._intersectionWidth (properties this);
         ConicSensorGraphics._lateralSurfaceMaterial :=
           ConicSensorGraphics._lateralSurfaceMaterial (properties this)
       |};
     _showIntersection := _showIntersection this |}.
End Def.
End ConicSensorGraphicsObject.

(** The properties of a [CustomPatternSensorGraphics]: the ones the visualizer
    reads, and [showIntersection].  An assignment through a property
    descriptor is taken as the assignment to the field behind it. *)
Module CustomPatternSensorGraphicsObject.
Section Def.
Context `{Cesium}.

Record t := mk {
  properties : CustomPatternSensorGraphics.t;
  _showIntersection : option (Property bool)
}.

(** An object with every property undefined: a new object before anything
    is assigned, and a source that defines nothing. *)
Definition empty : t :=
  {| properties :=
       {|
         CustomPatternSensorGraphics._directions :=
           None;
         CustomPatternSensorGraphics._radius :=
           None;
         CustomPatternSensorGraphics._show :=
           None;
         CustomPatternSensorGraphics._intersectionColor :=
           None;
         CustomPatternSensorGraphics._intersectionWidth :=
           None;
         CustomPatternSensorGraphics._lateralSurfaceMaterial :=
           None
       |};
     _showIntersection := None |}.

(** [CustomPatternSensorGraphics.prototype.merge = function(source)]. *)
Definition merge (source : option t) (this : t) : Completion t :=
  match source with
  | None => Throw (DeveloperError "source is required.")
  | Some source =>
      Normal
        {| properties :=
             {|
               CustomPatternSensorGraphics._directions :=
                 defaultValue
                   (CustomPatternSensorGraphics._directions (properties this))
                   (CustomPatternSensorGraphics._directions (properties source));
               CustomPatternSensorGraphics._radius :=
                 defaultValue
                   (CustomPatternSensorGraphics._radius (properties this))
                   (CustomPatternSensorGraphics._radius (properties source));
               CustomPatternSensorGraphics._show :=
                 defaultValue
                   (CustomPatternSensorGraphics._show (properties this))
                   (CustomPatternSensorGraphics._show (properties source));
               CustomPatternSensorGraphics._intersectionColor :=
                 defaultValue
                   (CustomPatternSensorGraphics._intersectionColor (properties this))
                   (CustomPatternSensorGraphics._intersectionColor (properties source));
               CustomPatternSensorGraphics._intersectionWidth :=
                 defaultValue
                   (CustomPatternSensorGraphics._intersectionWidth (properties this))
                   (CustomPatternSensorGraphics._intersectionWidth (properties source));
               CustomPatternSensorGraphics._lateralSurfaceMaterial :=
                 defaultValue
                   (CustomPatternSensorGraphics._lateralSurfaceMaterial (properties this))
                   (CustomPatternSensorGraphics._lateralSurfaceMaterial (properties source))
             |};
           _showIntersection :=
             defaultValue (_showIntersection this)
                          (_showIntersection source) |}
  end.

(** [CustomPatternSensorGraphics.prototype.clone = function(result)]: every
    property of [result] (a new object when [result] is undefined) is
    assigned that of [this]. *)
Definition clone (result : option t) (this : t) : t :=
  let result := default empty result in
  {| properties :=
       {|
         CustomPatternSensorGraphics._directions :=
           CustomPatternSensorGraphics._directions (properties this);
         CustomPatternSensorGraphics._radius :=
           CustomPatternSensorGraphics._radius (properties this);
         CustomPatternSensorGraphics._show :=
           CustomPatternSensorGraphics._show (properties this);
         CustomPatternSensorGraphics._intersectionColor :=
           CustomPatternSensorGraphics._intersectionColor (properties this);
         CustomPatternSensorGraphics._intersectionWidth :=
           CustomPatternSensorGraphics._intersectionWidth (properties this);
         CustomPatternSensorGraphics._lateralSurfaceMaterial :=
           CustomPatternSensorGraphics._lateralSurfaceMaterial (properties this)
       |};
     _showIntersection := _showIntersection this |}.
End Def.
End CustomPatternSensorGraphicsObject.

(** The properties of a [RectangularSensorGraphics]: the ones the visualizer
    reads, and [showIntersection].  An assignment through a property
    descriptor is taken as the assignment to the field behind it. *)
Module RectangularSensorGraphicsObject.
Section Def.
Context `{Cesium}.

Record t := mk {
  properties : RectangularSensorGraphics.t;
  _showIntersection : option (Property bool)
}.

(** An object with every property undefined: a new object before anything
    is assigned, and a source that defines nothing. *)
Definition empty : t :=
  {| properties :=
       {|
         RectangularSensorGraphics._xHalfAngle :=
           None;
         RectangularSensorGraphics._yHalfAngle :=
           None;
         RectangularSensorGraphics._radius :=
           None;
         RectangularSensorGraphics._show :=
           None;
         RectangularSensorGraphics._intersectionColor :=
           None;
         RectangularSensorGraphics._intersectionWidth :=
           None;
         RectangularSensorGraphics._lateralSurfaceMaterial :=
           None
       |};
     _showIntersection := None |}.

(** [RectangularSensorGraphics.prototype.merge = function(source)]. *)
Definition merge (source : option t) (this : t) : Completion t :=
  match source with
  | None => Throw (DeveloperError "source is required.")
  | Some source =>
      Normal
        {| properties :=
             {|
               RectangularSensorGraphics._xHalfAngle :=
                 defaultValue
                   (RectangularSensorGraphics._xHalfAngle (properties this))
                   (RectangularSensorGraphics._xHalfAngle (properties source));
               RectangularSensorGraphics._yHalfAngle :=
                 defaultValue
                   (RectangularSensorGraphics._yHalfAngle (properties this))
                   (RectangularSensorGraphics._yHalfAngle (properties source));
               RectangularSensorGraphics._radius :=
                 defaultValue
                   (RectangularSensorGraphics._radius (properties this))
                   (RectangularSensorGraphics._radius (properties source));
               RectangularSensorGraphics._show :=
                 defaultValue
                   (RectangularSensorGraphics._show (properties this))
                   (RectangularSensorGraphics._show (properties source));
               RectangularSensorGraphics._intersectionColor :=
                 defaultValue
                   (RectangularSensorGraphics._intersectionColor (properties this))
                   (RectangularSensorGraphics._intersectionColor (properties source));
               RectangularSensorGraphics._intersectionWidth :=
                 defaultValue
                   (RectangularSensorGraphics._intersectionWidth (properties this))
                   (RectangularSensorGraphics._intersectionWidth (properties source));
               RectangularSensorGraphics._lateralSurfaceMaterial :=
                 defaultValue
                   (RectangularSensorGraphics._lateralSurfaceMaterial (properties this))
                   (RectangularSensorGraphics._lateralSurfaceMaterial (properties source))
             |};
           _showIntersection :=
             defaultValue (_showIntersection this)
                          (_showIntersection source) |}
  end.

(** [RectangularSensorGraphics.prototype.clone = function(result)]: every
    property of [result] (a new object when [result] is undefined) is
    assigned that of [this]. *)
Definition clone (result : option t) (this : t) : t :=
  let result := default empty result in
  {| properties :=
       {|
         RectangularSensorGraphics._xHalfAngle :=
           RectangularSensorGraphics._xHalfAngle (properties this);
         RectangularSensorGraphics._yHalfAngle :=
           RectangularSensorGraphics._yHalfAngle (properties this);
         RectangularSensorGraphics._radius :=
           RectangularSensorGraphics._radius (properties this);
         RectangularSensorGraphics._show :=
           RectangularSensorGraphics._show (properties this);
         RectangularSensorGraphics._intersectionColor :=
           RectangularSensorGraphics._intersectionColor (properties this);
         RectangularSensorGraphics._intersectionWidth :=
           RectangularSensorGraphics._intersectionWidth (properties this);
         RectangularSensorGraphics._lateralSurfaceMaterial :=
           RectangularSensorGraphics._lateralSurfaceMaterial (properties this)
       |};
     _showIntersection := _showIntersection this |}.
End Def.
End RectangularSensorGraphicsObject.
(** ** The boundary sampler: what the loops write *)

Section SamplerFacts.
Context {num : Type} `{Number num}.
Implicit Types (directions : list (Spherical num)) (i n fuel : nat).

Lemma assignSpherical_eq i directions clock cone :
  i <= length directions ->
  assignSpherical i directions clock cone =
    take i directions ++ mkSpherical clock cone (of_Z 1)
      :: drop (S i) directions.
Proof.
  intros Hi. unfold assignSpherical.
  destruct (directions !! i) as [s|] eqn:E.
  - apply lookup_lt_Some in E as Hlt.
    rewrite insert_take_drop by lia. reflexivity.
  - apply lookup_ge_None in E.
    rewrite take_ge, drop_ge by lia. reflexivity.
Qed.

Lemma assignSpherical_length i directions clock cone :
  i <= length directions ->
  S i <= length (assignSpherical i directions clock cone).
Proof.
  intros Hi. rewrite assignSpherical_eq by exact Hi.
  rewrite length_app, length_take. simpl. lia.
Qed.

Lemma assignSpherical_take i directions clock cone :
  i <= length directions ->
  take (S i) (assignSpherical i directions clock cone) =
    take i directions ++ [mkSpherical clock cone (of_Z 1)].
Proof.
  intros Hi. rewrite assignSpherical_eq by exact Hi.
  rewrite take_app_ge; rewrite length_take; [|lia].
  replace (S i - i `min` length directions) with 1 by lia.
  reflexivity.
Qed.

Lemma runs_S (continue : num -> bool) (next : num -> num) n (a : num) :
  runs continue next (S n) a = continue a && runs continue next n (next a).
Proof.
  unfold runs. simpl forallb. rewrite Nat.iter_succ_r.
  destruct (continue a); reflexivity.
Qed.

(** A loop that runs [n <= fuel] times writes the slots [i .. i+n-1]. *)
Lemma sweepUp_runs n : forall fuel angleStep angle limit cone i directions,
  runs (fun a => lt a limit) (fun a => add a angleStep) n angle = true ->
  n <= fuel -> i <= length directions ->
  exists directions',
    sweepUp fuel angleStep angle limit cone i directions
      = Some (i + n, directions')
    /\ i + n <= length directions'
    /\ take (i + n) directions' =
         take i directions
           ++ samples cone (steps (fun a => add a angleStep) n angle).
Proof.
  induction n as [|n IH]; intros fuel angleStep angle limit cone i directions
    Hruns Hfuel Hi.
  - unfold runs in Hruns. simpl in Hruns.
    apply negb_true_iff in Hruns.
    exists directions. destruct fuel; simpl; rewrite Hruns, Nat.add_0_r;
      (split; [reflexivity|split; [exact Hi|]]);
      unfold samples; simpl; rewrite app_nil_r; reflexivity.
  - rewrite runs_S in Hruns. apply andb_true_iff in Hruns as [Hc Hruns].
    destruct fuel as [|fuel]; [lia|]. simpl. rewrite Hc.
    destruct (IH fuel angleStep (add angle angleStep) limit cone (S i)
                (assignSpherical i directions angle cone) Hruns)
      as (d' & Hs & Hlen & Htake);
      [lia|apply assignSpherical_length; exact Hi|].
    exists d'. replace (i + S n) with (S i + n) by lia.
    split; [exact Hs|split; [exact Hlen|]].
    rewrite Htake, assignSpherical_take by exact Hi.
    unfold samples. simpl. rewrite <- app_assoc. reflexivity.
Qed.

Lemma sweepDown_runs n : forall fuel angleStep angle limit cone i directions,
  runs (fun a => lt limit a) (fun a => sub a angleStep) n angle = true ->
  n <= fuel -> i <= length directions ->
  exists directions',
    sweepDown fuel angleStep angle limit cone i directions
      = Some (i + n, directions')
    /\ i + n <= length directions'
    /\ take (i + n) directions' =
         take i directions
           ++ samples cone (steps (fun a => sub a angleStep) n angle).
Proof.
  induction n as [|n IH]; intros fuel angleStep angle limit cone i directions
    Hruns Hfuel Hi.
  - unfold runs in Hruns. simpl in Hruns.
    apply negb_true_iff in Hruns.
    exists directions. destruct fuel; simpl; rewrite Hruns, Nat.add_0_r;
      (split; [reflexivity|split; [exact Hi|]]);
      unfold samples; simpl; rewrite app_nil_r; reflexivity.
  - rewrite runs_S in Hruns. apply andb_true_iff in Hruns as [Hc Hruns].
    destruct fuel as [|fuel]; [lia|]. simpl. rewrite Hc.
    destruct (IH fuel angleStep (sub angle angleStep) limit cone (S i)
                (assignSpherical i directions angle cone) Hruns)
      as (d' & Hs & Hlen & Htake);
      [lia|apply assignSpherical_length; exact Hi|].
    exists d'. replace (i + S n) with (S i + n) by lia.
    split; [exact Hs|split; [exact Hlen|]].
    rewrite Htake, assignSpherical_take by exact Hi.
    unfold samples. simpl. rewrite <- app_assoc. reflexivity.
Qed.

(** A loop that would run more than [fuel] times does not finish. *)
Lemma sweepUp_out_of_fuel fuel : forall angleStep angle limit cone i directions,
  forallb (fun a => lt a limit)
    (steps (fun a => add a angleStep) (S fuel) angle) = true ->
  sweepUp fuel angleStep angle limit cone i directions = None.
Proof.
  induction fuel as [|fuel IH]; intros angleStep angle limit cone i directions Hall;
    simpl in Hall; apply andb_true_iff in Hall as [Hc Hall]; simpl; rewrite Hc.
  - reflexivity.
  - apply IH. exact Hall.
Qed.
End SamplerFacts.

Section SamplerShape.
Context {num : Type} `{Number num}.
Implicit Types (directions : list (Spherical num)) (n m fuel : nat).

Lemma steps_length (next : num -> num) n : forall a : num,
  length (steps next n a) = n.
Proof. induction n as [|n IH]; intros a; simpl; [|rewrite IH]; reflexivity. Qed.

Lemma steps_lookup (next : num -> num) n : forall (a : num) k,
  k < n -> steps next n a !! k = Some (Nat.iter k next a).
Proof.
  induction n as [|n IH]; intros a k Hk; [lia|].
  destruct k as [|k]; [reflexivity|]. simpl steps.
  rewrite lookup_cons. rewrite IH by lia. rewrite Nat.iter_succ_r. reflexivity.
Qed.

Lemma steps_forallb_le (continue : num -> bool) (next : num -> num) n :
  forall m (a : num), m <= n ->
  forallb continue (steps next n a) = true ->
  forallb continue (steps next m a) = true.
Proof.
  induction n as [|n IH]; intros m a Hm Hall.
  - replace m with 0 by lia. reflexivity.
  - destruct m as [|m]; [reflexivity|]. simpl in *.
    apply andb_true_iff in Hall as [Ha Hall]. rewrite Ha. simpl.
    apply IH; [lia|exact Hall].
Qed.

Lemma samples_length (c : num) (clocks : list num) :
  length (samples c clocks) = length clocks.
Proof. unfold samples. apply length_map. Qed.

Lemma samples_Forall (c : num) (clocks : list num) :
  Forall (fun d => cone d = c /\ magnitude d = of_Z 1) (samples c clocks).
Proof.
  unfold samples. induction clocks as [|a clocks IH]; constructor;
    [split; reflexivity|exact IH].
Qed.

(** The full circle: the samples are those of the one ascending loop from
    [0.0] to [TWO_PI], all at the outer half-angle.  Neither the array held
    before nor [innerHalfAngle] has a say. *)
Lemma computeDirections_circle fuel n directions
    minimumClockAngle maximumClockAngle innerHalfAngle outerHalfAngle :
  strict_eq minimumClockAngle (of_Z 0)
    && strict_eq maximumClockAngle CesiumMath.TWO_PI = true ->
  runs (fun a => lt a CesiumMath.TWO_PI)
       (fun a => add a (CesiumMath.toRadians (of_Z 2))) n (of_Z 0) = true ->
  n <= fuel ->
  computeDirections fuel directions minimumClockAngle maximumClockAngle
                    innerHalfAngle outerHalfAngle
  = Some (samples outerHalfAngle
            (steps (fun a => add a (CesiumMath.toRadians (of_Z 2))) n
                   (of_Z 0))).
Proof.
  intros Hfull Hruns Hfuel. unfold computeDirections. rewrite Hfull.
  destruct (sweepUp_runs n fuel (CesiumMath.toRadians (of_Z 2)) (of_Z 0)
              CesiumMath.TWO_PI outerHalfAngle 0 directions Hruns Hfuel)
    as (d' & Hs & _ & Htake); [lia|].
  rewrite Hs. simpl in Htake. simpl. rewrite Htake. reflexivity.
Qed.

Lemma computeDirections_circle_out_of_fuel fuel directions
    minimumClockAngle maximumClockAngle innerHalfAngle outerHalfAngle :
  strict_eq minimumClockAngle (of_Z 0)
    && strict_eq maximumClockAngle CesiumMath.TWO_PI = true ->
  forallb (fun a => lt a CesiumMath.TWO_PI)
    (steps (fun a => add a (CesiumMath.toRadians (of_Z 2))) (S fuel)
           (of_Z 0)) = true ->
  computeDirections fuel directions minimumClockAngle maximumClockAngle
                    innerHalfAngle outerHalfAngle = None.
Proof.
  intros Hfull Hall. unfold computeDirections. rewrite Hfull.
  rewrite sweepUp_out_of_fuel by exact Hall. reflexivity.
Qed.

(** Clock angle limits: the ascending loop at the outer half-angle, the
    sample at [maximumClockAngle], and then either the descending loop at
    the inner half-angle closed by the sample at [minimumClockAngle], or
    the one sample at cone angle 0. *)
Lemma computeDirections_limits fuel n m directions
    minimumClockAngle maximumClockAngle innerHalfAngle outerHalfAngle :
  let angleStep := CesiumMath.toRadians (of_Z 2) in
  strict_eq minimumClockAngle (of_Z 0)
    && strict_eq maximumClockAngle CesiumMath.TWO_PI = false ->
  runs (fun a => lt a maximumClockAngle) (fun a => add a angleStep)
       n minimumClockAngle = true ->
  n <= fuel ->
  (to_boolean innerHalfAngle = true ->
     runs (fun a => lt minimumClockAngle a) (fun a => sub a angleStep)
          m maximumClockAngle = true /\ m <= fuel) ->
  computeDirections fuel directions minimumClockAngle maximumClockAngle
                    innerHalfAngle outerHalfAngle
  = Some (samples outerHalfAngle
            (steps (fun a => add a angleStep) n minimumClockAngle)
          ++ mkSpherical maximumClockAngle outerHalfAngle (of_Z 1)
          :: (if to_boolean innerHalfAngle then
                samples innerHalfAngle
                  (steps (fun a => sub a angleStep) m maximumClockAngle)
                ++ [mkSpherical minimumClockAngle innerHalfAngle (of_Z 1)]
              else [mkSpherical maximumClockAngle (of_Z 0) (of_Z 1)])).
Proof.
  intros angleStep Hfull Hup Hfuel Hdown. unfold computeDirections.
  rewrite Hfull. fold angleStep.
  destruct (sweepUp_runs n fuel angleStep minimumClockAngle
              maximumClockAngle outerHalfAngle 0 directions Hup Hfuel)
    as (d1 & Hs1 & Hlen1 & Htake1); [lia|].
  rewrite Hs1. simpl in Hlen1, Htake1. cbn zeta. simpl Nat.add.
  pose proof (assignSpherical_length n d1 maximumClockAngle outerHalfAngle
                Hlen1) as Hlen2.
  pose proof (assignSpherical_take n d1 maximumClockAngle outerHalfAngle
                Hlen1) as Htake2.
  rewrite Htake1 in Htake2.
  set (d2 := assignSpherical n d1 maximumClockAngle outerHalfAngle) in *.
  destruct (to_boolean innerHalfAngle) eqn:Hinner.
  - destruct (Hdown eq_refl) as [Hruns Hm].
    destruct (sweepDown_runs m fuel angleStep maximumClockAngle
                minimumClockAngle innerHalfAngle (S n) d2 Hruns Hm Hlen2)
      as (d3 & Hs3 & Hlen3 & Htake3).
    rewrite Hs3. f_equal.
    rewrite assignSpherical_take by exact Hlen3.
    rewrite Htake3, Htake2. rewrite <- !app_assoc. reflexivity.
  - f_equal. rewrite assignSpherical_take by exact Hlen2.
    rewrite Htake2. rewrite <- !app_assoc. reflexivity.
Qed.
End SamplerShape.

(** ** The boundary sampler over the two arithmetics *)

Section SamplerReal.
Open Scope R_scope.

Lemma Rltb_true (a b : R) : Rltb a b = true <-> a < b.
Proof. unfold Rltb. destruct (Rlt_dec a b); split; (lra || congruence || auto). Qed.

Lemma Rltb_false (a b : R) : Rltb a b = false <-> b <= a.
Proof. unfold Rltb. destruct (Rlt_dec a b); split; (lra || congruence || auto). Qed.

Lemma Reqb_true (a b : R) : Reqb a b = true <-> a = b.
Proof. unfold Reqb. destruct (Req_dec_T a b); split; (congruence || auto). Qed.

Lemma toRadians_2_pos : 0 < CesiumMath.toRadians (num := R) (of_Z 2).
Proof.
  unfold CesiumMath.toRadians, CesiumMath.RADIANS_PER_DEGREE. simpl.
  pose proof PI_RGT_0. lra.
Qed.

(** Over the reals every ascending loop ends: it runs at most
    [(limit - angle) / angleStep], rounded up, times. *)
Lemma ascending_loop_ends (angleStep : R) (n : nat) : forall angle limit,
  0 < angleStep -> limit - angle <= INR n * angleStep ->
  exists k, (k <= n)%nat /\
    runs (fun a => Rltb a limit) (fun a => a + angleStep) k angle = true.
Proof.
  induction n as [|n IH]; intros angle limit Hstep Hn.
  - exists O. split; [lia|]. unfold runs. simpl. simpl in Hn.
    apply negb_true_iff, Rltb_false. lra.
  - destruct (Rlt_dec angle limit) as [Hlt|Hge].
    + destruct (IH (angle + angleStep) limit Hstep) as (k & Hk & Hruns).
      { rewrite S_INR in Hn. lra. }
      exists (S k). split; [lia|]. rewrite runs_S, Hruns.
      apply andb_true_iff. split; [apply Rltb_true; exact Hlt|reflexivity].
    + exists O. split; [lia|]. unfold runs. simpl.
      apply negb_true_iff, Rltb_false. lra.
Qed.

Lemma descending_loop_ends (angleStep : R) (n : nat) : forall angle limit,
  0 < angleStep -> angle - limit <= INR n * angleStep ->
  exists k, (k <= n)%nat /\
    runs (fun a => Rltb limit a) (fun a => a - angleStep) k angle = true.
Proof.
  induction n as [|n IH]; intros angle limit Hstep Hn.
  - exists O. split; [lia|]. unfold runs. simpl. simpl in Hn.
    apply negb_true_iff, Rltb_false. lra.
  - destruct (Rlt_dec limit angle) as [Hlt|Hge].
    + destruct (IH (angle - angleStep) limit Hstep) as (k & Hk & Hruns).
      { rewrite S_INR in Hn. lra. }
      exists (S k). split; [lia|]. rewrite runs_S, Hruns.
      apply andb_true_iff. split; [apply Rltb_true; exact Hlt|reflexivity].
    + exists O. split; [lia|]. unfold runs. simpl.
      apply negb_true_iff, Rltb_false. lra.
Qed.

Lemma loop_bound (angleStep x : R) :
  0 < angleStep -> exists n, x <= INR n * angleStep.
Proof.
  intros Hstep. destruct (Rle_dec x 0) as [Hx|Hx].
  - exists O. simpl. lra.
  - destruct (archimed (x / angleStep)) as [Hup _].
    exists (Z.to_nat (up (x / angleStep))).
    assert (0 < x / angleStep) by (apply Rdiv_lt_0_compat; lra).
    assert (Hz : (0 <= up (x / angleStep))%Z).
    { apply le_IZR. lra. }
    rewrite INR_IZR_INZ, Z2Nat.id by exact Hz.
    apply Rlt_le in Hup.
    apply (Rmult_le_compat_r angleStep) in Hup; [|lra].
    unfold Rdiv in Hup. rewrite Rmult_assoc, Rinv_l, Rmult_1_r in Hup by lra.
    exact Hup.
Qed.

(** Over the reals the boundary sampler returns for every input, given
    enough iterations. *)
Lemma computeDirections_real_returns
    (directions : list (Spherical R)) (minimumClockAngle maximumClockAngle
     innerHalfAngle outerHalfAngle : R) :
  exists fuel0, forall fuel, (fuel0 <= fuel)%nat ->
    is_Some (computeDirections fuel directions minimumClockAngle
               maximumClockAngle innerHalfAngle outerHalfAngle).
Proof.
  pose proof toRadians_2_pos as Hstep.
  destruct (loop_bound _ (maximumClockAngle - minimumClockAngle) Hstep)
    as [n1 Hn1].
  destruct (loop_bound _ (CesiumMath.TWO_PI - of_Z 0) Hstep) as [n0 Hn0].
  destruct (ascending_loop_ends _ n1 minimumClockAngle maximumClockAngle
              Hstep Hn1) as (k1 & Hk1 & Hr1).
  destruct (descending_loop_ends _ n1 maximumClockAngle minimumClockAngle
              Hstep Hn1) as (k2 & Hk2 & Hr2).
  destruct (ascending_loop_ends _ n0 (of_Z 0) CesiumMath.TWO_PI Hstep Hn0)
    as (k0 & Hk0 & Hr0).
  exists (n0 + n1)%nat. intros fuel Hfuel.
  destruct (strict_eq minimumClockAngle (of_Z 0)
            && strict_eq maximumClockAngle CesiumMath.TWO_PI) eqn:Hfull.
  - erewrite computeDirections_circle; [eexists; reflexivity|exact Hfull
      |exact Hr0|lia].
  - erewrite (computeDirections_limits fuel k1 k2);
      [eexists; reflexivity|exact Hfull|exact Hr1|lia|].
    intros _. split; [exact Hr2|lia].
Qed.

Lemma iter_add_R (angleStep : R) (k : nat) : forall a,
  Nat.iter k (fun a => a + angleStep) a = a + INR k * angleStep.
Proof.
  induction k as [|k IH]; intros a.
  - simpl. lra.
  - rewrite Nat.iter_succ_r, IH, S_INR. lra.
Qed.

Lemma forallb_steps_R (continue : R -> bool) (angleStep : R) (n : nat) :
  forall a,
  (forall k, (k < n)%nat -> continue (a + INR k * angleStep) = true) ->
  forallb continue (steps (fun a => a + angleStep) n a) = true.
Proof.
  induction n as [|n IH]; intros a Hall; [reflexivity|].
  simpl. apply andb_true_iff. split.
  - specialize (Hall O ltac:(lia)). simpl in Hall.
    rewrite Rmult_0_l, Rplus_0_r in Hall. exact Hall.
  - apply IH. intros k Hk. specialize (Hall (S k) ltac:(lia)).
    rewrite S_INR in Hall.
    replace (a + angleStep + INR k * angleStep)
      with (a + (INR k + 1) * angleStep) by lra.
    exact Hall.
Qed.

(** In exact arithmetic 180 steps of 2 degrees reach [TWO_PI]: the full
    circle has [2 pi / angleStep = 180] samples. *)
Lemma full_circle_real_runs_180 :
  runs (fun a : R => lt a CesiumMath.TWO_PI)
       (fun a => add a (CesiumMath.toRadians (of_Z 2))) 180 (of_Z 0) = true.
Proof.
  unfold runs. apply andb_true_iff.
  assert (Hstep : CesiumMath.toRadians (num := R) (of_Z 2) = PI / 90).
  { unfold CesiumMath.toRadians, CesiumMath.RADIANS_PER_DEGREE. simpl. lra. }
  assert (Htwo : CesiumMath.TWO_PI (num := R) = 2 * PI) by reflexivity.
  pose proof PI_RGT_0 as Hpi.
  rewrite Hstep, Htwo. cbn [add lt of_Z R_Number]. split.
  - apply forallb_steps_R. intros k Hk. apply Rltb_true.
    assert (INR k <= 179).
    { replace 179 with (INR 179) by (simpl; lra). apply le_INR. lia. }
    assert (INR k * (PI / 90) <= 179 * (PI / 90)).
    { apply Rmult_le_compat_r; lra. }
    lra.
  - apply negb_true_iff, Rltb_false. rewrite iter_add_R.
    replace (INR 180) with 180 by (simpl; lra). lra.
Qed.
End SamplerReal.

Section SamplerFloat.
Open Scope float_scope.

Lemma full_circle_float_runs_181 :
  runs (fun a : float => lt a CesiumMath.TWO_PI)
       (fun a => add a (CesiumMath.toRadians (of_Z 2))) 181 (of_Z 0) = true.
Proof. vm_compute. reflexivity. Qed.
End SamplerFloat.

(** C5 (as the program runs it).  With [minimumClockAngle = 0] and
    [maximumClockAngle = TWO_PI] the sampler writes the samples of the one
    ascending loop, every one at cone angle [outerHalfAngle] and magnitude 1,
    whatever [innerHalfAngle] and the array held before are.  In binary64
    arithmetic the loop runs 181 times, not [TWO_PI / angleStep = 180] times:
    the angle reached after 180 additions of [toRadians(2.0)] is still below
    [TWO_PI]. *)
Theorem full_circle_float_emits_181_samples :
  forall (fuel : nat) (directions : list (Spherical float))
         (innerHalfAngle outerHalfAngle : float),
    PrimFloat.div CesiumMath.TWO_PI (CesiumMath.toRadians (of_Z 2))
      = 180%float
    /\ ((fuel < 181
         /\ computeDirections fuel directions (of_Z 0) CesiumMath.TWO_PI
              innerHalfAngle outerHalfAngle = None)
        \/ (181 <= fuel
            /\ exists ds,
                 computeDirections fuel directions (of_Z 0) CesiumMath.TWO_PI
                   innerHalfAngle outerHalfAngle = Some ds
                 /\ length ds = 181
                 /\ Forall (fun d => cone d = outerHalfAngle
                                     /\ magnitude d = 1%float) ds
                 /\ computeDirections fuel [] (of_Z 0) CesiumMath.TWO_PI
                      (of_Z 0) outerHalfAngle = Some ds)).
Proof.
  intros fuel directions innerHalfAngle outerHalfAngle.
  split; [vm_compute; reflexivity|].
  assert (Hfull : strict_eq (of_Z (num := float) 0) (of_Z 0)
                  && strict_eq (CesiumMath.TWO_PI (num := float))
                               CesiumMath.TWO_PI = true)
    by (vm_compute; reflexivity).
  destruct (le_lt_dec 181 fuel) as [Hge|Hlt].
  - right. split; [exact Hge|]. eexists. split; [|split; [|split]].
    + apply (computeDirections_circle fuel 181);
        [exact Hfull|exact full_circle_float_runs_181|exact Hge].
    + rewrite samples_length, steps_length. reflexivity.
    + exact (samples_Forall (num := float) outerHalfAngle _).
    + apply (computeDirections_circle fuel 181);
        [exact Hfull|exact full_circle_float_runs_181|exact Hge].
  - left. split; [exact Hlt|].
    apply computeDirections_circle_out_of_fuel; [exact Hfull|].
    apply (steps_forallb_le _ _ 181); [lia|].
    pose proof full_circle_float_runs_181 as Hr. unfold runs in Hr.
    apply andb_true_iff in Hr as [Hr _]. exact Hr.
Qed.

(** C6.  With clock angle limits (not the full circle) the sampler writes, in
    this order: the samples of the ascending loop from [minimumClockAngle]
    (the k-th at [minimumClockAngle] plus k steps, all below
    [maximumClockAngle]) at the outer half-angle; one sample at exactly
    [maximumClockAngle] at the outer half-angle; then, when [innerHalfAngle]
    is truthy, the samples of the descending loop from [maximumClockAngle] at
    the inner half-angle and a last sample at exactly [minimumClockAngle] at
    the inner half-angle, and otherwise one sample at [maximumClockAngle] with
    cone angle 0.  [n] and [m] are the numbers of iterations of the two loops;
    the result is produced as soon as [fuel] covers them. *)
Theorem clock_limits_give_wedge :
  forall {num : Type} `{Number num} (fuel n m : nat)
         (directions : list (Spherical num))
         (minimumClockAngle maximumClockAngle innerHalfAngle
          outerHalfAngle : num),
    let angleStep := CesiumMath.toRadians (of_Z 2) in
    strict_eq minimumClockAngle (of_Z 0)
      && strict_eq maximumClockAngle CesiumMath.TWO_PI = false ->
    runs (fun a => lt a maximumClockAngle) (fun a => add a angleStep)
         n minimumClockAngle = true ->
    n <= fuel ->
    (to_boolean innerHalfAngle = true ->
       runs (fun a => lt minimumClockAngle a) (fun a => sub a angleStep)
            m maximumClockAngle = true /\ m <= fuel) ->
    exists ups downs : list (Spherical num),
      length ups = n
      /\ (forall k, k < n ->
            ups !! k = Some (mkSpherical
                               (Nat.iter k (fun a => add a angleStep)
                                         minimumClockAngle)
                               outerHalfAngle (of_Z 1)))
      /\ length downs = m
      /\ (forall k, k < m ->
            downs !! k = Some (mkSpherical
                                 (Nat.iter k (fun a => sub a angleStep)
                                           maximumClockAngle)
                                 innerHalfAngle (of_Z 1)))
      /\ computeDirections fuel directions minimumClockAngle
           maximumClockAngle innerHalfAngle outerHalfAngle
         = Some (ups
                 ++ mkSpherical maximumClockAngle outerHalfAngle (of_Z 1)
                 :: (if to_boolean innerHalfAngle then
                       downs ++ [mkSpherical minimumClockAngle innerHalfAngle
                                             (of_Z 1)]
                     else [mkSpherical maximumClockAngle (of_Z 0) (of_Z 1)])).
Proof.
  intros num HN fuel n m directions minimumClockAngle maximumClockAngle
    innerHalfAngle outerHalfAngle angleStep Hfull Hup Hfuel Hdown.
  exists (samples outerHalfAngle
            (steps (fun a => add a angleStep) n minimumClockAngle)),
         (samples innerHalfAngle
            (steps (fun a => sub a angleStep) m maximumClockAngle)).
  split; [rewrite samples_length, steps_length; reflexivity|].
  split.
  { intros k Hk. unfold samples. rewrite list_lookup_fmap.
    rewrite steps_lookup by exact Hk. reflexivity. }
  split; [rewrite samples_length, steps_length; reflexivity|].
  split.
  { intros k Hk. unfold samples. rewrite list_lookup_fmap.
    rewrite steps_lookup by exact Hk. reflexivity. }
  apply computeDirections_limits; assumption.
Qed.

Lemma clock_limits_give_wedge_witness :
  exists ds : list (Spherical float),
    computeDirections 29 [] (of_Z 0) (of_Z 1) (div (of_Z 1) (of_Z 2)) (of_Z 1)
      = Some ds
    /\ length ds = 60.
Proof.
  destruct (clock_limits_give_wedge (num := float) 29 29 29 []
              (of_Z 0) (of_Z 1) (div (of_Z 1) (of_Z 2)) (of_Z 1))
    as (ups & downs & Hups & _ & Hdowns & _ & Heq).
  - vm_compute. reflexivity.
  - vm_compute. reflexivity.
  - lia.
  - intros _. split; [vm_compute; reflexivity|lia].
  - eexists. split; [exact Heq|].
    rewrite length_app. simpl. rewrite length_app. simpl. lia.
Defined.

(** ** The volume mesher *)

Section Mesher.
Open Scope R_scope.

Lemma element_of_nat {A : Type} (array : list A) (index : nat) :
  element array (Z.of_nat index) = array !! index.
Proof.
  unfold element. destruct (Z.ltb_spec (Z.of_nat index) 0); [lia|].
  rewrite Nat2Z.id. reflexivity.
Qed.

Lemma store_of_nat (typedArray : list R) (index : Z) (n : nat) (value : R) :
  index = Z.of_nat n ->
  store typedArray index value = <[n := value]> typedArray.
Proof.
  intros ->. unfold store.
  destruct (Z.ltb_spec (Z.of_nat n) 0); [lia|].
  rewrite Nat2Z.id. reflexivity.
Qed.

Lemma positionAt_store_eq (positions : list R) (j : nat) (p : Cartesian3) :
  (j * 3 + 2 < length positions)%nat ->
  positionAt
    (<[(j * 3 + 2)%nat := z p]>
       (<[(j * 3 + 1)%nat := y p]> (<[(j * 3 + 0)%nat := x p]> positions)))
    j = p.
Proof.
  intros Hlen. unfold positionAt. destruct p as [px py pz]. simpl.
  rewrite Nat.add_0_r.
  rewrite list_lookup_insert_ne by lia.
  rewrite list_lookup_insert_ne by lia.
  rewrite list_lookup_insert_eq by lia.
  rewrite list_lookup_insert_ne by lia.
  rewrite list_lookup_insert_eq by (rewrite length_insert; lia).
  rewrite list_lookup_insert_eq by (rewrite !length_insert; lia).
  reflexivity.
Qed.

Lemma positionAt_store_ne (positions : list R) (j idx : nat)
    (p : Cartesian3) :
  idx <> j ->
  positionAt
    (<[(j * 3 + 2)%nat := z p]>
       (<[(j * 3 + 1)%nat := y p]> (<[(j * 3 + 0)%nat := x p]> positions)))
    idx = positionAt positions idx.
Proof.
  intros Hne. unfold positionAt.
  rewrite !list_lookup_insert_ne by lia. reflexivity.
Qed.

Lemma prevIndex_nextIndex (N j : nat) :
  (2 <= N)%nat -> (j < N)%nat -> prevIndex N (nextIndex N j) = j.
Proof.
  intros HN Hj. unfold prevIndex, nextIndex.
  destruct (Nat.eqb_spec (S j) N); simpl.
  - lia.
  - lia.
Qed.

Lemma computePositions_loop_step (directions : list (Spherical R)) (r : R)
    (remaining i j k : nat) (di dj dk : Spherical R) (positions : list R)
    (boundingVolumePositions : list Cartesian3) :
  directions !! i = Some di -> directions !! j = Some dj ->
  directions !! k = Some dk ->
  let p := extendedPosition r di dj dk in
  computePositions_loop (S remaining) directions r
    (Z.of_nat i) (Z.of_nat j) (Z.of_nat k) positions boundingVolumePositions
  = computePositions_loop remaining directions r
      (Z.of_nat j) (Z.of_nat k) (Z.of_nat (S k))
      (<[(j * 3 + 2)%nat := z p]>
         (<[(j * 3 + 1)%nat := y p]> (<[(j * 3 + 0)%nat := x p]> positions)))
      (boundingVolumePositions ++ [p]).
Proof.
  intros Ei Ej Ek p. cbn [computePositions_loop].
  rewrite !element_of_nat, Ei, Ej, Ek. cbn zeta.
  fold (extendedPosition r di dj dk). fold p.
  rewrite (store_of_nat _ (Z.of_nat j * 3) (j * 3 + 0)) by lia.
  rewrite (store_of_nat _ (Z.of_nat j * 3 + 1) (j * 3 + 1)) by lia.
  rewrite (store_of_nat _ (Z.of_nat j * 3 + 2) (j * 3 + 2)) by lia.
  replace (Z.of_nat k + 1)%Z with (Z.of_nat (S k)) by lia.
  reflexivity.
Qed.

(** The loop from a state [(i, j, k)] in which [i] and [k] are the cyclic
    neighbours of [j]: it writes the vertex of [j] and those of
    [k .. length - 2], and nothing else. *)
Lemma computePositions_loop_spec (directions : list (Spherical R)) (r : R) :
  let N := length directions in
  forall (remaining jn kn : nat) (positions : list R)
         (boundingVolumePositions : list Cartesian3),
    (kn + remaining = N)%nat ->
    length positions = (3 * N)%nat ->
    ((1 <= remaining)%nat ->
       (jn < N)%nat /\ kn = nextIndex N jn /\ (2 <= N)%nat) ->
    exists positions' boundingVolumePositions',
      computePositions_loop remaining directions r
        (Z.of_nat (prevIndex N jn)) (Z.of_nat jn) (Z.of_nat kn)
        positions boundingVolumePositions
      = Normal (positions', boundingVolumePositions')
      /\ length positions' = (3 * N)%nat
      /\ forall idx, (idx < N)%nat ->
           ((1 <= remaining)%nat /\
            (idx = jn \/ (kn <= idx < kn + remaining - 1)%nat) ->
              Some (positionAt positions' idx)
              = sensorVertex directions r idx)
           /\ (~ ((1 <= remaining)%nat /\
                  (idx = jn \/ (kn <= idx < kn + remaining - 1)%nat)) ->
                 positionAt positions' idx = positionAt positions idx).
Proof.
  intros N remaining.
  induction remaining as [|remaining IH];
    intros jn kn positions bvp Hk Hlen Hvalid.
  - exists positions, bvp. split; [reflexivity|]. split; [exact Hlen|].
    intros idx Hidx. split; [intros [H1 _]; lia|reflexivity].
  - destruct (Hvalid ltac:(lia)) as (Hj & Hnext & HN).
    assert (Hp : (prevIndex N jn < N)%nat).
    { unfold prevIndex. destruct (Nat.eqb_spec jn 0); lia. }
    assert (Hkn : (kn < N)%nat) by lia.
    destruct (lookup_lt_is_Some_2 directions _ Hp) as [dp Edp].
    destruct (lookup_lt_is_Some_2 directions _ Hj) as [dj Edj].
    destruct (lookup_lt_is_Some_2 directions _ Hkn) as [dk Edk].
    assert (Hvertex : sensorVertex directions r jn
                      = Some (extendedPosition r dp dj dk)).
    { unfold sensorVertex. fold N. rewrite <- Hnext, Edp, Edj, Edk.
      reflexivity. }
    rewrite (computePositions_loop_step directions r remaining _ _ _
               dp dj dk positions bvp Edp Edj Edk).
    set (p := extendedPosition r dp dj dk) in *.
    set (positions1 :=
           <[(jn * 3 + 2)%nat := z p]>
             (<[(jn * 3 + 1)%nat := y p]>
                (<[(jn * 3 + 0)%nat := x p]> positions))).
    assert (Hlen1 : length positions1 = (3 * N)%nat).
    { unfold positions1. rewrite !length_insert. exact Hlen. }
    replace (Z.of_nat jn) with (Z.of_nat (prevIndex N kn)).
    2:{ rewrite Hnext, prevIndex_nextIndex by lia. reflexivity. }
    destruct (IH kn (S kn) positions1 (bvp ++ [p]))
      as (positions' & bvp' & Hloop & Hlen' & Hall); [lia|exact Hlen1| |].
    { intros Hrem. split; [lia|]. split; [|lia].
      unfold nextIndex. destruct (Nat.eqb_spec (S kn) N); [lia|reflexivity]. }
    exists positions', bvp'. split; [exact Hloop|]. split; [exact Hlen'|].
    intros idx Hidx. destruct (Hall idx Hidx) as [Hw Hu].
    assert (Hjk : (jn < kn \/ kn + remaining <= jn)%nat).
    { rewrite Hnext. unfold nextIndex.
      destruct (Nat.eqb_spec (S jn) N) as [E|E].
      - right. rewrite Hnext in Hk. unfold nextIndex in Hk.
        destruct (Nat.eqb_spec (S jn) N); lia.
      - left. lia. }
    split.
    + intros [_ Hidx'].
      destruct (Nat.eq_dec idx jn) as [->|Hne].
      * rewrite Hvertex. f_equal. rewrite Hu by lia.
        unfold positions1. apply positionAt_store_eq. lia.
      * apply Hw. lia.
    + intros Hnot. rewrite Hu by lia.
      unfold positions1. apply positionAt_store_ne. lia.
Qed.

Lemma computePositions_spec (directions : list (Spherical R))
    (radius : number) :
  let N := length directions in
  (2 <= N)%nat ->
  exists positions boundingVolumePositions,
    computePositions directions radius
    = Normal (positions, boundingVolumePositions)
    /\ length positions = (3 * N)%nat
    /\ forall idx, (idx < N)%nat ->
         Some (positionAt positions idx)
         = sensorVertex directions (meshRadius radius) idx.
Proof.
  intros N HN. unfold computePositions. fold N.
  replace (Z.of_nat N - 2)%Z with (Z.of_nat (prevIndex N (N - 1))).
  2:{ unfold prevIndex. destruct (Nat.eqb_spec (N - 1) 0); lia. }
  replace (Z.of_nat N - 1)%Z with (Z.of_nat (N - 1)) by lia.
  change 0%Z with (Z.of_nat 0).
  destruct (computePositions_loop_spec directions (meshRadius radius)
              N (N - 1)%nat 0%nat (repeat 0 (3 * N)) [Cartesian3_ZERO])
    as (positions & bvp & Hloop & Hlen & Hall).
  - reflexivity.
  - apply repeat_length.
  - intros _. split; [lia|]. split; [|exact HN].
    unfold nextIndex. fold N.
    destruct (Nat.eqb_spec (S (N - 1)) N); [reflexivity|lia].
  - exists positions, bvp. split; [exact Hloop|]. split; [exact Hlen|].
    intros idx Hidx. apply (Hall idx Hidx). fold N. lia.
Qed.

(** The direction of a unit-magnitude sample is a unit vector. *)
Lemma Cartesian3_fromSpherical_unit (spherical : Spherical R) :
  magnitude spherical = 1 ->
  Cartesian3_magnitude (Cartesian3_fromSpherical spherical) = 1.
Proof.
  intros Hm. unfold Cartesian3_magnitude, Cartesian3_magnitudeSquared,
    Cartesian3_fromSpherical. simpl. rewrite Hm.
  pose proof (sin2_cos2 (clock spherical)) as Hk.
  pose proof (sin2_cos2 (cone spherical)) as Hc.
  unfold Rsqr in Hk, Hc.
  replace (1 * sin (cone spherical) * cos (clock spherical) *
           (1 * sin (cone spherical) * cos (clock spherical)) +
           1 * sin (cone spherical) * sin (clock spherical) *
           (1 * sin (cone spherical) * sin (clock spherical)) +
           1 * cos (cone spherical) * (1 * cos (cone spherical)))
    with (sin (cone spherical) * sin (cone spherical)
          * (sin (clock spherical) * sin (clock spherical)
             + cos (clock spherical) * cos (clock spherical))
          + cos (cone spherical) * cos (cone spherical)) by ring.
  rewrite Hk, Rmult_1_r, Hc. apply sqrt_1.
Qed.

Lemma Cartesian3_magnitude_multiplyByScalar (cartesian : Cartesian3)
    (scalar : R) :
  0 <= scalar ->
  Cartesian3_magnitude (Cartesian3_multiplyByScalar cartesian scalar)
  = Cartesian3_magnitude cartesian * scalar.
Proof.
  intros Hs. unfold Cartesian3_magnitude, Cartesian3_magnitudeSquared,
    Cartesian3_multiplyByScalar. simpl.
  replace (x cartesian * scalar * (x cartesian * scalar) +
           y cartesian * scalar * (y cartesian * scalar) +
           z cartesian * scalar * (z cartesian * scalar))
    with ((x cartesian * x cartesian + y cartesian * y cartesian
           + z cartesian * z cartesian) * (scalar * scalar)) by ring.
  rewrite sqrt_mult_alt.
  - rewrite (sqrt_square scalar Hs). reflexivity.
  - pose proof (Rle_0_sqr (x cartesian)). pose proof (Rle_0_sqr (y cartesian)).
    pose proof (Rle_0_sqr (z cartesian)). unfold Rsqr in *. lra.
Qed.

Lemma Math_atan2_range (y x : R) : 0 <= y -> 0 <= Math_atan2 y x <= PI.
Proof.
  intros Hy. unfold Math_atan2. pose proof PI_RGT_0 as Hpi.
  destruct (Rlt_dec 0 x) as [Hx|Hx].
  - pose proof (atan_bound (y / x)) as Hb.
    assert (0 <= y / x) by (apply Rle_mult_inv_pos; lra).
    assert (0 <= atan (y / x)).
    { destruct (Req_dec (y / x) 0) as [->|Hne]; [rewrite atan_0; lra|].
      rewrite <- atan_0. left. apply atan_increasing. lra. }
    lra.
  - destruct (Rlt_dec x 0) as [Hx'|Hx'].
    + destruct (Rle_dec 0 y) as [_|Hn]; [|lra].
      pose proof (atan_bound (y / x)) as Hb.
      assert (y / x <= 0).
      { unfold Rdiv. replace (y * / x) with (- (y * / (- x))).
        - assert (0 <= y * / - x) by (apply Rle_mult_inv_pos; lra). lra.
        - field. lra. }
      assert (atan (y / x) <= 0).
      { destruct (Req_dec (y / x) 0) as [->|Hne]; [rewrite atan_0; lra|].
        rewrite <- atan_0. left. apply atan_increasing. lra. }
      lra.
    + destruct (Rlt_dec 0 y); [lra|]. destruct (Rlt_dec y 0); lra.
Qed.

(** The double [Math.PI] lies below the real PI: by the series of
    [atan (/ 3)] and [atan (/ 7)] taken to sixteen terms. *)
Lemma Math_PI_double_below : 0 < Math_PI_double < PI.
Proof.
  unfold Math_PI_double. split; [lra|].
  pose proof (PI_2_3_7_ineq 7) as [Hbelow _].
  cbv [sum_f_R0 tg_alt PI_2_3_7_tg Ratan_seq Nat.mul Nat.add] in Hbelow.
  cbv [INR] in Hbelow.
  lra.
Qed.

(** It is the value of the program's [Math.PI]: the binary64 number with
    significand 7074237752028440 and exponent -51. *)
Lemma Math_PI_double_binary64 :
  Prim2SF (Math_PI (num := float)) = S754_finite false 7074237752028440 (-51)
  /\ Math_PI_double = IZR 7074237752028440 / 2 ^ 51.
Proof.
  split; [vm_compute; reflexivity|].
  unfold Math_PI_double. lra.
Qed.

(** The angle between two vectors lies between 0 and the double [Math.PI]. *)
Lemma Cartesian3_angleBetween_range (left right : Cartesian3) :
  0 <= Cartesian3_angleBetween left right <= Math_PI_double.
Proof.
  unfold Cartesian3_angleBetween. cbv zeta.
  pose proof Math_PI_double_below as [Hpos _].
  split; [|apply Rmin_r].
  apply Rmin_glb; [|lra].
  apply Math_atan2_range. unfold Cartesian3_magnitude. apply sqrt_pos.
Qed.

(** So half of it stays below a quarter turn, and its cosine above zero. *)
Lemma cos_half_angle_pos (theta : R) :
  0 <= theta <= Math_PI_double -> 0 < cos (theta / 2) <= 1.
Proof.
  intros [H0 Hpi]. pose proof Math_PI_double_below as [_ Hbelow].
  split; [apply cos_gt_0; lra|apply COS_bound].
Qed.
End Mesher.

(** C1.  For a polygon of N >= 3 unit-magnitude directions and a finite radius
    r > 0 the mesher returns a positions array in which the j-th vertex is the
    unit vector of [directions[j]] (from its spherical coordinates) scaled by
    r / cos(theta / 2), where theta is the larger of the angles to the two
    cyclic neighbours.  The cosine is positive and at most 1, also between
    opposite directions, so the vertex lies at distance r / cos(theta / 2),
    which is at least r, from the origin. *)
Theorem mesher_extends_each_vertex :
  forall (directions : list (Spherical R)) (r : R),
    let N := length directions in
    3 <= N ->
    Forall (fun d => magnitude d = 1%R) directions ->
    (0 < r)%R ->
    exists positions boundingVolumePositions,
      computePositions directions (Num r)
      = Normal (positions, boundingVolumePositions)
      /\ length positions = 3 * N
      /\ forall (j : nat) (prev curr next : Spherical R),
           j < N ->
           directions !! prevIndex N j = Some prev ->
           directions !! j = Some curr ->
           directions !! nextIndex N j = Some next ->
           let n1 := Cartesian3_fromSpherical curr in
           let theta :=
             Rmax (Cartesian3_angleBetween (Cartesian3_fromSpherical prev) n1)
                  (Cartesian3_angleBetween n1 (Cartesian3_fromSpherical next))
           in
           Cartesian3_magnitude n1 = 1%R
           /\ (0 < cos (theta / 2) <= 1)%R
           /\ positionAt positions j
              = Cartesian3_multiplyByScalar n1 (r / cos (theta / 2))%R
           /\ Cartesian3_magnitude (positionAt positions j)
              = (r / cos (theta / 2))%R
           /\ (r <= Cartesian3_magnitude (positionAt positions j))%R.
Proof.
  intros directions r N HN Hunit Hr.
  destruct (computePositions_spec directions (Num r) ltac:(fold N; lia))
    as (positions & bvp & Hcompute & Hlen & Hall).
  exists positions, bvp. split; [exact Hcompute|]. split; [exact Hlen|].
  intros j prev curr next Hj Eprev Ecurr Enext n1 theta.
  specialize (Hall j Hj). unfold sensorVertex in Hall. fold N in Hall.
  rewrite Eprev, Ecurr, Enext in Hall.
  assert (Hpos : positionAt positions j = extendedPosition r prev curr next).
  { apply (f_equal (default Cartesian3_ZERO)) in Hall. exact Hall. }
  unfold extendedPosition in Hpos. fold n1 in Hpos. fold theta in Hpos.
  replace (theta * 0.5)%R with (theta / 2)%R in Hpos by lra.
  assert (Hn1 : Cartesian3_magnitude n1 = 1%R).
  { apply Cartesian3_fromSpherical_unit.
    rewrite Forall_forall in Hunit. apply Hunit.
    apply list_elem_of_lookup. exists j. exact Ecurr. }
  assert (Hrange : (0 <= theta <= Math_PI_double)%R).
  { unfold theta.
    pose proof (Cartesian3_angleBetween_range
                  (Cartesian3_fromSpherical prev) n1) as [Hl Hu].
    pose proof (Cartesian3_angleBetween_range
                  n1 (Cartesian3_fromSpherical next)) as [Hl' Hu'].
    split; [|apply Rmax_lub; assumption].
    eapply Rle_trans; [exact Hl|apply Rmax_l]. }
  pose proof (cos_half_angle_pos theta Hrange) as [Hcos Hcos1].
  assert (Hdist : (r <= r / cos (theta / 2))%R).
  { apply (Rmult_le_reg_r (cos (theta / 2))); [exact Hcos|].
    unfold Rdiv. rewrite Rmult_assoc, Rinv_l, Rmult_1_r by lra.
    rewrite <- (Rmult_1_r r) at 2. apply Rmult_le_compat_l; lra. }
  split; [exact Hn1|]. split; [split; assumption|]. split; [exact Hpos|].
  rewrite Hpos, Cartesian3_magnitude_multiplyByScalar, Hn1, Rmult_1_l by lra.
  split; [reflexivity|exact Hdist].
Qed.

(** Three directions of which two are opposite: the vertices are still at a
    distance of at least the radius. *)
Lemma mesher_extends_each_vertex_witness :
  exists positions boundingVolumePositions,
    computePositions
      [mkSpherical 0%R (PI / 2)%R 1%R; mkSpherical PI (PI / 2)%R 1%R;
       mkSpherical 0%R 0%R 1%R]
      (Num 10)
    = Normal (positions, boundingVolumePositions)
    /\ length positions = 9
    /\ (10 <= Cartesian3_magnitude (positionAt positions 0))%R
    /\ (10 <= Cartesian3_magnitude (positionAt positions 1))%R.
Proof.
  destruct (mesher_extends_each_vertex
              [mkSpherical 0%R (PI / 2)%R 1%R; mkSpherical PI (PI / 2)%R 1%R;
               mkSpherical 0%R 0%R 1%R] 10%R)
    as (positions & bvp & Hcompute & Hlen & Hall).
  - simpl. lia.
  - repeat constructor.
  - lra.
  - exists positions, bvp. split; [exact Hcompute|]. split; [exact Hlen|].
    split.
    + apply (Hall 0 (mkSpherical 0%R 0%R 1%R)
               (mkSpherical 0%R (PI / 2)%R 1%R)
               (mkSpherical PI (PI / 2)%R 1%R));
        [simpl; lia|reflexivity|reflexivity|reflexivity].
    + apply (Hall 1 (mkSpherical 0%R (PI / 2)%R 1%R)
               (mkSpherical PI (PI / 2)%R 1%R)
               (mkSpherical 0%R 0%R 1%R));
        [simpl; lia|reflexivity|reflexivity|reflexivity].
Defined.


(** ** The rectangular boundary *)

Section Rectangular.
Open Scope R_scope.

Lemma updateDirections_eq (xHalfAngle yHalfAngle : R)
    (directions : list (Spherical R)) :
  let tanX := tan (Rmin xHalfAngle (CesiumMath.toRadians 89)) in
  let tanY := tan (Rmin yHalfAngle (CesiumMath.toRadians 89)) in
  let theta := atan (tanX / tanY) in
  let cone := atan (sqrt (tanX * tanX + tanY * tanY)) in
  updateDirections xHalfAngle yHalfAngle directions
  = [mkSpherical theta cone 1;
     mkSpherical (CesiumMath.toRadians 180 - theta) cone 1;
     mkSpherical (CesiumMath.toRadians 180 + theta) cone 1;
     mkSpherical (- theta) cone 1].
Proof.
  intros tanX tanY theta cone. unfold updateDirections.
  fold tanX tanY. fold theta. fold cone.
  set (d1 := assignSpherical 0 directions theta cone).
  set (d2 := assignSpherical 1 d1 (CesiumMath.toRadians 180 - theta) cone).
  set (d3 := assignSpherical 2 d2 (CesiumMath.toRadians 180 + theta) cone).
  assert (H1 : (1 <= length d1)%nat)
    by (apply assignSpherical_length; lia).
  assert (H2 : (2 <= length d2)%nat)
    by (apply assignSpherical_length; exact H1).
  assert (H3 : (3 <= length d3)%nat)
    by (apply assignSpherical_length; exact H2).
  rewrite assignSpherical_take by exact H3.
  unfold d3. rewrite assignSpherical_take by exact H2.
  unfold d2. rewrite assignSpherical_take by exact H1.
  unfold d1. rewrite assignSpherical_take by lia.
  reflexivity.
Qed.

Lemma toRadians_45 : CesiumMath.toRadians (num := R) 45 = PI / 4.
Proof.
  unfold CesiumMath.toRadians, CesiumMath.RADIANS_PER_DEGREE. simpl. lra.
Qed.

Lemma tan_capped_45 : tan (Rmin (PI / 4) (CesiumMath.toRadians 89)) = 1.
Proof.
  rewrite Rmin_left; [apply tan_PI4|].
  unfold CesiumMath.toRadians, CesiumMath.RADIANS_PER_DEGREE. simpl.
  pose proof PI_RGT_0. lra.
Qed.

Lemma cos_atan_sqrt2 : cos (atan (sqrt 2)) = 1 / sqrt 3.
Proof.
  rewrite cos_atan. unfold Rsqr. rewrite sqrt_sqrt by lra.
  replace (1 + 2) with 3 by lra. reflexivity.
Qed.
End Rectangular.

(** *** The same with the special values *)

Section RectangularSpecial.
Open Scope R_scope.

Lemma Reqb_false (a b : R) : Reqb a b = false <-> a <> b.
Proof. unfold Reqb. destruct (Req_dec_T a b); split; (congruence || auto). Qed.

Lemma IEEE_divide_finite (a b : R) :
  a <> 0 -> b <> 0 ->
  IEEE.divide (IEEE.Finite a) (IEEE.Finite b) = IEEE.Finite (a / b).
Proof.
  intros Ha Hb. unfold IEEE.divide.
  cbn [IEEE.isInfinite IEEE.isZero IEEE.toReal].
  rewrite (proj2 (Reqb_false a 0) Ha), (proj2 (Reqb_false b 0) Hb).
  reflexivity.
Qed.

(** A number that is not zero over a zero: the infinity whose sign is the
    product of the two signs. *)
Lemma IEEE_divide_by_zero (a : R) :
  a <> 0 ->
  IEEE.divide (IEEE.Finite a) (IEEE.Finite 0)
  = (if Rltb a 0 then IEEE.MinusInfinity else IEEE.PlusInfinity)
  /\ IEEE.divide (IEEE.Finite a) IEEE.NegativeZero
     = (if Rltb a 0 then IEEE.PlusInfinity else IEEE.MinusInfinity).
Proof.
  intros Ha. unfold IEEE.divide.
  cbn [IEEE.isInfinite IEEE.isZero IEEE.toReal IEEE.signbit].
  rewrite (proj2 (Reqb_false a 0) Ha), (proj2 (Reqb_true 0 0) eq_refl).
  rewrite (proj2 (Rltb_false 0 0) (Rle_refl 0)).
  destruct (Rltb a 0); split; reflexivity.
Qed.

Lemma IEEE_times_square (a : R) :
  IEEE.times (IEEE.Finite a) (IEEE.Finite a) = IEEE.Finite (a * a).
Proof.
  unfold IEEE.times.
  cbn [IEEE.isInfinite IEEE.isZero IEEE.toReal IEEE.signbit orb].
  destruct (Reqb a 0) eqn:Hzero; cbn [orb].
  - apply Reqb_true in Hzero. subst a.
    rewrite (proj2 (Rltb_false 0 0) (Rle_refl 0)). cbn [xorb IEEE.zero].
    f_equal. lra.
  - reflexivity.
Qed.

Lemma IEEE_sqrt_finite (a : R) :
  0 <= a -> IEEE.Math_sqrt (IEEE.Finite a) = IEEE.Finite (sqrt a).
Proof.
  intros Ha. unfold IEEE.Math_sqrt.
  rewrite (proj2 (Rltb_false a 0) Ha). reflexivity.
Qed.

Lemma IEEE_negate_finite (a : R) :
  a <> 0 -> IEEE.negate (IEEE.Finite a) = IEEE.Finite (- a).
Proof.
  intros Ha. unfold IEEE.negate.
  rewrite (proj2 (Reqb_false a 0) Ha). reflexivity.
Qed.

Lemma IEEE_minus_finite (a b : R) :
  b <> 0 ->
  IEEE.minus (IEEE.Finite a) (IEEE.Finite b) = IEEE.Finite (a - b).
Proof.
  intros Hb. unfold IEEE.minus. rewrite IEEE_negate_finite by exact Hb.
  reflexivity.
Qed.

Lemma IEEE_toRadians (degrees : Z) :
  (degrees <> 0)%Z ->
  CesiumMath.toRadians (of_Z degrees : IEEE.t)
  = IEEE.Finite (IZR degrees * (PI / 180)).
Proof.
  intros Hd. pose proof PI_RGT_0 as Hpi.
  unfold CesiumMath.toRadians, CesiumMath.RADIANS_PER_DEGREE.
  cbn [mul div of_Z Math_PI IEEE.IEEE_Number].
  rewrite IEEE_divide_finite by lra.
  unfold IEEE.times.
  cbn [IEEE.isInfinite IEEE.isZero IEEE.toReal orb].
  rewrite (proj2 (Reqb_false (IZR degrees) 0)) by (apply not_0_IZR; exact Hd).
  rewrite (proj2 (Reqb_false (PI / 180) 0)) by lra.
  reflexivity.
Qed.

Lemma cap_pos : 0 < 89 * (PI / 180) < PI / 2.
Proof. pose proof PI_RGT_0. lra. Qed.

(** [Math.min] with the cap of 89 degrees, and the tangent of the result. *)
Lemma IEEE_min_cap (a : R) :
  IEEE.Math_min (IEEE.Finite a) (IEEE.Finite (89 * (PI / 180)))
  = IEEE.Finite (Rmin a (89 * (PI / 180))).
Proof.
  pose proof cap_pos as [Hcap _]. unfold IEEE.Math_min, IEEE.lessThan.
  cbn [IEEE.toReal IEEE.signbit].
  destruct (Rltb a (89 * (PI / 180))) eqn:Hlt.
  - apply Rltb_true in Hlt. rewrite Rmin_left by lra. reflexivity.
  - apply Rltb_false in Hlt. rewrite Rmin_right by exact Hlt.
    destruct (Rltb (89 * (PI / 180)) a); [reflexivity|].
    rewrite (proj2 (Rltb_false a 0)) by lra. reflexivity.
Qed.

Lemma IEEE_min_cap_special :
  IEEE.Math_min IEEE.NegativeZero (IEEE.Finite (89 * (PI / 180)))
  = IEEE.NegativeZero
  /\ IEEE.Math_min IEEE.PlusInfinity (IEEE.Finite (89 * (PI / 180)))
     = IEEE.Finite (89 * (PI / 180))
  /\ IEEE.Math_min IEEE.MinusInfinity (IEEE.Finite (89 * (PI / 180)))
     = IEEE.MinusInfinity
  /\ IEEE.Math_min IEEE.NotANumber (IEEE.Finite (89 * (PI / 180)))
     = IEEE.NotANumber.
Proof.
  pose proof cap_pos as [Hcap _]. unfold IEEE.Math_min, IEEE.lessThan.
  cbn [IEEE.toReal IEEE.signbit].
  rewrite (proj2 (Rltb_true 0 (89 * (PI / 180))) Hcap).
  repeat split; reflexivity.
Qed.

(** The array [updateDirections] leaves, whatever it held and whatever the
    half angles are. *)
Lemma IEEE_updateDirections_eq (xHalfAngle yHalfAngle : IEEE.t)
    (directions : list (Spherical IEEE.t)) :
  let cap := IEEE.Finite (89 * (PI / 180)) in
  let tanX := IEEE.Math_tan (IEEE.Math_min xHalfAngle cap) in
  let tanY := IEEE.Math_tan (IEEE.Math_min yHalfAngle cap) in
  let theta := IEEE.Math_atan (IEEE.divide tanX tanY) in
  let cone :=
    IEEE.Math_atan
      (IEEE.Math_sqrt (IEEE.plus (IEEE.times tanX tanX)
                                 (IEEE.times tanY tanY))) in
  IEEE.updateDirections xHalfAngle yHalfAngle directions
  = [mkSpherical theta cone (IEEE.Finite 1);
     mkSpherical (IEEE.minus (IEEE.Finite PI) theta) cone (IEEE.Finite 1);
     mkSpherical (IEEE.plus (IEEE.Finite PI) theta) cone (IEEE.Finite 1);
     mkSpherical (IEEE.negate theta) cone (IEEE.Finite 1)].
Proof.
  intros cap tanX tanY theta cone. unfold IEEE.updateDirections.
  rewrite !IEEE_toRadians by discriminate.
  replace (180 * (PI / 180)) with PI by field.
  cbn [mul div add sub IEEE.IEEE_Number].
  fold cap. fold tanX tanY. fold theta. fold cone.
  set (d1 := assignSpherical 0 directions theta cone).
  set (d2 := assignSpherical 1 d1 (IEEE.minus (IEEE.Finite PI) theta) cone).
  set (d3 := assignSpherical 2 d2 (IEEE.plus (IEEE.Finite PI) theta) cone).
  assert (H1 : (1 <= length d1)%nat)
    by (apply assignSpherical_length; lia).
  assert (H2 : (2 <= length d2)%nat)
    by (apply assignSpherical_length; exact H1).
  assert (H3 : (3 <= length d3)%nat)
    by (apply assignSpherical_length; exact H2).
  rewrite assignSpherical_take by exact H3.
  unfold d3. rewrite assignSpherical_take by exact H2.
  unfold d2. rewrite assignSpherical_take by exact H1.
  unfold d1. rewrite assignSpherical_take by lia.
  reflexivity.
Qed.

Lemma atan_eq_0 (a : R) : atan a = 0 -> a = 0.
Proof.
  intros Ha. destruct (Rtotal_order a 0) as [Hlt|[Heq|Hgt]]; [|exact Heq|].
  - pose proof (atan_increasing a 0 Hlt) as Hinc. rewrite atan_0 in Hinc. lra.
  - pose proof (atan_increasing 0 a Hgt) as Hinc. rewrite atan_0 in Hinc. lra.
Qed.

(** Where both tangents are finite and not zero it is the function on the
    reals. *)
Lemma IEEE_updateDirections_finite (a b : R)
    (directions : list (Spherical IEEE.t)) (held : list (Spherical R)) :
  tan (Rmin a (89 * (PI / 180))) <> 0 ->
  tan (Rmin b (89 * (PI / 180))) <> 0 ->
  IEEE.updateDirections (IEEE.Finite a) (IEEE.Finite b) directions
  = map IEEE.ofSpherical (updateDirections a b held).
Proof.
  intros Hx Hy. rewrite IEEE_updateDirections_eq, updateDirections_eq.
  change (CesiumMath.toRadians (num := R) 89) with (89 * (PI / 180)).
  change (CesiumMath.toRadians (num := R) 180) with (180 * (PI / 180)).
  replace (180 * (PI / 180)) with PI by field.
  rewrite !IEEE_min_cap. cbn [IEEE.Math_tan].
  set (tanX := tan (Rmin a (89 * (PI / 180)))) in *.
  set (tanY := tan (Rmin b (89 * (PI / 180)))) in *.
  rewrite IEEE_divide_finite by assumption.
  rewrite !IEEE_times_square. cbn [IEEE.plus IEEE.toReal IEEE.Math_atan].
  rewrite IEEE_sqrt_finite by nra. cbn [IEEE.Math_atan].
  assert (Htheta : atan (tanX / tanY) <> 0).
  { intros H0. apply atan_eq_0 in H0.
    apply (Rmult_eq_compat_r tanY) in H0.
    unfold Rdiv in H0. rewrite Rmult_assoc, Rinv_l, Rmult_0_l in H0 by exact Hy.
    lra. }
  rewrite IEEE_minus_finite, IEEE_negate_finite by exact Htheta.
  reflexivity.
Qed.

(** C7.  [updateDirections] leaves exactly four samples, whatever the array
    held before and whatever the half angles are (infinities and NaN
    included): with tanX and tanY the tangents of the half angles capped at 89
    degrees, all four have cone angle atan(sqrt(tanX^2 + tanY^2)) and
    magnitude 1, and their clock angles are theta, 180 degrees - theta,
    180 degrees + theta and -theta for theta = atan(tanX / tanY).  In real
    numbers: the tangent taken is that of the smaller of the half angle and 89
    degrees; where both tangents are not zero the samples are those of the
    four real formulas; a yHalfAngle of +0 with tanX > 0 makes the quotient
    +Infinity and theta a quarter turn, a yHalfAngle of -0 makes it
    -Infinity and theta minus a quarter turn, and two half angles of +0 make
    it NaN, and with it all four clock angles.  For xHalfAngle = yHalfAngle =
    45 degrees theta is 45 degrees and the cone angle is the angle of the
    first quadrant whose cosine is 1 / sqrt 3 (54.7356... degrees). *)
Theorem rectangular_boundary_has_four_corners :
  forall (xHalfAngle yHalfAngle : IEEE.t)
         (directions : list (Spherical IEEE.t)),
    let cap := (89 * (PI / 180)) in
    let boundary (theta cone : IEEE.t) :=
      [mkSpherical theta cone (IEEE.Finite 1);
       mkSpherical (IEEE.minus (IEEE.Finite PI) theta) cone (IEEE.Finite 1);
       mkSpherical (IEEE.plus (IEEE.Finite PI) theta) cone (IEEE.Finite 1);
       mkSpherical (IEEE.negate theta) cone (IEEE.Finite 1)] in
    let corners (theta cone : R) :=
      map IEEE.ofSpherical
        [mkSpherical theta cone 1; mkSpherical (PI - theta) cone 1;
         mkSpherical (PI + theta) cone 1; mkSpherical (- theta) cone 1]
    in
    (let tanX := IEEE.Math_tan (IEEE.Math_min xHalfAngle (IEEE.Finite cap)) in
     let tanY := IEEE.Math_tan (IEEE.Math_min yHalfAngle (IEEE.Finite cap)) in
     IEEE.updateDirections xHalfAngle yHalfAngle directions
     = boundary
         (IEEE.Math_atan (IEEE.divide tanX tanY))
         (IEEE.Math_atan
            (IEEE.Math_sqrt (IEEE.plus (IEEE.times tanX tanX)
                                       (IEEE.times tanY tanY)))))
    /\ length (IEEE.updateDirections xHalfAngle yHalfAngle directions)
       = 4%nat
    /\ (forall a : R,
          IEEE.Math_tan (IEEE.Math_min (IEEE.Finite a) (IEEE.Finite cap))
          = IEEE.Finite (tan (Rmin a cap)))
    /\ IEEE.Math_tan (IEEE.Math_min IEEE.PlusInfinity (IEEE.Finite cap))
       = IEEE.Finite (tan cap)
    /\ (forall a b : R,
          let tanX := tan (Rmin a cap) in
          let tanY := tan (Rmin b cap) in
          tanX <> 0 -> tanY <> 0 ->
          IEEE.updateDirections (IEEE.Finite a) (IEEE.Finite b) directions
          = corners (atan (tanX / tanY))
                    (atan (sqrt (tanX * tanX + tanY * tanY))))
    /\ (forall a : R,
          let tanX := tan (Rmin a cap) in
          0 < tanX ->
          IEEE.updateDirections (IEEE.Finite a) (IEEE.Finite 0) directions
          = corners (PI / 2) (atan tanX)
          /\ IEEE.updateDirections (IEEE.Finite a) IEEE.NegativeZero
               directions
             = corners (- (PI / 2)) (atan tanX))
    /\ IEEE.updateDirections (IEEE.Finite 0) (IEEE.Finite 0) directions
       = [mkSpherical IEEE.NotANumber (IEEE.Finite 0) (IEEE.Finite 1);
          mkSpherical IEEE.NotANumber (IEEE.Finite 0) (IEEE.Finite 1);
          mkSpherical IEEE.NotANumber (IEEE.Finite 0) (IEEE.Finite 1);
          mkSpherical IEEE.NotANumber (IEEE.Finite 0) (IEEE.Finite 1)]
    /\ exists cone45 : R,
         IEEE.updateDirections (CesiumMath.toRadians (of_Z 45))
           (CesiumMath.toRadians (of_Z 45)) directions
         = corners (PI / 4) cone45
         /\ 0 < cone45 < PI / 2
         /\ cos cone45 = 1 / sqrt 3.
Proof.
  intros xHalfAngle yHalfAngle directions cap boundary corners.
  pose proof cap_pos as [Hcap Hcap2]. fold cap in Hcap, Hcap2.
  pose proof PI_RGT_0 as Hpi.
  split; [apply IEEE_updateDirections_eq|].
  split; [rewrite IEEE_updateDirections_eq; reflexivity|].
  split; [intros a; unfold cap; rewrite IEEE_min_cap; reflexivity|].
  split.
  { destruct IEEE_min_cap_special as (_ & Hinf & _). unfold cap.
    rewrite Hinf. reflexivity. }
  split.
  { intros a b tanX tanY Hx Hy.
    rewrite (IEEE_updateDirections_finite a b directions [] Hx Hy).
    rewrite updateDirections_eq.
    change (CesiumMath.toRadians (num := R) 89) with cap.
    change (CesiumMath.toRadians (num := R) 180) with (180 * (PI / 180)).
    replace (180 * (PI / 180)) with PI by field.
    reflexivity. }
  assert (Htan0 : tan (Rmin 0 cap) = 0).
  { rewrite Rmin_left by lra. apply tan_0. }
  split.
  { intros a tanX Hx.
    assert (Hcone : atan (sqrt (tanX * tanX + 0)) = atan tanX).
    { rewrite Rplus_0_r, sqrt_square by lra. reflexivity. }
    assert (Hquarter : PI / 2 <> 0) by lra.
    assert (Hquarter' : - (PI / 2) <> 0) by lra.
    destruct (IEEE_divide_by_zero tanX ltac:(lra)) as [Hplus Hminus].
    rewrite (proj2 (Rltb_false tanX 0)) in Hplus, Hminus by lra.
    split.
    - rewrite IEEE_updateDirections_eq. fold cap.
      rewrite !IEEE_min_cap. fold cap. cbn [IEEE.Math_tan].
      fold tanX. rewrite Htan0, Hplus, !IEEE_times_square.
      cbn [IEEE.plus IEEE.toReal IEEE.Math_atan].
      replace (0 * 0) with 0 by lra.
      rewrite IEEE_sqrt_finite by nra. cbn [IEEE.Math_atan].
      rewrite Hcone, IEEE_minus_finite, IEEE_negate_finite by exact Hquarter.
      reflexivity.
    - destruct IEEE_min_cap_special as (Hzero & _).
      rewrite IEEE_updateDirections_eq. fold cap in Hzero |- *.
      rewrite IEEE_min_cap, Hzero. fold cap. cbn [IEEE.Math_tan].
      fold tanX. rewrite Hminus, IEEE_times_square.
      cbn [IEEE.times IEEE.isInfinite IEEE.isZero IEEE.signbit orb xorb
           IEEE.zero IEEE.plus IEEE.toReal IEEE.Math_atan].
      rewrite IEEE_sqrt_finite by nra. cbn [IEEE.Math_atan].
      rewrite Hcone, IEEE_minus_finite, IEEE_negate_finite by exact Hquarter'.
      reflexivity. }
  split.
  { rewrite IEEE_updateDirections_eq. fold cap.
    rewrite !IEEE_min_cap. fold cap. cbn [IEEE.Math_tan].
    rewrite Htan0, IEEE_times_square.
    unfold IEEE.divide.
    cbn [IEEE.isInfinite IEEE.isZero IEEE.toReal].
    rewrite (proj2 (Reqb_true 0 0) eq_refl).
    cbn [IEEE.Math_atan IEEE.minus IEEE.negate IEEE.plus IEEE.toReal].
    rewrite IEEE_sqrt_finite by lra. cbn [IEEE.Math_atan].
    replace (atan (sqrt (0 * 0 + 0 * 0))) with 0; [reflexivity|].
    replace (0 * 0 + 0 * 0) with 0 by lra. rewrite sqrt_0, atan_0.
    reflexivity. }
  exists (atan (sqrt 2)).
  split; [|split].
  - rewrite !IEEE_toRadians by discriminate.
    replace (45 * (PI / 180)) with (PI / 4) by field.
    assert (Htan : tan (Rmin (PI / 4) cap) = 1).
    { rewrite Rmin_left by (unfold cap; lra). apply tan_PI4. }
    rewrite (IEEE_updateDirections_finite (PI / 4) (PI / 4) directions []);
      fold cap; rewrite ?Htan; try lra.
    rewrite updateDirections_eq.
    change (CesiumMath.toRadians (num := R) 89) with cap.
    change (CesiumMath.toRadians (num := R) 180) with (180 * (PI / 180)).
    replace (180 * (PI / 180)) with PI by field.
    rewrite Htan. replace (1 / 1) with 1 by lra. rewrite atan_1.
    replace (1 * 1 + 1 * 1) with 2 by lra. reflexivity.
  - pose proof (atan_bound (sqrt 2)) as Hb. split; [|lra].
    rewrite <- atan_0. apply atan_increasing. apply sqrt_lt_R0. lra.
  - apply cos_atan_sqrt2.
Qed.
End RectangularSpecial.


(** ** The shadow test of the shader *)

Section Shadow.
Open Scope R_scope.

(** The length of a vector is zero only for the zero vector. *)
Lemma Cartesian3_magnitude_eq_0 (v : Cartesian3) :
  Cartesian3_magnitude v = 0 -> x v = 0 /\ y v = 0 /\ z v = 0.
Proof.
  unfold Cartesian3_magnitude, Cartesian3_magnitudeSquared. intros Hzero.
  apply sqrt_eq_0 in Hzero; [nra|nra].
Qed.

(** C8.  Written out in coordinates: with q = D * apex the apex scaled by the
    inverse radii, test = |q|^2 - 1, temp = D * point - q and
    d = dot(temp, q), [inSensorShadow] answers true exactly when d < -test
    and d / |temp| < -sqrt(test), the root being that of a number that is not
    negative; it answers false exactly when d >= -test, or test >= 0 and
    d / |temp| >= -sqrt(test); and the language leaves the answer undefined
    exactly when d < -test and test < 0 (the quotient by |temp| = 0 is
    reached in no other case).  When test > 0 it answers false for the apex
    itself. *)
Theorem inSensorShadow_horizon_test :
  forall (D coneVertexWC pointWC : Cartesian3),
    let qx := x D * x coneVertexWC in
    let qy := y D * y coneVertexWC in
    let qz := z D * z coneVertexWC in
    let test := qx * qx + qy * qy + qz * qz - 1 in
    let tx := x D * x pointWC - qx in
    let ty := y D * y pointWC - qy in
    let tz := z D * z pointWC - qz in
    let d := tx * qx + ty * qy + tz * qz in
    let distance := sqrt (tx * tx + ty * ty + tz * tz) in
    (inSensorShadow D coneVertexWC pointWC = Some true
     <-> d < - test /\ 0 <= test /\ d / distance < - sqrt test)
    /\ (inSensorShadow D coneVertexWC pointWC = Some false
        <-> - test <= d \/ (0 <= test /\ - sqrt test <= d / distance))
    /\ (inSensorShadow D coneVertexWC pointWC = None
        <-> d < - test /\ test < 0)
    /\ (0 < test -> inSensorShadow D coneVertexWC coneVertexWC = Some false).
Proof.
  intros D coneVertexWC pointWC qx qy qz test tx ty tz d distance.
  assert (Hshadow :
    inSensorShadow D coneVertexWC pointWC
    = if Rltb d (- test) then
        if Rltb test 0 || Reqb distance 0 then None
        else Some (Rltb (d / distance) (- sqrt test))
      else Some false) by reflexivity.
  assert (Hreached : d < - test -> distance = 0 -> test < 0).
  { intros Hd Hzero.
    destruct (Cartesian3_magnitude_eq_0 (mkCartesian3 tx ty tz) Hzero)
      as (Hx & Hy & Hz).
    cbn [x y z] in Hx, Hy, Hz. unfold d in Hd. rewrite Hx, Hy, Hz in Hd.
    lra. }
  assert (Hcases :
    (d < - test /\ test < 0 /\ inSensorShadow D coneVertexWC pointWC = None)
    \/ (d < - test /\ 0 <= test /\ distance <> 0
        /\ inSensorShadow D coneVertexWC pointWC
           = Some (Rltb (d / distance) (- sqrt test)))
    \/ (- test <= d /\ inSensorShadow D coneVertexWC pointWC = Some false)).
  { rewrite Hshadow. destruct (Rltb d (- test)) eqn:Hd.
    - apply Rltb_true in Hd. destruct (Rltb test 0) eqn:Htest.
      + apply Rltb_true in Htest. left. auto.
      + apply Rltb_false in Htest. right. left.
        assert (Hne : distance <> 0).
        { intros Hzero. pose proof (Hreached Hd Hzero). lra. }
        destruct (Reqb distance 0) eqn:Hzero;
          [apply Reqb_true in Hzero; contradiction|].
        auto.
    - apply Rltb_false in Hd. right. right. auto. }
  split; [|split; [|split]].
  - destruct Hcases as [(Hd & Ht & ->)|[(Hd & Ht & Hne & ->)|(Hd & ->)]].
    + split; [discriminate|lra].
    + split.
      * intros [= Hlt]. apply Rltb_true in Hlt. auto.
      * intros (_ & _ & Hlt). f_equal. apply Rltb_true. exact Hlt.
    + split; [discriminate|lra].
  - destruct Hcases as [(Hd & Ht & ->)|[(Hd & Ht & Hne & ->)|(Hd & ->)]].
    + split; [discriminate|lra].
    + split.
      * intros [= Hge]. apply Rltb_false in Hge. auto.
      * intros [Hge|(_ & Hge)]; [lra|]. f_equal. apply Rltb_false. exact Hge.
    + split; [auto|reflexivity].
  - destruct Hcases as [(Hd & Ht & ->)|[(Hd & Ht & Hne & ->)|(Hd & ->)]].
    + split; [auto|reflexivity].
    + split; [discriminate|lra].
    + split; [discriminate|lra].
  - intros Htest. unfold inSensorShadow.
    fold qx qy qz. cbv zeta.
    replace (Rltb _ _) with false; [reflexivity|].
    symmetry. apply Rltb_false.
    unfold Cartesian3_dot, vec3_minus, vec3_scale. cbn [x y z].
    fold qx qy qz. fold test. lra.
Qed.
End Shadow.

(** An apex at twice the radius of the unit sphere does not shadow
    itself. *)
Lemma inSensorShadow_horizon_test_witness :
  inSensorShadow (mkCartesian3 1 1 1) (mkCartesian3 2 0 0) (mkCartesian3 2 0 0)
  = Some false.
Proof.
  apply (inSensorShadow_horizon_test (mkCartesian3 1 1 1) (mkCartesian3 2 0 0)
           (mkCartesian3 2 0 0)).
  cbn [x y z]. lra.
Defined.

(** ** The volume primitive: the per-frame update *)

Section PrimitivePhases.
Context `{Cesium}.
Import CustomSensorVolume.

Lemma sameGeometry_refl this : sameGeometry this this.
Proof. repeat split. Qed.

Lemma sameGeometry_trans this1 this2 this3 :
  sameGeometry this1 this2 -> sameGeometry this2 this3 ->
  sameGeometry this1 this3.
Proof.
  unfold sameGeometry. intros H12 H23.
  repeat match goal with H : _ /\ _ |- _ => destruct H as [? H] end.
  repeat split; congruence.
Qed.

Lemma sameVertexArrays_refl context : sameVertexArrays context context.
Proof. split; [reflexivity|]. split; [reflexivity|lia]. Qed.

Lemma sameVertexArrays_trans c1 c2 c3 :
  sameVertexArrays c1 c2 -> sameVertexArrays c2 c3 -> sameVertexArrays c1 c3.
Proof.
  intros (? & ? & ?) (? & ? & ?). split; [congruence|].
  split; [congruence|lia].
Qed.

Lemma vertexArraysCreated_emit event context :
  vertexArraysCreated (Context_emit event context)
  = vertexArraysCreated context
    ++ match event with VertexArray_created handle => [handle] | _ => [] end.
Proof.
  unfold vertexArraysCreated, Context_emit. simpl. rewrite omap_app.
  destruct event; reflexivity.
Qed.

Lemma vertexArraysDestroyed_emit event context :
  vertexArraysDestroyed (Context_emit event context)
  = vertexArraysDestroyed context
    ++ match event with VertexArray_destroyed handle => [handle] | _ => [] end.
Proof.
  unfold vertexArraysDestroyed, Context_emit. simpl. rewrite omap_app.
  destruct event; reflexivity.
Qed.

Lemma sameVertexArrays_emit event context :
  match event with
  | VertexArray_created _ | VertexArray_destroyed _ => False
  | _ => True
  end ->
  sameVertexArrays context (Context_emit event context).
Proof.
  intros Hevent. split; [|split].
  - rewrite vertexArraysCreated_emit. destruct event; try contradiction;
      apply app_nil_r.
  - rewrite vertexArraysDestroyed_emit. destruct event; try contradiction;
      apply app_nil_r.
  - reflexivity.
Qed.

Lemma sameVertexArrays_allocate context :
  sameVertexArrays context (snd (Context_allocate context)).
Proof. split; [reflexivity|]. split; [reflexivity|]. cbn. lia. Qed.

Ltac solve_sameVertexArrays :=
  unfold sameVertexArrays, vertexArraysCreated, vertexArraysDestroyed,
    PickId_destroy, VertexArray_destroy, Context_emit, Context_allocate;
  cbn;
  repeat match goal with
         | |- context [match ?o with Some _ => _ | None => _ end] =>
             destruct o; cbn
         end;
  rewrite ?omap_app; cbn; rewrite ?app_nil_r;
  (split; [reflexivity|]); (split; [reflexivity|lia]).

Lemma createRenderStates_sameGeometry translucent this :
  sameGeometry this (createRenderStates translucent this).
Proof.
  unfold createRenderStates.
  destruct (_ || _ || _); [destruct translucent|]; repeat split.
Qed.

Lemma createRenderStates_mode translucent this :
  _mode (createRenderStates translucent this) = _mode this.
Proof.
  unfold createRenderStates.
  destruct (_ || _ || _); [destruct translucent|]; reflexivity.
Qed.

Lemma applyModelMatrix_sameGeometry directionsChanged this :
  sameGeometry this (applyModelMatrix directionsChanged this).
Proof.
  unfold applyModelMatrix.
  destruct (negb (Matrix4_equals (modelMatrix this) (_modelMatrix this)));
    destruct directionsChanged; repeat split.
Qed.

Lemma applyModelMatrix_front directionsChanged this :
  _frontFaceColorCommand (applyModelMatrix directionsChanged this)
  = DrawCommand.set_modelMatrix (Some (modelMatrix this))
      (_frontFaceColorCommand this).
Proof.
  unfold applyModelMatrix.
  destruct (negb (Matrix4_equals (modelMatrix this) (_modelMatrix this)));
    destruct directionsChanged; reflexivity.
Qed.

Lemma renderPass_spec translucent materialChanged material this frameState :
  let result := renderPass translucent materialChanged material this frameState
  in
  sameGeometry this (fst result)
  /\ sameVertexArrays (FrameState.context frameState)
                      (FrameState.context (snd result))
  /\ FrameState.passes_pick (snd result) = FrameState.passes_pick frameState
  /\ _pickCommand (fst result) = _pickCommand this
  /\ FrameState.commandList (snd result)
     = FrameState.commandList frameState
       ++ (if translucent
           then [_backFaceColorCommand (fst result);
                 _frontFaceColorCommand (fst result)]
           else [_frontFaceColorCommand (fst result)]).
Proof.
  unfold renderPass, replaceCache.
  destruct (materialChanged || _); destruct translucent; cbn;
    (split; [repeat split|]); (split; [|repeat split]);
    solve_sameVertexArrays.
Qed.

Lemma pickPass_spec translucent materialChanged material this frameState :
  let result := pickPass translucent materialChanged material this frameState
  in
  sameGeometry this (fst result)
  /\ sameVertexArrays (FrameState.context frameState)
                      (FrameState.context (snd result))
  /\ _frontFaceColorCommand (fst result) = _frontFaceColorCommand this
  /\ _backFaceColorCommand (fst result) = _backFaceColorCommand this
  /\ FrameState.commandList (snd result)
     = FrameState.commandList frameState ++ [_pickCommand (fst result)].
Proof.
  unfold pickPass, replaceCache.
  destruct (negb (bool_decide (is_Some (_pickId this)))
            || negb (bool_decide (_id this = id this))); cbn;
    match goal with
    | |- context [if (materialChanged || ?c) then _ else _] =>
        destruct (materialChanged || c)
    end; cbn.
  all: split; [repeat split|].
  all: split; [|repeat split].
  all: solve_sameVertexArrays.
Qed.

Lemma emitCommands_spec translucent directionsChanged material this frameState :
  let result :=
    emitCommands translucent directionsChanged material this frameState in
  sameGeometry this (fst result)
  /\ sameVertexArrays (FrameState.context frameState)
                      (FrameState.context (snd result))
  /\ FrameState.commandList (snd result)
     = FrameState.commandList frameState
       ++ (if FrameState.passes_render frameState then
             if translucent
             then [_backFaceColorCommand (fst result);
                   _frontFaceColorCommand (fst result)]
             else [_frontFaceColorCommand (fst result)]
           else [])
       ++ (if FrameState.passes_pick frameState
           then [_pickCommand (fst result)] else []).
Proof.
  unfold emitCommands.
  pose proof (applyModelMatrix_sameGeometry directionsChanged this) as Hm.
  set (this1 := applyModelMatrix directionsChanged this) in *.
  set (materialChanged := Material_differs _ _).
  set (this2 := set__lateralSurfaceMaterial _ this1).
  assert (H12 : sameGeometry this this2).
  { apply (sameGeometry_trans _ this1); [exact Hm|]. repeat split. }
  set (frameState1 := FrameState.set_context _ frameState).
  assert (Hc1 : sameVertexArrays (FrameState.context frameState)
                                 (FrameState.context frameState1))
    by solve_sameVertexArrays.
  change (FrameState.passes_render frameState1)
    with (FrameState.passes_render frameState).
  destruct (FrameState.passes_render frameState).
  - pose proof (renderPass_spec translucent materialChanged material this2
                  frameState1) as (Hg & Hv & Hp & Hpick & Hl).
    destruct (renderPass translucent materialChanged material this2
                frameState1) as [this3 frameState2].
    cbn [fst snd] in *. rewrite Hp.
    change (FrameState.passes_pick frameState1)
      with (FrameState.passes_pick frameState).
    destruct (FrameState.passes_pick frameState).
    + pose proof (pickPass_spec translucent materialChanged material this3
                    frameState2) as (Hg' & Hv' & Hf & Hb & Hl').
      destruct (pickPass translucent materialChanged material this3
                  frameState2) as [this4 frameState3].
      cbn [fst snd] in *.
      split; [eauto using sameGeometry_trans|].
      split; [eauto using sameVertexArrays_trans|].
      rewrite Hl', Hl, Hf, Hb. rewrite <- app_assoc. reflexivity.
    + cbn [fst snd].
      split; [eauto using sameGeometry_trans|].
      split; [eauto using sameVertexArrays_trans|].
      rewrite Hl, app_nil_r. reflexivity.
  - change (FrameState.passes_pick frameState1)
      with (FrameState.passes_pick frameState).
    destruct (FrameState.passes_pick frameState).
    + pose proof (pickPass_spec translucent materialChanged material this2
                    frameState1) as (Hg' & Hv' & Hf & Hb & Hl').
      destruct (pickPass translucent materialChanged material this2
                  frameState1) as [this4 frameState3].
      cbn [fst snd] in *.
      split; [eauto using sameGeometry_trans|].
      split; [eauto using sameVertexArrays_trans|].
      rewrite Hl'. reflexivity.
    + cbn [fst snd].
      split; [exact H12|]. split; [exact Hc1|].
      rewrite app_nil_r. reflexivity.
Qed.

(** [update] on a shown primitive in 3D with a valid radius and a material:
    the part after the checks. *)
Lemma update_shown this frameState material :
  show this = true -> FrameState.mode frameState = SCENE3D ->
  lessThanZero (radius this) = false ->
  lateralSurfaceMaterial this = Some material ->
  update this frameState
  = let translucent := Material_isTranslucent material in
    let this0 := createRenderStates translucent (set__mode SCENE3D this) in
    bind (recreateVertexArray this0 (FrameState.context frameState))
      (fun '(this1, context) =>
         let frameState := FrameState.set_context context frameState in
         if negb (bool_decide
                    (is_Some (DrawCommand.vertexArray
                                (_frontFaceColorCommand this1))))
         then Normal (this1, frameState)
         else Normal (emitCommands translucent (_directionsDirty this0)
                                   material this1 frameState)).
Proof.
  intros Hshow Hmode Hradius Hmaterial. unfold update.
  rewrite Hmode. cbn [show radius lateralSurfaceMaterial set__mode _mode].
  rewrite Hshow, Hradius, Hmaterial. reflexivity.
Qed.

Lemma recreateVertexArray_clean this context :
  _directionsDirty this = false ->
  recreateVertexArray this context = Normal (this, context).
Proof. intros Hd. unfold recreateVertexArray. rewrite Hd. reflexivity. Qed.

Lemma recreateVertexArray_short this context :
  _directionsDirty this = true -> length (_directions this) < 3 ->
  recreateVertexArray this context
  = Normal (set__va None (set__directionsDirty false this),
            VertexArray_destroy (_va this) context).
Proof.
  intros Hd Hl. unfold recreateVertexArray. rewrite Hd. cbn zeta.
  cbn [_directions set__va set__directionsDirty].
  destruct (Nat.leb_spec 3 (length (_directions this))); [lia|]. reflexivity.
Qed.

Lemma recreateVertexArray_rebuild this context :
  _directionsDirty this = true -> 3 <= length (_directions this) ->
  let context1 := VertexArray_destroy (_va this) context in
  exists (va : VertexArray) (this' : t),
    recreateVertexArray this context
    = Normal (this',
              Context_emit (VertexArray_created (nextHandle context1))
                (snd (Context_allocate context1)))
    /\ VertexArray_handle va = nextHandle context1
    /\ DrawCommand.vertexArray (_frontFaceColorCommand this') = Some va
    /\ show this' = show this /\ radius this' = radius this
    /\ lateralSurfaceMaterial this' = lateralSurfaceMaterial this
    /\ modelMatrix this' = modelMatrix this
    /\ _directions this' = _directions this
    /\ _directionsDirty this' = false
    /\ _va this' = None
    /\ isDestroyed this' = isDestroyed this.
Proof.
  intros Hd Hl context1.
  destruct (computePositions_spec (_directions this) (radius this)
              ltac:(lia)) as (positions & bvp & Hc & _).
  eexists {| VertexArray_handle := nextHandle context1;
             vertices := meshVertices (_directions this) positions |}.
  eexists.
  unfold recreateVertexArray. rewrite Hd. cbn zeta.
  cbn [_directions set__va set__directionsDirty].
  destruct (Nat.leb_spec 3 (length (_directions this))); [|lia].
  unfold createVertexArray.
  cbn [_directions radius set__va set__directionsDirty].
  rewrite Hc. cbn [bind]. fold context1.
  unfold Context_allocate. cbn.
  split; [reflexivity|]. repeat split.
Qed.
End PrimitivePhases.

Section PrimitiveUpdate.
Context `{Cesium}.
Import CustomSensorVolume.

(** C10.  When [show] is false or the scene mode is not 3D, [update] returns
    at once: it does not throw (whatever the radius and the material are),
    leaves the frame state (command list and context) as it was, and changes
    nothing of the primitive but [_mode]. *)
Theorem update_returns_early_when_hidden_or_not_3D :
  forall (this : CustomSensorVolume.t) (frameState : FrameState.t),
    show this = false \/ FrameState.mode frameState <> SCENE3D ->
    update this frameState
    = Normal (set__mode (FrameState.mode frameState) this, frameState).
Proof.
  intros this frameState Hcase. unfold update.
  destruct Hcase as [Hshow|Hmode].
  - simpl. rewrite Hshow. reflexivity.
  - simpl. destruct (FrameState.mode frameState); try congruence;
      rewrite orb_true_r; reflexivity.
Qed.
End PrimitiveUpdate.

Lemma update_returns_early_when_hidden_or_not_3D_witness :
  CustomSensorVolume.update (H := example_Cesium)
    (CustomSensorVolume.set_show false
       (CustomSensorVolume.set_radius (Num (-1)) CustomSensorVolume.new))
    (FrameState.mk SCENE3D true true {| nextHandle := 0; events := [] |} [])
  = Normal
      (CustomSensorVolume.set__mode SCENE3D
         (CustomSensorVolume.set_show false
            (CustomSensorVolume.set_radius (Num (-1)) CustomSensorVolume.new)),
       FrameState.mk SCENE3D true true {| nextHandle := 0; events := [] |} []).
Proof.
  apply (update_returns_early_when_hidden_or_not_3D (H := example_Cesium)).
  left. reflexivity.
Defined.

Section PrimitiveFrames.
Context `{Cesium}.
Import CustomSensorVolume.

(** A frame update that finds the directions dirty and at least three of them
    makes a new vertex array; no vertex array is destroyed, whatever vertex
    array the commands had. *)
Lemma update_rebuilds this frameState material :
  show this = true -> FrameState.mode frameState = SCENE3D ->
  lessThanZero (radius this) = false ->
  lateralSurfaceMaterial this = Some material ->
  _directionsDirty this = true -> 3 <= length (_directions this) ->
  _va this = None ->
  exists (va : VertexArray) (this' : t) (frameState' : FrameState.t),
    update this frameState = Normal (this', frameState')
    /\ DrawCommand.vertexArray (_frontFaceColorCommand this') = Some va
    /\ VertexArray_handle va = nextHandle (FrameState.context frameState)
    /\ nextHandle (FrameState.context frameState)
       < nextHandle (FrameState.context frameState')
    /\ vertexArraysCreated (FrameState.context frameState')
       = vertexArraysCreated (FrameState.context frameState)
         ++ [VertexArray_handle va]
    /\ vertexArraysDestroyed (FrameState.context frameState')
       = vertexArraysDestroyed (FrameState.context frameState)
    /\ show this' = true /\ radius this' = radius this
    /\ lateralSurfaceMaterial this' = Some material
    /\ _directions this' = _directions this
    /\ _directionsDirty this' = false /\ _va this' = None.
Proof.
  intros Hshow Hmode Hradius Hmaterial Hdirty Hlen Hva.
  rewrite (update_shown this frameState material) by assumption. cbn zeta.
  pose proof (createRenderStates_sameGeometry (Material_isTranslucent material)
                (set__mode SCENE3D this))
    as (_ & Hr0 & Hm0 & _ & Hd0 & Hdd0 & Hva0 & _ & _).
  cbn [set__mode show radius lateralSurfaceMaterial modelMatrix _directions
       _directionsDirty _va isDestroyed _frontFaceColorCommand] in *.
  set (this0 := createRenderStates _ _) in *.
  destruct (recreateVertexArray_rebuild this0 (FrameState.context frameState))
    as (va & this1 & Hre & Hh & Hfront & Hs1 & Hr1 & Hm1 & _ & Hd1 & Hdd1
        & Hva1 & _); [congruence|rewrite Hd0; exact Hlen|].
  rewrite Hva0, Hva in Hre, Hh. cbn [VertexArray_destroy] in Hre, Hh.
  rewrite Hre. cbn [bind]. rewrite Hfront.
  rewrite bool_decide_eq_true_2 by (eexists; reflexivity). cbn [negb].
  set (frameState1 := FrameState.set_context _ frameState).
  pose proof (emitCommands_spec (Material_isTranslucent material)
                (_directionsDirty this0) material this1 frameState1)
    as ((Hs2 & Hr2 & Hm2 & _ & Hd2 & Hdd2 & Hva2 & _ & Hf2)
        & (Hc2 & Hx2 & Hn2) & _).
  destruct (emitCommands _ _ material this1 frameState1)
    as [this2 frameState2].
  cbn [fst snd] in *.
  exists va, this2, frameState2.
  split; [reflexivity|]. split; [congruence|]. split; [exact Hh|].
  split.
  { unfold frameState1 in Hn2. cbn in Hn2. lia. }
  split.
  { rewrite Hc2. unfold frameState1. cbn [FrameState.set_context
      FrameState.context]. rewrite vertexArraysCreated_emit, Hh. reflexivity. }
  split.
  { rewrite Hx2. unfold frameState1. cbn [FrameState.set_context
      FrameState.context]. rewrite vertexArraysDestroyed_emit.
    apply app_nil_r. }
  assert (Hshow0 : show this0 = true).
  { pose proof (createRenderStates_sameGeometry
                  (Material_isTranslucent material) (set__mode SCENE3D this))
      as (Hs0 & _). fold this0 in Hs0. rewrite Hs0. exact Hshow. }
  repeat split; congruence.
Qed.

(** A frame update that does not rebuild (the directions are clean, or fewer
    than three) leaves the commands the vertex array they had: nothing is
    created or destroyed, and with a vertex array in place the draw commands
    are emitted. *)
Lemma update_keeps_mesh this frameState material :
  show this = true -> FrameState.mode frameState = SCENE3D ->
  lessThanZero (radius this) = false ->
  lateralSurfaceMaterial this = Some material ->
  _directionsDirty this = false \/ length (_directions this) < 3 ->
  _va this = None ->
  exists (this' : t) (frameState' : FrameState.t),
    update this frameState = Normal (this', frameState')
    /\ DrawCommand.vertexArray (_frontFaceColorCommand this')
       = DrawCommand.vertexArray (_frontFaceColorCommand this)
    /\ sameVertexArrays (FrameState.context frameState)
                        (FrameState.context frameState')
    /\ show this' = true /\ radius this' = radius this
    /\ lateralSurfaceMaterial this' = Some material
    /\ _directions this' = _directions this
    /\ _directionsDirty this' = false /\ _va this' = None
    /\ FrameState.commandList frameState'
       = FrameState.commandList frameState
         ++ (if bool_decide
                  (is_Some (DrawCommand.vertexArray
                              (_frontFaceColorCommand this)))
             then
               (if FrameState.passes_render frameState then
                  if Material_isTranslucent material
                  then [_backFaceColorCommand this';
                        _frontFaceColorCommand this']
                  else [_frontFaceColorCommand this']
                else [])
               ++ (if FrameState.passes_pick frameState
                   then [_pickCommand this'] else [])
             else []).
Proof.
  intros Hshow Hmode Hradius Hmaterial Hcase Hva.
  rewrite (update_shown this frameState material) by assumption. cbn zeta.
  pose proof (createRenderStates_sameGeometry (Material_isTranslucent material)
                (set__mode SCENE3D this))
    as (Hs0 & Hr0 & Hm0 & _ & Hd0 & Hdd0 & Hva0 & _ & Hf0).
  cbn [set__mode show radius lateralSurfaceMaterial modelMatrix _directions
       _directionsDirty _va isDestroyed _frontFaceColorCommand] in *.
  set (this0 := createRenderStates _ _) in *.
  assert (Hre : exists this1,
             recreateVertexArray this0 (FrameState.context frameState)
             = Normal (this1, FrameState.context frameState)
             /\ sameGeometry (set__directionsDirty false this0) this1
             /\ (_directionsDirty this0 = false -> this1 = this0)).
  { destruct (_directionsDirty this0) eqn:Hdirty.
    - destruct Hcase as [Hclean|Hshort]; [congruence|].
      eexists. rewrite recreateVertexArray_short by congruence.
      rewrite Hva0, Hva. cbn [VertexArray_destroy].
      split; [reflexivity|]. split; [|discriminate].
      unfold sameGeometry. cbn. rewrite Hva0, Hva. repeat split.
    - exists this0. rewrite recreateVertexArray_clean by exact Hdirty.
      split; [reflexivity|]. split; [|reflexivity].
      destruct this0; cbn in *; subst; repeat split. }
  destruct Hre as (this1 & Hre
                   & (Hs1 & Hr1 & Hm1 & _ & Hd1 & Hdd1 & Hva1 & _ & Hf1) & _).
  cbn [set__directionsDirty show radius lateralSurfaceMaterial modelMatrix
       _directions _directionsDirty _va isDestroyed _frontFaceColorCommand]
    in *.
  rewrite Hre. cbn [bind].
  replace (FrameState.set_context (FrameState.context frameState) frameState)
    with frameState by (destruct frameState; reflexivity).
  rewrite Hf1, Hf0.
  destruct (bool_decide (is_Some (DrawCommand.vertexArray
                                    (_frontFaceColorCommand this)))) eqn:Hsome.
  - cbn [negb].
    pose proof (emitCommands_spec (Material_isTranslucent material)
                  (_directionsDirty this0) material this1 frameState)
      as ((Hs2 & Hr2 & Hm2 & _ & Hd2 & Hdd2 & Hva2 & _ & Hf2) & Hc2 & Hl2).
    destruct (emitCommands _ _ material this1 frameState)
      as [this2 frameState2].
    cbn [fst snd] in *.
    exists this2, frameState2.
    split; [reflexivity|]. split; [congruence|]. split; [exact Hc2|].
    split; [congruence|]. split; [congruence|]. split; [congruence|].
    split; [congruence|]. split; [congruence|]. split; [congruence|].
    rewrite Hl2. reflexivity.
  - cbn [negb]. exists this1, frameState.
    split; [reflexivity|]. split; [congruence|].
    split; [apply sameVertexArrays_refl|].
    split; [congruence|]. split; [congruence|]. split; [congruence|].
    split; [congruence|]. split; [congruence|]. split; [congruence|].
    rewrite app_nil_r. reflexivity.
Qed.
End PrimitiveFrames.

Section PrimitiveClaims.
Context `{Cesium}.
Import CustomSensorVolume.

Lemma update_throws_on_negative_radius this frameState :
  show this = true -> FrameState.mode frameState = SCENE3D ->
  lessThanZero (radius this) = true ->
  update this frameState
  = Throw (DeveloperError
             "this.radius must be greater than or equal to zero.").
Proof.
  intros Hshow Hmode Hneg. unfold update. rewrite Hmode.
  cbn [set__mode show radius _mode]. rewrite Hshow, Hneg. reflexivity.
Qed.

(** C2, as the code has it.  The radius is a plain field: assigning a
    negative value succeeds and the primitive holds it.  The failure
    "this.radius must be greater than or equal to zero." is raised by the
    per-frame [update], when the primitive is shown and the scene is in 3D. *)
Theorem negative_radius_fails_at_update :
  forall (this : CustomSensorVolume.t) (value : number)
         (frameState : FrameState.t),
    show this = true ->
    FrameState.mode frameState = SCENE3D ->
    lessThanZero value = true ->
    radius (set_radius value this) = value
    /\ update (set_radius value this) frameState
       = Throw (DeveloperError
                  "this.radius must be greater than or equal to zero.").
Proof.
  intros this value frameState Hshow Hmode Hneg.
  split; [reflexivity|].
  apply update_throws_on_negative_radius; assumption.
Qed.
End PrimitiveClaims.

Lemma lessThanZero_minus_one : lessThanZero (Num (-1)) = true.
Proof. apply Rltb_true. lra. Qed.

Lemma negative_radius_fails_at_update_witness :
  CustomSensorVolume.radius (H := example_Cesium)
    (CustomSensorVolume.set_radius (Num (-1)) CustomSensorVolume.new)
  = Num (-1)
  /\ CustomSensorVolume.update
       (CustomSensorVolume.set_radius (Num (-1)) CustomSensorVolume.new)
       (exampleFrame freshContext)
     = Throw (DeveloperError
                "this.radius must be greater than or equal to zero.").
Proof.
  apply (negative_radius_fails_at_update (H := example_Cesium)).
  - reflexivity.
  - reflexivity.
  - exact lessThanZero_minus_one.
Defined.

(** C2, as the specification states it, fails: a primitive accepts the
    radius -1 through its setter, and the failure for it is raised in the
    frame update that follows. *)
Lemma negative_radius_is_accepted_by_setter_and_thrown_mid_frame :
  exists this : CustomSensorVolume.t (H := example_Cesium),
    this = CustomSensorVolume.set_radius (Num (-1)) CustomSensorVolume.new
    /\ CustomSensorVolume.radius this = Num (-1)
    /\ CustomSensorVolume.update this (exampleFrame freshContext)
       = Throw (DeveloperError
                  "this.radius must be greater than or equal to zero.").
Proof.
  eexists. split; [reflexivity|]. split; [reflexivity|].
  apply update_throws_on_negative_radius.
  - reflexivity.
  - reflexivity.
  - exact lessThanZero_minus_one.
Qed.

(** C4, on the code.  A primitive gets three directions and is updated: a
    vertex array [va] is made.  Its directions are then set to the empty list
    and it is updated again: the commands still hold [va], the front face
    command is emitted, and nothing was destroyed.  The directions are set
    back to three and it is updated once more: a second vertex array is made
    and [va] is still not destroyed.  ([_va], the only vertex array [update]
    destroys, is never assigned.) *)
Theorem stale_mesh_is_kept_and_drawn :
  exists (va va' : VertexArray)
         (this1 this2 this3 : CustomSensorVolume.t (H := example_Cesium))
         (frame1 frame2 frame3 : FrameState.t),
    CustomSensorVolume.update
      (CustomSensorVolume.set_directions exampleDirections
         CustomSensorVolume.new)
      (exampleFrame freshContext)
    = Normal (this1, frame1)
    /\ DrawCommand.vertexArray
         (CustomSensorVolume._frontFaceColorCommand this1) = Some va
    /\ CustomSensorVolume.update
         (CustomSensorVolume.set_directions [] this1)
         (exampleFrame (FrameState.context frame1))
       = Normal (this2, frame2)
    /\ CustomSensorVolume.directions this2 = []
    /\ DrawCommand.vertexArray
         (CustomSensorVolume._frontFaceColorCommand this2) = Some va
    /\ FrameState.commandList frame2
       = [CustomSensorVolume._frontFaceColorCommand this2]
    /\ vertexArraysDestroyed (FrameState.context frame2) = []
    /\ CustomSensorVolume.update
         (CustomSensorVolume.set_directions exampleDirections this2)
         (exampleFrame (FrameState.context frame2))
       = Normal (this3, frame3)
    /\ DrawCommand.vertexArray
         (CustomSensorVolume._frontFaceColorCommand this3) = Some va'
    /\ VertexArray_handle va' <> VertexArray_handle va
    /\ vertexArraysDestroyed (FrameState.context frame3) = [].
Proof.
  destruct (update_rebuilds (H := example_Cesium)
              (CustomSensorVolume.set_directions exampleDirections
                 CustomSensorVolume.new)
              (exampleFrame freshContext) Material_ColorType)
    as (va & this1 & frame1 & Hu1 & Hf1 & Hh1 & Hn1 & Hc1 & Hx1 & Hs1 & Hr1
        & Hm1 & Hd1 & Hdd1 & Hva1); try reflexivity; try (simpl; lia).
  destruct (update_keeps_mesh (H := example_Cesium)
              (CustomSensorVolume.set_directions [] this1)
              (exampleFrame (FrameState.context frame1)) Material_ColorType)
    as (this2 & frame2 & Hu2 & Hf2 & (Hc2 & Hx2 & Hn2) & Hs2 & Hr2 & Hm2
        & Hd2 & Hdd2 & Hva2 & Hl2);
    try (cbn; assumption); try reflexivity.
  { cbn. rewrite Hr1. reflexivity. }
  { right. cbn. lia. }
  cbn [CustomSensorVolume.set_directions CustomSensorVolume.set__directions
       CustomSensorVolume.set__directionsDirty
       CustomSensorVolume._frontFaceColorCommand
       CustomSensorVolume._directions CustomSensorVolume.radius
       exampleFrame FrameState.context FrameState.commandList
       FrameState.passes_render FrameState.passes_pick]
    in Hf2, Hd2, Hl2, Hr2, Hc2, Hx2, Hn2.
  rewrite Hf1 in Hf2, Hl2.
  rewrite bool_decide_eq_true_2 in Hl2 by (eexists; reflexivity).
  destruct (update_rebuilds (H := example_Cesium)
              (CustomSensorVolume.set_directions exampleDirections this2)
              (exampleFrame (FrameState.context frame2)) Material_ColorType)
    as (va' & this3 & frame3 & Hu3 & Hf3 & Hh3 & Hn3 & Hc3 & Hx3 & _);
    try reflexivity; try (cbn; assumption); try (simpl; lia).
  { cbn. rewrite Hr2, Hr1. reflexivity. }
  cbn [exampleFrame FrameState.context] in Hh1, Hn1, Hc1, Hx1, Hh3, Hc3, Hx3.
  exists va, va', this1, this2, this3, frame1, frame2, frame3.
  split; [exact Hu1|]. split; [exact Hf1|]. split; [exact Hu2|].
  split; [exact Hd2|]. split; [exact Hf2|]. split; [exact Hl2|].
  split; [rewrite Hx2, Hx1; reflexivity|].
  split; [exact Hu3|]. split; [exact Hf3|].
  split; [|rewrite Hx3, Hx2, Hx1; reflexivity].
  rewrite Hh3, Hh1. lia.
Qed.

(** ** The visualizers: collection changes *)

Section AssociativeArrayFacts.
Context {V : Type}.
Implicit Types (array : AssociativeArray.t V) (key : string).

Lemma AssociativeArray_keys_set key (value : V) array k :
  k ∈ (AssociativeArray.set key value array).*1 <-> k = key \/ k ∈ array.*1.
Proof.
  unfold AssociativeArray.set, AssociativeArray.contains.
  destruct (bool_decide_reflect (key ∈ array.*1)) as [Hin|Hnot].
  - rewrite <- list_fmap_compose.
    assert (Hkeys : (fst ∘ (fun entry : string * V =>
                      if bool_decide (entry.1 = key) then (key, value)
                      else entry)) <$> array = array.*1).
    { apply list_fmap_ext. intros i [k' v'] _. simpl.
      destruct (bool_decide_reflect (k' = key)); simpl; congruence. }
    rewrite Hkeys. split; [auto|]. intros [->|Hk]; assumption.
  - rewrite fmap_app, elem_of_app. simpl. rewrite list_elem_of_singleton.
    tauto.
Qed.

Lemma AssociativeArray_keys_remove key array k :
  k ∈ (AssociativeArray.remove key array).*1 <-> k <> key /\ k ∈ array.*1.
Proof.
  unfold AssociativeArray.remove. rewrite !list_elem_of_fmap. split.
  - intros ([k' v'] & -> & Hin). apply list_elem_of_filter in Hin as [Hne Hin].
    simpl in *. split; [exact Hne|]. exists (k', v'). split; [reflexivity|exact Hin].
  - intros (Hne & [k' v'] & -> & Hin). exists (k', v').
    split; [reflexivity|]. apply list_elem_of_filter. split; [exact Hne|exact Hin].
Qed.
End AssociativeArrayFacts.

Section WorldFacts.
Context `{Cesium} {P : Type} `{!SensorPrimitive P}.
Implicit Types (world : World.t P) (handle h : nat).

Lemma untouched_refl h world : untouched h world world.
Proof. repeat split; auto. Qed.

Lemma untouched_trans h world1 world2 world3 :
  untouched h world1 world2 -> untouched h world2 world3 ->
  untouched h world1 world3.
Proof.
  intros (Hp & Ho & Hc) (Hp' & Ho' & Hc'). split; [|split].
  - rewrite Hp', Hp. reflexivity.
  - congruence.
  - congruence.
Qed.

Lemma destroyCount_snoc h handle world (calls : list nat) :
  World.destroyCalls world = calls ++ [handle] ->
  destroyCount h world
  = length (filter (fun h' => h' = h) calls) + (if decide (handle = h) then 1 else 0).
Proof.
  intros Hcalls. unfold destroyCount. rewrite Hcalls, filter_app, length_app.
  f_equal. rewrite filter_cons. destruct (decide (handle = h)); reflexivity.
Qed.

Lemma World_destroy_other h handle world :
  h <> handle -> untouched h world (World.destroy handle world).
Proof.
  intros Hne. unfold World.destroy.
  destruct (World.objects world !! handle) as [primitive|] eqn:Hobj;
    [|apply untouched_refl].
  destruct (Primitive_destroy primitive (World.context world))
    as [primitive' context'].
  split; [reflexivity|]. split.
  - cbn. apply lookup_insert_ne. congruence.
  - erewrite destroyCount_snoc by reflexivity.
    destruct (decide (handle = h)); [congruence|]. cbn. unfold destroyCount. lia.
Qed.

Lemma World_destroy_frame handle world :
  World.primitives (World.destroy handle world) = World.primitives world
  /\ World.nextObject (World.destroy handle world) = World.nextObject world
  /\ World.destroyPrimitives (World.destroy handle world)
     = World.destroyPrimitives world.
Proof.
  unfold World.destroy.
  destruct (World.objects world !! handle) as [primitive|]; [|auto].
  destruct (Primitive_destroy primitive (World.context world)). auto.
Qed.

Lemma World_destroy_self handle world primitive :
  World.objects world !! handle = Some primitive ->
  World.isDestroyed handle (World.destroy handle world) = true
  /\ destroyCount handle (World.destroy handle world)
     = S (destroyCount handle world).
Proof.
  intros Hobj. unfold World.destroy, World.isDestroyed. rewrite Hobj.
  pose proof (Primitive_destroy_isDestroyed primitive (World.context world))
    as Hlaw.
  destruct (Primitive_destroy primitive (World.context world))
    as [primitive' context']. cbn in *.
  rewrite lookup_insert_eq. split; [exact Hlaw|].
  unfold destroyCount. cbn. rewrite filter_app, length_app, filter_cons.
  destruct (decide (handle = handle)); [|congruence]. cbn. lia.
Qed.

Lemma World_remove_other h handle world :
  h <> handle -> untouched h world (World.remove handle world).
Proof.
  intros Hne. unfold World.remove.
  destruct (bool_decide (handle ∈ World.primitives world));
    [|apply untouched_refl].
  set (world1 := World.set_primitives _ world).
  assert (H1 : untouched h world world1).
  { split; [|split; reflexivity]. unfold world1. cbn.
    rewrite list_elem_of_filter. tauto. }
  destruct (World.destroyPrimitives world1); [|exact H1].
  eapply untouched_trans; [exact H1|]. apply World_destroy_other. exact Hne.
Qed.

Lemma World_remove_nextObject handle world :
  World.nextObject (World.remove handle world) = World.nextObject world.
Proof.
  unfold World.remove.
  destruct (bool_decide (handle ∈ World.primitives world)); [|reflexivity].
  destruct (World.destroyPrimitives _); [|reflexivity].
  rewrite (proj1 (proj2 (World_destroy_frame _ _))). reflexivity.
Qed.
End WorldFacts.

Section CollectionEvents.
Context `{Cesium} {P : Type} `{!SensorPrimitive P}.
Implicit Types (world : World.t P) (hash : gmap string Data.t)
  (state : Visualizer.t * World.t P) (entity : Entity.t).

(** [removePrimitive] for an entity with data whose primitive exists and is
    not destroyed: the primitive leaves the scene, [destroy()] is called on
    it once (by the collection when it destroys its primitives, by
    [removePrimitive] otherwise), and the entry is deleted. *)
Lemma removePrimitive_entry entity hash world data primitive :
  hash !! Entity.id entity = Some data ->
  World.objects world !! Data.primitive data = Some primitive ->
  Primitive_isDestroyed primitive = false ->
  let result := removePrimitive entity hash world in
  result.1 = delete (Entity.id entity) hash
  /\ (Data.primitive data ∉ World.primitives result.2)
  /\ destroyCount (Data.primitive data) result.2
     = S (destroyCount (Data.primitive data) world)
  /\ World.nextObject result.2 = World.nextObject world
  /\ forall h, h <> Data.primitive data -> untouched h world result.2.
Proof.
  intros Hdata Hobj Hlive. unfold removePrimitive. rewrite Hdata.
  set (h := Data.primitive data) in *. cbn [fst snd].
  assert (Hrem : (h ∉ World.primitives (World.remove h world))
                 /\ World.nextObject (World.remove h world)
                    = World.nextObject world
                 /\ ((World.isDestroyed h (World.remove h world) = true
                      /\ destroyCount h (World.remove h world)
                         = S (destroyCount h world))
                     \/ (World.isDestroyed h (World.remove h world) = false
                         /\ World.objects (World.remove h world) !! h
                            = Some primitive
                         /\ destroyCount h (World.remove h world)
                            = destroyCount h world))).
  { split; [|split; [apply World_remove_nextObject|]].
    - unfold World.remove.
      destruct (bool_decide_reflect (h ∈ World.primitives world)) as [Hin|Hnot];
        [|exact Hnot].
      set (world1 := World.set_primitives _ world).
      assert (h ∉ World.primitives world1).
      { unfold world1. cbn. rewrite list_elem_of_filter. tauto. }
      destruct (World.destroyPrimitives world1); [|assumption].
      rewrite (proj1 (World_destroy_frame h world1)). assumption.
    - unfold World.remove.
      destruct (bool_decide (h ∈ World.primitives world)).
      + set (world1 := World.set_primitives _ world).
        destruct (World.destroyPrimitives world1).
        * left. apply (World_destroy_self h world1 primitive). exact Hobj.
        * right. unfold World.isDestroyed. cbn. rewrite Hobj.
          split; [exact Hlive|]. split; reflexivity.
      + right. unfold World.isDestroyed. rewrite Hobj.
        split; [exact Hlive|]. split; reflexivity. }
  destruct Hrem as (Hout & Hnext & Hcase).
  split; [reflexivity|].
  destruct Hcase as [[Hd Hc]|(Hd & Ho & Hc)]; rewrite Hd; cbn [negb].
  - split; [exact Hout|]. split; [exact Hc|]. split; [exact Hnext|].
    intros h' Hne. apply World_remove_other. exact Hne.
  - rewrite (proj1 (World_destroy_frame h _)).
    split; [exact Hout|].
    split; [rewrite (proj2 (World_destroy_self h _ primitive Ho)), Hc;
            reflexivity|].
    split; [rewrite (proj1 (proj2 (World_destroy_frame h _))); exact Hnext|].
    intros h' Hne. eapply untouched_trans.
    + apply World_remove_other. exact Hne.
    + apply World_destroy_other. exact Hne.
Qed.

(** [removePrimitive] in general: the entry of the entity is deleted, no
    object is made, and only the primitive of that entry is touched. *)
Lemma removePrimitive_frame entity hash world :
  let result := removePrimitive entity hash world in
  result.1 = delete (Entity.id entity) hash
  /\ World.nextObject result.2 = World.nextObject world
  /\ forall h,
       (forall data, hash !! Entity.id entity = Some data ->
                     h <> Data.primitive data) ->
       untouched h world result.2.
Proof.
  unfold removePrimitive.
  destruct (hash !! Entity.id entity) as [data|] eqn:Hdata; cbn [fst snd].
  - split; [reflexivity|].
    set (h0 := Data.primitive data).
    destruct (negb (World.isDestroyed h0 (World.remove h0 world))).
    + split.
      * rewrite (proj1 (proj2 (World_destroy_frame _ _))).
        apply World_remove_nextObject.
      * intros h Hne. specialize (Hne data eq_refl). eapply untouched_trans.
        -- apply World_remove_other. exact Hne.
        -- apply World_destroy_other. exact Hne.
    + split; [apply World_remove_nextObject|].
      intros h Hne. apply World_remove_other. exact (Hne data eq_refl).
  - split; [symmetry; apply delete_id; exact Hdata|].
    split; [reflexivity|]. intros h _. apply untouched_refl.
Qed.
End CollectionEvents.

Section CollectionChanged.
Context `{Cesium} {P : Type} `{!SensorPrimitive P}.
Implicit Types (state : Visualizer.t * World.t P) (entity : Entity.t).

Lemma onAdded_frame complete state entity :
  Visualizer._hash (onAdded complete state entity).1 = Visualizer._hash state.1
  /\ (onAdded complete state entity).2 = state.2.
Proof.
  unfold onAdded. destruct state as [this world].
  destruct (complete entity); split; reflexivity.
Qed.

Lemma onRemoved_hash state entity :
  Visualizer._hash (onRemoved state entity).1
  = delete (Entity.id entity) (Visualizer._hash state.1).
Proof.
  unfold onRemoved. destruct state as [this world].
  pose proof (removePrimitive_frame entity (Visualizer._hash this) world)
    as (Hhash & _).
  destruct (removePrimitive entity (Visualizer._hash this) world).
  cbn in *. exact Hhash.
Qed.

Lemma onRemoved_world state entity :
  (onRemoved state entity).2
  = (removePrimitive entity (Visualizer._hash state.1) state.2).2.
Proof.
  unfold onRemoved. destruct state as [this world]. cbn [fst snd].
  destruct (removePrimitive entity (Visualizer._hash this) world).
  reflexivity.
Qed.

Lemma onRemoved_untracked state entity :
  ~ tracked (Entity.id entity) (onRemoved state entity).1.
Proof.
  unfold onRemoved, tracked. destruct state as [this world].
  destruct (removePrimitive entity (Visualizer._hash this) world).
  cbn [fst snd Visualizer._entitiesToVisualize
       Visualizer.set__entitiesToVisualize Visualizer.set__hash].
  rewrite AssociativeArray_keys_remove. tauto.
Qed.

Lemma onRemoved_tracked state entity id :
  tracked id (onRemoved state entity).1 -> tracked id state.1.
Proof.
  unfold onRemoved, tracked. destruct state as [this world].
  destruct (removePrimitive entity (Visualizer._hash this) world).
  cbn [fst snd Visualizer._entitiesToVisualize
       Visualizer.set__entitiesToVisualize Visualizer.set__hash].
  rewrite AssociativeArray_keys_remove. tauto.
Qed.

Lemma primitivesDistinct_delete (hash : gmap string Data.t) id :
  primitivesDistinct hash -> primitivesDistinct (delete id hash).
Proof.
  intros Hd id1 id2 data1 data2 H1 H2.
  apply lookup_delete_Some in H1 as [_ H1].
  apply lookup_delete_Some in H2 as [_ H2]. eauto.
Qed.

Lemma onAdded_awaiting complete state entity id h n :
  awaiting id h n state -> awaiting id h n (onAdded complete state entity).
Proof.
  unfold awaiting. destruct (onAdded_frame complete state entity) as [-> ->].
  auto.
Qed.

Lemma onAdded_retired complete state entity id h n :
  retired id h n state -> retired id h n (onAdded complete state entity).
Proof.
  unfold retired. destruct (onAdded_frame complete state entity) as [-> ->].
  auto.
Qed.

Lemma onRemoved_awaiting state entity id h n :
  awaiting id h n state ->
  if decide (Entity.id entity = id)
  then retired id h n (onRemoved state entity)
  else awaiting id h n (onRemoved state entity).
Proof.
  intros (data & primitive & Hdata & Hh & Hdistinct & Hobj & Hlive & Hcount).
  destruct (decide (Entity.id entity = id)) as [Heq|Hne].
  - subst id h.
    pose proof (removePrimitive_entry entity _ _ data primitive Hdata Hobj Hlive)
      as (Hhash & Hout & Hc & _).
    unfold retired. rewrite onRemoved_hash, onRemoved_world.
    split; [apply lookup_delete_eq|]. split; [|split; [exact Hout|]].
    + intros id' data' Hd' Heq.
      apply lookup_delete_Some in Hd' as [Hne Hd'].
      apply Hne. symmetry. eapply Hdistinct; eauto.
    + rewrite Hc, Hcount. reflexivity.
  - pose proof (removePrimitive_frame entity (Visualizer._hash state.1) state.2)
      as (_ & _ & Hother).
    destruct (Hother h) as (_ & Ho & Hc).
    { intros data' Hd' Heq. apply Hne. eapply Hdistinct; eauto. congruence. }
    exists data, primitive. rewrite onRemoved_hash, onRemoved_world.
    split; [rewrite lookup_delete_ne by exact Hne; exact Hdata|].
    split; [exact Hh|]. split; [apply primitivesDistinct_delete, Hdistinct|].
    split; [rewrite Ho; exact Hobj|]. split; [exact Hlive|].
    rewrite Hc. exact Hcount.
Qed.

Lemma onRemoved_retired state entity id h n :
  retired id h n state -> retired id h n (onRemoved state entity).
Proof.
  intros (Hnone & Hnames & Hout & Hcount).
  pose proof (removePrimitive_frame entity (Visualizer._hash state.1) state.2)
    as (_ & _ & Hother).
  destruct (Hother h) as (Hp & _ & Hc).
  { intros data' Hd'. apply not_eq_sym. eapply Hnames. exact Hd'. }
  unfold retired. rewrite onRemoved_hash, onRemoved_world.
  split; [apply lookup_delete_None; auto|]. split; [|split].
  - intros id' data' Hd'. apply lookup_delete_Some in Hd' as [_ Hd']. eauto.
  - rewrite Hp. exact Hout.
  - rewrite Hc. exact Hcount.
Qed.

(** One step of any of the three loops keeps an entry that waits or is
    retired in one of the two conditions, and keeps a retired one retired. *)
Lemma onChanged_progress complete state entity id h n :
  awaiting id h n state \/ retired id h n state ->
  awaiting id h n (onChanged complete state entity)
  \/ retired id h n (onChanged complete state entity).
Proof.
  unfold onChanged. intros [Ha|Hr]; destruct (complete entity).
  - left. apply onAdded_awaiting. exact Ha.
  - pose proof (onRemoved_awaiting state entity id h n Ha) as Hstep.
    destruct (decide (Entity.id entity = id)); [right|left]; exact Hstep.
  - right. apply onAdded_retired. exact Hr.
  - right. apply onRemoved_retired. exact Hr.
Qed.

Lemma foldl_onAdded_progress complete id h n entities : forall state,
  awaiting id h n state \/ retired id h n state ->
  awaiting id h n (foldl (onAdded complete) state entities)
  \/ retired id h n (foldl (onAdded complete) state entities).
Proof.
  induction entities as [|entity entities IH]; intros state Hs; [exact Hs|].
  cbn. apply IH. destruct Hs as [Ha|Hr];
    [left; apply onAdded_awaiting|right; apply onAdded_retired]; assumption.
Qed.

Lemma foldl_onChanged_progress complete id h n entities : forall state,
  awaiting id h n state \/ retired id h n state ->
  awaiting id h n (foldl (onChanged complete) state entities)
  \/ retired id h n (foldl (onChanged complete) state entities).
Proof.
  induction entities as [|entity entities IH]; intros state Hs; [exact Hs|].
  cbn. apply IH. apply onChanged_progress. exact Hs.
Qed.

Lemma foldl_onRemoved_retired id h n entities : forall state,
  retired id h n state -> retired id h n (foldl onRemoved state entities).
Proof.
  induction entities as [|entity entities IH]; intros state Hs; [exact Hs|].
  cbn. apply IH. apply onRemoved_retired. exact Hs.
Qed.

Lemma foldl_onRemoved_untracked id entities : forall state,
  ~ tracked id state.1 -> ~ tracked id (foldl onRemoved state entities).1.
Proof.
  induction entities as [|entity entities IH]; intros state Hs; [exact Hs|].
  cbn. apply IH. intros Ht. apply Hs. eapply onRemoved_tracked. exact Ht.
Qed.

(** The loop over [removed] retires the entry of every entity in the list. *)
Lemma foldl_onRemoved_retires id h n entities : forall state,
  (exists entity, entity ∈ entities /\ Entity.id entity = id) ->
  awaiting id h n state \/ retired id h n state ->
  retired id h n (foldl onRemoved state entities).
Proof.
  induction entities as [|entity entities IH];
    intros state (e & Hin & Hid) Hs.
  - apply elem_of_nil in Hin. contradiction.
  - cbn. destruct Hs as [Ha|Hr].
    + pose proof (onRemoved_awaiting state entity id h n Ha) as Hstep.
      destruct (decide (Entity.id entity = id)) as [Heq|Hne].
      * apply foldl_onRemoved_retired. exact Hstep.
      * apply IH; [|left; exact Hstep].
        apply elem_of_cons in Hin as [->|Hin]; [congruence|eauto].
    + apply foldl_onRemoved_retired. apply onRemoved_retired. exact Hr.
Qed.

Lemma foldl_onRemoved_untracks id entities : forall state,
  (exists entity, entity ∈ entities /\ Entity.id entity = id) ->
  ~ tracked id (foldl onRemoved state entities).1.
Proof.
  induction entities as [|entity entities IH];
    intros state (e & Hin & Hid).
  - apply elem_of_nil in Hin. contradiction.
  - cbn. destruct (decide (Entity.id entity = id)) as [Heq|Hne].
    + apply foldl_onRemoved_untracked. rewrite <- Heq.
      apply onRemoved_untracked.
    + apply IH. apply elem_of_cons in Hin as [->|Hin]; [congruence|eauto].
Qed.

(** The loops make no primitive. *)
Lemma onCollectionChanged_nextObject complete added removed changed state :
  World.nextObject
    (onCollectionChanged complete added removed changed state).2
  = World.nextObject state.2.
Proof.
  assert (Hadd : forall entities (s : Visualizer.t * World.t P),
             World.nextObject (foldl (onAdded complete) s entities).2
             = World.nextObject s.2).
  { induction entities as [|e es IH]; intros s; [reflexivity|].
    cbn. rewrite IH. rewrite (proj2 (onAdded_frame complete s e)).
    reflexivity. }
  assert (Hrem1 : forall (s : Visualizer.t * World.t P) e,
             World.nextObject (onRemoved s e).2
                              = World.nextObject s.2).
  { intros s e. rewrite onRemoved_world.
    apply (removePrimitive_frame e (Visualizer._hash s.1) s.2). }
  assert (Hrem : forall entities (s : Visualizer.t * World.t P),
             World.nextObject (foldl onRemoved s entities).2
             = World.nextObject s.2).
  { induction entities as [|e es IH]; intros s; [reflexivity|].
    cbn. rewrite IH. apply Hrem1. }
  assert (Hchg : forall entities (s : Visualizer.t * World.t P),
             World.nextObject (foldl (onChanged complete) s entities).2
             = World.nextObject s.2).
  { induction entities as [|e es IH]; intros s; [reflexivity|].
    cbn. rewrite IH. unfold onChanged. destruct (complete e).
    - rewrite (proj2 (onAdded_frame complete s e)). reflexivity.
    - apply Hrem1. }
  unfold onCollectionChanged. rewrite Hrem, Hchg, Hadd. reflexivity.
Qed.
Lemma foldl_onRemoved_no_entry id entities : forall state,
  Visualizer._hash state.1 !! id = None ->
  Visualizer._hash (foldl onRemoved state entities).1 !! id = None.
Proof.
  induction entities as [|e es IH]; intros state Hn; [exact Hn|].
  cbn. apply IH. rewrite onRemoved_hash. apply lookup_delete_None. auto.
Qed.

Lemma foldl_onRemoved_deletes id entities : forall state,
  (exists entity, entity ∈ entities /\ Entity.id entity = id) ->
  Visualizer._hash (foldl onRemoved state entities).1 !! id = None.
Proof.
  induction entities as [|e es IH]; intros state (e0 & Hin & Hid).
  - apply elem_of_nil in Hin. contradiction.
  - cbn. destruct (decide (Entity.id e = id)) as [Heq|Hne].
    + apply foldl_onRemoved_no_entry. rewrite onRemoved_hash, <- Heq.
      apply lookup_delete_eq.
    + apply IH. apply elem_of_cons in Hin as [->|Hin]; [congruence|eauto].
Qed.

(** After a collection change that reports an entity removed, the entity is
    not tracked and has no entry. *)
Lemma onCollectionChanged_removes complete added removed changed state entity :
  entity ∈ removed ->
  let state' := onCollectionChanged complete added removed changed state in
  ~ tracked (Entity.id entity) state'.1
  /\ Visualizer._hash state'.1 !! Entity.id entity = None.
Proof.
  intros Hin. cbn zeta. unfold onCollectionChanged.
  assert (Hex : exists e, e ∈ reverse removed
                          /\ Entity.id e = Entity.id entity).
  { exists entity. split; [apply elem_of_reverse; exact Hin|reflexivity]. }
  split.
  - apply foldl_onRemoved_untracks. exact Hex.
  - apply foldl_onRemoved_deletes. exact Hex.
Qed.

End CollectionChanged.

(** ** The visualizers: updates *)

Section ConicUpdates.
Context `{Cesium}.
Implicit Types (state : Visualizer.t * World.t CustomSensorVolume.t)
  (world : World.t CustomSensorVolume.t) (entity : Entity.t) (id : string).

Lemma primitiveOf_insert id world h h0 (primitive : CustomSensorVolume.t) :
  primitiveOf id
    (World.set_objects (<[h0 := primitive]> (World.objects world)) world) h ->
  (h = h0 /\ CustomSensorVolume.id primitive = Some id)
  \/ primitiveOf id world h.
Proof.
  intros (p & Hp & Hid). cbn in Hp.
  destruct (decide (h0 = h)) as [->|Hne].
  - rewrite lookup_insert_eq in Hp. left. split; [reflexivity|congruence].
  - rewrite lookup_insert_ne in Hp by exact Hne. right. exists p. auto.
Qed.

Lemma hide_keeps id (data : option Data.t) world h :
  primitiveOf id (hide data world) h -> primitiveOf id world h.
Proof.
  unfold hide, World.assign. destruct data as [data|]; [|auto].
  destruct (World.objects world !! Data.primitive data) as [p|] eqn:Hp;
    [|auto].
  intros Hof. apply primitiveOf_insert in Hof as [[-> Hid]|Hof]; [|exact Hof].
  exists p. split; [exact Hp|exact Hid].
Qed.

(** The loop body for an entity with another id leaves the tracked set, the
    entry of [id] and the primitives made for [id] as they are. *)
Lemma updateEntity_keeps id (create : CustomSensorVolume.t)
    (apply : Data.t -> CustomSensorVolume.t
             -> Completion (Data.t * CustomSensorVolume.t))
    (pose : bool) entity state state' :
  Entity.id entity <> id ->
  (forall data p data' p',
     apply data p = Normal (data', p') ->
     CustomSensorVolume.id p' = CustomSensorVolume.id p
     /\ Data.primitive data' = Data.primitive data) ->
  updateEntity create apply pose entity state = Normal state' ->
  Visualizer._entitiesToVisualize state'.1
  = Visualizer._entitiesToVisualize state.1
  /\ Visualizer._hash state'.1 !! id = Visualizer._hash state.1 !! id
  /\ forall h, primitiveOf id state'.2 h -> primitiveOf id state.2 h.
Proof.
  intros Hne Happly. unfold updateEntity. destruct state as [this world].
  cbn [fst snd]. destruct pose.
  - assert (Hobtain :
      let r := obtain create entity (Visualizer._hash this !! Entity.id entity)
                      (this, world) in
      Visualizer._entitiesToVisualize r.2.1
      = Visualizer._entitiesToVisualize this
      /\ Visualizer._hash r.2.1 !! id = Visualizer._hash this !! id
      /\ forall h, primitiveOf id r.2.2 h -> primitiveOf id world h).
    { unfold obtain.
      destruct (Visualizer._hash this !! Entity.id entity) as [data|];
        cbn; [auto|].
      split; [reflexivity|]. split; [apply lookup_insert_ne; exact Hne|].
      intros h (p & Hp & Hid). cbn in Hp.
      destruct (decide (World.nextObject world = h)) as [<-|Hh].
      - rewrite lookup_insert_eq in Hp. injection Hp as <-. cbn in Hid.
        congruence.
      - rewrite lookup_insert_ne in Hp by exact Hh. exists p. auto. }
    destruct (obtain create entity (Visualizer._hash this !! Entity.id entity)
                (this, world)) as [data [this1 world1]].
    cbn [fst snd] in *. destruct Hobtain as (He1 & Hh1 & Ho1).
    destruct (World.objects world1 !! Data.primitive data) as [p|] eqn:Hp;
      [|discriminate].
    destruct (apply data p) as [[data' p']|] eqn:Hap; [|discriminate].
    destruct (Happly _ _ _ _ Hap) as [Hid Hprim].
    cbn [bind]. intros [= <-]. unfold commit. cbn [fst snd].
    split; [exact He1|].
    split; [cbn; rewrite lookup_insert_ne by exact Hne; exact Hh1|].
    intros h Hof. apply Ho1.
    apply primitiveOf_insert in Hof as [[-> Hid']|Hof]; [|exact Hof].
    exists p. rewrite Hprim. split; [exact Hp|congruence].
  - intros [= <-]. cbn [fst snd]. split; [reflexivity|].
    split; [reflexivity|]. intros h. apply hide_keeps.
Qed.

Lemma applyPose_id position orientation data (p : CustomSensorVolume.t) :
  CustomSensorVolume.id (applyPose position orientation data p).2
  = CustomSensorVolume.id p
  /\ Data.primitive (applyPose position orientation data p).1
     = Data.primitive data.
Proof.
  unfold applyPose. destruct (_ || _); split; reflexivity.
Qed.

Lemma ConicSensorVisualizer_apply_id time graphics position orientation data
    (p : CustomSensorVolume.t) :
  CustomSensorVolume.id
    (ConicSensorVisualizer_apply time graphics position orientation data p).2
  = CustomSensorVolume.id p
  /\ Data.primitive
       (ConicSensorVisualizer_apply time graphics position orientation
          data p).1
     = Data.primitive data.
Proof.
  unfold ConicSensorVisualizer_apply.
  pose proof (applyPose_id position orientation data p) as [Hid Hprim].
  destruct (applyPose position orientation data p) as [data1 p1].
  cbn [fst snd] in *.
  destruct (_ || _ || _ || _); cbn; split; assumption.
Qed.

(** The loop over the tracked entities, none of which has the id. *)
Lemma updateEntities_keeps id
    (body : Entity.t -> Visualizer.t * World.t CustomSensorVolume.t
            -> Completion (Visualizer.t * World.t CustomSensorVolume.t))
    entities :
  (forall entity state state',
     entity ∈ entities -> body entity state = Normal state' ->
     Visualizer._entitiesToVisualize state'.1
     = Visualizer._entitiesToVisualize state.1
     /\ Visualizer._hash state'.1 !! id = Visualizer._hash state.1 !! id
     /\ forall h, primitiveOf id state'.2 h -> primitiveOf id state.2 h) ->
  forall state state',
    updateEntities body entities state = Normal state' ->
    Visualizer._entitiesToVisualize state'.1
    = Visualizer._entitiesToVisualize state.1
    /\ Visualizer._hash state'.1 !! id = Visualizer._hash state.1 !! id
    /\ forall h, primitiveOf id state'.2 h -> primitiveOf id state.2 h.
Proof.
  induction entities as [|entity entities IH]; intros Hbody state state' Hrun.
  - cbn in Hrun. injection Hrun as <-. auto.
  - cbn in Hrun. destruct (body entity state) as [state1|] eqn:Hb;
      [|discriminate].
    cbn in Hrun.
    destruct (Hbody entity state state1 ltac:(left) Hb) as (He & Hh & Ho).
    destruct (IH (fun e s s' Hin => Hbody e s s' ltac:(right; exact Hin))
                state1 state' Hrun) as (He' & Hh' & Ho').
    split; [congruence|]. split; [congruence|]. auto.
Qed.

Lemma tracked_values id (this : Visualizer.t) entity :
  filedById this -> ~ tracked id this ->
  entity ∈ AssociativeArray.values (Visualizer._entitiesToVisualize this) ->
  Entity.id entity <> id.
Proof.
  unfold filedById, tracked, AssociativeArray.values.
  intros Hfiled Hnot Hin Heq.
  apply list_elem_of_fmap in Hin as ([k e] & -> & Hin).
  rewrite Forall_forall in Hfiled. specialize (Hfiled _ Hin). cbn in *.
  apply Hnot. apply list_elem_of_fmap. exists (k, e). cbn.
  split; [congruence|exact Hin].
Qed.

(** An update of the conic visualizer while the entity with [id] is not
    tracked and has no entry: it still is not, and no primitive is made for
    it. *)
Lemma ConicSensorVisualizer_update_keeps id time state state' :
  filedById state.1 -> ~ tracked id state.1 ->
  ConicSensorVisualizer_update time state = Normal state' ->
  Visualizer._entitiesToVisualize state'.1
  = Visualizer._entitiesToVisualize state.1
  /\ Visualizer._hash state'.1 !! id = Visualizer._hash state.1 !! id
  /\ forall h, primitiveOf id state'.2 h -> primitiveOf id state.2 h.
Proof.
  intros Hfiled Hnot. unfold ConicSensorVisualizer_update.
  apply updateEntities_keeps. intros entity s s' Hin Hbody.
  pose proof (tracked_values id _ entity Hfiled Hnot Hin) as Hne.
  destruct (Entity._conicSensor entity) as [graphics|]; [|discriminate].
  destruct (resolvePose time entity (ConicSensorGraphics._show graphics))
    as [[position orientation]|].
  - eapply updateEntity_keeps; [exact Hne| |exact Hbody].
    intros data p data' p' [= Heq].
    pose proof (ConicSensorVisualizer_apply_id time graphics position
                  orientation data p) as Hid.
    rewrite Heq in Hid. exact Hid.
  - eapply updateEntity_keeps; [exact Hne| |exact Hbody].
    intros data p data' p' [= <- <-]. auto.
Qed.
End ConicUpdates.

Section ConicRuns.
Context `{Cesium}.
Implicit Types (state : Visualizer.t * World.t CustomSensorVolume.t)
  (world : World.t CustomSensorVolume.t) (entity : Entity.t) (id : string).

Lemma World_destroy_keeps id handle world h :
  primitiveOf id (World.destroy handle world) h -> primitiveOf id world h.
Proof.
  unfold World.destroy.
  destruct (World.objects world !! handle) as [p|] eqn:Hp; [|auto].
  cbn [Primitive_destroy CustomSensorVolume_SensorPrimitive].
  destruct (CustomSensorVolume.destroy p (World.context world))
    as [p' context'] eqn:Hd.
  intros (q & Hq & Hid). cbn in Hq.
  destruct (decide (handle = h)) as [->|Hne].
  - rewrite lookup_insert_eq in Hq. injection Hq as <-.
    exists p. split; [exact Hp|].
    unfold CustomSensorVolume.destroy in Hd. injection Hd as <- _.
    exact Hid.
  - rewrite lookup_insert_ne in Hq by exact Hne. exists q. auto.
Qed.

Lemma World_remove_keeps id handle world h :
  primitiveOf id (World.remove handle world) h -> primitiveOf id world h.
Proof.
  unfold World.remove.
  destruct (bool_decide (handle ∈ World.primitives world)); [|auto].
  destruct (World.destroyPrimitives _); [|auto].
  intros Hof. apply World_destroy_keeps in Hof. exact Hof.
Qed.

Lemma onRemoved_keeps id state entity h :
  primitiveOf id (onRemoved state entity).2 h -> primitiveOf id state.2 h.
Proof.
  rewrite onRemoved_world. unfold removePrimitive.
  destruct (Visualizer._hash state.1 !! Entity.id entity) as [data|];
    [|auto].
  cbn [snd]. destruct (negb _); intros Hof.
  - apply World_destroy_keeps, World_remove_keeps in Hof. exact Hof.
  - apply World_remove_keeps in Hof. exact Hof.
Qed.

Lemma filedById_onAdded complete state entity :
  filedById state.1 -> filedById (onAdded complete state entity).1.
Proof.
  unfold filedById, onAdded. destruct state as [this world].
  destruct (complete entity); [|auto]. cbn.
  unfold AssociativeArray.set. intros Hf.
  destruct (AssociativeArray.contains _ _).
  - apply Forall_fmap. eapply Forall_impl; [exact Hf|].
    intros [k e] Hk. cbn in *.
    destruct (bool_decide (k = Entity.id entity)); [reflexivity|exact Hk].
  - apply Forall_app. split; [exact Hf|]. constructor; [reflexivity|constructor].
Qed.

Lemma filedById_onRemoved state entity :
  filedById state.1 -> filedById (onRemoved state entity).1.
Proof.
  unfold filedById, onRemoved. destruct state as [this world].
  destruct (removePrimitive entity (Visualizer._hash this) world).
  cbn. unfold AssociativeArray.remove. intros Hf.
  apply Forall_forall. intros entry Hin.
  apply list_elem_of_filter in Hin as [_ Hin].
  rewrite Forall_forall in Hf. auto.
Qed.

Lemma onAdded_tracked complete state entity id :
  Entity.id entity <> id ->
  tracked id (onAdded complete state entity).1 -> tracked id state.1.
Proof.
  unfold onAdded, tracked. destruct state as [this world].
  destruct (complete entity); [|auto]. cbn [fst Visualizer._entitiesToVisualize
    Visualizer.set__entitiesToVisualize].
  rewrite AssociativeArray_keys_set. intros Hne [Heq|Hin]; [congruence|auto].
Qed.

Lemma foldl_filedById (step : Visualizer.t * World.t CustomSensorVolume.t
                            -> Entity.t
                            -> Visualizer.t * World.t CustomSensorVolume.t)
    entities :
  (forall state entity, filedById state.1 -> filedById (step state entity).1) ->
  forall state, filedById state.1 -> filedById (foldl step state entities).1.
Proof.
  intros Hstep. induction entities as [|e es IH]; intros state Hf; [exact Hf|].
  cbn. apply IH, Hstep, Hf.
Qed.

Lemma onCollectionChanged_filed complete added removed changed state :
  filedById state.1 ->
  filedById (onCollectionChanged complete added removed changed state).1.
Proof.
  intros Hf. unfold onCollectionChanged.
  apply foldl_filedById; [intros; apply filedById_onRemoved; assumption|].
  apply foldl_filedById.
  { intros s e Hs. unfold onChanged. destruct (complete e);
      [apply filedById_onAdded|apply filedById_onRemoved]; exact Hs. }
  apply foldl_filedById; [intros; apply filedById_onAdded; assumption|].
  exact Hf.
Qed.

Lemma foldl_keeps id (step : Visualizer.t * World.t CustomSensorVolume.t
                            -> Entity.t
                            -> Visualizer.t * World.t CustomSensorVolume.t)
    entities :
  (forall state entity h,
     primitiveOf id (step state entity).2 h -> primitiveOf id state.2 h) ->
  forall state h,
    primitiveOf id (foldl step state entities).2 h -> primitiveOf id state.2 h.
Proof.
  intros Hstep. induction entities as [|e es IH]; intros state h Hof;
    [exact Hof|].
  cbn in Hof. apply IH in Hof. apply Hstep in Hof. exact Hof.
Qed.

Lemma onAdded_keeps id complete state entity h :
  primitiveOf id (onAdded complete state entity).2 h -> primitiveOf id state.2 h.
Proof. rewrite (proj2 (onAdded_frame complete state entity)). auto. Qed.

Lemma onChanged_keeps id complete state entity h :
  primitiveOf id (onChanged complete state entity).2 h ->
  primitiveOf id state.2 h.
Proof.
  unfold onChanged. destruct (complete entity);
    [apply onAdded_keeps|apply onRemoved_keeps].
Qed.

(** A collection change makes no primitive for anyone. *)
Lemma onCollectionChanged_keeps id complete added removed changed state h :
  primitiveOf id (onCollectionChanged complete added removed changed state).2 h
  -> primitiveOf id state.2 h.
Proof.
  unfold onCollectionChanged. intros Hof.
  apply (foldl_keeps id onRemoved) in Hof; [|apply onRemoved_keeps].
  apply (foldl_keeps id (onChanged complete)) in Hof;
    [|intros; eapply onChanged_keeps; eassumption].
  apply (foldl_keeps id (onAdded complete)) in Hof;
    [|intros; eapply onAdded_keeps; eassumption].
  exact Hof.
Qed.

Lemma onChanged_spares id complete state entity :
  Entity.id entity <> id ->
  (~ tracked id state.1 -> ~ tracked id (onChanged complete state entity).1)
  /\ (Visualizer._hash state.1 !! id = None ->
      Visualizer._hash (onChanged complete state entity).1 !! id = None).
Proof.
  intros Hne. unfold onChanged. destruct (complete entity).
  - split.
    + intros Hn Ht. apply Hn. eapply onAdded_tracked; eassumption.
    + rewrite (proj1 (onAdded_frame complete state entity)). auto.
  - split.
    + intros Hn Ht. apply Hn. eapply onRemoved_tracked. exact Ht.
    + intros Hn. rewrite onRemoved_hash. apply lookup_delete_None. auto.
Qed.

(** A collection change that does not bring the entity with [id] leaves it
    untracked and without entry. *)
Lemma onCollectionChanged_spares id complete added removed changed state :
  Forall (fun entity => Entity.id entity <> id) added ->
  Forall (fun entity => Entity.id entity <> id) changed ->
  ~ tracked id state.1 -> Visualizer._hash state.1 !! id = None ->
  let state' := onCollectionChanged complete added removed changed state in
  ~ tracked id state'.1 /\ Visualizer._hash state'.1 !! id = None.
Proof.
  intros Hadded Hchanged Hnt Hne. cbn zeta. unfold onCollectionChanged.
  assert (Hadd : forall entities,
             Forall (fun entity => Entity.id entity <> id) entities ->
             forall s : Visualizer.t * World.t CustomSensorVolume.t,
               ~ tracked id s.1 /\ Visualizer._hash s.1 !! id = None ->
               ~ tracked id (foldl (onAdded complete) s entities).1
               /\ Visualizer._hash (foldl (onAdded complete) s entities).1
                    !! id = None).
  { induction 1 as [|e es He _ IH]; intros s Hs; [exact Hs|].
    cbn. apply IH. destruct Hs as [Ht Hh]. split.
    - intros Ht'. apply Ht. eapply onAdded_tracked; eassumption.
    - rewrite (proj1 (onAdded_frame complete s e)). exact Hh. }
  assert (Hchg : forall entities,
             Forall (fun entity => Entity.id entity <> id) entities ->
             forall s : Visualizer.t * World.t CustomSensorVolume.t,
               ~ tracked id s.1 /\ Visualizer._hash s.1 !! id = None ->
               ~ tracked id (foldl (onChanged complete) s entities).1
               /\ Visualizer._hash (foldl (onChanged complete) s entities).1
                    !! id = None).
  { induction 1 as [|e es He _ IH]; intros s Hs; [exact Hs|].
    cbn. apply IH. destruct Hs as [Ht Hh].
    destruct (onChanged_spares id complete s e He) as [Ht' Hh']. auto. }
  destruct (Hchg (reverse changed)
              ltac:(apply Forall_reverse; exact Hchanged)
              (foldl (onAdded complete) state (reverse added))
              (Hadd (reverse added)
                 ltac:(apply Forall_reverse; exact Hadded) state
                 (conj Hnt Hne))) as [Ht Hh].
  split.
  - apply foldl_onRemoved_untracked. exact Ht.
  - apply foldl_onRemoved_no_entry. exact Hh.
Qed.

(** A run that does not bring the entity with [id] back: it stays untracked
    and without entry, and no primitive is made for it. *)
Lemma ConicSensorVisualizer_run_keeps id actions : forall state state',
  Forall (bringsNot id) actions ->
  filedById state.1 -> ~ tracked id state.1 ->
  Visualizer._hash state.1 !! id = None ->
  ConicSensorVisualizer_run actions state = Normal state' ->
  ~ tracked id state'.1
  /\ Visualizer._hash state'.1 !! id = None
  /\ forall h, primitiveOf id state'.2 h -> primitiveOf id state.2 h.
Proof.
  induction actions as [|action actions IH];
    intros state state' Hb Hf Ht Hh Hrun.
  - cbn in Hrun. injection Hrun as <-. auto.
  - apply Forall_cons in Hb as [Hb Hbs].
    destruct action as [added removed changed|time]; cbn in Hrun.
    + destruct Hb as [Hadded Hchanged].
      destruct (onCollectionChanged_spares id ConicSensorVisualizer_complete
                  added removed changed state Hadded Hchanged Ht Hh)
        as [Ht1 Hh1].
      destruct (IH _ _ Hbs
                  (onCollectionChanged_filed _ added removed changed state Hf)
                  Ht1 Hh1 Hrun) as (Ht2 & Hh2 & Ho2).
      split; [exact Ht2|]. split; [exact Hh2|].
      intros h Hof. apply Ho2 in Hof.
      eapply onCollectionChanged_keeps. exact Hof.
    + destruct (ConicSensorVisualizer_update time state) as [state1|] eqn:Hu;
        [|discriminate].
      cbn in Hrun.
      destruct (ConicSensorVisualizer_update_keeps id time state state1
                  Hf Ht Hu) as (He1 & Hh1 & Ho1).
      destruct (IH state1 state' Hbs) as (Ht2 & Hh2 & Ho2); try assumption.
      * unfold filedById. rewrite He1. exact Hf.
      * unfold tracked. rewrite He1. exact Ht.
      * rewrite Hh1. exact Hh.
      * split; [exact Ht2|]. split; [exact Hh2|]. auto.
Qed.
End ConicRuns.

(** C9.  (1) An entity reported added, then reported removed before any
    update runs: the two collection changes make no primitive, and after them
    the entity is not tracked and has no entry; through every later run that
    does not bring the entity back (updates at any times, collection changes
    that bring other entities) it stays so and no primitive is made for it:
    any primitive carrying its id was there before it was added.
    (2) An entity reported removed whose entry holds a live primitive: after
    the collection change the primitive is out of the scene's primitive
    collection, [destroy()] was called on it exactly once, the entry is
    deleted and the entity is not tracked. *)
Theorem removed_entity_is_retired :
  forall `{Cesium},
    (forall (state0 state3 : Visualizer.t * World.t CustomSensorVolume.t)
            (E : Entity.t)
            (added1 removed1 changed1 added2 removed2 changed2 : list Entity.t)
            (actions : list Action),
       filedById state0.1 ->
       E ∈ added1 -> E ∈ removed2 ->
       Forall (bringsNot (Entity.id E)) actions ->
       let state1 :=
         onCollectionChanged ConicSensorVisualizer_complete
           added1 removed1 changed1 state0 in
       let state2 :=
         onCollectionChanged ConicSensorVisualizer_complete
           added2 removed2 changed2 state1 in
       ConicSensorVisualizer_run actions state2 = Normal state3 ->
       World.nextObject state2.2 = World.nextObject state0.2
       /\ ~ tracked (Entity.id E) state2.1
       /\ Visualizer._hash state2.1 !! Entity.id E = None
       /\ ~ tracked (Entity.id E) state3.1
       /\ Visualizer._hash state3.1 !! Entity.id E = None
       /\ forall h, primitiveOf (Entity.id E) state3.2 h ->
                    primitiveOf (Entity.id E) state0.2 h)
    /\ (forall (P : Type) `{!SensorPrimitive P} (complete : Entity.t -> bool)
               (state : Visualizer.t * World.t P) (E : Entity.t)
               (added removed changed : list Entity.t)
               (data : Data.t) (primitive : P),
          E ∈ removed ->
          Visualizer._hash state.1 !! Entity.id E = Some data ->
          primitivesDistinct (Visualizer._hash state.1) ->
          World.objects state.2 !! Data.primitive data = Some primitive ->
          Primitive_isDestroyed primitive = false ->
          let state' :=
            onCollectionChanged complete added removed changed state in
          (Data.primitive data ∉ World.primitives state'.2)
          /\ destroyCount (Data.primitive data) state'.2
             = S (destroyCount (Data.primitive data) state.2)
          /\ Visualizer._hash state'.1 !! Entity.id E = None
          /\ ~ tracked (Entity.id E) state'.1).
Proof.
  intros H. split.
  - intros state0 state3 E added1 removed1 changed1 added2 removed2 changed2
      actions Hfiled Hadded Hremoved Hbrings state1 state2 Hrun.
    assert (Hf1 : filedById state1.1)
      by (apply onCollectionChanged_filed; exact Hfiled).
    assert (Hf2 : filedById state2.1)
      by (apply onCollectionChanged_filed; exact Hf1).
    destruct (onCollectionChanged_removes ConicSensorVisualizer_complete
                added2 removed2 changed2 state1 E Hremoved) as [Ht2 Hh2].
    fold state2 in Ht2, Hh2.
    destruct (ConicSensorVisualizer_run_keeps (Entity.id E) actions state2
                state3 Hbrings Hf2 Ht2 Hh2 Hrun) as (Ht3 & Hh3 & Ho3).
    split.
    { unfold state2, state1. rewrite !onCollectionChanged_nextObject.
      reflexivity. }
    split; [exact Ht2|]. split; [exact Hh2|]. split; [exact Ht3|].
    split; [exact Hh3|].
    intros h Hof. apply Ho3 in Hof.
    apply onCollectionChanged_keeps in Hof.
    apply onCollectionChanged_keeps in Hof. exact Hof.
  - intros P HP complete state E added removed changed data primitive
      Hremoved Hdata Hdistinct Hobj Hlive state'.
    assert (Hstart : awaiting (Entity.id E) (Data.primitive data)
                       (destroyCount (Data.primitive data) state.2) state).
    { exists data, primitive. auto 10. }
    assert (Hend : retired (Entity.id E) (Data.primitive data)
                     (destroyCount (Data.primitive data) state.2) state').
    { unfold state', onCollectionChanged.
      apply foldl_onRemoved_retires.
      - exists E. split; [apply elem_of_reverse; exact Hremoved|reflexivity].
      - apply foldl_onChanged_progress, foldl_onAdded_progress. left.
        exact Hstart. }
    destruct Hend as (Hnone & _ & Hout & Hcount).
    split; [exact Hout|]. split; [exact Hcount|]. split; [exact Hnone|].
    apply (onCollectionChanged_removes complete added removed changed state E
             Hremoved).
Qed.

Lemma removed_entity_is_retired_witness :
  World.nextObject
    (onCollectionChanged (H := example_Cesium) ConicSensorVisualizer_complete
       [] [exampleEntity] []
       (onCollectionChanged ConicSensorVisualizer_complete
          [exampleEntity] [] [] (Visualizer.new, emptyWorld))).2
  = World.nextObject emptyWorld
  /\ destroyCount 0
       (onCollectionChanged (H := example_Cesium) ConicSensorVisualizer_complete
          [] [exampleEntity] [] exampleTracking).2
     = 1.
Proof.
  destruct (removed_entity_is_retired (H := example_Cesium))
    as [Hnever Hretire].
  split.
  - refine (proj1 (Hnever (Visualizer.new, emptyWorld) _ exampleEntity
                     [exampleEntity] [] [] [] [exampleEntity] [] []
                     _ _ _ _ eq_refl)).
    + constructor.
    + apply list_elem_of_singleton. reflexivity.
    + apply list_elem_of_singleton. reflexivity.
    + constructor.
  - refine (proj1 (proj2 (Hretire _ _ ConicSensorVisualizer_complete
                            exampleTracking exampleEntity
                            [] [exampleEntity] [] exampleData
                            CustomSensorVolume.new _ _ _ _ _))).
    + apply list_elem_of_singleton. reflexivity.
    + apply lookup_singleton_eq.
    + intros id1 id2 data1 data2 H1 H2 _.
      cbn [exampleTracking fst Visualizer._hash] in H1, H2.
      apply lookup_singleton_Some in H1 as [<- _].
      apply lookup_singleton_Some in H2 as [<- _]. reflexivity.
    + apply lookup_singleton_eq.
    + reflexivity.
Defined.

(** ** Unchanged values and the mesh *)

Section CleanFrames.
Context `{Cesium}.
Import CustomSensorVolume.

(** A frame update that finds the directions clean creates no vertex array
    and destroys none, whatever else it does, and returns them clean. *)
Lemma update_clean this frameState this' frameState' :
  _directionsDirty this = false ->
  update this frameState = Normal (this', frameState') ->
  sameVertexArrays (FrameState.context frameState)
                   (FrameState.context frameState')
  /\ _directions this' = _directions this
  /\ _directionsDirty this' = false.
Proof.
  intros Hclean. unfold update.
  cbn [show radius lateralSurfaceMaterial set__mode _mode].
  destruct (negb (show this) || _).
  { intros [= <- <-]. split; [apply sameVertexArrays_refl|].
    split; [reflexivity|exact Hclean]. }
  destruct (lessThanZero (radius this)); [discriminate|].
  destruct (lateralSurfaceMaterial this) as [material|]; [|discriminate].
  cbn zeta.
  pose proof (createRenderStates_sameGeometry (Material_isTranslucent material)
                (set__mode (FrameState.mode frameState) this))
    as (_ & _ & _ & _ & Hd0 & Hdd0 & _).
  cbn [set__mode _directions _directionsDirty] in Hd0, Hdd0.
  set (this0 := createRenderStates _ _) in *.
  rewrite (recreateVertexArray_clean this0) by congruence.
  cbn [bind].
  set (frameState1 := FrameState.set_context _ frameState).
  destruct (negb _).
  { intros [= <- <-]. split; [apply sameVertexArrays_refl|].
    split; congruence. }
  pose proof (emitCommands_spec (Material_isTranslucent material)
                (_directionsDirty this0) material this0 frameState1)
    as ((_ & _ & _ & _ & Hd2 & Hdd2 & _) & Hc2 & _).
  destruct (emitCommands _ _ material this0 frameState1)
    as [this2 frameState2].
  cbn [fst snd] in *. intros [= <- <-].
  split; [exact Hc2|]. split; congruence.
Qed.
End CleanFrames.

Section Ticks.
Context `{Cesium}.

Lemma Reqb_refl (a : R) : Reqb a a = true.
Proof. apply Reqb_true. reflexivity. Qed.

Lemma differs_recorded (value : R) : differs value (Some value) = false.
Proof. unfold differs. rewrite Reqb_refl. reflexivity. Qed.

Lemma differs_false (value : R) (field : option R) :
  differs value field = false -> field = Some value.
Proof.
  unfold differs. destruct field as [field|]; [|discriminate].
  destruct (Reqb value field) eqn:Heq; [|discriminate].
  apply Reqb_true in Heq. congruence.
Qed.

(** The pose leaves the directions, their flag and the angles on record. *)
Lemma applyPose_spec position orientation data primitive :
  let result := applyPose position orientation data primitive in
  Data.minimumClockAngle result.1 = Data.minimumClockAngle data
  /\ Data.maximumClockAngle result.1 = Data.maximumClockAngle data
  /\ Data.innerHalfAngle result.1 = Data.innerHalfAngle data
  /\ Data.outerHalfAngle result.1 = Data.outerHalfAngle data
  /\ CustomSensorVolume._directions result.2
     = CustomSensorVolume._directions primitive
  /\ CustomSensorVolume._directionsDirty result.2
     = CustomSensorVolume._directionsDirty primitive
  /\ CustomSensorVolume._va result.2 = CustomSensorVolume._va primitive.
Proof.
  unfold applyPose. destruct (_ || _); cbn; auto 10.
Qed.

(** The appearance: radius and material as resolved, the directions and
    their flag as found. *)
Lemma applyAppearance_spec time radius lateralSurfaceMaterial
    intersectionColor intersectionWidth primitive :
  let primitive' :=
    applyAppearance time radius lateralSurfaceMaterial intersectionColor
      intersectionWidth primitive in
  CustomSensorVolume.show primitive' = CustomSensorVolume.show primitive
  /\ CustomSensorVolume.radius primitive'
     = Property_getValueOrDefault radius time Infinity
  /\ CustomSensorVolume.lateralSurfaceMaterial primitive'
     = Some (MaterialProperty_getValue time lateralSurfaceMaterial
               (CustomSensorVolume.lateralSurfaceMaterial primitive))
  /\ CustomSensorVolume._directions primitive'
     = CustomSensorVolume._directions primitive
  /\ CustomSensorVolume._directionsDirty primitive'
     = CustomSensorVolume._directionsDirty primitive
  /\ CustomSensorVolume._va primitive' = CustomSensorVolume._va primitive.
Proof. cbn. auto 10. Qed.

(** A conic tick leaves the angles it resolved on record. *)
Lemma ConicSensorVisualizer_apply_records time conicSensorGraphics position
    orientation data primitive :
  recorded (conicAngles time conicSensorGraphics)
    (ConicSensorVisualizer_apply time conicSensorGraphics position orientation
       data primitive).1.
Proof.
  unfold ConicSensorVisualizer_apply, recorded, conicAngles.
  pose proof (applyPose_spec position orientation data primitive)
    as (H1 & H2 & H3 & H4 & _).
  destruct (applyPose position orientation data primitive) as [data1 p1].
  cbn [fst snd] in *.
  destruct (differs _ (Data.minimumClockAngle data1)) eqn:Hmin;
    [cbn; auto|].
  destruct (differs _ (Data.maximumClockAngle data1)) eqn:Hmax;
    [cbn; auto|].
  destruct (differs _ (Data.innerHalfAngle data1)) eqn:Hinner;
    [cbn; auto|].
  destruct (differs _ (Data.outerHalfAngle data1)) eqn:Houter;
    [cbn; auto|].
  cbn [orb fst snd].
  apply differs_false in Hmin, Hmax, Hinner, Houter. auto.
Qed.

(** A conic tick that finds its angles on record computes no directions. *)
Lemma ConicSensorVisualizer_apply_recorded time conicSensorGraphics position
    orientation data primitive :
  recorded (conicAngles time conicSensorGraphics) data ->
  let primitive' :=
    (ConicSensorVisualizer_apply time conicSensorGraphics position orientation
       data primitive).2 in
  CustomSensorVolume._directions primitive'
  = CustomSensorVolume._directions primitive
  /\ CustomSensorVolume._directionsDirty primitive'
     = CustomSensorVolume._directionsDirty primitive.
Proof.
  intros (Hmin & Hmax & Hinner & Houter).
  unfold ConicSensorVisualizer_apply, conicAngles in *.
  cbn [fst snd] in Hmin, Hmax, Hinner, Houter.
  pose proof (applyPose_spec position orientation data primitive)
    as (H1 & H2 & H3 & H4 & Hd & Hdd & _).
  destruct (applyPose position orientation data primitive) as [data1 p1].
  cbn [fst snd] in *.
  rewrite H1, H2, H3, H4, Hmin, Hmax, Hinner, Houter.
  rewrite !differs_recorded. cbn [orb fst snd].
  split; [exact Hd|exact Hdd].
Qed.
End Ticks.

Section RectangularTicks.
Context `{Cesium}.
Import RectangularPyramidSensorVolume.

Lemma set_xHalfAngle_held (this : t) :
  (_xHalfAngle this <= CesiumMath.PI_OVER_TWO)%R ->
  set_xHalfAngle (_xHalfAngle this) this = Normal this.
Proof.
  intros Hle. unfold set_xHalfAngle.
  rewrite (proj2 (Rltb_false _ _) Hle), Reqb_refl. reflexivity.
Qed.

Lemma set_yHalfAngle_held (this : t) :
  (_yHalfAngle this <= CesiumMath.PI_OVER_TWO)%R ->
  set_yHalfAngle (_yHalfAngle this) this = Normal this.
Proof.
  intros Hle. unfold set_yHalfAngle.
  rewrite (proj2 (Rltb_false _ _) Hle), Reqb_refl. reflexivity.
Qed.

Lemma set_xHalfAngle_Normal value (this this' : t) :
  set_xHalfAngle value this = Normal this' ->
  _xHalfAngle this' = value /\ _yHalfAngle this' = _yHalfAngle this
  /\ (value <= CesiumMath.PI_OVER_TWO)%R.
Proof.
  unfold set_xHalfAngle.
  destruct (Rltb CesiumMath.PI_OVER_TWO value) eqn:Hlt; [discriminate|].
  apply Rltb_false in Hlt.
  destruct (Reqb (_xHalfAngle this) value) eqn:Heq; cbn [negb].
  - apply Reqb_true in Heq. intros [= <-]. auto.
  - intros [= <-]. cbn. auto.
Qed.

Lemma set_yHalfAngle_Normal value (this this' : t) :
  set_yHalfAngle value this = Normal this' ->
  _yHalfAngle this' = value /\ _xHalfAngle this' = _xHalfAngle this
  /\ (value <= CesiumMath.PI_OVER_TWO)%R.
Proof.
  unfold set_yHalfAngle.
  destruct (Rltb CesiumMath.PI_OVER_TWO value) eqn:Hlt; [discriminate|].
  apply Rltb_false in Hlt.
  destruct (Reqb (_yHalfAngle this) value) eqn:Heq; cbn [negb].
  - apply Reqb_true in Heq. intros [= <-]. auto.
  - intros [= <-]. cbn. auto.
Qed.

(** A rectangular tick that returns leaves the half angles it resolved on the
    primitive, both at most 90 degrees. *)
Lemma RectangularSensorVisualizer_apply_records time rectangularSensorGraphics
    position orientation data primitive data' primitive' :
  RectangularSensorVisualizer_apply time rectangularSensorGraphics position
    orientation data primitive = Normal (data', primitive') ->
  let angles := rectangularAngles time rectangularSensorGraphics in
  _xHalfAngle primitive' = angles.1 /\ _yHalfAngle primitive' = angles.2
  /\ (angles.1 <= CesiumMath.PI_OVER_TWO)%R
  /\ (angles.2 <= CesiumMath.PI_OVER_TWO)%R.
Proof.
  unfold RectangularSensorVisualizer_apply, rectangularAngles.
  destruct (applyPose position orientation data (_customSensor primitive))
    as [data1 c1].
  cbn zeta.
  destruct (set_xHalfAngle _ _) as [r1|] eqn:Hx; [|discriminate].
  cbn [bind].
  destruct (set_yHalfAngle _ r1) as [r2|] eqn:Hy; [|discriminate].
  cbn [bind]. intros [= <- <-].
  apply set_xHalfAngle_Normal in Hx as (Hx1 & _ & Hx3).
  apply set_yHalfAngle_Normal in Hy as (Hy1 & Hy2 & Hy3).
  cbn [fst snd _xHalfAngle _yHalfAngle set__customSensor].
  rewrite Hy1, Hy2, Hx1. auto.
Qed.

(** A rectangular tick that finds its half angles on the primitive returns,
    and computes no directions. *)
Lemma RectangularSensorVisualizer_apply_recorded time
    rectangularSensorGraphics position orientation data primitive :
  let angles := rectangularAngles time rectangularSensorGraphics in
  _xHalfAngle primitive = angles.1 -> _yHalfAngle primitive = angles.2 ->
  (angles.1 <= CesiumMath.PI_OVER_TWO)%R ->
  (angles.2 <= CesiumMath.PI_OVER_TWO)%R ->
  exists data' primitive',
    RectangularSensorVisualizer_apply time rectangularSensorGraphics position
      orientation data primitive = Normal (data', primitive')
    /\ CustomSensorVolume._directions (_customSensor primitive')
       = CustomSensorVolume._directions (_customSensor primitive)
    /\ CustomSensorVolume._directionsDirty (_customSensor primitive')
       = CustomSensorVolume._directionsDirty (_customSensor primitive).
Proof.
  unfold rectangularAngles. cbn [fst snd]. intros Hx Hy Hxle Hyle.
  unfold RectangularSensorVisualizer_apply.
  pose proof (applyPose_spec position orientation data
                (_customSensor primitive)) as (_ & _ & _ & _ & Hd & Hdd & _).
  destruct (applyPose position orientation data (_customSensor primitive))
    as [data1 c1].
  cbn [fst snd] in Hd, Hdd. cbn zeta.
  set (r1 := set__customSensor _ primitive).
  rewrite <- Hx. change (_xHalfAngle primitive) with (_xHalfAngle r1).
  rewrite set_xHalfAngle_held
    by (change (_xHalfAngle r1) with (_xHalfAngle primitive);
        rewrite Hx; exact Hxle).
  cbn [bind].
  rewrite <- Hy. change (_yHalfAngle primitive) with (_yHalfAngle r1).
  rewrite set_yHalfAngle_held
    by (change (_yHalfAngle r1) with (_yHalfAngle primitive);
        rewrite Hy; exact Hyle).
  cbn [bind]. eexists _, _. split; [reflexivity|].
  cbn. split; [exact Hd|exact Hdd].
Qed.
End RectangularTicks.

Section TickAppearance.
Context `{Cesium}.

(** What a conic tick leaves on the primitive besides the directions. *)
Lemma ConicSensorVisualizer_apply_appearance time conicSensorGraphics position
    orientation data primitive :
  let primitive' :=
    (ConicSensorVisualizer_apply time conicSensorGraphics position orientation
       data primitive).2 in
  CustomSensorVolume.show primitive' = true
  /\ CustomSensorVolume.radius primitive'
     = Property_getValueOrDefault
         (ConicSensorGraphics._radius conicSensorGraphics) time Infinity
  /\ CustomSensorVolume.lateralSurfaceMaterial primitive'
     = Some (MaterialProperty_getValue time
               (ConicSensorGraphics._lateralSurfaceMaterial
                  conicSensorGraphics)
               (CustomSensorVolume.lateralSurfaceMaterial primitive))
  /\ CustomSensorVolume._va primitive' = CustomSensorVolume._va primitive.
Proof.
  unfold ConicSensorVisualizer_apply, applyPose.
  destruct (negb (Cartesian3_equals _ _) || _); cbn [fst snd];
    destruct (differs _ _ || _ || _ || _); cbn [fst snd];
    repeat split.
Qed.

(** What a custom pattern tick leaves on the primitive: the directions it was
    handed, marked dirty, whatever the primitive held. *)
Lemma CustomPatternSensorVisualizer_apply_spec time
    customPatternSensorGraphics position orientation directions data
    primitive :
  let primitive' :=
    (CustomPatternSensorVisualizer_apply time customPatternSensorGraphics
       position orientation directions data primitive).2 in
  CustomSensorVolume.show primitive' = true
  /\ CustomSensorVolume.radius primitive'
     = Property_getValueOrDefault
         (CustomPatternSensorGraphics._radius customPatternSensorGraphics)
         time Infinity
  /\ CustomSensorVolume.lateralSurfaceMaterial primitive'
     = Some (MaterialProperty_getValue time
               (CustomPatternSensorGraphics._lateralSurfaceMaterial
                  customPatternSensorGraphics)
               (CustomSensorVolume.lateralSurfaceMaterial primitive))
  /\ CustomSensorVolume._directions primitive' = directions
  /\ CustomSensorVolume._directionsDirty primitive' = true
  /\ CustomSensorVolume._va primitive' = CustomSensorVolume._va primitive.
Proof.
  unfold CustomPatternSensorVisualizer_apply, applyPose.
  destruct (negb (Cartesian3_equals _ _) || _); cbn [fst snd];
    repeat split.
Qed.
End TickAppearance.

Section UnchangedValues.
Context `{Cesium}.

(** X25.  Values that have not changed leave the mesh alone.  Assigning a
    plain parameter of the primitive the value it holds leaves the primitive
    as it is; so do the half-angle setters of the rectangular sensor for a
    held angle of at most 90 degrees.  The [directions] setter marks the
    directions dirty on every assignment, so it is the ticks that compare:
    a conic tick that resolves the four angles of the tick before it leaves
    the directions and their flag as it finds them on the primitive, and so
    does a rectangular tick that resolves the two half angles of the tick
    before it; the frame update after such a tick, when it finds the flag
    clear, creates no vertex array. *)
Theorem unchanged_values_leave_the_mesh :
  (forall p : CustomSensorVolume.t,
     CustomSensorVolume.set_show (CustomSensorVolume.show p) p = p
     /\ CustomSensorVolume.set_showIntersection
          (CustomSensorVolume.showIntersection p) p = p
     /\ CustomSensorVolume.set_showThroughEllipsoid
          (CustomSensorVolume.showThroughEllipsoid p) p = p
     /\ CustomSensorVolume.set_modelMatrix
          (CustomSensorVolume.modelMatrix p) p = p
     /\ CustomSensorVolume.set_radius (CustomSensorVolume.radius p) p = p
     /\ CustomSensorVolume.set_lateralSurfaceMaterial
          (CustomSensorVolume.lateralSurfaceMaterial p) p = p
     /\ CustomSensorVolume.set_intersectionColor
          (CustomSensorVolume.intersectionColor p) p = p
     /\ CustomSensorVolume.set_intersectionWidth
          (CustomSensorVolume.intersectionWidth p) p = p
     /\ CustomSensorVolume.set_id (CustomSensorVolume.id p) p = p)
  /\ (forall (r : RectangularPyramidSensorVolume.t),
        (RectangularPyramidSensorVolume._xHalfAngle r
         <= CesiumMath.PI_OVER_TWO)%R ->
        (RectangularPyramidSensorVolume._yHalfAngle r
         <= CesiumMath.PI_OVER_TWO)%R ->
        RectangularPyramidSensorVolume.set_xHalfAngle
          (RectangularPyramidSensorVolume._xHalfAngle r) r = Normal r
        /\ RectangularPyramidSensorVolume.set_yHalfAngle
             (RectangularPyramidSensorVolume._yHalfAngle r) r = Normal r)
  /\ (forall (p : CustomSensorVolume.t) (value : list (Spherical R)),
        CustomSensorVolume._directionsDirty
          (CustomSensorVolume.set_directions value p) = true)
  /\ (forall (time1 time2 : JulianDate)
             (conicSensorGraphics : ConicSensorGraphics.t)
             (position1 position2 : Cartesian3)
             (orientation1 orientation2 : Quaternion)
             (data0 : Data.t) (p0 p : CustomSensorVolume.t),
        conicAngles time2 conicSensorGraphics
        = conicAngles time1 conicSensorGraphics ->
        let data1 :=
          (ConicSensorVisualizer_apply time1 conicSensorGraphics position1
             orientation1 data0 p0).1 in
        let p2 :=
          (ConicSensorVisualizer_apply time2 conicSensorGraphics position2
             orientation2 data1 p).2 in
        CustomSensorVolume._directions p2 = CustomSensorVolume._directions p
        /\ CustomSensorVolume._directionsDirty p2
           = CustomSensorVolume._directionsDirty p
        /\ forall (frameState frameState' : FrameState.t)
                  (this' : CustomSensorVolume.t),
             CustomSensorVolume._directionsDirty p = false ->
             CustomSensorVolume.update p2 frameState
             = Normal (this', frameState') ->
             vertexArraysCreated (FrameState.context frameState')
             = vertexArraysCreated (FrameState.context frameState))
  /\ (forall (time1 time2 : JulianDate)
             (rectangularSensorGraphics : RectangularSensorGraphics.t)
             (position1 position2 : Cartesian3)
             (orientation1 orientation2 : Quaternion)
             (data0 data1 : Data.t)
             (r0 r1 : RectangularPyramidSensorVolume.t)
             (customSensor : CustomSensorVolume.t),
        rectangularAngles time2 rectangularSensorGraphics
        = rectangularAngles time1 rectangularSensorGraphics ->
        RectangularSensorVisualizer_apply time1 rectangularSensorGraphics
          position1 orientation1 data0 r0 = Normal (data1, r1) ->
        exists (data2 : Data.t) (r2 : RectangularPyramidSensorVolume.t),
          RectangularSensorVisualizer_apply time2 rectangularSensorGraphics
            position2 orientation2 data1
            (RectangularPyramidSensorVolume.set__customSensor customSensor r1)
          = Normal (data2, r2)
          /\ CustomSensorVolume._directions
               (RectangularPyramidSensorVolume._customSensor r2)
             = CustomSensorVolume._directions customSensor
          /\ CustomSensorVolume._directionsDirty
               (RectangularPyramidSensorVolume._customSensor r2)
             = CustomSensorVolume._directionsDirty customSensor
          /\ forall (frameState frameState' : FrameState.t)
                    (this' : RectangularPyramidSensorVolume.t),
               CustomSensorVolume._directionsDirty customSensor = false ->
               RectangularPyramidSensorVolume.update r2 frameState
               = Normal (this', frameState') ->
               vertexArraysCreated (FrameState.context frameState')
               = vertexArraysCreated (FrameState.context frameState)).
Proof.
  split; [intros []; repeat split|].
  split.
  { intros r Hx Hy. split;
      [apply set_xHalfAngle_held; exact Hx
      |apply set_yHalfAngle_held; exact Hy]. }
  split; [reflexivity|].
  split.
  - intros time1 time2 g position1 position2 orientation1 orientation2
      data0 p0 p Hangles data1 p2.
    pose proof (ConicSensorVisualizer_apply_records time1 g position1
                  orientation1 data0 p0) as Hrecorded.
    fold data1 in Hrecorded. rewrite <- Hangles in Hrecorded.
    destruct (ConicSensorVisualizer_apply_recorded time2 g position2
                orientation2 data1 p Hrecorded) as [Hd Hdd].
    fold p2 in Hd, Hdd.
    split; [exact Hd|]. split; [exact Hdd|].
    intros frameState frameState' this' Hclean Hupdate.
    apply (update_clean p2 frameState this' frameState');
      [congruence|exact Hupdate].
  - intros time1 time2 g position1 position2 orientation1 orientation2
      data0 data1 r0 r1 customSensor Hangles Htick.
    destruct (RectangularSensorVisualizer_apply_records _ _ _ _ _ _ _ _
                Htick) as (Hx & Hy & Hxle & Hyle).
    rewrite <- Hangles in Hx, Hy, Hxle, Hyle.
    destruct (RectangularSensorVisualizer_apply_recorded time2 g position2
                orientation2 data1
                (RectangularPyramidSensorVolume.set__customSensor
                   customSensor r1) Hx Hy Hxle Hyle)
      as (data2 & r2 & Htick2 & Hd & Hdd).
    cbn [RectangularPyramidSensorVolume.set__customSensor
         RectangularPyramidSensorVolume._customSensor] in Hd, Hdd.
    exists data2, r2. split; [exact Htick2|].
    split; [exact Hd|]. split; [exact Hdd|].
    intros frameState frameState' this' Hclean.
    unfold RectangularPyramidSensorVolume.update.
    destruct (CustomSensorVolume.update _ frameState)
      as [[c' frameState1]|] eqn:Hupdate; [|discriminate].
    intros [= <- <-].
    apply (update_clean (RectangularPyramidSensorVolume._customSensor r2)
             frameState c' frameState1);
      [congruence|exact Hupdate].
Qed.
End UnchangedValues.

Lemma unchanged_values_leave_the_mesh_witness :
  RectangularPyramidSensorVolume.set_xHalfAngle
    (RectangularPyramidSensorVolume._xHalfAngle exampleRectangular)
    exampleRectangular
  = Normal exampleRectangular
  /\ (exists (this' : CustomSensorVolume.t) (frameState' : FrameState.t),
        let data1 :=
          (ConicSensorVisualizer_apply exampleTime exampleConicGraphics
             Cartesian3_ZERO exampleOrientation exampleData
             CustomSensorVolume.new).1 in
        let p2 :=
          (ConicSensorVisualizer_apply laterTime exampleConicGraphics
             Cartesian3_ZERO exampleOrientation data1 cleanPrimitive).2 in
        CustomSensorVolume.update p2 (exampleFrame freshContext)
        = Normal (this', frameState')
        /\ vertexArraysCreated (FrameState.context frameState')
           = vertexArraysCreated freshContext)
  /\ (exists (data1 data2 : Data.t)
             (r1 r2 : RectangularPyramidSensorVolume.t),
        RectangularSensorVisualizer_apply exampleTime
          exampleRectangularGraphics Cartesian3_ZERO exampleOrientation
          exampleData exampleRectangular
        = Normal (data1, r1)
        /\ RectangularSensorVisualizer_apply laterTime
             exampleRectangularGraphics Cartesian3_ZERO exampleOrientation
             data1
             (RectangularPyramidSensorVolume.set__customSensor
                cleanPrimitive r1)
           = Normal (data2, r2)
        /\ CustomSensorVolume._directionsDirty
             (RectangularPyramidSensorVolume._customSensor r2) = false).
Proof.
  destruct (unchanged_values_leave_the_mesh (H := example_Cesium))
    as (_ & Hhalf & _ & Hconic & Hrectangular).
  split.
  { apply (Hhalf exampleRectangular); apply Rle_refl. }
  split.
  - destruct (Hconic exampleTime laterTime exampleConicGraphics
                Cartesian3_ZERO Cartesian3_ZERO exampleOrientation
                exampleOrientation exampleData CustomSensorVolume.new
                cleanPrimitive eq_refl) as (_ & Hdirty & Hframe).
    destruct (ConicSensorVisualizer_apply_appearance (H := example_Cesium)
                laterTime exampleConicGraphics Cartesian3_ZERO
                exampleOrientation
                (ConicSensorVisualizer_apply exampleTime exampleConicGraphics
                   Cartesian3_ZERO exampleOrientation exampleData
                   CustomSensorVolume.new).1 cleanPrimitive)
      as (Hshow & Hradius & Hmaterial & Hva).
    destruct (update_keeps_mesh (H := example_Cesium) _
                (exampleFrame freshContext) _ Hshow eq_refl
                (eq_trans (f_equal lessThanZero Hradius) eq_refl)
                Hmaterial (or_introl Hdirty) Hva)
      as (this' & frameState' & Hupdate & _).
    exists this', frameState'. split; [exact Hupdate|].
    exact (Hframe _ _ _ eq_refl Hupdate).
  - destruct (RectangularSensorVisualizer_apply_recorded
                (H := example_Cesium) exampleTime exampleRectangularGraphics
                Cartesian3_ZERO exampleOrientation exampleData
                exampleRectangular eq_refl eq_refl
                (Rle_refl _) (Rle_refl _))
      as (data1 & r1 & Htick1 & _).
    destruct (Hrectangular exampleTime laterTime exampleRectangularGraphics
                Cartesian3_ZERO Cartesian3_ZERO exampleOrientation
                exampleOrientation exampleData data1
                exampleRectangular r1 cleanPrimitive
                eq_refl Htick1)
      as (data2 & r2 & Htick2 & _ & Hdirty & _).
    exists data1, data2, r1, r2.
    split; [exact Htick1|]. split; [exact Htick2|exact Hdirty].
Defined.

(** C3.  The same snapshot on two consecutive ticks of the custom pattern
    visualizer rebuilds the mesh.  The first tick hands a new primitive three
    directions and the frame update builds the mesh, leaving the directions
    clean.  Assigning the primitive the directions it holds marks them dirty;
    the second tick, which resolves the same directions, assigns them without
    comparing, and the frame update after it creates a vertex array again. *)
Lemma unchanged_directions_are_marked_dirty_and_rebuilt :
  exists (va : VertexArray) (data1 data2 : Data.t)
         (tick1 this1 tick2 this2 : CustomSensorVolume.t (H := example_Cesium))
         (frame1 frame2 : FrameState.t),
    CustomPatternSensorVisualizer_apply exampleTime
      exampleCustomPatternGraphics Cartesian3_ZERO exampleOrientation
      exampleDirections exampleData CustomSensorVolume.new
    = (data1, tick1)
    /\ CustomSensorVolume.update tick1 (exampleFrame freshContext)
       = Normal (this1, frame1)
    /\ CustomSensorVolume.directions this1 = exampleDirections
    /\ CustomSensorVolume._directionsDirty this1 = false
    /\ CustomSensorVolume._directionsDirty
         (CustomSensorVolume.set_directions
            (CustomSensorVolume.directions this1) this1) = true
    /\ CustomPatternSensorVisualizer_apply exampleTime
         exampleCustomPatternGraphics Cartesian3_ZERO exampleOrientation
         exampleDirections data1 this1
       = (data2, tick2)
    /\ CustomSensorVolume._directionsDirty tick2 = true
    /\ CustomSensorVolume.update tick2
         (exampleFrame (FrameState.context frame1))
       = Normal (this2, frame2)
    /\ vertexArraysCreated (FrameState.context frame2)
       = vertexArraysCreated (FrameState.context frame1)
         ++ [VertexArray_handle va].
Proof.
  pose proof (CustomPatternSensorVisualizer_apply_spec (H := example_Cesium)
                exampleTime exampleCustomPatternGraphics Cartesian3_ZERO
                exampleOrientation exampleDirections exampleData
                CustomSensorVolume.new)
    as (Hs1 & Hr1 & Hm1 & Hd1 & Hdd1 & Hva1).
  destruct (CustomPatternSensorVisualizer_apply exampleTime
              exampleCustomPatternGraphics Cartesian3_ZERO exampleOrientation
              exampleDirections exampleData CustomSensorVolume.new)
    as [data1 tick1] eqn:Htick1.
  cbn [snd] in Hs1, Hr1, Hm1, Hd1, Hdd1, Hva1.
  destruct (update_rebuilds (H := example_Cesium) tick1
              (exampleFrame freshContext) _ Hs1 eq_refl
              (eq_trans (f_equal lessThanZero Hr1) eq_refl) Hm1 Hdd1)
    as (va1 & this1 & frame1 & Hu1 & _ & _ & _ & _ & _ & _ & _ & Hm1' & Hd1'
        & Hdd1' & Hva1'); [rewrite Hd1; simpl; lia|exact Hva1|].
  pose proof (CustomPatternSensorVisualizer_apply_spec (H := example_Cesium)
                exampleTime exampleCustomPatternGraphics Cartesian3_ZERO
                exampleOrientation exampleDirections data1 this1)
    as (Hs2 & Hr2 & Hm2 & Hd2 & Hdd2 & Hva2).
  destruct (CustomPatternSensorVisualizer_apply exampleTime
              exampleCustomPatternGraphics Cartesian3_ZERO exampleOrientation
              exampleDirections data1 this1)
    as [data2 tick2] eqn:Htick2.
  cbn [snd] in Hs2, Hr2, Hm2, Hd2, Hdd2, Hva2.
  destruct (update_rebuilds (H := example_Cesium) tick2
              (exampleFrame (FrameState.context frame1)) _ Hs2 eq_refl
              (eq_trans (f_equal lessThanZero Hr2) eq_refl) Hm2 Hdd2)
    as (va2 & this2 & frame2 & Hu2 & _ & _ & _ & Hc2 & _);
    [rewrite Hd2; simpl; lia|congruence|].
  exists va2, data1, data2, tick1, this1, tick2, this2, frame1, frame2.
  split; [reflexivity|]. split; [exact Hu1|].
  split; [rewrite <- Hd1; exact Hd1'|]. split; [exact Hdd1'|].
  split; [reflexivity|]. split; [exact Htick2|]. split; [exact Hdd2|].
  split; [exact Hu2|exact Hc2].
Qed.

(** ** More on the boundary sampler *)

Section SamplerHeldArray.
Context {num : Type} `{Number num}.
Implicit Types (directions : list (Spherical num)) (i fuel : nat).

(** Two arrays that agree on the slots written so far. *)
Lemma assignSpherical_agree i directions1 directions2 clock cone :
  agree i directions1 directions2 ->
  agree (S i) (assignSpherical i directions1 clock cone)
              (assignSpherical i directions2 clock cone).
Proof.
  intros (H1 & H2 & Htake). unfold agree.
  split; [apply assignSpherical_length; exact H1|].
  split; [apply assignSpherical_length; exact H2|].
  rewrite !assignSpherical_take by assumption. rewrite Htake. reflexivity.
Qed.

Lemma sweepUp_agree fuel : forall angleStep angle limit cone i
    directions1 directions2,
  agree i directions1 directions2 ->
  match sweepUp fuel angleStep angle limit cone i directions1,
        sweepUp fuel angleStep angle limit cone i directions2 with
  | Some (i1, d1), Some (i2, d2) => i1 = i2 /\ agree i1 d1 d2
  | None, None => True
  | _, _ => False
  end.
Proof.
  induction fuel as [|fuel IH]; intros angleStep angle limit cone i d1 d2 Hd;
    simpl; destruct (lt angle limit); auto.
  apply IH. apply assignSpherical_agree. exact Hd.
Qed.

Lemma sweepDown_agree fuel : forall angleStep angle limit cone i
    directions1 directions2,
  agree i directions1 directions2 ->
  match sweepDown fuel angleStep angle limit cone i directions1,
        sweepDown fuel angleStep angle limit cone i directions2 with
  | Some (i1, d1), Some (i2, d2) => i1 = i2 /\ agree i1 d1 d2
  | None, None => True
  | _, _ => False
  end.
Proof.
  induction fuel as [|fuel IH]; intros angleStep angle limit cone i d1 d2 Hd;
    simpl; destruct (lt limit angle); auto.
  apply IH. apply assignSpherical_agree. exact Hd.
Qed.

Lemma agree_nil directions1 directions2 : agree 0 directions1 directions2.
Proof. unfold agree. rewrite !take_0. repeat split; lia. Qed.

(** X1.  [computeDirections] reuses the slots of the array the primitive
    holds, but what it assigns back does not depend on that array: neither on
    its entries nor on its length (longer or shorter than the new boundary).
    The loops also end, or run out of fuel, alike. *)
Theorem computeDirections_forgets_held_array :
  forall (fuel : nat) (directions1 directions2 : list (Spherical num))
         (minimumClockAngle maximumClockAngle innerHalfAngle
          outerHalfAngle : num),
    computeDirections fuel directions1 minimumClockAngle maximumClockAngle
                      innerHalfAngle outerHalfAngle
    = computeDirections fuel directions2 minimumClockAngle maximumClockAngle
                        innerHalfAngle outerHalfAngle.
Proof.
  intros fuel d1 d2 minimumClockAngle maximumClockAngle innerHalfAngle
    outerHalfAngle.
  unfold computeDirections.
  destruct (strict_eq minimumClockAngle (of_Z 0) && _).
  - pose proof (sweepUp_agree fuel (CesiumMath.toRadians (of_Z 2)) (of_Z 0)
                  CesiumMath.TWO_PI outerHalfAngle 0 d1 d2 (agree_nil d1 d2))
      as Hup.
    destruct (sweepUp fuel _ (of_Z 0) _ _ 0 d1) as [[i1 e1]|];
      destruct (sweepUp fuel _ (of_Z 0) _ _ 0 d2) as [[i2 e2]|];
      try contradiction; [|reflexivity].
    destruct Hup as (<- & _ & _ & Htake). rewrite Htake. reflexivity.
  - pose proof (sweepUp_agree fuel (CesiumMath.toRadians (of_Z 2))
                  minimumClockAngle maximumClockAngle outerHalfAngle 0 d1 d2
                  (agree_nil d1 d2)) as Hup.
    destruct (sweepUp fuel _ minimumClockAngle _ _ 0 d1) as [[i1 e1]|];
      destruct (sweepUp fuel _ minimumClockAngle _ _ 0 d2) as [[i2 e2]|];
      try contradiction; [|reflexivity].
    destruct Hup as (<- & Hup).
    pose proof (assignSpherical_agree i1 e1 e2 maximumClockAngle
                  outerHalfAngle Hup) as Hmax.
    destruct (to_boolean innerHalfAngle).
    + pose proof (sweepDown_agree fuel (CesiumMath.toRadians (of_Z 2))
                    maximumClockAngle minimumClockAngle innerHalfAngle
                    (S i1) _ _ Hmax) as Hdown.
      destruct (sweepDown fuel _ maximumClockAngle _ _ (S i1) _)
        as [[j1 f1]|];
        destruct (sweepDown fuel _ maximumClockAngle _ _ (S i1) _)
          as [[j2 f2]|];
        try contradiction; [|reflexivity].
      destruct Hdown as (<- & Hdown).
      destruct (assignSpherical_agree j1 f1 f2 minimumClockAngle
                  innerHalfAngle Hdown) as (_ & _ & Htake).
      rewrite Htake. reflexivity.
    + destruct (assignSpherical_agree (S i1) _ _ maximumClockAngle (of_Z 0)
                  Hmax) as (_ & _ & Htake).
      rewrite Htake. reflexivity.
Qed.

(** X2.  Clock angle limits with [minimumClockAngle < maximumClockAngle]
    false (an empty or reversed interval that is not the full circle): neither
    loop runs, and the boundary is two directions, the one at
    [maximumClockAngle] on the outer cone and the closing one: too few for a
    mesh. *)
Theorem computeDirections_empty_interval :
  forall (fuel : nat) (directions : list (Spherical num))
         (minimumClockAngle maximumClockAngle innerHalfAngle
          outerHalfAngle : num),
    strict_eq minimumClockAngle (of_Z 0)
      && strict_eq maximumClockAngle CesiumMath.TWO_PI = false ->
    lt minimumClockAngle maximumClockAngle = false ->
    computeDirections fuel directions minimumClockAngle maximumClockAngle
                      innerHalfAngle outerHalfAngle
    = Some [mkSpherical maximumClockAngle outerHalfAngle (of_Z 1);
            if to_boolean innerHalfAngle
            then mkSpherical minimumClockAngle innerHalfAngle (of_Z 1)
            else mkSpherical maximumClockAngle (of_Z 0) (of_Z 1)].
Proof.
  intros fuel directions minimumClockAngle maximumClockAngle innerHalfAngle
    outerHalfAngle Hlimits Hempty.
  unfold computeDirections. rewrite Hlimits.
  assert (Hup : forall i d,
            sweepUp fuel (CesiumMath.toRadians (of_Z 2)) minimumClockAngle
                    maximumClockAngle outerHalfAngle i d = Some (i, d)).
  { intros i d. destruct fuel; simpl; rewrite Hempty; reflexivity. }
  assert (Hdown : forall i d,
            sweepDown fuel (CesiumMath.toRadians (of_Z 2)) maximumClockAngle
                      minimumClockAngle innerHalfAngle i d = Some (i, d)).
  { intros i d. destruct fuel; simpl; rewrite Hempty; reflexivity. }
  rewrite Hup.
  pose proof (assignSpherical_take 0 directions maximumClockAngle
                outerHalfAngle ltac:(lia)) as H1.
  pose proof (assignSpherical_length 0 directions maximumClockAngle
                outerHalfAngle ltac:(lia)) as Hlen.
  set (directions1 := assignSpherical 0 directions _ _) in *.
  destruct (to_boolean innerHalfAngle).
  - rewrite Hdown.
    rewrite (assignSpherical_take 1 directions1) by exact Hlen.
    rewrite H1. reflexivity.
  - rewrite (assignSpherical_take 1 directions1) by exact Hlen.
    rewrite H1. reflexivity.
Qed.
End SamplerHeldArray.

Lemma computeDirections_empty_interval_witness :
  computeDirections (num := float) 0 [] (of_Z 1) (of_Z 1) (of_Z 0) (of_Z 1)
  = Some [mkSpherical (of_Z 1) (of_Z 1) (of_Z 1);
          if to_boolean (num := float) (of_Z 0)
          then mkSpherical (of_Z 1) (of_Z 0) (of_Z 1)
          else mkSpherical (of_Z 1) (of_Z 0) (of_Z 1)].
Proof.
  apply (computeDirections_empty_interval (num := float) 0 []
           (of_Z 1) (of_Z 1) (of_Z 0) (of_Z 1)).
  - vm_compute. reflexivity.
  - vm_compute. reflexivity.
Defined.

(** ** More on the rectangular sensor *)

Section RectangularCorners.
Open Scope R_scope.

Lemma toRadians_180 : CesiumMath.toRadians (num := R) 180 = PI.
Proof.
  unfold CesiumMath.toRadians, CesiumMath.RADIANS_PER_DEGREE. simpl.
  pose proof PI_RGT_0. field.
Qed.

Lemma capped_tan_pos (halfAngle : R) :
  0 < halfAngle -> 0 < tan (Rmin halfAngle (CesiumMath.toRadians 89)).
Proof.
  intros Hpos.
  assert (H89 : 0 < CesiumMath.toRadians (num := R) 89 < PI / 2).
  { unfold CesiumMath.toRadians, CesiumMath.RADIANS_PER_DEGREE. simpl.
    pose proof PI_RGT_0. lra. }
  apply tan_gt_0.
  - apply Rmin_glb_lt; lra.
  - pose proof (Rmin_r halfAngle (CesiumMath.toRadians 89)). lra.
Qed.

(** The unit vector of clock angle [atan (tx / ty)] and cone angle
    [atan (sqrt (tx^2 + ty^2))] is [(ty, tx, 1)] scaled to length one. *)
Lemma corner_vector (tx ty : R) :
  0 < tx -> 0 < ty ->
  let theta := atan (tx / ty) in
  let cone := atan (sqrt (tx * tx + ty * ty)) in
  let w := sqrt (1 + tx * tx + ty * ty) in
  cos theta = ty / sqrt (tx * tx + ty * ty)
  /\ sin theta = tx / sqrt (tx * tx + ty * ty)
  /\ sin cone = sqrt (tx * tx + ty * ty) / w
  /\ cos cone = 1 / w
  /\ 0 < sqrt (tx * tx + ty * ty) /\ 0 < w.
Proof.
  intros Htx Hty theta cone w.
  assert (Hpos : 0 < tx * tx + ty * ty) by nra.
  set (s := sqrt (tx * tx + ty * ty)) in *.
  assert (Hs : 0 < s) by (apply sqrt_lt_R0; exact Hpos).
  assert (Hss : s * s = tx * tx + ty * ty) by (apply sqrt_sqrt; lra).
  assert (Hw : 0 < w) by (apply sqrt_lt_R0; lra).
  assert (HA : sqrt (1 + (tx / ty)²) = s / ty).
  { apply sqrt_lem_1.
    - pose proof (Rle_0_sqr (tx / ty)). lra.
    - apply Rlt_le, Rdiv_lt_0_compat; assumption.
    - unfold Rsqr.
      replace (s / ty * (s / ty)) with (s * s / (ty * ty)) by (field; lra).
      rewrite Hss. field. lra. }
  assert (HB : sqrt (1 + s²) = w).
  { unfold w, Rsqr. rewrite Hss. f_equal. lra. }
  unfold theta, cone. fold s.
  rewrite cos_atan, sin_atan, HA.
  rewrite (sin_atan s), (cos_atan s), HB.
  repeat split; try assumption; field; lra.
Qed.

(** X4.  The boundary of the rectangular sensor, as vectors: with [tanX] and
    [tanY] the tangents of the two half angles (each capped at 89 degrees),
    the four directions are the unit vectors through the corners
    [(tanY, tanX)], [(-tanY, tanX)], [(-tanY, -tanX)] and [(tanY, -tanX)] of
    the rectangle at height 1 above the sensor: [yHalfAngle] sets the extent
    along the x axis and [xHalfAngle] the extent along the y axis. *)
Theorem rectangular_directions_through_corners :
  forall (xHalfAngle yHalfAngle : R) (directions : list (Spherical R)),
    0 < xHalfAngle -> 0 < yHalfAngle ->
    let tanX := tan (Rmin xHalfAngle (CesiumMath.toRadians 89)) in
    let tanY := tan (Rmin yHalfAngle (CesiumMath.toRadians 89)) in
    let w := sqrt (1 + tanX * tanX + tanY * tanY) in
    0 < tanX /\ 0 < tanY
    /\ map Cartesian3_fromSpherical
         (updateDirections xHalfAngle yHalfAngle directions)
       = [mkCartesian3 (tanY / w) (tanX / w) (1 / w);
          mkCartesian3 (- tanY / w) (tanX / w) (1 / w);
          mkCartesian3 (- tanY / w) (- tanX / w) (1 / w);
          mkCartesian3 (tanY / w) (- tanX / w) (1 / w)].
Proof.
  intros xHalfAngle yHalfAngle directions Hx Hy tanX tanY w.
  pose proof (capped_tan_pos xHalfAngle Hx) as HtanX.
  pose proof (capped_tan_pos yHalfAngle Hy) as HtanY.
  fold tanX in HtanX. fold tanY in HtanY.
  split; [exact HtanX|]. split; [exact HtanY|].
  rewrite updateDirections_eq. fold tanX tanY.
  destruct (corner_vector tanX tanY HtanX HtanY)
    as (Hcos & Hsin & Hsc & Hcc & Hs & Hw).
  fold w in Hsc, Hcc, Hw.
  set (s := sqrt (tanX * tanX + tanY * tanY)) in *.
  set (theta := atan (tanX / tanY)) in *.
  set (kappa := atan s) in *.
  cbn [map]. unfold Cartesian3_fromSpherical.
  cbn [clock cone magnitude].
  rewrite toRadians_180.
  rewrite Rtrigo_facts.cos_pi_minus, sin_PI_x.
  rewrite Rtrigo_facts.cos_pi_plus, (Rplus_comm PI theta), neg_sin.
  rewrite cos_neg, sin_neg.
  rewrite Hcos, Hsin, Hsc, Hcc.
  repeat (f_equal; try (field; lra)).
Qed.
End RectangularCorners.

Lemma rectangular_directions_through_corners_witness :
  (0 < tan (Rmin (PI / 4) (CesiumMath.toRadians 89)))%R.
Proof.
  apply (rectangular_directions_through_corners (PI / 4) (PI / 4) []);
    pose proof PI_RGT_0; lra.
Defined.

Section HalfAngleSetters.
Context `{Cesium}.
Open Scope R_scope.



End HalfAngleSetters.


(** ** More on the frame update of the primitive *)

Section UpdateParameters.
Context `{Cesium}.
Import CustomSensorVolume.

Lemma sameParameters_refl this : sameParameters this this.
Proof. repeat split. Qed.

Lemma sameParameters_trans this1 this2 this3 :
  sameParameters this1 this2 -> sameParameters this2 this3 ->
  sameParameters this1 this3.
Proof.
  unfold sameParameters. intros H12 H23.
  destruct H12 as (?&?&?&?&?&?&?&?&?&?).
  destruct H23 as (?&?&?&?&?&?&?&?&?&?).
  repeat split; congruence.
Qed.

Lemma createRenderStates_sameParameters translucent this :
  sameParameters this (createRenderStates translucent this).
Proof.
  unfold createRenderStates.
  destruct (_ || _ || _); [destruct translucent|]; repeat split.
Qed.

Lemma recreateVertexArray_sameParameters this context this' context' :
  recreateVertexArray this context = Normal (this', context') ->
  sameParameters this this'.
Proof.
  unfold recreateVertexArray.
  destruct (_directionsDirty this);
    [|intros [= <- <-]; apply sameParameters_refl].
  cbn zeta. destruct (3 <=? _);
    [|intros [= <- <-]; repeat split].
  unfold createVertexArray.
  destruct (computePositions _ _) as [[positions bvp]|]; [|discriminate].
  cbn [bind]. unfold Context_allocate. intros [= <- <-]. repeat split.
Qed.

Lemma applyModelMatrix_sameParameters directionsChanged this :
  sameParameters this (applyModelMatrix directionsChanged this).
Proof.
  unfold applyModelMatrix.
  destruct (negb (Matrix4_equals (modelMatrix this) (_modelMatrix this)));
    destruct directionsChanged; repeat split.
Qed.

Lemma renderPass_sameParameters translucent materialChanged material this
    frameState :
  sameParameters this
    (renderPass translucent materialChanged material this frameState).1.
Proof.
  unfold renderPass, replaceCache, Context_allocate.
  destruct (materialChanged || _); destruct translucent; repeat split.
Qed.

Lemma pickPass_sameParameters translucent materialChanged material this
    frameState :
  sameParameters this
    (pickPass translucent materialChanged material this frameState).1.
Proof.
  unfold pickPass, replaceCache, Context_allocate.
  destruct (negb (bool_decide (is_Some (_pickId this))) || _);
    cbn [fst snd];
    destruct (materialChanged || _); repeat split.
Qed.

Lemma emitCommands_sameParameters translucent directionsChanged material this
    frameState :
  sameParameters this
    (emitCommands translucent directionsChanged material this frameState).1.
Proof.
  unfold emitCommands.
  pose proof (applyModelMatrix_sameParameters directionsChanged this) as Hm.
  set (this1 := applyModelMatrix directionsChanged this) in *.
  set (materialChanged := Material_differs _ _).
  set (this2 := set__lateralSurfaceMaterial _ this1).
  assert (H12 : sameParameters this this2).
  { apply (sameParameters_trans _ this1); [exact Hm|]. repeat split. }
  set (frameState1 := FrameState.set_context _ frameState).
  destruct (FrameState.passes_render frameState1).
  - pose proof (renderPass_sameParameters translucent materialChanged material
                  this2 frameState1) as Hr.
    destruct (renderPass translucent materialChanged material this2
                frameState1) as [this3 frameState2].
    cbn [fst] in Hr.
    destruct (FrameState.passes_pick frameState2).
    + pose proof (pickPass_sameParameters translucent materialChanged material
                    this3 frameState2) as Hp.
      eauto using sameParameters_trans.
    + cbn [fst]. eauto using sameParameters_trans.
  - destruct (FrameState.passes_pick frameState1).
    + pose proof (pickPass_sameParameters translucent materialChanged material
                    this2 frameState1) as Hp.
      eauto using sameParameters_trans.
    + exact H12.
Qed.

(** X5.  A frame update never writes the parameters of the primitive: when
    it returns, [show], [showIntersection], [showThroughEllipsoid],
    [modelMatrix], [radius], [lateralSurfaceMaterial], [intersectionColor],
    [intersectionWidth], [id] and [directions] are what they were before the
    call. *)
Theorem update_leaves_parameters :
  forall (this this' : CustomSensorVolume.t)
         (frameState frameState' : FrameState.t),
    update this frameState = Normal (this', frameState') ->
    sameParameters this this'.
Proof.
  intros this this' frameState frameState'. unfold update.
  cbn [show radius lateralSurfaceMaterial set__mode _mode].
  destruct (negb (show this) || _); [intros [= <- <-]; repeat split|].
  destruct (lessThanZero (radius this)); [discriminate|].
  destruct (lateralSurfaceMaterial this) as [material|] eqn:Hmaterial;
    [|discriminate].
  cbn zeta.
  pose proof (createRenderStates_sameParameters
                (Material_isTranslucent material)
                (set__mode (FrameState.mode frameState) this)) as H0.
  set (this0 := createRenderStates _ _) in *.
  assert (Hstart : sameParameters this this0).
  { apply (sameParameters_trans _ (set__mode (FrameState.mode frameState) this));
      [repeat split|exact H0]. }
  destruct (recreateVertexArray this0 (FrameState.context frameState))
    as [[this1 context1]|] eqn:Hre; [|discriminate].
  apply recreateVertexArray_sameParameters in Hre.
  cbn [bind].
  destruct (negb _).
  - intros [= <- <-]. eauto using sameParameters_trans.
  - pose proof (emitCommands_sameParameters (Material_isTranslucent material)
                  (_directionsDirty this0) material this1
                  (FrameState.set_context context1 frameState)) as He.
    destruct (emitCommands _ _ material this1 _) as [this2 frameState2].
    cbn [fst] in He. intros [= <- <-]. eauto using sameParameters_trans.
Qed.
End UpdateParameters.

Lemma update_leaves_parameters_witness :
  exists (this' : CustomSensorVolume.t (H := example_Cesium))
         (frameState' : FrameState.t),
    CustomSensorVolume.update
      (CustomSensorVolume.set_directions exampleDirections
         CustomSensorVolume.new)
      (exampleFrame freshContext)
    = Normal (this', frameState')
    /\ sameParameters
         (CustomSensorVolume.set_directions exampleDirections
            CustomSensorVolume.new) this'.
Proof.
  destruct (update_rebuilds (H := example_Cesium)
              (CustomSensorVolume.set_directions exampleDirections
                 CustomSensorVolume.new)
              (exampleFrame freshContext) Material_ColorType)
    as (va & this1 & frame1 & Hupdate & _);
    try reflexivity; try (simpl; lia).
  exists this1, frame1. split; [exact Hupdate|].
  exact (update_leaves_parameters _ _ _ _ Hupdate).
Defined.

Section UpdateErrors.
Context `{Cesium}.
Import CustomSensorVolume.

Lemma recreateVertexArray_returns this context :
  exists this' context', recreateVertexArray this context
                         = Normal (this', context').
Proof.
  destruct (_directionsDirty this) eqn:Hdirty.
  - destruct (Nat.lt_ge_cases (length (_directions this)) 3) as [Hlt|Hge].
    + rewrite recreateVertexArray_short by assumption. eauto.
    + destruct (recreateVertexArray_rebuild this context Hdirty Hge)
        as (va & this' & Heq & _).
      rewrite Heq. eauto.
  - rewrite recreateVertexArray_clean by exact Hdirty. eauto.
Qed.

Lemma SceneMode_is_true (a b : SceneMode) : SceneMode_is a b = true <-> a = b.
Proof. destruct a, b; simpl; split; congruence. Qed.

(** X6.  The frame update fails in exactly two ways, and only for a primitive
    that is shown in 3D: with 'this.radius must be greater than or equal to
    zero.' when the radius is negative, and otherwise with
    'this.lateralSurfaceMaterial must be defined.' when the material is
    undefined.  Nothing else throws: building the mesh does not. *)
Theorem update_throws_exactly :
  forall (this : CustomSensorVolume.t) (frameState : FrameState.t)
         (error : Error),
    update this frameState = Throw error
    <-> show this = true /\ FrameState.mode frameState = SCENE3D
        /\ ((lessThanZero (radius this) = true
             /\ error = DeveloperError
                  "this.radius must be greater than or equal to zero.")
            \/ (lessThanZero (radius this) = false
                /\ lateralSurfaceMaterial this = None
                /\ error = DeveloperError
                     "this.lateralSurfaceMaterial must be defined.")).
Proof.
  intros this frameState error. unfold update.
  cbn [show radius lateralSurfaceMaterial set__mode _mode].
  destruct (show this); cbn [negb orb].
  2:{ split; [discriminate|]. intros (Hshow & _). discriminate. }
  destruct (SceneMode_is (FrameState.mode frameState) SCENE3D) eqn:Hmode;
    cbn [negb].
  2:{ split; [discriminate|]. intros (_ & Hm & _).
      apply SceneMode_is_true in Hm. congruence. }
  apply SceneMode_is_true in Hmode.
  destruct (lessThanZero (radius this)).
  { split.
    - intros [= <-]. auto 10.
    - intros (_ & _ & [[_ ->]|[Hfalse _]]); [reflexivity|discriminate]. }
  destruct (lateralSurfaceMaterial this) as [material|].
  2:{ split.
      - intros [= <-]. auto 10.
      - intros (_ & _ & [[Hfalse _]|(_ & _ & ->)]);
          [discriminate|reflexivity]. }
  cbn zeta.
  destruct (recreateVertexArray_returns
              (createRenderStates (Material_isTranslucent material)
                 (set__mode (FrameState.mode frameState) this))
              (FrameState.context frameState)) as (this1 & context1 & Hre).
  rewrite Hre. cbn [bind].
  split.
  - destruct (negb _); discriminate.
  - intros (_ & _ & [[Hfalse _]|(_ & Hnone & _)]); discriminate.
Qed.
End UpdateErrors.

Section UpdateFrames.
Context `{Cesium}.
Import CustomSensorVolume.

(** X7.  Dirty directions cost one mesh: the frame update of a primitive
    shown in 3D whose directions (three or more) are dirty creates exactly
    one vertex array and destroys none, and the frame update after it, with
    no assignment to [directions] in between, creates none. *)
Theorem two_frames_build_one_mesh :
  forall (this : CustomSensorVolume.t) (frameState next : FrameState.t)
         (material : Material),
    show this = true -> FrameState.mode frameState = SCENE3D ->
    FrameState.mode next = SCENE3D ->
    lessThanZero (radius this) = false ->
    lateralSurfaceMaterial this = Some material ->
    _directionsDirty this = true -> 3 <= length (_directions this) ->
    _va this = None ->
    exists (va : VertexArray) (this1 this2 : CustomSensorVolume.t)
           (frameState1 frameState2 : FrameState.t),
      update this frameState = Normal (this1, frameState1)
      /\ vertexArraysCreated (FrameState.context frameState1)
         = vertexArraysCreated (FrameState.context frameState)
           ++ [VertexArray_handle va]
      /\ vertexArraysDestroyed (FrameState.context frameState1)
         = vertexArraysDestroyed (FrameState.context frameState)
      /\ update this1
           (FrameState.set_context (FrameState.context frameState1) next)
         = Normal (this2, frameState2)
      /\ vertexArraysCreated (FrameState.context frameState2)
         = vertexArraysCreated (FrameState.context frameState1)
      /\ vertexArraysDestroyed (FrameState.context frameState2)
         = vertexArraysDestroyed (FrameState.context frameState1)
      /\ DrawCommand.vertexArray (_frontFaceColorCommand this2) = Some va.
Proof.
  intros this frameState next material Hshow Hmode Hnext Hradius Hmaterial
    Hdirty Hlength Hva.
  destruct (update_rebuilds this frameState material Hshow Hmode Hradius
              Hmaterial Hdirty Hlength Hva)
    as (va & this1 & frameState1 & Hu1 & Hfront & _ & _ & Hc1 & Hx1 & Hs1
        & Hr1 & Hm1 & Hd1 & Hdd1 & Hva1).
  destruct (update_keeps_mesh this1
              (FrameState.set_context (FrameState.context frameState1) next)
              material Hs1 Hnext ltac:(congruence) Hm1 (or_introl Hdd1) Hva1)
    as (this2 & frameState2 & Hu2 & Hfront2 & (Hc2 & Hx2 & _) & _).
  exists va, this1, this2, frameState1, frameState2.
  split; [exact Hu1|]. split; [exact Hc1|]. split; [exact Hx1|].
  split; [exact Hu2|]. split; [exact Hc2|]. split; [exact Hx2|].
  congruence.
Qed.

(** X8.  Fewer than three directions make no mesh: the frame update of a
    primitive shown in 3D that has no mesh yet and holds fewer than three
    directions returns without a command, creates and destroys no vertex
    array, and leaves the directions clean. *)
Theorem too_few_directions_draw_nothing :
  forall (this : CustomSensorVolume.t) (frameState : FrameState.t)
         (material : Material),
    show this = true -> FrameState.mode frameState = SCENE3D ->
    lessThanZero (radius this) = false ->
    lateralSurfaceMaterial this = Some material ->
    length (_directions this) < 3 ->
    DrawCommand.vertexArray (_frontFaceColorCommand this) = None ->
    _va this = None ->
    exists (this' : CustomSensorVolume.t) (frameState' : FrameState.t),
      update this frameState = Normal (this', frameState')
      /\ FrameState.commandList frameState'
         = FrameState.commandList frameState
      /\ sameVertexArrays (FrameState.context frameState)
                          (FrameState.context frameState')
      /\ DrawCommand.vertexArray (_frontFaceColorCommand this') = None
      /\ _directionsDirty this' = false.
Proof.
  intros this frameState material Hshow Hmode Hradius Hmaterial Hlength
    Hnone Hva.
  destruct (update_keeps_mesh this frameState material Hshow Hmode Hradius
              Hmaterial (or_intror Hlength) Hva)
    as (this' & frameState' & Hu & Hfront & Hsame & _ & _ & _ & _ & Hclean
        & _ & Hlist).
  exists this', frameState'. split; [exact Hu|].
  rewrite Hnone in Hlist, Hfront.
  rewrite bool_decide_eq_false_2 in Hlist by (intros [va Hva']; discriminate).
  rewrite app_nil_r in Hlist. auto.
Qed.
End UpdateFrames.

Lemma two_frames_build_one_mesh_witness :
  exists (this2 : CustomSensorVolume.t (H := example_Cesium))
         (va : VertexArray),
    DrawCommand.vertexArray (CustomSensorVolume._frontFaceColorCommand this2)
    = Some va.
Proof.
  destruct (two_frames_build_one_mesh (H := example_Cesium)
              (CustomSensorVolume.set_directions exampleDirections
                 CustomSensorVolume.new)
              (exampleFrame freshContext) (exampleFrame freshContext)
              Material_ColorType)
    as (va & this1 & this2 & frame1 & frame2 & _ & _ & _ & _ & _ & _ & Hfront);
    try reflexivity; try (simpl; lia).
  exists this2, va. exact Hfront.
Defined.

Lemma too_few_directions_draw_nothing_witness :
  exists (this' : CustomSensorVolume.t (H := example_Cesium))
         (frameState' : FrameState.t),
    CustomSensorVolume.update CustomSensorVolume.new
      (exampleFrame freshContext)
    = Normal (this', frameState')
    /\ FrameState.commandList frameState' = [].
Proof.
  destruct (too_few_directions_draw_nothing (H := example_Cesium)
              CustomSensorVolume.new (exampleFrame freshContext)
              Material_ColorType)
    as (this' & frame' & Hupdate & Hlist & _);
    try reflexivity; try (simpl; lia).
  exists this', frame'. split; [exact Hupdate|exact Hlist].
Defined.

Section Destroy.
Context `{Cesium}.
Import CustomSensorVolume.

Lemma omap_none_shader (program : option ShaderProgram) (context : Context) :
  vertexArraysCreated (ShaderProgram_destroy program context)
  = vertexArraysCreated context
  /\ vertexArraysDestroyed (ShaderProgram_destroy program context)
     = vertexArraysDestroyed context.
Proof.
  destruct program as [program|]; [|split; reflexivity].
  cbn [ShaderProgram_destroy].
  rewrite vertexArraysCreated_emit, vertexArraysDestroyed_emit, !app_nil_r.
  split; reflexivity.
Qed.

(** The vertex arrays in the log of [destroy()]. *)
Lemma destroy_events this context :
  vertexArraysCreated (destroy this context).2 = vertexArraysCreated context
  /\ vertexArraysDestroyed (destroy this context).2
     = vertexArraysDestroyed context
       ++ match DrawCommand.vertexArray (_frontFaceColorCommand this) with
          | Some va => [VertexArray_handle va]
          | None => []
          end.
Proof.
  unfold destroy. cbn [snd].
  set (context1 := VertexArray_destroy _ context).
  assert (H1 : vertexArraysCreated context1 = vertexArraysCreated context
               /\ vertexArraysDestroyed context1
                  = vertexArraysDestroyed context
                    ++ match DrawCommand.vertexArray
                               (_frontFaceColorCommand this) with
                       | Some va => [VertexArray_handle va]
                       | None => []
                       end).
  { unfold context1.
    destruct (DrawCommand.vertexArray (_frontFaceColorCommand this)) as [va|];
      cbn [VertexArray_destroy].
    - rewrite vertexArraysCreated_emit, vertexArraysDestroyed_emit, app_nil_r.
      split; reflexivity.
    - rewrite app_nil_r. split; reflexivity. }
  destruct H1 as [H1c H1d].
  set (context2 := ShaderProgram_destroy _ context1).
  destruct (omap_none_shader
              (DrawCommand.shaderProgram
                 (_frontFaceColorCommand
                    (set__frontFaceColorCommand
                       (DrawCommand.set_vertexArray None
                          (_frontFaceColorCommand this)) this))) context1)
    as [H2c H2d].
  fold context2 in H2c, H2d.
  set (context3 := ShaderProgram_destroy _ context2).
  match goal with
  | context3 := ShaderProgram_destroy ?p context2 |- _ =>
      destruct (omap_none_shader p context2) as [H3c H3d]
  end.
  fold context3 in H3c, H3d.
  match goal with
  | |- context [PickId_destroy ?p context3] =>
      assert (H4 : vertexArraysCreated (PickId_destroy p context3)
                   = vertexArraysCreated context3
                   /\ vertexArraysDestroyed (PickId_destroy p context3)
                      = vertexArraysDestroyed context3);
      [destruct p; cbn [PickId_destroy];
       rewrite ?vertexArraysCreated_emit, ?vertexArraysDestroyed_emit,
         ?app_nil_r; split; reflexivity|]
  end.
  destruct H4 as [H4c H4d]. rewrite H4c, H4d. split; congruence.
Qed.

(** X9.  [destroy()] releases what the commands hold and nothing else: the
    vertex array of the front face command, its shader program, the shader
    program of the pick command and the pick id, each if there is one and in
    this order; the primitive then says it is destroyed and holds none of
    them. *)
Theorem destroy_releases_resources :
  forall (this : CustomSensorVolume.t) (context : Context),
    let front := _frontFaceColorCommand this in
    let result := destroy this context in
    events result.2
    = events context
      ++ match DrawCommand.vertexArray front with
         | Some va => [VertexArray_destroyed (VertexArray_handle va)]
         | None => []
         end
      ++ match DrawCommand.shaderProgram front with
         | Some program =>
             [ShaderProgram_destroyed (ShaderProgram_handle program)]
         | None => []
         end
      ++ match DrawCommand.shaderProgram (_pickCommand this) with
         | Some program =>
             [ShaderProgram_destroyed (ShaderProgram_handle program)]
         | None => []
         end
      ++ match _pickId this with
         | Some pickId => [PickId_destroyed (PickId_handle pickId)]
         | None => []
         end
    /\ nextHandle result.2 = nextHandle context
    /\ isDestroyed result.1 = true
    /\ DrawCommand.vertexArray (_frontFaceColorCommand result.1) = None
    /\ DrawCommand.shaderProgram (_frontFaceColorCommand result.1) = None
    /\ DrawCommand.shaderProgram (_pickCommand result.1) = None
    /\ _pickId result.1 = None
    /\ sameParameters this result.1.
Proof.
  intros this context front result. unfold result, destroy, front.
  destruct (DrawCommand.vertexArray (_frontFaceColorCommand this)) as [va|];
    destruct (DrawCommand.shaderProgram (_frontFaceColorCommand this))
      as [program|] eqn:Hs;
    destruct (DrawCommand.shaderProgram (_pickCommand this)) as [pick|] eqn:Hp;
    destruct (_pickId this) as [pickId|] eqn:Hid;
    cbn [snd fst VertexArray_destroy
         _pickCommand _pickId _frontFaceColorCommand
         set__frontFaceColorCommand set__pickCommand set__pickId
         set_isDestroyed DrawCommand.shaderProgram DrawCommand.vertexArray
         DrawCommand.set_vertexArray DrawCommand.set_shaderProgram
         isDestroyed];
    rewrite ?Hs, ?Hp, ?Hid;
    cbn [VertexArray_destroy ShaderProgram_destroy PickId_destroy
         Context_emit events nextHandle];
    rewrite <- ?app_assoc, ?app_nil_r;
    repeat split.
Qed.

(** X10.  Built once, then destroyed: for a primitive whose first frame
    update builds the mesh, [destroy()] after it destroys the one vertex
    array that was created. *)
Theorem built_once_then_destroyed :
  forall (this : CustomSensorVolume.t) (frameState : FrameState.t)
         (material : Material),
    show this = true -> FrameState.mode frameState = SCENE3D ->
    lessThanZero (radius this) = false ->
    lateralSurfaceMaterial this = Some material ->
    _directionsDirty this = true -> 3 <= length (_directions this) ->
    _va this = None ->
    exists (va : VertexArray) (this' : CustomSensorVolume.t)
           (frameState' : FrameState.t),
      update this frameState = Normal (this', frameState')
      /\ let context := (destroy this' (FrameState.context frameState')).2 in
         vertexArraysCreated context
         = vertexArraysCreated (FrameState.context frameState)
           ++ [VertexArray_handle va]
         /\ vertexArraysDestroyed context
            = vertexArraysDestroyed (FrameState.context frameState)
              ++ [VertexArray_handle va].
Proof.
  intros this frameState material Hshow Hmode Hradius Hmaterial Hdirty
    Hlength Hva.
  destruct (update_rebuilds this frameState material Hshow Hmode Hradius
              Hmaterial Hdirty Hlength Hva)
    as (va & this' & frameState' & Hu & Hfront & _ & _ & Hc & Hx & _).
  exists va, this', frameState'. split; [exact Hu|].
  destruct (destroy_events this' (FrameState.context frameState'))
    as [Hcreated Hdestroyed].
  cbn zeta. rewrite Hcreated, Hdestroyed, Hfront, Hc, Hx.
  split; reflexivity.
Qed.
End Destroy.

Lemma built_once_then_destroyed_witness :
  exists (this' : CustomSensorVolume.t (H := example_Cesium))
         (frameState' : FrameState.t) (va : VertexArray),
    CustomSensorVolume.update
      (CustomSensorVolume.set_directions exampleDirections
         CustomSensorVolume.new)
      (exampleFrame freshContext)
    = Normal (this', frameState')
    /\ vertexArraysDestroyed
         (CustomSensorVolume.destroy this'
            (FrameState.context frameState')).2
       = [VertexArray_handle va].
Proof.
  destruct (built_once_then_destroyed (H := example_Cesium)
              (CustomSensorVolume.set_directions exampleDirections
                 CustomSensorVolume.new)
              (exampleFrame freshContext) Material_ColorType)
    as (va & this' & frame' & Hupdate & _ & Hdestroyed);
    try reflexivity; try (simpl; lia).
  exists this', frame', va. split; [exact Hupdate|exact Hdestroyed].
Defined.

Section UpdateCommands.
Context `{Cesium}.
Import CustomSensorVolume.

(** X11.  What a frame update hands to the renderer.  When it returns for a
    primitive that is shown in 3D and whose front face command has a vertex
    array by then, it appends to the command list, for the render pass, the
    back face command and then the front face command if the material is
    translucent and the front face command alone if not, and after them, for
    the pick pass, the pick command.  In every other case it appends
    nothing. *)
Theorem update_emits_commands :
  forall (this this' : CustomSensorVolume.t)
         (frameState frameState' : FrameState.t),
    update this frameState = Normal (this', frameState') ->
    FrameState.commandList frameState'
    = FrameState.commandList frameState
      ++ match lateralSurfaceMaterial this with
         | Some material =>
             if show this
                && SceneMode_is (FrameState.mode frameState) SCENE3D
                && bool_decide
                     (is_Some (DrawCommand.vertexArray
                                 (_frontFaceColorCommand this')))
             then
               (if FrameState.passes_render frameState then
                  if Material_isTranslucent material
                  then [_backFaceColorCommand this';
                        _frontFaceColorCommand this']
                  else [_frontFaceColorCommand this']
                else [])
               ++ (if FrameState.passes_pick frameState
                   then [_pickCommand this'] else [])
             else []
         | None => []
         end.
Proof.
  intros this this' frameState frameState'. unfold update.
  cbn [show radius lateralSurfaceMaterial set__mode _mode].
  destruct (show this); cbn [negb orb andb].
  2:{ intros [= <- <-]. destruct (lateralSurfaceMaterial this);
        rewrite app_nil_r; reflexivity. }
  destruct (SceneMode_is (FrameState.mode frameState) SCENE3D);
    cbn [negb andb].
  2:{ intros [= <- <-]. destruct (lateralSurfaceMaterial this);
        rewrite app_nil_r; reflexivity. }
  destruct (lessThanZero (radius this)); [discriminate|].
  destruct (lateralSurfaceMaterial this) as [material|]; [|discriminate].
  cbn zeta.
  set (this0 := createRenderStates _ _).
  destruct (recreateVertexArray this0 (FrameState.context frameState))
    as [[this1 context1]|]; [|discriminate].
  cbn [bind].
  destruct (bool_decide (is_Some (DrawCommand.vertexArray
                                    (_frontFaceColorCommand this1))))
    eqn:Hfront; cbn [negb].
  - pose proof (emitCommands_spec (Material_isTranslucent material)
                  (_directionsDirty this0) material this1
                  (FrameState.set_context context1 frameState))
      as ((_ & _ & _ & _ & _ & _ & _ & _ & Hf) & _ & Hlist).
    destruct (emitCommands _ _ material this1 _) as [this2 frameState2].
    cbn [fst snd] in Hf, Hlist. intros [= <- <-].
    rewrite Hf, Hfront. exact Hlist.
  - intros [= <- <-]. rewrite Hfront, app_nil_r. reflexivity.
Qed.
End UpdateCommands.

Lemma update_emits_commands_witness :
  exists (this' : CustomSensorVolume.t (H := example_Cesium))
         (frameState' : FrameState.t),
    CustomSensorVolume.update
      (CustomSensorVolume.set_directions exampleDirections
         CustomSensorVolume.new)
      (exampleFrame freshContext)
    = Normal (this', frameState')
    /\ FrameState.commandList frameState'
       = [CustomSensorVolume._frontFaceColorCommand this'].
Proof.
  destruct (update_rebuilds (H := example_Cesium)
              (CustomSensorVolume.set_directions exampleDirections
                 CustomSensorVolume.new)
              (exampleFrame freshContext) Material_ColorType)
    as (va & this1 & frame1 & Hupdate & Hfront & _);
    try reflexivity; try (simpl; lia).
  exists this1, frame1. split; [exact Hupdate|].
  pose proof (update_emits_commands _ _ _ _ Hupdate) as Hlist.
  rewrite Hfront in Hlist.
  rewrite bool_decide_eq_true_2 in Hlist by (eexists; reflexivity).
  exact Hlist.
Defined.

(** ** More on the mesher *)

Section MeshLayout.
Open Scope R_scope.

Lemma createVertexArray_loop_faces (positions : list R) (remaining : nat) :
  forall (i j : nat) (vertices : list R),
    createVertexArray_loop remaining positions i j vertices
    = vertices
      ++ concat (map (fun k => face positions (if Nat.eqb k j then i
                                               else (k - 1)%nat) k)
                     (seq j remaining)).
Proof.
  induction remaining as [|remaining IH]; intros i j vertices.
  - simpl. rewrite app_nil_r. reflexivity.
  - cbn [createVertexArray_loop seq map concat]. rewrite IH.
    rewrite Nat.eqb_refl. rewrite <- app_assoc. f_equal.
    unfold face at 2, faceNormal. cbn [app]. do 18 f_equal.
    f_equal. apply map_ext_in. intros k Hk. apply in_seq in Hk.
    destruct (Nat.eqb_spec k j) as [->|_]; [lia|].
    destruct (Nat.eqb_spec k (S j)) as [->|_]; [|reflexivity].
    replace (S j - 1)%nat with j by lia. reflexivity.
Qed.

Lemma Cartesian3_normalize_unit (v : Cartesian3) :
  Cartesian3_magnitude v <> 0 ->
  Cartesian3_magnitude (Cartesian3_normalize v) = 1.
Proof.
  intros Hm. unfold Cartesian3_normalize.
  set (m := Cartesian3_magnitude v) in *.
  assert (Hpos : 0 <= Cartesian3_magnitudeSquared v).
  { unfold Cartesian3_magnitudeSquared.
    pose proof (Rle_0_sqr (x v)). pose proof (Rle_0_sqr (y v)).
    pose proof (Rle_0_sqr (z v)). unfold Rsqr in *. lra. }
  assert (Hmm : m * m = Cartesian3_magnitudeSquared v)
    by (apply sqrt_sqrt; exact Hpos).
  assert (H0 : 0 <= m) by apply sqrt_pos.
  unfold Cartesian3_magnitude at 1, Cartesian3_magnitudeSquared at 1.
  cbn [x y z].
  apply sqrt_lem_1; [|lra|].
  - pose proof (Rle_0_sqr (x v / m)). pose proof (Rle_0_sqr (y v / m)).
    pose proof (Rle_0_sqr (z v / m)). unfold Rsqr in *. lra.
  - replace (x v / m * (x v / m) + y v / m * (y v / m)
             + z v / m * (z v / m))
      with (Cartesian3_magnitudeSquared v / (m * m))
      by (unfold Cartesian3_magnitudeSquared; field; exact Hm).
    rewrite Hmm. field. rewrite <- Hmm. nra.
Qed.

Lemma faceNormal_orthogonal (p1 p0 : Cartesian3) :
  Cartesian3_dot (Cartesian3_normalize (Cartesian3_cross p1 p0)) p0 = 0
  /\ Cartesian3_dot (Cartesian3_normalize (Cartesian3_cross p1 p0)) p1 = 0.
Proof.
  unfold Cartesian3_dot, Cartesian3_normalize, Cartesian3_cross.
  cbn [x y z]. set (m := Cartesian3_magnitude _). unfold Rdiv.
  split; ring.
Qed.

(** X13.  The mesh [createVertexArray] hands to the vertex buffer is a fan of
    one triangle per boundary vertex: triangle [j] is the sensor vertex (the
    origin), boundary vertex [j] and its cyclic predecessor, in this order,
    each followed by the face normal, so the array has [18 * N] numbers.
    The face normal is the normalised cross product of the two boundary
    vertices; when that product is not zero it has length 1 and is
    orthogonal to both edges of the face. *)
Theorem mesh_is_a_fan_of_faces :
  forall (directions : list (Spherical R)) (positions : list R),
    let N := length directions in
    meshVertices directions positions
    = concat (map (fun j => face positions (prevIndex N j) j) (seq 0 N))
    /\ length (meshVertices directions positions) = (18 * N)%nat
    /\ forall j : nat,
         (j < N)%nat ->
         let p0 := positionAt positions (prevIndex N j) in
         let p1 := positionAt positions j in
         let n := faceNormal positions (prevIndex N j) j in
         Cartesian3_magnitude (Cartesian3_cross p1 p0) <> 0 ->
         Cartesian3_magnitude n = 1
         /\ Cartesian3_dot n p0 = 0 /\ Cartesian3_dot n p1 = 0.
Proof.
  intros directions positions N.
  assert (Hfan : meshVertices directions positions
                 = concat (map (fun j => face positions (prevIndex N j) j)
                               (seq 0 N))).
  { unfold meshVertices. fold N. rewrite createVertexArray_loop_faces.
    reflexivity. }
  split; [exact Hfan|]. split.
  - rewrite Hfan. clear Hfan.
    replace (18 * N)%nat with (18 * length (seq 0 N))%nat
      by (rewrite length_seq; reflexivity).
    induction (seq 0 N) as [|a l IH]; [reflexivity|].
    cbn [map concat]. rewrite length_app, IH. cbn [length face]. lia.
  - intros j Hj p0 p1 n Hcross. split.
    + apply Cartesian3_normalize_unit. exact Hcross.
    + apply faceNormal_orthogonal.
Qed.
End MeshLayout.

Lemma mesh_is_a_fan_of_faces_witness :
  Cartesian3_magnitude
    (faceNormal [1; 0; 0; 0; 1; 0; 0; 0; 1]%R 0 1) = 1%R.
Proof.
  destruct (mesh_is_a_fan_of_faces exampleDirections
              [1; 0; 0; 0; 1; 0; 0; 0; 1]%R) as (_ & _ & Hnormal).
  refine (proj1 (Hnormal 1 _ _)).
  - simpl. lia.
  - change (Cartesian3_magnitude
              (Cartesian3_cross (mkCartesian3 0 1 0) (mkCartesian3 1 0 0))
            <> 0%R).
    unfold Cartesian3_magnitude, Cartesian3_magnitudeSquared,
      Cartesian3_cross.
    cbn [x y z].
    replace ((1 * 0 - 0 * 0) * (1 * 0 - 0 * 0)
             + (0 * 1 - 0 * 0) * (0 * 1 - 0 * 0)
             + (0 * 0 - 1 * 1) * (0 * 0 - 1 * 1))%R with 1%R by lra.
    rewrite sqrt_1. lra.
Defined.

Section MeshScale.
Open Scope R_scope.

(** X14.  The mesh scales with the radius: for two or more directions the
    vertices computed for a finite radius [r] are the vertices computed for
    radius 1, each multiplied by [r]; for a radius that is not finite
    (the default, [Number.POSITIVE_INFINITY]) they are multiplied by
    [FAR = 5906376272000]. *)
Theorem mesh_scales_with_radius :
  forall (directions : list (Spherical R)) (radius : number),
    let N := length directions in
    (2 <= N)%nat ->
    exists (unit scaled : list R) (unitBounds scaledBounds : list Cartesian3),
      computePositions directions (Num 1) = Normal (unit, unitBounds)
      /\ computePositions directions radius = Normal (scaled, scaledBounds)
      /\ length scaled = (3 * N)%nat
      /\ forall j : nat,
           (j < N)%nat ->
           positionAt scaled j
           = Cartesian3_multiplyByScalar (positionAt unit j)
               (match radius with Num r => r | _ => FAR end).
Proof.
  intros directions radius N HN.
  destruct (computePositions_spec directions (Num 1) HN)
    as (unit & unitBounds & Hunit & _ & Hu).
  destruct (computePositions_spec directions radius HN)
    as (scaled & scaledBounds & Hscaled & Hlength & Hs).
  exists unit, scaled, unitBounds, scaledBounds.
  split; [exact Hunit|]. split; [exact Hscaled|]. split; [exact Hlength|].
  intros j Hj. specialize (Hu j Hj). specialize (Hs j Hj).
  unfold sensorVertex in Hu, Hs. fold N in Hu, Hs.
  destruct (directions !! prevIndex N j) as [prev|]; [|discriminate].
  destruct (directions !! j) as [curr|]; [|discriminate].
  destruct (directions !! nextIndex N j) as [next|]; [|discriminate].
  apply (inj Some) in Hu, Hs. rewrite Hu, Hs.
  unfold extendedPosition, Cartesian3_multiplyByScalar. cbn [x y z meshRadius].
  change (meshRadius radius) with (match radius with Num r => r | _ => FAR end).
  set (r := match radius with Num r => r | _ => FAR end).
  set (c := cos _). unfold Rdiv. f_equal; ring.
Qed.
End MeshScale.

Lemma mesh_scales_with_radius_witness :
  exists (scaled : list R) (scaledBounds : list Cartesian3),
    computePositions exampleDirections Infinity
    = Normal (scaled, scaledBounds)
    /\ length scaled = 9.
Proof.
  destruct (mesh_scales_with_radius exampleDirections Infinity)
    as (unit & scaled & unitBounds & scaledBounds & _ & Hscaled & Hlength & _).
  - simpl. lia.
  - exists scaled, scaledBounds. split; [exact Hscaled|exact Hlength].
Defined.

(** ** The life cycle of a visualizer *)

Section Lifecycle.
Context `{Cesium}.
Implicit Types (state : Visualizer.t * World.t CustomSensorVolume.t)
  (world : World.t CustomSensorVolume.t) (entity : Entity.t) (id : string)
  (hash : gmap string Data.t).

Lemma filter_below_all (first : nat) (handles : list nat) :
  Forall (fun h => h < first) handles ->
  filter (fun h => h < first) handles = handles.
Proof.
  induction 1 as [|h handles Hh _ IH]; [reflexivity|].
  rewrite filter_cons_True by exact Hh. rewrite IH. reflexivity.
Qed.

Lemma filter_below_remove (first handle : nat) (handles : list nat) :
  first <= handle ->
  filter (fun h => h < first) (filter (fun h => h <> handle) handles)
  = filter (fun h => h < first) handles.
Proof.
  intros Hle. induction handles as [|h handles IH]; [reflexivity|].
  destruct (decide (h = handle)) as [->|Hne].
  - rewrite filter_cons_False by tauto.
    rewrite (filter_cons_False _ handle) by lia. exact IH.
  - rewrite filter_cons_True by exact Hne.
    destruct (decide (h < first)) as [Hlt|Hge].
    + rewrite !filter_cons_True by exact Hlt. rewrite IH. reflexivity.
    + rewrite !filter_cons_False by exact Hge. exact IH.
Qed.

Lemma filter_below_all_ne (handle : nat) (handles : list nat) :
  handle ∉ handles -> filter (fun h => h <> handle) handles = handles.
Proof.
  induction handles as [|h handles IH]; [reflexivity|].
  intros Hnot. apply not_elem_of_cons in Hnot as [Hne Hnot].
  rewrite filter_cons_True by auto. rewrite IH by exact Hnot. reflexivity.
Qed.

Lemma accounted_start world :
  Forall (fun h => h < World.nextObject world) (World.primitives world) ->
  accounted (World.nextObject world) (World.primitives world)
            (Visualizer.new, world).
Proof.
  intros Hforeign. unfold accounted. cbn [fst snd].
  split; [constructor|].
  split; [intros id [data Hdata]; cbn in Hdata; rewrite lookup_empty in Hdata;
          discriminate|].
  split; [apply filter_below_all; exact Hforeign|].
  split.
  { intros h Hin Hle. rewrite Forall_forall in Hforeign.
    specialize (Hforeign h Hin). lia. }
  split; [intros id data Hdata; cbn in Hdata; rewrite lookup_empty in Hdata;
          discriminate|].
  lia.
Qed.

(** What [removePrimitive] does to the collection and the counter. *)
Lemma removePrimitive_primitives entity hash world :
  let result := removePrimitive entity hash world in
  World.nextObject result.2 = World.nextObject world
  /\ match hash !! Entity.id entity with
     | Some data =>
         World.primitives result.2
         = filter (fun h => h <> Data.primitive data) (World.primitives world)
     | None => World.primitives result.2 = World.primitives world
     end.
Proof.
  unfold removePrimitive.
  destruct (hash !! Entity.id entity) as [data|]; [|split; reflexivity].
  cbn [snd].
  set (world1 := World.remove (Data.primitive data) world).
  assert (H1 : World.nextObject world1 = World.nextObject world
               /\ World.primitives world1
                  = filter (fun h => h <> Data.primitive data)
                           (World.primitives world)).
  { unfold world1, World.remove.
    destruct (bool_decide_reflect
                (Data.primitive data ∈ World.primitives world)) as [Hin|Hnot].
    - destruct (World.destroyPrimitives _).
      + destruct (World_destroy_frame (Data.primitive data)
                    (World.set_primitives
                       (filter (fun h => h <> Data.primitive data)
                               (World.primitives world)) world))
          as (Hp & Hn & _).
        rewrite Hp, Hn. split; reflexivity.
      + split; reflexivity.
    - split; [reflexivity|]. symmetry.
      apply filter_below_all_ne. exact Hnot. }
  destruct H1 as [Hn Hp].
  destruct (negb _).
  - destruct (World_destroy_frame (Data.primitive data) world1)
      as (Hp' & Hn' & _).
    rewrite Hp', Hn'. split; assumption.
  - split; assumption.
Qed.

Lemma onAdded_accounted first foreign complete state entity :
  accounted first foreign state ->
  accounted first foreign (onAdded complete state entity).
Proof.
  intros (Hfiled & Htracked & Hrest).
  split; [apply filedById_onAdded; exact Hfiled|].
  destruct (onAdded_frame complete state entity) as [Hhash Hworld].
  rewrite Hhash, Hworld. split; [|exact Hrest].
  intros id Hsome. specialize (Htracked id Hsome).
  unfold onAdded, tracked in *. destruct state as [this world].
  destruct (complete entity); [|exact Htracked].
  cbn [fst Visualizer._entitiesToVisualize
       Visualizer.set__entitiesToVisualize].
  apply AssociativeArray_keys_set. right. exact Htracked.
Qed.

Lemma onRemoved_accounted first foreign state entity :
  accounted first foreign state ->
  accounted first foreign (onRemoved state entity).
Proof.
  intros (Hfiled & Htracked & Hforeign & Hentries & Hfirst & Hnext).
  split; [apply filedById_onRemoved; exact Hfiled|].
  pose proof (onRemoved_hash state entity) as Hhash.
  pose proof (onRemoved_world state entity) as Hworld.
  pose proof (removePrimitive_primitives entity (Visualizer._hash state.1)
                state.2) as [Hn Hp].
  rewrite <- Hworld in Hn, Hp.
  split.
  { intros id Hsome. rewrite Hhash in Hsome.
    destruct Hsome as [data Hdata].
    apply lookup_delete_Some in Hdata as [Hne Hdata].
    assert (Ht : tracked id state.1) by (apply Htracked; eauto).
    unfold onRemoved, tracked in *. destruct state as [this world].
    destruct (removePrimitive entity (Visualizer._hash this) world).
    cbn [fst snd Visualizer._entitiesToVisualize
         Visualizer.set__entitiesToVisualize Visualizer.set__hash] in *.
    apply AssociativeArray_keys_remove. split; [congruence|exact Ht]. }
  rewrite Hhash, Hn.
  destruct (Visualizer._hash state.1 !! Entity.id entity) as [data|] eqn:Hd.
  - rewrite Hp. specialize (Hfirst _ _ Hd) as Hle.
    split; [rewrite filter_below_remove by exact Hle; exact Hforeign|].
    split.
    { intros h Hin Hh. apply list_elem_of_filter in Hin as [Hne Hin].
      destruct (Hentries h Hin Hh) as (id & data' & Hdata' & Hprim).
      exists id, data'. split; [|exact Hprim].
      apply lookup_delete_Some. split; [|exact Hdata'].
      intros Heq. subst id. congruence. }
    split; [|exact Hnext].
    intros id data' Hdata'. apply lookup_delete_Some in Hdata' as [_ Hdata'].
    eauto.
  - rewrite Hp. split; [exact Hforeign|].
    split.
    { intros h Hin Hh. destruct (Hentries h Hin Hh)
        as (id & data' & Hdata' & Hprim).
      exists id, data'. split; [|exact Hprim].
      apply lookup_delete_Some. split; [congruence|exact Hdata']. }
    split; [|exact Hnext].
    intros id data' Hdata'. apply lookup_delete_Some in Hdata' as [_ Hdata'].
    eauto.
Qed.

Lemma foldl_accounted first foreign
    (step : Visualizer.t * World.t CustomSensorVolume.t -> Entity.t
            -> Visualizer.t * World.t CustomSensorVolume.t) entities :
  (forall state entity,
     accounted first foreign state ->
     accounted first foreign (step state entity)) ->
  forall state,
    accounted first foreign state ->
    accounted first foreign (foldl step state entities).
Proof.
  intros Hstep. induction entities as [|e es IH]; intros state Hs; [exact Hs|].
  cbn. apply IH, Hstep, Hs.
Qed.

Lemma onCollectionChanged_accounted first foreign complete added removed
    changed state :
  accounted first foreign state ->
  accounted first foreign
    (onCollectionChanged complete added removed changed state).
Proof.
  intros Hs. unfold onCollectionChanged.
  apply foldl_accounted; [intros; apply onRemoved_accounted; assumption|].
  apply foldl_accounted.
  { intros s e Ha. unfold onChanged. destruct (complete e);
      [apply onAdded_accounted|apply onRemoved_accounted]; exact Ha. }
  apply foldl_accounted; [intros; apply onAdded_accounted; assumption|].
  exact Hs.
Qed.

Lemma hide_frame (data : option Data.t) world :
  World.primitives (hide data world) = World.primitives world
  /\ World.nextObject (hide data world) = World.nextObject world.
Proof.
  unfold hide, World.assign. destruct data as [data|]; [|auto].
  destruct (World.objects world !! Data.primitive data); auto.
Qed.

(** The loop body of an update for a tracked entity keeps the books. *)
Lemma updateEntity_accounted first foreign (create : CustomSensorVolume.t)
    (apply : Data.t -> CustomSensorVolume.t
             -> Completion (Data.t * CustomSensorVolume.t))
    (pose : bool) entity state state' :
  tracked (Entity.id entity) state.1 ->
  (forall data p data' p',
     apply data p = Normal (data', p') ->
     Data.primitive data' = Data.primitive data) ->
  accounted first foreign state ->
  updateEntity create apply pose entity state = Normal state' ->
  accounted first foreign state'
  /\ Visualizer._entitiesToVisualize state'.1
     = Visualizer._entitiesToVisualize state.1.
Proof.
  intros Htr Happly (Hfiled & Htracked & Hforeign & Hentries & Hfirst & Hnext).
  unfold updateEntity. destruct state as [this world]. cbn [fst snd] in *.
  destruct pose.
  2:{ intros [= <-]. cbn [fst snd].
      destruct (hide_frame (Visualizer._hash this !! Entity.id entity) world)
        as [Hp Hn].
      split; [|reflexivity]. unfold accounted. cbn [fst snd].
      rewrite Hp, Hn. auto 10. }
  assert (Hobtain :
    let r := obtain create entity (Visualizer._hash this !! Entity.id entity)
                    (this, world) in
    accounted first foreign r.2
    /\ Visualizer._entitiesToVisualize r.2.1
       = Visualizer._entitiesToVisualize this
    /\ Visualizer._hash r.2.1 !! Entity.id entity = Some r.1).
  { unfold obtain.
    destruct (Visualizer._hash this !! Entity.id entity) as [data|] eqn:Hd;
      cbn [fst snd].
    - split; [|auto]. unfold accounted. cbn [fst snd]. auto 10.
    - unfold World.add. cbn [fst snd Visualizer._hash Visualizer.set__hash
        Visualizer._entitiesToVisualize World.primitives World.set_primitives
        World.set_objects World.set_nextObject World.nextObject
        Data.primitive].
      split; [|split; [reflexivity|apply lookup_insert_eq]].
      unfold accounted. cbn [fst snd Visualizer._hash Visualizer.set__hash
        Visualizer._entitiesToVisualize World.primitives World.set_primitives
        World.set_objects World.set_nextObject World.nextObject].
      split; [exact Hfiled|].
      split.
      { intros id [data Hdata].
        destruct (decide (Entity.id entity = id)) as [<-|Hne];
          [exact Htr|].
        rewrite lookup_insert_ne in Hdata by exact Hne.
        apply Htracked. eauto. }
      split.
      { rewrite filter_app, filter_cons_False by lia.
        rewrite filter_nil, app_nil_r. exact Hforeign. }
      split.
      { intros h Hin Hh. apply elem_of_app in Hin as [Hin|Hin].
        - destruct (Hentries h Hin Hh) as (id & data & Hdata & Hprim).
          exists id, data. split; [|exact Hprim].
          rewrite lookup_insert_ne; [exact Hdata|]. congruence.
        - apply list_elem_of_singleton in Hin. subst h.
          eexists (Entity.id entity), _.
          split; [apply lookup_insert_eq|reflexivity]. }
      split; [|lia].
      intros id data Hdata.
      destruct (decide (Entity.id entity = id)) as [<-|Hne].
      + rewrite lookup_insert_eq in Hdata. injection Hdata as <-. cbn. lia.
      + rewrite lookup_insert_ne in Hdata by exact Hne. eauto. }
  destruct (obtain create entity (Visualizer._hash this !! Entity.id entity)
              (this, world)) as [data [this1 world1]].
  cbn [fst snd] in Hobtain.
  destruct Hobtain as ((Hfiled1 & Htracked1 & Hforeign1 & Hentries1 & Hfirst1
                        & Hnext1) & Hsame1 & Hdata1).
  cbn [fst snd] in *.
  destruct (World.objects world1 !! Data.primitive data) as [p|];
    [|discriminate].
  destruct (apply data p) as [[data' p']|] eqn:Hap; [|discriminate].
  specialize (Happly _ _ _ _ Hap).
  cbn [bind]. intros [= <-]. unfold commit. cbn [fst snd].
  split; [|exact Hsame1].
  unfold accounted. cbn [fst snd Visualizer._hash Visualizer.set__hash
    Visualizer._entitiesToVisualize World.primitives World.set_objects
    World.nextObject].
  split; [exact Hfiled1|].
  split.
  { intros id [d Hd].
    destruct (decide (Entity.id entity = id)) as [<-|Hne].
    - apply Htracked1. eauto.
    - rewrite lookup_insert_ne in Hd by exact Hne. apply Htracked1. eauto. }
  split; [exact Hforeign1|].
  split.
  { intros h Hin Hh. destruct (Hentries1 h Hin Hh) as (id & d & Hd & Hprim).
    destruct (decide (Entity.id entity = id)) as [<-|Hne].
    - exists (Entity.id entity), data'.
      split; [apply lookup_insert_eq|]. congruence.
    - exists id, d. split; [|exact Hprim].
      rewrite lookup_insert_ne by exact Hne. exact Hd. }
  split; [|exact Hnext1].
  intros id d Hd.
  destruct (decide (Entity.id entity = id)) as [<-|Hne].
  - rewrite lookup_insert_eq in Hd. injection Hd as <-. rewrite Happly. eauto.
  - rewrite lookup_insert_ne in Hd by exact Hne. eauto.
Qed.

Lemma updateEntities_accounted first foreign
    (body : Entity.t -> Visualizer.t * World.t CustomSensorVolume.t
            -> Completion (Visualizer.t * World.t CustomSensorVolume.t))
    entities :
  (forall entity state state',
     entity ∈ entities -> tracked (Entity.id entity) state.1 ->
     accounted first foreign state -> body entity state = Normal state' ->
     accounted first foreign state'
     /\ Visualizer._entitiesToVisualize state'.1
        = Visualizer._entitiesToVisualize state.1) ->
  forall state state',
    Forall (fun entity => tracked (Entity.id entity) state.1) entities ->
    accounted first foreign state ->
    updateEntities body entities state = Normal state' ->
    accounted first foreign state'.
Proof.
  induction entities as [|entity entities IH];
    intros Hbody state state' Hall Hs Hrun.
  - cbn in Hrun. injection Hrun as <-. exact Hs.
  - cbn in Hrun. destruct (body entity state) as [state1|] eqn:Hb;
      [|discriminate].
    cbn in Hrun. apply Forall_cons in Hall as [Ht Hall].
    destruct (Hbody entity state state1 ltac:(left) Ht Hs Hb) as [H1 Hsame].
    apply (IH (fun e s s' Hin => Hbody e s s' ltac:(right; exact Hin))
              state1 state'); [|exact H1|exact Hrun].
    unfold tracked in *. rewrite Hsame. exact Hall.
Qed.

Lemma values_tracked (this : Visualizer.t) :
  filedById this ->
  Forall (fun entity => tracked (Entity.id entity) this)
         (AssociativeArray.values (Visualizer._entitiesToVisualize this)).
Proof.
  unfold filedById, tracked, AssociativeArray.values. intros Hfiled.
  apply Forall_forall. intros entity Hin.
  apply list_elem_of_fmap in Hin as ([k e] & -> & Hin).
  rewrite Forall_forall in Hfiled. specialize (Hfiled _ Hin). cbn in *.
  apply list_elem_of_fmap. exists (k, e). cbn. split; [congruence|exact Hin].
Qed.

Lemma ConicSensorVisualizer_update_accounted first foreign time state state' :
  accounted first foreign state ->
  ConicSensorVisualizer_update time state = Normal state' ->
  accounted first foreign state'.
Proof.
  intros Hs. unfold ConicSensorVisualizer_update.
  apply updateEntities_accounted; [|apply values_tracked, Hs|exact Hs].
  intros entity s s' _ Ht Ha Hbody.
  destruct (Entity._conicSensor entity) as [graphics|]; [|discriminate].
  destruct (resolvePose time entity (ConicSensorGraphics._show graphics))
    as [[position orientation]|].
  - eapply updateEntity_accounted; [exact Ht| |exact Ha|exact Hbody].
    intros data p data' p' [= Heq].
    pose proof (ConicSensorVisualizer_apply_id time graphics position
                  orientation data p) as [_ Hid].
    rewrite Heq in Hid. exact Hid.
  - eapply updateEntity_accounted; [exact Ht| |exact Ha|exact Hbody].
    intros data p data' p' [= <- <-]. reflexivity.
Qed.

Lemma ConicSensorVisualizer_run_accounted first foreign actions :
  forall state state',
    accounted first foreign state ->
    ConicSensorVisualizer_run actions state = Normal state' ->
    accounted first foreign state'.
Proof.
  induction actions as [|action actions IH]; intros state state' Hs Hrun.
  - injection Hrun as <-. exact Hs.
  - destruct action as [added removed changed|time]; cbn in Hrun.
    + eapply IH; [|exact Hrun]. apply onCollectionChanged_accounted, Hs.
    + destruct (ConicSensorVisualizer_update time state) as [state1|] eqn:Hu;
        [|discriminate].
      cbn in Hrun. eapply IH; [|exact Hrun].
      eapply ConicSensorVisualizer_update_accounted; eassumption.
Qed.

(** [destroy()] of a visualizer: the entries of the listed entities go, and
    with them their primitives; the rest of the books stays balanced. *)
Lemma Visualizer_destroy_loop first foreign entities : forall state,
  let state' :=
    foldl (fun '(this, world) entity =>
             let (hash, world) :=
               removePrimitive entity (Visualizer._hash this) world in
             (Visualizer.set__hash hash this, world))
          state entities in
  filter (fun h => h < first) (World.primitives state.2) = foreign ->
  (forall h, h ∈ World.primitives state.2 -> first <= h ->
     exists id data, Visualizer._hash state.1 !! id = Some data
                     /\ Data.primitive data = h) ->
  (forall id data, Visualizer._hash state.1 !! id = Some data ->
     first <= Data.primitive data) ->
  filter (fun h => h < first) (World.primitives state'.2) = foreign
  /\ (forall h, h ∈ World.primitives state'.2 -> first <= h ->
        exists id data, Visualizer._hash state'.1 !! id = Some data
                        /\ Data.primitive data = h)
  /\ (forall id data, Visualizer._hash state'.1 !! id = Some data ->
        Visualizer._hash state.1 !! id = Some data
        /\ Forall (fun entity => Entity.id entity <> id) entities).
Proof.
  induction entities as [|entity entities IH]; intros state; cbn zeta.
  - intros Hforeign Hentries Hfirst. cbn [foldl]. auto.
  - intros Hforeign Hentries Hfirst. cbn [foldl].
    destruct state as [this world]. cbn [fst snd] in *.
    pose proof (removePrimitive_primitives entity (Visualizer._hash this)
                  world) as [_ Hp].
    pose proof (removePrimitive_frame entity (Visualizer._hash this) world)
      as (Hhash & _).
    destruct (removePrimitive entity (Visualizer._hash this) world)
      as [hash1 world1].
    cbn [fst snd] in Hp, Hhash. subst hash1.
    specialize (IH (Visualizer.set__hash
                      (delete (Entity.id entity) (Visualizer._hash this)) this,
                    world1)).
    cbn zeta in IH. cbn [fst snd Visualizer._hash Visualizer.set__hash] in IH.
    destruct IH as (Hf' & He' & Hd').
    + destruct (Visualizer._hash this !! Entity.id entity) as [data|] eqn:Hd;
        rewrite Hp; [|exact Hforeign].
      rewrite filter_below_remove by eauto. exact Hforeign.
    + intros h Hin Hh.
      assert (Hin' : h ∈ World.primitives world
                     /\ forall data,
                          Visualizer._hash this !! Entity.id entity = Some data
                          -> h <> Data.primitive data).
      { destruct (Visualizer._hash this !! Entity.id entity) as [data|];
          rewrite Hp in Hin.
        - apply list_elem_of_filter in Hin as [Hne Hin].
          split; [exact Hin|]. intros d [= <-]. exact Hne.
        - split; [exact Hin|]. discriminate. }
      destruct Hin' as [Hin' Hne].
      destruct (Hentries h Hin' Hh) as (id & data & Hdata & Hprim).
      exists id, data. split; [|exact Hprim].
      apply lookup_delete_Some. split; [|exact Hdata].
      intros Heq. subst id. apply (Hne data Hdata). congruence.
    + intros id data Hdata.
      apply lookup_delete_Some in Hdata as [_ Hdata]. eauto.
    + split; [exact Hf'|]. split; [exact He'|].
      intros id data Hdata. destruct (Hd' id data Hdata) as [Hdel Hall].
      apply lookup_delete_Some in Hdel as [Hne Hdel].
      split; [exact Hdel|]. constructor; [exact Hne|exact Hall].
Qed.

Lemma Visualizer_destroy_accounted first foreign state :
  accounted first foreign state ->
  Visualizer._hash (Visualizer_destroy state).1 = ∅
  /\ World.primitives (Visualizer_destroy state).2 = foreign.
Proof.
  intros (Hfiled & Htracked & Hforeign & Hentries & Hfirst & _).
  unfold Visualizer_destroy.
  destruct (Visualizer_destroy_loop first foreign
              (reverse (AssociativeArray.values
                          (Visualizer._entitiesToVisualize state.1)))
              state Hforeign Hentries Hfirst) as (Hf' & He' & Hd').
  set (state' := foldl _ state _) in *.
  assert (Hempty : Visualizer._hash state'.1 = ∅).
  { apply map_empty. intros id.
    destruct (Visualizer._hash state'.1 !! id) as [data|] eqn:Hdata;
      [|reflexivity].
    exfalso. destruct (Hd' id data Hdata) as [Hold Hall].
    assert (Ht : tracked id state.1) by (apply Htracked; eauto).
    unfold tracked in Ht. apply list_elem_of_fmap in Ht as ([k e] & -> & Hin).
    cbn [fst] in *.
    unfold filedById in Hfiled. rewrite Forall_forall in Hfiled.
    specialize (Hfiled _ Hin). cbn [fst snd] in Hfiled.
    rewrite Forall_forall in Hall. apply (Hall e); [|congruence].
    apply elem_of_reverse. unfold AssociativeArray.values.
    apply list_elem_of_fmap. exists (k, e). split; [reflexivity|exact Hin]. }
  split; [exact Hempty|].
  rewrite <- Hf'. symmetry. apply filter_below_all.
  apply Forall_forall. intros h Hin.
  destruct (Nat.lt_ge_cases h first) as [Hlt|Hge]; [exact Hlt|].
  destruct (He' h Hin Hge) as (id & data & Hdata & _).
  rewrite Hempty, lookup_empty in Hdata. discriminate.
Qed.

(** X15.  A conic visualizer leaves no primitive behind.  Made for a scene
    whose primitive collection holds primitives of others, taken through any
    collection changes and updates (none of which throws), and then
    destroyed, it leaves the collection holding exactly the primitives of
    the others, in their order, and its hash empty: every primitive it added
    has been removed. *)
Theorem visualizer_leaves_no_primitive_behind :
  forall (world : World.t CustomSensorVolume.t) (actions : list Action)
         (state : Visualizer.t * World.t CustomSensorVolume.t),
    Forall (fun h => h < World.nextObject world) (World.primitives world) ->
    ConicSensorVisualizer_run actions (Visualizer.new, world) = Normal state ->
    World.primitives (Visualizer_destroy state).2 = World.primitives world
    /\ Visualizer._hash (Visualizer_destroy state).1 = ∅.
Proof.
  intros world actions state Hforeign Hrun.
  pose proof (accounted_start world Hforeign) as Hstart.
  pose proof (ConicSensorVisualizer_run_accounted _ _ actions _ _ Hstart Hrun)
    as Hend.
  destruct (Visualizer_destroy_accounted _ _ state Hend) as [Hhash Hprims].
  split; [exact Hprims|exact Hhash].
Qed.

(** X16.  The books of a conic visualizer balance at every moment of its
    life: after any collection changes and updates, every entry of its hash
    belongs to an entity it tracks, every primitive in the collection that
    was not there before it is the primitive of an entry, and the primitives
    of the others are in the collection as they were. *)
Theorem visualizer_books_balance :
  forall (world : World.t CustomSensorVolume.t) (actions : list Action)
         (state : Visualizer.t * World.t CustomSensorVolume.t),
    Forall (fun h => h < World.nextObject world) (World.primitives world) ->
    ConicSensorVisualizer_run actions (Visualizer.new, world) = Normal state ->
    (forall id, is_Some (Visualizer._hash state.1 !! id) ->
                tracked id state.1)
    /\ (forall h, h ∈ World.primitives state.2 ->
          h ∈ World.primitives world
          \/ exists id data,
               Visualizer._hash state.1 !! id = Some data
               /\ Data.primitive data = h)
    /\ (forall h, h ∈ World.primitives world -> h ∈ World.primitives state.2).
Proof.
  intros world actions state Hforeign Hrun.
  pose proof (accounted_start world Hforeign) as Hstart.
  destruct (ConicSensorVisualizer_run_accounted _ _ actions _ _ Hstart Hrun)
    as (_ & Htracked & Hf & Hentries & _).
  split; [exact Htracked|]. split.
  - intros h Hin.
    destruct (Nat.lt_ge_cases h (World.nextObject world)) as [Hlt|Hge].
    + left. rewrite <- Hf. apply list_elem_of_filter. auto.
    + right. apply Hentries; assumption.
  - intros h Hin. rewrite <- Hf in Hin.
    apply list_elem_of_filter in Hin as [_ Hin]. exact Hin.
Qed.
End Lifecycle.

(** A scene that holds the primitive of somebody else (handle 0); the
    entity is added and an update gives it a primitive (handle 1), which the
    collection then holds beside the other. *)
Lemma visualizer_leaves_no_primitive_behind_witness :
  exists state : Visualizer.t (H := example_Cesium)
                 * World.t (CustomSensorVolume.t (H := example_Cesium)),
    ConicSensorVisualizer_run
      [CollectionChanged [exampleEntity] [] []; Update exampleTime]
      (Visualizer.new, foreignWorld)
    = Normal state
    /\ World.primitives state.2 = [0; 1]
    /\ is_Some (Visualizer._hash state.1 !! "E")
    /\ World.primitives (Visualizer_destroy state).2 = [0]
    /\ Visualizer._hash (Visualizer_destroy state).1 = ∅.
Proof.
  eexists. split; [reflexivity|].
  split; [reflexivity|].
  split; [eexists; reflexivity|].
  apply (visualizer_leaves_no_primitive_behind (H := example_Cesium)
           foreignWorld
           [CollectionChanged [exampleEntity] [] []; Update exampleTime]).
  - apply Forall_cons_2; [apply le_n|apply Forall_nil_2].
  - reflexivity.
Defined.

(** The same run: the primitive made (handle 1) is the primitive of an entry
    of the hash, the entry belongs to a tracked entity, and the primitive of
    the other (handle 0) is still in the collection. *)
Lemma visualizer_books_balance_witness :
  exists state : Visualizer.t (H := example_Cesium)
                 * World.t (CustomSensorVolume.t (H := example_Cesium)),
    ConicSensorVisualizer_run
      [CollectionChanged [exampleEntity] [] []; Update exampleTime]
      (Visualizer.new, foreignWorld)
    = Normal state
    /\ World.primitives state.2 = [0; 1]
    /\ (exists id data,
          Visualizer._hash state.1 !! id = Some data
          /\ Data.primitive data = 1
          /\ tracked id state.1)
    /\ 0 ∈ World.primitives state.2.
Proof.
  eexists. split; [reflexivity|].
  split; [reflexivity|].
  destruct (visualizer_books_balance (H := example_Cesium) foreignWorld
              [CollectionChanged [exampleEntity] [] []; Update exampleTime]
              _ (Forall_cons_2 _ _ _ (le_n 1) (Forall_nil_2 _)) eq_refl)
    as (Htracked & Hentries & Hforeign).
  split.
  - destruct (Hentries 1) as [Hin|(id & data & Hdata & Hprimitive)].
    + right. left.
    + apply list_elem_of_singleton in Hin. discriminate.
    + exists id, data. split; [exact Hdata|]. split; [exact Hprimitive|].
      apply Htracked. exists data. exact Hdata.
  - apply Hforeign. left.
Defined.

(** ** CZML: the directions of a custom pattern sensor *)

Section Polar.
Open Scope R_scope.

Lemma sqrt_sum_squares_pos (a b : R) : a <> 0 -> 0 < sqrt (a * a + b * b).
Proof. intros Ha. apply sqrt_lt_R0. nra. Qed.

Lemma sqrt_one_plus_ratio (a b : R) :
  0 < a -> sqrt (1 + (b / a)²) = sqrt (a * a + b * b) / a.
Proof.
  intros Ha. apply sqrt_lem_1.
  - pose proof (Rle_0_sqr (b / a)). lra.
  - apply Rlt_le, Rdiv_lt_0_compat; [apply sqrt_sum_squares_pos; lra|exact Ha].
  - replace (sqrt (a * a + b * b) / a * (sqrt (a * a + b * b) / a))
      with (sqrt (a * a + b * b) * sqrt (a * a + b * b) / (a * a))
      by (field; lra).
    rewrite sqrt_sqrt by nra. unfold Rsqr. field. lra.
Qed.

Lemma Rsqr_ratio_opp (a b : R) : (b / a)² = (b / - a)².
Proof.
  destruct (Req_dec a 0) as [->|Ha].
  - rewrite Ropp_0. reflexivity.
  - unfold Rsqr. field. lra.
Qed.

(** [Math.atan2(y, x)] is the angle of the point [(x, y)]: with the distance
    of the point from the origin it gives the point back. *)
Lemma atan2_polar (x y : R) :
  sqrt (x * x + y * y) * cos (Math_atan2 y x) = x
  /\ sqrt (x * x + y * y) * sin (Math_atan2 y x) = y.
Proof.
  unfold Math_atan2.
  destruct (Rlt_dec 0 x) as [Hpos|Hnpos].
  - rewrite cos_atan, sin_atan, sqrt_one_plus_ratio by exact Hpos.
    pose proof (sqrt_sum_squares_pos x y ltac:(lra)).
    split; field; lra.
  - destruct (Rlt_dec x 0) as [Hneg|Hnneg].
    + assert (Hroot : sqrt (1 + (y / x)²) = sqrt (x * x + y * y) / - x).
      { rewrite Rsqr_ratio_opp, sqrt_one_plus_ratio by lra.
        f_equal. f_equal. ring. }
      pose proof (sqrt_sum_squares_pos x y ltac:(lra)).
      destruct (Rle_dec 0 y).
      * rewrite neg_cos, neg_sin, cos_atan, sin_atan, Hroot.
        split; field; lra.
      * replace (atan (y / x) - PI) with (- (PI - atan (y / x))) by ring.
        rewrite cos_neg, sin_neg, Rtrigo_facts.cos_pi_minus, sin_PI_x.
        rewrite cos_atan, sin_atan, Hroot.
        split; field; lra.
    + assert (x = 0) by lra. subst x.
      replace (0 * 0 + y * y) with (y²) by (unfold Rsqr; ring).
      rewrite sqrt_Rsqr_abs.
      destruct (Rlt_dec 0 y).
      * rewrite cos_PI2, sin_PI2, Rabs_right by lra. split; ring.
      * destruct (Rlt_dec y 0).
        -- rewrite cos_neg, sin_neg, cos_PI2, sin_PI2, Rabs_left by lra.
           split; ring.
        -- assert (y = 0) by lra. subst y.
           rewrite Rabs_R0. split; ring.
Qed.

(** Spherical coordinates and back. *)
Lemma fromSpherical_fromCartesian3 (v : Cartesian3) :
  Cartesian3_fromSpherical (Spherical_fromCartesian3 v) = v.
Proof.
  destruct v as [vx vy vz].
  unfold Cartesian3_fromSpherical, Spherical_fromCartesian3.
  cbn [x y z clock cone magnitude].
  set (rho := sqrt (vx * vx + vy * vy)).
  assert (Hrho : rho * rho = vx * vx + vy * vy).
  { apply sqrt_sqrt. nra. }
  destruct (atan2_polar vx vy) as [Hx Hy]. fold rho in Hx, Hy.
  destruct (atan2_polar vz rho) as [Hz Hr].
  replace (vz * vz + rho * rho) with (vx * vx + vy * vy + vz * vz) in Hz, Hr
    by lra.
  rewrite Hr, Hx, Hy, Hz. reflexivity.
Qed.

Lemma Cartesian3_fromSpherical_normalize (v : Cartesian3) :
  let unit :=
    Cartesian3_fromSpherical
      (Spherical_normalize (Spherical_fromCartesian3 v)) in
  Cartesian3_multiplyByScalar unit (Cartesian3_magnitude v) = v
  /\ Cartesian3_magnitude unit = 1.
Proof.
  intros unit. split.
  - rewrite <- (fromSpherical_fromCartesian3 v) at 2.
    unfold unit, Cartesian3_fromSpherical, Cartesian3_multiplyByScalar,
      Spherical_normalize, Spherical_fromCartesian3,
      Cartesian3_magnitude, Cartesian3_magnitudeSquared.
    cbn [x y z clock cone magnitude]. f_equal; ring.
  - apply Cartesian3_fromSpherical_unit. reflexivity.
Qed.
End Polar.

Section DirectionData.
Open Scope R_scope.

(** The loop over a list of whole chunks of [step] numbers, from the end of
    the chunks read so far: one value per chunk. *)
Lemma processDirectionData_loop_pairs
    (make : option R -> option R -> option R -> Spherical R)
    (value : R -> R -> Spherical R) (tail : list R) :
  (forall a b c, make (Some a) (Some b) c = value a b) ->
  forall (chunks : list (R * R)) (remaining : nat) (read : list R)
         (values : list (Spherical R)),
    (length chunks + length tail <= remaining)%nat ->
    (length tail <= 1)%nat ->
    processDirectionData_loop remaining 2 make
      (read ++ concat (map (fun c => [c.1; c.2]) chunks) ++ tail)
      (length read) values
    = values ++ map (fun c => value c.1 c.2) chunks
      ++ match tail with
         | a :: _ => [make (Some a) None None]
         | [] => []
         end.
Proof.
  intros Hmake. induction chunks as [|[a b] chunks IH];
    intros remaining read values Hfuel Htail.
  - cbn [map concat app length] in *.
    destruct tail as [|t tail].
    + rewrite !app_nil_r. destruct remaining; cbn [processDirectionData_loop];
        [reflexivity|].
      rewrite (proj2 (Nat.ltb_ge _ _)) by lia. reflexivity.
    + destruct tail; [|cbn in Htail; lia].
      destruct remaining as [|remaining]; [cbn in Hfuel; lia|].
      cbn [processDirectionData_loop].
      rewrite (proj2 (Nat.ltb_lt _ _)) by (rewrite length_app; cbn; lia).
      rewrite lookup_app_r by lia. rewrite Nat.sub_diag. cbn [lookup].
      rewrite !(proj2 (lookup_ge_None _ _)) by (rewrite length_app; cbn; lia).
      change ([t] !! 0%nat) with (Some t).
      destruct remaining; cbn [processDirectionData_loop];
        [reflexivity|].
      rewrite (proj2 (Nat.ltb_ge _ _)) by (rewrite length_app; cbn; lia).
      reflexivity.
  - cbn [map concat app length fst snd] in *.
    destruct remaining as [|remaining]; [lia|].
    cbn [processDirectionData_loop].
    rewrite (proj2 (Nat.ltb_lt _ _)) by (rewrite length_app; cbn; lia).
    rewrite lookup_app_r by lia. rewrite Nat.sub_diag.
    change ((a :: b :: concat (map (fun c => [c.1; c.2]) chunks) ++ tail)
              !! 0%nat) with (Some a).
    rewrite (lookup_app_r read _ (length read + 1)) by lia.
    replace (length read + 1 - length read)%nat with 1%nat by lia.
    change ((a :: b :: concat (map (fun c => [c.1; c.2]) chunks) ++ tail)
              !! 1%nat) with (Some b).
    rewrite Hmake.
    replace (read ++ a :: b :: concat (map (fun c => [c.1; c.2]) chunks)
                  ++ tail)
      with ((read ++ [a; b])
            ++ concat (map (fun c => [c.1; c.2]) chunks) ++ tail)
      by (rewrite <- app_assoc; reflexivity).
    replace (length read + 2)%nat with (length (read ++ [a; b]))
      by (rewrite length_app; reflexivity).
    rewrite IH by lia. rewrite <- app_assoc. reflexivity.
Qed.

Lemma processDirectionData_loop_triples
    (make : option R -> option R -> option R -> Spherical R)
    (value : R -> R -> R -> Spherical R) :
  (forall a b c, make (Some a) (Some b) (Some c) = value a b c) ->
  forall (chunks : list (R * R * R)) (remaining : nat) (read : list R)
         (values : list (Spherical R)),
    (length chunks <= remaining)%nat ->
    processDirectionData_loop remaining 3 make
      (read ++ concat (map (fun c => [c.1.1; c.1.2; c.2]) chunks))
      (length read) values
    = values ++ map (fun c => value c.1.1 c.1.2 c.2) chunks.
Proof.
  intros Hmake. induction chunks as [|[[a b] c] chunks IH];
    intros remaining read values Hfuel.
  - cbn [map concat app length] in *. rewrite !app_nil_r.
    destruct remaining; cbn [processDirectionData_loop]; [reflexivity|].
    rewrite (proj2 (Nat.ltb_ge _ _)) by lia. reflexivity.
  - cbn [map concat app length fst snd] in *.
    destruct remaining as [|remaining]; [lia|].
    cbn [processDirectionData_loop].
    rewrite (proj2 (Nat.ltb_lt _ _)) by (rewrite length_app; cbn; lia).
    rewrite lookup_app_r by lia. rewrite Nat.sub_diag.
    rewrite (lookup_app_r read _ (length read + 1)) by lia.
    rewrite (lookup_app_r read _ (length read + 2)) by lia.
    replace (length read + 1 - length read)%nat with 1%nat by lia.
    replace (length read + 2 - length read)%nat with 2%nat by lia.
    cbn [lookup list_lookup]. rewrite Hmake.
    replace (read ++ a :: b :: c
                  :: concat (map (fun c => [c.1.1; c.1.2; c.2]) chunks))
      with ((read ++ [a; b; c])
            ++ concat (map (fun c => [c.1.1; c.1.2; c.2]) chunks))
      by (rewrite <- app_assoc; reflexivity).
    replace (length read + 3)%nat with (length (read ++ [a; b; c]))
      by (rewrite length_app; reflexivity).
    rewrite IH by lia. rewrite <- app_assoc. reflexivity.
Qed.
End DirectionData.

Section DirectionDataTheorems.
Open Scope R_scope.

Lemma length_concat_map {A : Type} (k : nat) (f : A -> list R) (l : list A) :
  (forall a, length (f a) = k) ->
  length (concat (map f l)) = (k * length l)%nat.
Proof.
  intros Hf. induction l as [|a l IH]; [cbn; lia|].
  cbn [map concat length]. rewrite length_app, Hf, IH. lia.
Qed.

Lemma unit_directions_rebuilt (directions : list (Spherical R)) :
  Forall (fun d => magnitude d = 1) directions ->
  map (fun d => mkSpherical (clock d) (cone d) 1) directions = directions.
Proof.
  induction 1 as [|d directions Hd _ IH]; [reflexivity|].
  cbn [map]. rewrite IH. destruct d as [c k m]. cbn in Hd. subst m.
  reflexivity.
Qed.

Lemma directions_rebuilt (directions : list (Spherical R)) :
  map (fun d => mkSpherical (clock d) (cone d) (magnitude d)) directions
  = directions.
Proof.
  induction directions as [|[c k m] directions IH]; [reflexivity|].
  cbn [map]. rewrite IH. reflexivity.
Qed.

(** X17.  Directions given in a CZML packet as spherical numbers come out as
    they went in.  A list of unit directions written as [unitSpherical]
    (clock, cone, clock, cone, ...) is read back as that list, whatever the
    other three forms hold ([unitSpherical] is looked at first); a clock
    angle left over at the end becomes a direction of cone angle 0.  A list
    written as [spherical] (clock, cone, magnitude, ...) is read back as that
    list.  A packet with none of the four forms is left without an
    [array]. *)
Theorem czml_spherical_directions_round_trip :
  (forall (directions : list (Spherical R)) (others : DirectionsPacket),
     Forall (fun d => magnitude d = 1) directions ->
     array (processDirectionData
              {| unitSpherical := Some (unitSphericalNumbers directions);
                 spherical := spherical others;
                 unitCartesian := unitCartesian others;
                 cartesian := cartesian others;
                 array := array others |})
     = Some directions)
  /\ (forall (directions : list (Spherical R)) (clock : R)
             (others : DirectionsPacket),
        Forall (fun d => magnitude d = 1) directions ->
        array (processDirectionData
                 {| unitSpherical :=
                      Some (unitSphericalNumbers directions ++ [clock]);
                    spherical := spherical others;
                    unitCartesian := unitCartesian others;
                    cartesian := cartesian others;
                    array := array others |})
        = Some (directions ++ [mkSpherical clock 0 1]))
  /\ (forall (directions : list (Spherical R)) (others : DirectionsPacket),
        array (processDirectionData
                 {| unitSpherical := None;
                    spherical := Some (sphericalNumbers directions);
                    unitCartesian := unitCartesian others;
                    cartesian := cartesian others;
                    array := array others |})
        = Some directions)
  /\ (forall previous : option (list (Spherical R)),
        processDirectionData
          {| unitSpherical := None; spherical := None; unitCartesian := None;
             cartesian := None; array := previous |}
        = {| unitSpherical := None; spherical := None; unitCartesian := None;
             cartesian := None; array := previous |}).
Proof.
  assert (Hunit : forall (directions : list (Spherical R)) (tail : list R),
            Forall (fun d => magnitude d = 1) directions ->
            (length tail <= 1)%nat ->
            processDirectionData_loop
              (length (unitSphericalNumbers directions ++ tail)) 2
              (fun clock cone _ => Spherical_new clock cone None)
              (unitSphericalNumbers directions ++ tail) 0 []
            = directions
              ++ match tail with
                 | a :: _ => [mkSpherical a 0 1]
                 | [] => []
                 end).
  { intros directions tail Hmagnitude Htail.
    assert (Hnumbers : unitSphericalNumbers directions
                       = concat (map (fun c : R * R => [c.1; c.2])
                                     (map (fun d => (clock d, cone d))
                                          directions))).
    { unfold unitSphericalNumbers. rewrite map_map. reflexivity. }
    rewrite Hnumbers.
    pose proof (processDirectionData_loop_pairs
                  (fun clock cone _ => Spherical_new clock cone None)
                  (fun a b => mkSpherical a b 1) tail
                  ltac:(reflexivity)
                  (map (fun d => (clock d, cone d)) directions)
                  (length (concat (map (fun c : R * R => [c.1; c.2])
                                       (map (fun d => (clock d, cone d))
                                            directions)) ++ tail))
                  [] []) as Hloop.
    cbn [app length] in Hloop. rewrite Hloop.
    - rewrite map_map. cbn [fst snd].
      rewrite unit_directions_rebuilt by exact Hmagnitude.
      destruct tail; reflexivity.
    - rewrite length_app, (length_concat_map 2) by reflexivity.
      rewrite length_map. lia.
    - exact Htail. }
  split.
  { intros directions others Hmagnitude. unfold processDirectionData.
    cbn [unitSpherical set_array array].
    specialize (Hunit directions [] Hmagnitude ltac:(cbn; lia)).
    rewrite !app_nil_r in Hunit. rewrite Hunit. reflexivity. }
  split.
  { intros directions clock others Hmagnitude. unfold processDirectionData.
    cbn [unitSpherical set_array array].
    rewrite (Hunit directions [clock] Hmagnitude ltac:(cbn; lia)).
    reflexivity. }
  split; [|reflexivity].
  intros directions others. unfold processDirectionData.
  cbn [unitSpherical spherical set_array array].
  assert (Hnumbers : sphericalNumbers directions
                     = concat (map (fun c : R * R * R => [c.1.1; c.1.2; c.2])
                                   (map (fun d => (clock d, cone d,
                                                   magnitude d))
                                        directions))).
  { unfold sphericalNumbers. rewrite map_map. reflexivity. }
  rewrite Hnumbers.
  pose proof (processDirectionData_loop_triples
                (fun clock cone magnitude =>
                   Spherical_new clock cone magnitude)
                (fun a b c => mkSpherical a b c)
                ltac:(reflexivity)
                (map (fun d => (clock d, cone d, magnitude d)) directions)
                (length (concat (map (fun c : R * R * R =>
                                        [c.1.1; c.1.2; c.2])
                                     (map (fun d => (clock d, cone d,
                                                     magnitude d))
                                          directions))))
                [] []) as Hloop.
  cbn [app length] in Hloop. rewrite Hloop.
  - rewrite map_map. cbn [fst snd]. rewrite directions_rebuilt.
    reflexivity.
  - rewrite (length_concat_map 3) by reflexivity. rewrite length_map. lia.
Qed.

(** X18.  Directions given in a CZML packet as Cartesian vectors keep their
    direction.  Written as [cartesian], every vector is turned into the
    spherical coordinates from which the mesher ([Cartesian3.fromSpherical])
    gets that very vector back.  Written as [unitCartesian], every vector is
    turned into a direction of magnitude 1 whose vector is of length 1 and,
    scaled by the length of the vector given, is the vector given.  (For the
    zero vector that leaves the direction open: in the program it is the +z
    or the -z axis by the sign of the zero in z, and the reals have one
    zero.) *)
Theorem czml_cartesian_directions_keep_their_direction :
  (forall (points : list Cartesian3) (previous : option (list (Spherical R))),
     exists directions : list (Spherical R),
       array (processDirectionData
                {| unitSpherical := None; spherical := None;
                   unitCartesian := None;
                   cartesian := Some (cartesianNumbers points);
                   array := previous |})
       = Some directions
       /\ map Cartesian3_fromSpherical directions = points)
  /\ (forall (points : list Cartesian3) (others : DirectionsPacket),
        exists directions : list (Spherical R),
          array (processDirectionData
                   {| unitSpherical := None; spherical := None;
                      unitCartesian := Some (cartesianNumbers points);
                      cartesian := cartesian others;
                      array := array others |})
          = Some directions
          /\ Forall2
               (fun point direction =>
                  let unit := Cartesian3_fromSpherical direction in
                  magnitude direction = 1
                  /\ Cartesian3_magnitude unit = 1
                  /\ Cartesian3_multiplyByScalar unit
                       (Cartesian3_magnitude point) = point)
               points directions).
Proof.
  assert (Hnumbers : forall points,
            cartesianNumbers points
            = concat (map (fun c : R * R * R => [c.1.1; c.1.2; c.2])
                          (map (fun p => (x p, y p, z p)) points))).
  { intros points. unfold cartesianNumbers. rewrite map_map. reflexivity. }
  split.
  - intros points previous. unfold processDirectionData.
    cbn [unitSpherical spherical unitCartesian cartesian set_array array].
    eexists. split; [reflexivity|].
    rewrite Hnumbers.
    pose proof (processDirectionData_loop_triples
                  (fun x y z =>
                     Spherical_fromCartesian3 (Cartesian3_new x y z))
                  (fun a b c => Spherical_fromCartesian3 (mkCartesian3 a b c))
                  ltac:(reflexivity)
                  (map (fun p => (x p, y p, z p)) points)
                  (length (concat (map (fun c : R * R * R =>
                                          [c.1.1; c.1.2; c.2])
                                       (map (fun p => (x p, y p, z p))
                                            points))))
                  [] []) as Hloop.
    cbn [app length] in Hloop. rewrite Hloop; clear Hloop.
    + rewrite !map_map. cbn [fst snd].
      induction points as [|[px py pz] points IH]; [reflexivity|].
      cbn [map x y z]. rewrite IH, fromSpherical_fromCartesian3. reflexivity.
    + rewrite (length_concat_map 3) by reflexivity. rewrite length_map. lia.
  - intros points others. unfold processDirectionData.
    cbn [unitSpherical spherical unitCartesian cartesian set_array array].
    eexists. split; [reflexivity|].
    rewrite Hnumbers.
    pose proof (processDirectionData_loop_triples
                  (fun x y z =>
                     let tmp :=
                       Spherical_fromCartesian3 (Cartesian3_new x y z) in
                     Spherical_normalize tmp)
                  (fun a b c =>
                     Spherical_normalize
                       (Spherical_fromCartesian3 (mkCartesian3 a b c)))
                  ltac:(reflexivity)
                  (map (fun p => (x p, y p, z p)) points)
                  (length (concat (map (fun c : R * R * R =>
                                          [c.1.1; c.1.2; c.2])
                                       (map (fun p => (x p, y p, z p))
                                            points))))
                  [] []) as Hloop.
    cbn [app length] in Hloop. rewrite Hloop; clear Hloop.
    + rewrite !map_map. cbn [fst snd].
      induction points as [|[px py pz] points IH]; constructor; [|exact IH].
      cbn [x y z].
      destruct (Cartesian3_fromSpherical_normalize (mkCartesian3 px py pz))
        as [Hscaled Hunit].
      split; [reflexivity|]. split; [exact Hunit|exact Hscaled].
    + rewrite (length_concat_map 3) by reflexivity. rewrite length_map. lia.
Qed.
End DirectionDataTheorems.

Lemma czml_spherical_directions_round_trip_witness :
  array (processDirectionData
           {| unitSpherical := Some (unitSphericalNumbers exampleDirections);
              spherical := None; unitCartesian := None; cartesian := None;
              array := None |})
  = Some exampleDirections.
Proof.
  apply (proj1 czml_spherical_directions_round_trip exampleDirections
           {| unitSpherical := None; spherical := None;
              unitCartesian := None; cartesian := None; array := None |}).
  repeat constructor.
Defined.

(** ** More on the ticks of the visualizers *)

Section TickAppearanceAll.
Context `{Cesium}.

(** X19.  What a tick copies to the primitive of an entity that is shown, for
    each of the three visualizers: [show] becomes true; radius, lateral
    surface material, intersection colour and intersection width become the
    values resolved at the time of the tick, with an infinite radius, white
    and width 1 (not the primitive's own default of 5) for properties that
    are undefined.  [showIntersection], [showThroughEllipsoid] and [id] of
    the primitive are never assigned by a tick. *)
Theorem tick_applies_appearance :
  (forall time graphics position orientation data primitive,
     appearanceApplied time
       (ConicSensorGraphics._radius graphics)
       (ConicSensorGraphics._lateralSurfaceMaterial graphics)
       (ConicSensorGraphics._intersectionColor graphics)
       (ConicSensorGraphics._intersectionWidth graphics)
       primitive
       (ConicSensorVisualizer_apply time graphics position orientation data
          primitive).2)
  /\ (forall time graphics position orientation directions data primitive,
        appearanceApplied time
          (CustomPatternSensorGraphics._radius graphics)
          (CustomPatternSensorGraphics._lateralSurfaceMaterial graphics)
          (CustomPatternSensorGraphics._intersectionColor graphics)
          (CustomPatternSensorGraphics._intersectionWidth graphics)
          primitive
          (CustomPatternSensorVisualizer_apply time graphics position
             orientation directions data primitive).2)
  /\ (forall time graphics position orientation data primitive data'
             primitive',
        RectangularSensorVisualizer_apply time graphics position orientation
          data primitive = Normal (data', primitive') ->
        appearanceApplied time
          (RectangularSensorGraphics._radius graphics)
          (RectangularSensorGraphics._lateralSurfaceMaterial graphics)
          (RectangularSensorGraphics._intersectionColor graphics)
          (RectangularSensorGraphics._intersectionWidth graphics)
          (RectangularPyramidSensorVolume._customSensor primitive)
          (RectangularPyramidSensorVolume._customSensor primitive')).
Proof.
  split; [|split].
  - intros time graphics position orientation data primitive.
    unfold ConicSensorVisualizer_apply, applyPose.
    destruct (negb (Cartesian3_equals _ _) || _); cbn [fst snd];
      destruct (differs _ _ || _ || _ || _); cbn [fst snd];
      repeat split.
  - intros time graphics position orientation directions data primitive.
    unfold CustomPatternSensorVisualizer_apply, applyPose.
    destruct (negb (Cartesian3_equals _ _) || _); cbn [fst snd];
      repeat split.
  - intros time graphics position orientation data primitive data' primitive'.
    unfold RectangularSensorVisualizer_apply, applyPose.
    destruct (negb (Cartesian3_equals _ _) || _); cbn zeta;
      (destruct (RectangularPyramidSensorVolume.set_xHalfAngle _ _)
         as [r1|] eqn:Hx; [|discriminate]);
      cbn [bind];
      (destruct (RectangularPyramidSensorVolume.set_yHalfAngle _ r1)
         as [r2|] eqn:Hy; [|discriminate]);
      cbn [bind]; intros [= <- <-];
      unfold RectangularPyramidSensorVolume.set_xHalfAngle in Hx;
      unfold RectangularPyramidSensorVolume.set_yHalfAngle in Hy;
      destruct (Rltb _ _) in Hx; try discriminate;
      destruct (Rltb _ _) in Hy; try discriminate;
      destruct (negb _) in Hx; injection Hx as <-;
      destruct (negb _) in Hy; injection Hy as <-;
      repeat split.
Qed.
End TickAppearanceAll.

Section HiddenEntities.
Context `{Cesium}.
Implicit Types (state : Visualizer.t * World.t CustomSensorVolume.t)
  (world : World.t CustomSensorVolume.t) (entity : Entity.t).

Lemma onlyHidden_refl world : onlyHidden world world.
Proof. repeat split. intros h. left. reflexivity. Qed.

Lemma set_show_false_twice (p : CustomSensorVolume.t) :
  CustomSensorVolume.set_show false (CustomSensorVolume.set_show false p)
  = CustomSensorVolume.set_show false p.
Proof. reflexivity. Qed.

Lemma onlyHidden_trans world1 world2 world3 :
  onlyHidden world1 world2 -> onlyHidden world2 world3 ->
  onlyHidden world1 world3.
Proof.
  intros (Hp & Hn & Hc & Hd & Ho) (Hp' & Hn' & Hc' & Hd' & Ho').
  split; [congruence|]. split; [congruence|]. split; [congruence|].
  split; [congruence|].
  intros h. destruct (Ho' h) as [Hsame'|(p' & Hp2 & Hp3)];
    destruct (Ho h) as [Hsame|(p & Hp1 & Hp2')].
  - left. congruence.
  - right. exists p. split; [exact Hp1|congruence].
  - right. exists p'. split; [congruence|exact Hp3].
  - right. exists p. split; [exact Hp1|].
    rewrite Hp3. assert (p' = CustomSensorVolume.set_show false p)
      by congruence. subst p'. reflexivity.
Qed.

Lemma hide_onlyHidden (data : option Data.t) world :
  onlyHidden world (hide data world)
  /\ forall d p, data = Some d ->
       World.objects world !! Data.primitive d = Some p ->
       World.objects (hide data world) !! Data.primitive d
       = Some (CustomSensorVolume.set_show false p).
Proof.
  unfold hide, World.assign. destruct data as [d|].
  2:{ split; [apply onlyHidden_refl|discriminate]. }
  destruct (World.objects world !! Data.primitive d) as [p|] eqn:Hobj.
  - split.
    + repeat split. intros h. cbn.
      destruct (decide (Data.primitive d = h)) as [<-|Hne].
      * right. exists p. split; [exact Hobj|apply lookup_insert_eq].
      * left. apply lookup_insert_ne. exact Hne.
    + intros d' p' [= <-] Hp'. cbn. rewrite lookup_insert_eq. congruence.
  - split; [apply onlyHidden_refl|]. intros d' p' [= <-] Hp'. congruence.
Qed.

Lemma onlyHidden_stays_hidden world world' h p :
  onlyHidden world world' ->
  World.objects world !! h = Some (CustomSensorVolume.set_show false p) ->
  World.objects world' !! h = Some (CustomSensorVolume.set_show false p).
Proof.
  intros (_ & _ & _ & _ & Ho) Hobj.
  destruct (Ho h) as [Hsame|(q & Hq & Hq')]; [congruence|].
  rewrite Hq'. assert (q = CustomSensorVolume.set_show false p) by congruence.
  subst q. reflexivity.
Qed.

Lemma hidden_loop time entities : forall state,
  (forall entity, entity ∈ entities ->
     exists graphics,
       Entity._conicSensor entity = Some graphics
       /\ resolvePose time entity (ConicSensorGraphics._show graphics)
          = None) ->
  exists world',
    updateEntities
      (fun entity state =>
         match Entity._conicSensor entity with
         | Some conicSensorGraphics =>
             match resolvePose time entity
                     (ConicSensorGraphics._show conicSensorGraphics) with
             | Some (position, orientation) =>
                 updateEntity CustomSensorVolume.new
                   (fun data primitive =>
                      Normal (ConicSensorVisualizer_apply time
                                conicSensorGraphics position orientation
                                data primitive))
                   true entity state
             | None =>
                 updateEntity CustomSensorVolume.new
                   (fun data primitive => Normal (data, primitive))
                   false entity state
             end
         | None => Throw TypeError
         end)
      entities state
    = Normal (state.1, world')
    /\ onlyHidden state.2 world'
    /\ forall entity data p,
         entity ∈ entities ->
         Visualizer._hash state.1 !! Entity.id entity = Some data ->
         World.objects state.2 !! Data.primitive data = Some p ->
         World.objects world' !! Data.primitive data
         = Some (CustomSensorVolume.set_show false p).
Proof.
  induction entities as [|entity entities IH]; intros state Hhidden.
  - exists state.2. cbn [updateEntities]. destruct state.
    split; [reflexivity|]. split; [apply onlyHidden_refl|].
    intros e d p Hin. apply elem_of_nil in Hin. contradiction.
  - cbn [updateEntities].
    destruct (Hhidden entity ltac:(left)) as (graphics & Hg & Hpose).
    rewrite Hg, Hpose. unfold updateEntity at 1. cbn [bind].
    destruct (hide_onlyHidden
                (Visualizer._hash state.1 !! Entity.id entity) state.2)
      as [Hstep Hshown].
    set (world1 := hide _ state.2) in *.
    destruct (IH (state.1, world1)
                (fun e Hin => Hhidden e ltac:(right; exact Hin)))
      as (world' & Hrun & Hrest & Hall).
    cbn [fst snd] in Hrun, Hrest, Hall.
    exists world'. split; [exact Hrun|].
    split; [eapply onlyHidden_trans; eassumption|].
    intros e d p Hin Hd Hp. apply elem_of_cons in Hin as [->|Hin].
    + eapply onlyHidden_stays_hidden; [exact Hrest|].
      apply (Hshown d p); [exact Hd|exact Hp].
    + destruct Hstep as (_ & _ & _ & _ & Ho).
      destruct (Ho (Data.primitive d)) as [Hsame|(q & Hq & Hq')].
      * apply (Hall e d p Hin Hd). congruence.
      * assert (q = p) by congruence. subst q.
        pose proof (Hall e d _ Hin Hd Hq') as Hfinal.
        rewrite Hfinal. reflexivity.
Qed.

(** X20.  Entities that are not to be shown get no primitive.  When, at the
    time of the update, no tracked entity of the conic visualizer resolves
    to a pose (the entity is not showing or not available, its sensor's
    [show] is false, or its position or orientation is undefined), the
    update returns, leaves the visualizer's own state as it is and creates,
    removes and destroys nothing: all it does is set [show] to false on the
    primitives that tracked entities already have. *)
Theorem hidden_entities_get_no_primitive :
  forall (time : JulianDate)
         (state : Visualizer.t * World.t CustomSensorVolume.t),
    (forall entity,
       entity ∈ AssociativeArray.values
                  (Visualizer._entitiesToVisualize state.1) ->
       exists graphics,
         Entity._conicSensor entity = Some graphics
         /\ resolvePose time entity (ConicSensorGraphics._show graphics)
            = None) ->
    exists world' : World.t CustomSensorVolume.t,
      ConicSensorVisualizer_update time state = Normal (state.1, world')
      /\ onlyHidden state.2 world'
      /\ forall entity data p,
           entity ∈ AssociativeArray.values
                      (Visualizer._entitiesToVisualize state.1) ->
           Visualizer._hash state.1 !! Entity.id entity = Some data ->
           World.objects state.2 !! Data.primitive data = Some p ->
           World.objects world' !! Data.primitive data
           = Some (CustomSensorVolume.set_show false p).
Proof.
  intros time state Hhidden. unfold ConicSensorVisualizer_update.
  apply hidden_loop. exact Hhidden.
Qed.
End HiddenEntities.

Lemma hidden_entities_get_no_primitive_witness :
  exists world' : World.t (CustomSensorVolume.t (H := example_Cesium)),
    ConicSensorVisualizer_update exampleTime hiddenTracking
    = Normal (hiddenTracking.1, world')
    /\ World.primitives world' = [0]
    /\ World.objects world' !! 0
       = Some (CustomSensorVolume.set_show false CustomSensorVolume.new).
Proof.
  destruct (hidden_entities_get_no_primitive (H := example_Cesium)
              exampleTime hiddenTracking)
    as (world' & Hupdate & (Hprimitives & _) & Hshown).
  - intros entity Hin. apply list_elem_of_singleton in Hin. subst entity.
    exists exampleConicGraphics. split; reflexivity.
  - exists world'. split; [exact Hupdate|]. split; [exact Hprimitives|].
    apply (Hshown hiddenEntity exampleData CustomSensorVolume.new).
    + apply list_elem_of_singleton. reflexivity.
    + apply lookup_singleton_eq.
    + apply lookup_singleton_eq.
Defined.

(** ** The graphics objects: [merge] and [clone] *)

Section GraphicsObjects.
Context `{Cesium}.

Lemma defaultValue_undefined {A : Type} (a : option A) :
  defaultValue a None = a.
Proof. destruct a; reflexivity. Qed.

Lemma defaultValue_assoc {A : Type} (a b c : option A) :
  defaultValue (defaultValue a b) c = defaultValue a (defaultValue b c).
Proof. destruct a; reflexivity. Qed.

Lemma defaultValue_twice {A : Type} (a b : option A) :
  defaultValue (defaultValue a b) b = defaultValue a b.
Proof. destruct a, b; reflexivity. Qed.

(** X21.  [merge] on the three graphics classes.  Without a source it throws
    'source is required.'.  With one, every property that is defined stays
    and every property that is undefined takes the value of the source, so:
    merging a source that defines nothing changes nothing; merging into an
    object that defines nothing gives the properties of the source; merging
    the same source again changes nothing; and merging [a] and then [b] is
    merging [a] after [b] was merged into it (an earlier source wins over a
    later one).  [clone] gives an object with the properties of [this],
    whatever the result object held. *)
Theorem graphics_merge_laws :
  (forall this a b : ConicSensorGraphicsObject.t,
     ConicSensorGraphicsObject.merge None this
     = Throw (DeveloperError "source is required.")
     /\ ConicSensorGraphicsObject.merge
          (Some ConicSensorGraphicsObject.empty) this = Normal this
     /\ ConicSensorGraphicsObject.merge (Some a)
          ConicSensorGraphicsObject.empty = Normal a
     /\ bind (ConicSensorGraphicsObject.merge (Some a) this)
             (ConicSensorGraphicsObject.merge (Some a))
        = ConicSensorGraphicsObject.merge (Some a) this
     /\ bind (ConicSensorGraphicsObject.merge (Some a) this)
             (ConicSensorGraphicsObject.merge (Some b))
        = bind (ConicSensorGraphicsObject.merge (Some b) a)
               (fun source =>
                  ConicSensorGraphicsObject.merge (Some source) this)
     /\ forall result, ConicSensorGraphicsObject.clone result this = this)
  /\ (forall this a b : CustomPatternSensorGraphicsObject.t,
        CustomPatternSensorGraphicsObject.merge None this
        = Throw (DeveloperError "source is required.")
        /\ CustomPatternSensorGraphicsObject.merge
             (Some CustomPatternSensorGraphicsObject.empty) this
           = Normal this
        /\ CustomPatternSensorGraphicsObject.merge (Some a)
             CustomPatternSensorGraphicsObject.empty = Normal a
        /\ bind (CustomPatternSensorGraphicsObject.merge (Some a) this)
                (CustomPatternSensorGraphicsObject.merge (Some a))
           = CustomPatternSensorGraphicsObject.merge (Some a) this
        /\ bind (CustomPatternSensorGraphicsObject.merge (Some a) this)
                (CustomPatternSensorGraphicsObject.merge (Some b))
           = bind (CustomPatternSensorGraphicsObject.merge (Some b) a)
                  (fun source =>
                     CustomPatternSensorGraphicsObject.merge (Some source)
                       this)
        /\ forall result,
             CustomPatternSensorGraphicsObject.clone result this = this)
  /\ (forall this a b : RectangularSensorGraphicsObject.t,
        RectangularSensorGraphicsObject.merge None this
        = Throw (DeveloperError "source is required.")
        /\ RectangularSensorGraphicsObject.merge
             (Some RectangularSensorGraphicsObject.empty) this
           = Normal this
        /\ RectangularSensorGraphicsObject.merge (Some a)
             RectangularSensorGraphicsObject.empty = Normal a
        /\ bind (RectangularSensorGraphicsObject.merge (Some a) this)
                (RectangularSensorGraphicsObject.merge (Some a))
           = RectangularSensorGraphicsObject.merge (Some a) this
        /\ bind (RectangularSensorGraphicsObject.merge (Some a) this)
                (RectangularSensorGraphicsObject.merge (Some b))
           = bind (RectangularSensorGraphicsObject.merge (Some b) a)
                  (fun source =>
                     RectangularSensorGraphicsObject.merge (Some source)
                       this)
        /\ forall result,
             RectangularSensorGraphicsObject.clone result this = this).
Proof.
  split; [|split].
  - intros [[] ?] [[] ?] [[] ?]. split; [reflexivity|].
    split; [cbn; rewrite !defaultValue_undefined; reflexivity|].
    split; [reflexivity|].
    split; [cbn; rewrite !defaultValue_twice; reflexivity|].
    split; [cbn; rewrite !defaultValue_assoc; reflexivity|].
    reflexivity.
  - intros [[] ?] [[] ?] [[] ?]. split; [reflexivity|].
    split; [cbn; rewrite !defaultValue_undefined; reflexivity|].
    split; [reflexivity|].
    split; [cbn; rewrite !defaultValue_twice; reflexivity|].
    split; [cbn; rewrite !defaultValue_assoc; reflexivity|].
    reflexivity.
  - intros [[] ?] [[] ?] [[] ?]. split; [reflexivity|].
    split; [cbn; rewrite !defaultValue_undefined; reflexivity|].
    split; [reflexivity|].
    split; [cbn; rewrite !defaultValue_twice; reflexivity|].
    split; [cbn; rewrite !defaultValue_assoc; reflexivity|].
    reflexivity.
Qed.
End GraphicsObjects.

(** ** The shader functions *)

Section ShaderFunctions.
Open Scope R_scope.

Lemma floor_unique (v : R) (k : Z) : IZR k <= v < IZR k + 1 -> floor v = IZR k.
Proof.
  intros [Hle Hlt]. unfold floor. f_equal. symmetry.
  apply Int_part_spec. lra.
Qed.

Lemma Math_atan2_full_range (y x : R) : - PI < Math_atan2 y x <= PI.
Proof.
  unfold Math_atan2. pose proof PI_RGT_0 as Hpi.
  pose proof (atan_bound (y / x)) as Hb.
  destruct (Rlt_dec 0 x) as [Hx|Hx]; [lra|].
  destruct (Rlt_dec x 0) as [Hx'|Hx'].
  - destruct (Rle_dec 0 y) as [Hy|Hy].
    + assert (Hq : y / x <= 0).
      { pose proof (Rinv_lt_0_compat x Hx') as Hinv. unfold Rdiv. nra. }
      assert (atan (y / x) <= 0).
      { destruct (Req_dec (y / x) 0) as [->|Hne]; [rewrite atan_0; lra|].
        rewrite <- atan_0. apply Rlt_le, atan_increasing. lra. }
      lra.
    + assert (Hq : 0 < y / x).
      { replace (y / x) with ((- y) / (- x)) by (field; lra).
        apply Rdiv_lt_0_compat; lra. }
      assert (0 < atan (y / x)).
      { rewrite <- atan_0. apply atan_increasing. exact Hq. }
      lra.
  - destruct (Rlt_dec 0 y); [lra|]. destruct (Rlt_dec y 0); lra.
Qed.

(** X22.  The texture coordinates of a point of the sensor volume: [t] is the
    height of the point over the sensor radius, and [s] is the clock angle
    of the point as a fraction of the full circle, always in [0, 1): the
    angle over [2 * PI] when the angle is not negative and one more than
    that when it is. *)
Theorem sensor2dTextureCoordinates_range :
  forall (sensorRadius : R) (pointMC : Cartesian3),
    let angle := Math_atan2 (y pointMC) (x pointMC) in
    let st := sensor2dTextureCoordinates sensorRadius pointMC in
    0 <= st.1 < 1
    /\ st.2 = z pointMC / sensorRadius
    /\ st.1 = (if Rle_dec 0 angle then angle / (2 * PI)
               else 1 + angle / (2 * PI)).
Proof.
  intros sensorRadius pointMC angle st.
  pose proof (Math_atan2_full_range (y pointMC) (x pointMC)) as Hrange.
  fold angle in Hrange. pose proof PI_RGT_0 as Hpi.
  unfold st, sensor2dTextureCoordinates. cbn [fst snd]. fold angle.
  assert (Hfrac : - / 2 < angle / (2 * PI) <= / 2).
  { split.
    - apply (Rmult_lt_reg_r (2 * PI)); [lra|]. field_simplify; lra.
    - apply (Rmult_le_reg_r (2 * PI)); [lra|]. field_simplify; lra. }
  destruct (Rle_dec 0 angle) as [Hpos|Hneg].
  - assert (0 <= angle / (2 * PI)).
    { apply Rmult_le_pos; [exact Hpos|]. apply Rlt_le, Rinv_0_lt_compat. lra. }
    rewrite (floor_unique (1 + angle / (2 * PI)) 1) by lra.
    split; [lra|]. split; [reflexivity|]. lra.
  - assert (angle / (2 * PI) < 0).
    { apply (Rmult_lt_reg_r (2 * PI)); [lra|]. field_simplify; lra. }
    rewrite (floor_unique (1 + angle / (2 * PI)) 0) by lra.
    split; [lra|]. split; [reflexivity|]. lra.
Qed.
End ShaderFunctions.

(** ** More on the collection changes *)

Section RemoveTwice.
Context `{Cesium} {P : Type} `{!SensorPrimitive P}.

(** X23.  [removePrimitive] can be repeated: after it the entity has no
    entry, and a second call for the same entity (or a call for an entity
    that never had an entry) changes neither the hash nor the scene, so no
    primitive is removed or destroyed twice. *)
Theorem removePrimitive_twice :
  forall (entity : Entity.t) (hash : gmap string Data.t) (world : World.t P),
    let once := removePrimitive entity hash world in
    once.1 !! Entity.id entity = None
    /\ removePrimitive entity once.1 once.2 = once
    /\ (hash !! Entity.id entity = None -> once = (hash, world)).
Proof.
  intros entity hash world once.
  pose proof (removePrimitive_frame entity hash world) as (Hhash & _).
  fold once in Hhash.
  assert (Hnone : once.1 !! Entity.id entity = None)
    by (rewrite Hhash; apply lookup_delete_eq).
  split; [exact Hnone|]. split.
  - unfold removePrimitive at 1. rewrite Hnone. destruct once; reflexivity.
  - intros Hmissing. unfold once, removePrimitive. rewrite Hmissing.
    reflexivity.
Qed.
End RemoveTwice.

Section CollectionOrder.
Context `{Cesium} {P : Type} `{!SensorPrimitive P}.
Implicit Types (state : Visualizer.t * World.t P)
  (entity : Entity.t) (id : string).

Lemma onAdded_tracks complete state entity id :
  tracked id state.1 \/ (Entity.id entity = id /\ complete entity = true) ->
  tracked id (onAdded complete state entity).1.
Proof.
  unfold onAdded, tracked. destruct state as [this world]. cbn [fst].
  intros [Ht|[Hid Hc]].
  - destruct (complete entity); [|exact Ht]. cbn.
    apply AssociativeArray_keys_set. right. exact Ht.
  - rewrite Hc. cbn. apply AssociativeArray_keys_set. left. congruence.
Qed.

Lemma onRemoved_tracks state entity id :
  Entity.id entity <> id -> tracked id state.1 ->
  tracked id (onRemoved state entity).1.
Proof.
  unfold onRemoved, tracked. destruct state as [this world].
  destruct (removePrimitive entity (Visualizer._hash this) world).
  cbn [fst snd Visualizer._entitiesToVisualize
       Visualizer.set__entitiesToVisualize Visualizer.set__hash].
  intros Hne Ht. apply AssociativeArray_keys_remove. split; [congruence|exact Ht].
Qed.

Lemma foldl_onAdded_tracks complete id entities : forall state,
  tracked id state.1
  \/ (exists entity, entity ∈ entities /\ Entity.id entity = id
                     /\ complete entity = true) ->
  tracked id (foldl (onAdded complete) state entities).1.
Proof.
  induction entities as [|e es IH]; intros state Hs.
  - destruct Hs as [Ht|(e & Hin & _)]; [exact Ht|].
    apply elem_of_nil in Hin. contradiction.
  - cbn [foldl]. apply IH. destruct Hs as [Ht|(e0 & Hin & Hid & Hc)].
    + left. apply onAdded_tracks. left. exact Ht.
    + apply elem_of_cons in Hin as [->|Hin].
      * left. apply onAdded_tracks. right. auto.
      * right. exists e0. auto.
Qed.

Lemma foldl_onChanged_tracks complete id entities : forall state,
  Forall (fun e => Entity.id e <> id \/ complete e = true) entities ->
  tracked id state.1 ->
  tracked id (foldl (onChanged complete) state entities).1.
Proof.
  induction entities as [|e es IH]; intros state Hall Ht; [exact Ht|].
  apply Forall_cons in Hall as [He Hall]. cbn [foldl]. apply IH; [exact Hall|].
  unfold onChanged. destruct (complete e) eqn:Hc.
  - apply onAdded_tracks. left. exact Ht.
  - destruct He as [Hne|Habs]; [|congruence].
    apply onRemoved_tracks; assumption.
Qed.

Lemma foldl_onRemoved_tracks id entities : forall state,
  Forall (fun e => Entity.id e <> id) entities ->
  tracked id state.1 ->
  tracked id (foldl onRemoved state entities).1.
Proof.
  induction entities as [|e es IH]; intros state Hall Ht; [exact Ht|].
  apply Forall_cons in Hall as [He Hall]. cbn [foldl]. apply IH; [exact Hall|].
  apply onRemoved_tracks; assumption.
Qed.

(** X24.  One collection change, with an entity in more than one of its
    lists.  The removed list is walked last, so an entity in it ends up
    untracked and without an entry even when the same change lists it as
    added or changed.  An entity that is added complete (sensor, position
    and orientation defined) ends up tracked unless the change also removes
    it or lists an entity of its id as changed and incomplete. *)
Theorem collection_change_removed_wins :
  forall (complete : Entity.t -> bool)
         (added removed changed : list Entity.t)
         (state : Visualizer.t * World.t P)
         (entity : Entity.t),
    let state' := onCollectionChanged complete added removed changed state in
    (entity ∈ removed ->
     ~ tracked (Entity.id entity) state'.1
     /\ Visualizer._hash state'.1 !! Entity.id entity = None)
    /\ (entity ∈ added -> complete entity = true ->
        Forall (fun e => Entity.id e <> Entity.id entity) removed ->
        Forall (fun e => Entity.id e <> Entity.id entity
                         \/ complete e = true) changed ->
        tracked (Entity.id entity) state'.1).
Proof.
  intros complete added removed changed state entity state'. split.
  - intros Hremoved.
    apply (onCollectionChanged_removes complete added removed changed state
             entity Hremoved).
  - intros Hadded Hcomplete Hremoved Hchanged.
    unfold state', onCollectionChanged.
    apply foldl_onRemoved_tracks; [apply Forall_reverse; exact Hremoved|].
    apply foldl_onChanged_tracks; [apply Forall_reverse; exact Hchanged|].
    apply foldl_onAdded_tracks. right. exists entity.
    split; [apply elem_of_reverse; exact Hadded|]. auto.
Qed.
End CollectionOrder.

Lemma collection_change_removed_wins_witness :
  Visualizer._hash
    (onCollectionChanged (H := example_Cesium) ConicSensorVisualizer_complete
       [exampleEntity] [exampleEntity] [exampleEntity] exampleTracking).1
    !! "E" = None.
Proof.
  apply (proj1 (collection_change_removed_wins (H := example_Cesium)
                  ConicSensorVisualizer_complete
                  [exampleEntity] [exampleEntity] [exampleEntity]
                  exampleTracking exampleEntity)).
  apply list_elem_of_singleton. reflexivity.
Defined.
